(* ===== verification/_CoqProject ===== *)
-Q . S2P
Prelude.v
Varint.v
Compare.v
Search.v
Leaf.v
Node.v
Cache.v
Codec.v
CbList.v
CbCodec.v
CbStr.v
CbSort.v
CbQsort.v
CbHsort.v
CbMapSer.v
CbMapOps.v
CbSplit.v
CbCsv.v
CbXml.v
CbUrl.v
CbMime.v
CbMimeBreak.v
SuffixArray.v
RubyRt.v
OdeumApi.v
OdeumRs.v
OdeumIndex.v
Villa.v
Engine.v
Cursor.v
Tran.v
Scenarios.v
