(* ===== verification/Prelude.v ===== *)
(** * A verification development for Villa, the B+ tree database of QDBM

    The program is the ordered key/value store Villa
    (src/ext/odeum_index/villa.c, villa.h), built on the hashed store Depot
    and on the list and map utilities of Cabin (src/ext/odeum_index/cabin.c).
    Villa keeps a B+ tree whose pages are stored as Depot records: leaves
    (ids from [VL_LEAFIDMIN] = 1) hold sorted records with duplicate values,
    nodes (ids from [VL_NODEIDMIN] = 100000000) hold a leftmost "heir" child
    and a sorted list of (child, separator key) indexes.  Pages are cached in
    two insertion-ordered Cabin maps (CBMAP) and written back on eviction,
    transaction boundaries and close.  Page bodies are serialized with a
    base-128 variable-length integer codec.

    ** Files, and the part of the code each one models

    - [Prelude] (this file): bytes as [Z] in [0,256), the C [signed char]
      view of a byte, the 32-bit [int] range, C's truncating division, the
      hint database [vl] and the list lemmas the other files share.
    - [Varint]: [vlsetvnumbuf] and [vlreadvnumbuf] (villa.c 1300-1344),
      the byte codec of every length and page id in a serialized page.
      Theorems: decoding an encoding returns the number and the number of
      bytes written, whatever follows it (round trip); encodings of C ints
      take 1 to 5 bytes; every byte but the last has the sign bit set.
    - [Compare]: the comparison functions [vllexcompare], [vlintcompare],
      [vlnumcompare] (villa.c 1204-1256) and the laws a comparator must obey
      (the class [Comparator]).  [vllexcompare] is proved to be one;
      [vlintcompare] is proved NOT to be one, because [anum - bnum]
      overflows; [vlnumcompare] reads [char] as signed and so mis-orders
      big-endian numbers whose bytes have the top bit set.
    - [Search]: the three searches of villa.c over a sorted page — the
      binary narrowing loop shared by [vlleafaddrec], [vlnodeaddidx],
      [vlsearchleaf] and [vlrecsearch], followed by the linear confirmation
      scan — proved equal to plain linear reference searches on every
      strictly sorted page (equivalence), with the loop's fuel
      ([length + 1]) proved sufficient (termination).
    - [Leaf]: records ([VLREC]) and leaves ([VLLEAF]); [vlrecsearch],
      [vlleafaddrec] in its three duplicate modes and the record removal
      of [vlout].  Theorems: [vlleafaddrec] equals a reference sorted
      insertion, keeps records strictly sorted and moves the record count
      as [villa->rnum] does; [vlrecsearch] equals a linear search.
    - [Node]: index entries ([VLIDX]) and nodes ([VLNODE]); [vlnodeaddidx],
      the node split performed inside [vlput] and the child selection of
      [vlsearchleaf].  Theorems: both equal linear references on sorted
      nodes; the split partitions an odd number of entries around the
      promoted key and would lose one on an even number.
    - [Cache]: the insertion-ordered map of cabin.c ([cbmapput],
      [cbmapget], [cbmapout], [cbmapmove], iteration order, [cbmaprnum]) as
      the association list of its linked entries, with at most one entry
      per key, and the laws of each operation.  The key type is a
      parameter with its equality test (the class [KeyEq]): [int] page ids
      for the caches of Villa, byte strings compared as [cbkeycmp] does
      for the maps of Cabin.
    - [Codec]: the page buffers of [vlleafsave] and [vlnodesave] and the
      parsers of [vlleafload] and [vlnodeload], with the read pointer as an
      offset into the buffer so that reads outside it are visible.
      Theorems: loading a saved well-formed page gives it back (round
      trip); a leaf id at or above [VL_NODEIDMIN - 1] loses its links; a
      three-byte corrupt page makes [vlleafload] read before its buffer,
      and another makes it loop forever.
    - [CbList]: the Cabin handles [CBDATUM] (a growable byte buffer:
      [cbdatumopen], [cbdatumcat], [cbdatumsetsize], ...) and [CBLIST] (an
      array of byte strings whose live slots run from [start] to [start +
      num], with [cblistpush], [cblistpop], [cblistunshift], [cblistshift],
      [cblistinsert], [cblistremove], [cblistover] as slot writes and
      memmoves), their serialization [cblistdump] / [cblistload] and the
      searches [cblistlsearch] / [cblistbsearch] (cabin.c 255-720).
      Theorems: every sequence of list operations keeps the array well
      formed and acts as the same operations on a plain list (refinement);
      loading a dump gives the list back (round trip); [cblistload] reads
      past its region on a 4-byte input; [cblistbsearch] finds an element
      exactly when one is equal on a list sorted in the signed-[char] order
      of [cblistelemcmp], which is not the lexical order the header
      promises.  A read of C code over a memory region returns a [cres]:
      a result, [COob] for an access outside the region or the allocation,
      or [CAbort] for a failed [assert].
    - [CbCodec]: the text encoders of cabin.c 1483-1717 and 1999-2229
      ([cburlencode] / [cburldecode], [cbbaseencode] / [cbbasedecode],
      [cbquoteencode] / [cbquotedecode], [cbcsvescape] / [cbcsvunescape],
      [cbxmlescape] / [cbxmlunescape]); each decoder runs over the memory
      from the string pointer, so that it may read past the terminator.
      Theorems: each decoder inverts its encoder (round trips); on short
      inputs [cburldecode] reads past the string and [cbbasedecode] and
      [cbcsvunescape] write past the buffer they allocate; the int [size *
      3 + 1] [cburlencode] allocates overflows from [size] = 715827883.
    - [CbStr]: the string helpers of cabin.c 221-366 ([cbstricmp],
      [cbstrfwimatch], [cbstrbwmatch], [cbstrbwimatch], [cbstrtoupper],
      [cbstrtolower], [cbstrtrim], [cbstrsqzspc]) over the memory from the
      string pointer, the in-place writes of the last four included.
      Theorems: [cbstricmp] has the sign of [vllexcompare] on the
      lower-case strings; [cbstrfwimatch] is [cbstrfwmatch] on what
      [cbstrtolower] writes; [cbstrbwmatch] tests for a suffix but reads
      the byte before the string when the string is a proper suffix of the
      key; [cbstrtrim] and [cbstrsqzspc] leave the trimmed (squeezed)
      string and do not touch the memory after it.
    - [CbSort]: [cbisort] and [cbssort] (cabin.c 116-160) on an array
      written slot by slot, for every comparison with the laws of the
      class [SortOrder] (antisymmetric sign, transitive [<= 0]), which
      every [Comparator] has.  Theorems: both return a sorted permutation
      of their input; the shell sort's last pass has gap 1 and is the
      insertion sort.
    - [CbQsort]: [cbqsort] and its recursion [cbqsortsub] (cabin.c 209-217,
      2731-2759) and [cblistsort] (cabin.c 624-627).  Theorems: the
      partition loop keeps an invariant under which [top] stays below
      [nmemb] and [bottom] above -1, so the recursion ends within its fuel;
      the result is a sorted permutation; [cblistsort] sorts the live
      slots for [cblistelemcmp] (an instance of [SortOrder]), after which
      [cblistbsearch] finds exactly the elements of the list.
    - [CbHsort]: [cbhsort] (cabin.c 164-206), its heap laid out from slot
      0 with the children of [k] at [2k] and [2k + 1] (slot 0 has the one
      child 1): the sift loop [hsift], the loop that builds the heap
      [hbuild] and the one that takes it apart [hdrain].  Theorems: the
      sift restores the heap order with only the slot it starts at out of
      order ([hpx]), the first slot of a heap holds its greatest element,
      and so every loop ends within its fuel and the result is a sorted
      permutation.
    - [CbMapSer]: [cbmapkeys], [cbmapvals], [cbmapdump] and [cbmapload]
      (cabin.c 1054-1146) on maps keyed by byte strings.  Theorems:
      loading a dump gives the map back with its iteration order (round
      trip); every loaded map has one entry per key; the key and value
      lists are the map's in iteration order; like [cblistload], the load
      loop never takes the key and value sizes off [size] and copies bytes
      past its region on a 4-byte input.
    - [CbMapOps]: [cbmapputcat], [cbmapputvbuf] and [cbmapdup] (cabin.c
      714-727, 806-862, 2618-2664).  Theorems: [cbmapputcat] appends to
      the value of the key in place or links a new key last; its buffer
      holds the value and its terminator with less than a unit to spare,
      but its size, computed in [int], overflows from [INT_MAX - 254]
      bytes; [cbmapdup] returns the map it copies.
    - [CbSplit]: [cbsplit] and [cbreplace] (cabin.c 1219-1291) over the
      memory from the pointer, with the buffer [cbreplace] grows.
      Theorems: [cbsplit] returns the pieces between delimiters as a
      plain split does, a zero byte counting as a delimiter whatever
      [delim] holds; [cbreplace] returns the leftmost, first-key-wins
      rewriting of the string when no key is empty, writing inside its
      buffer, and loops forever when an empty key comes first.
    - [CbCsv]: [cbcsvrows] and [cbcsvcells] (cabin.c 1938-1995) over the
      memory from the pointer, with the quote flag of their loops.
      Theorems: rows ended by line breaks, quotes paired, come back one
      by one; the cells [cbcsvescape] writes, joined by commas, come back
      one by one; a row whose last cell is a lone double quote makes
      [cbcsvcells] write past the buffer of the [cbcsvunescape] it calls.
    - [CbXml]: [cbxmlbreak] (cabin.c 2042-2099), its [while(TRUE)] loop
      [xb_loop] over the memory from the pointer with the index, the
      start of the pending run and the tag flag of the C code, [strstr]
      by its contract, the CDATA section escaped into a [CBDATUM] by
      [cdata_loop].  Theorems: a text of well-formed text runs, tags and
      comments comes back token by token (comments dropped under [cr]);
      a comment that never ends makes it push the text before it twice.
      [cbxmlattrs] (cabin.c 2103-2162): each [while] loop over [rp] is a
      [span] of its test, the values pass through [cbxmlunescape] and
      into the map by [cbmapput] without overwriting.  Theorems: the
      attributes of a tag written with [cbxmlescape] come back in order;
      on any C string it returns, reading nothing past the terminator.
    - [CbUrl]: [cburlbreak] (cabin.c 1403-1479): the copy of the URL as a
      buffer [tmp] with the terminators the C code writes into it, [rp]
      and [ep] as indexes, one definition per block of the code
      ([url_scheme], [url_cut], [url_path], [url_auth], [url_port],
      [url_rest], [url_file]).  Theorems: the elements of an http URL
      come back under their keys; a string of white space only makes it
      parse the bytes after its terminator.
    - [CbMime]: [cbmimeencode] and [cbmimedecode] (cabin.c 1882-1934) on
      the Base64 and quoted-printable models of [CbCodec], with the
      buffers they allocate.  Theorems: the decoder gives back what the
      encoder wrote (in Q only for strings without [?]); a [?] in a
      Q-encoded string cuts the encoded text short.  [cbmimeparts]
      (cabin.c 1844-1878): the scan for the first boundary [mp_first], the
      scan over the rest [mp_rest] with the line breaks taken off each
      part ([back_if], [skip_crlf]).  Theorems: the parts of a multipart
      body come back in order; a region ending in a lone [-] makes it read
      the byte after the region.
    - [CbMimeBreak]: [cbmimebreak] (cabin.c 1721-1840): the scan for the
      blank line that ends the header ([mb_scan]), the copy of the header
      into [hbuf] with its line breaks unfolded ([mb_unfold]), [cbsplit]
      at [\n], the [name: value] lines stored under their lower-cased
      names ([mb_lines]) and the parameter loops of [content-type] and
      [content-disposition] ([mb_field], [mb_params]).  Theorems: every
      scan of a value ends within it; for a header of well-formed fields
      before a non-empty body the map gets each field under its
      lower-cased name and the body comes back; [hbuf] is never
      overflowed; a header whose blank line ends the entity is not parsed
      at all, and a quoted boundary is cut at its first space.
    - [SuffixArray]: the Ruby extension of src/ext/sarray/suffix_array.c,
      separate from the database: the struct [SuffixArray] and the Ruby
      object with [@source] and [@suffix_start], [scan_string], the binary
      search [find_longest_match] (its [size_t] and [unsigned int]
      arithmetic written out), [initialize] with its checks, the raw-array
      path and the loop that fills the [starts] / [ends] tables, and the
      methods [longest_match], [match], [longest_nonmatch], [array],
      [raw_array], [source], [suffix_start] and [all_starts]; a method
      returns its value or raises [SAError] ([outcome]).  A valid suffix
      array is the decidable [is_sarray]: the [n + 1] starts of the
      suffixes in strictly increasing order.  Theorems: the search reads
      nothing out of bounds and returns a real match, and on any input it
      ends within [slen + 2] rounds; for a valid suffix array the tables give the block of
      each byte among the slots [0 .. n-1] (section [Tables]), so
      [all_starts] misses the greatest suffix and answers [sa[0]] for an
      absent byte; [raw_array] and [suffix_start] restore the object
      (round trip); [match] reports a position that holds another string
      (shown on one input, [match_reports_non_occurrence]), reads past
      the source and past the suffix index; [all_starts] takes
      a byte from 128 up as a huge index and has no initialization guard.
    - [RubyRt]: the part of the Ruby 1.8 C API (LP64) the Odeum binding
      uses, modelled from Ruby's documented behaviour since it is not
      under src/: the kinds of [VALUE] ([value], [TYPE], [RTEST]),
      [FIX2INT] with its [int] range check, [rb_ary_entry],
      [rb_str_new2], [rb_hash_aset], the exceptions ([rexc]), a heap of
      [T_DATA] objects ([rworld], [Data_Get_Struct]) and calls through a
      registered argument count ([cfunc], [rb_call]).  A method is a term
      of the monad [rb]: a world goes to [CDone] of the new world and a
      value or an exception, [COob] for undefined behaviour in C (a NULL
      or out-of-range read, signed overflow) or [CAbort] for a failed
      [assert].  [REQUIRE_TYPE] and [RAISE_NOT_NULL] are the binding's
      own macros (odeum_index.c 47-49).
    - [OdeumApi]: the Odeum library as the class [OdeumLib], which names
      the type of each function of odeum.h the binding calls, the
      [ODPAIR] array as its 8 bytes per pair ([pairs_mem]), the objects
      the binding wraps ([robj]: an [ODEUM *], an [ODDOC *] or a
      [ResultSetData]), [DATA_GET] (a [T_DATA] check and a NULL check,
      no class check), the conversions between [CBLIST] / [CBMAP] and
      Ruby arrays and hashes over the Cabin models, and [Document_alloc],
      [Document_initialize], [Document_create].
    - [OdeumRs]: the class [ResultSet] (odeum_index.c 115-516): the
      cursor methods [next], [next_doc], [move], [score], [id], the
      accessors, [to_a], [errors], and [marshal_dump] / [marshal_load].
      Theorems: on a result set made by [ResultSet_create], any sequence
      of its methods ends in a value or an exception, never in undefined
      behaviour (the invariant [rs_ok]); [next] returns the ids in order
      and then [nil]; a dumped result set loads with the same length,
      cursor and pairs, but [errors] is [nil]; [move] moves one less than
      its count, overflows for a count near [INT_MAX], and [marshal_load]
      reads past a short pair string, leaves half a result set when the
      index does not fit an [int], and aborts on a live result set.
    - [OdeumIndex]: the classes [Index] and [Document], the module
      functions of [Odeum], and [Init_odeum_index] as method tables with
      their argument counts ([mtable], [send]).  Theorems: every method
      of a closed [Index] raises [StandardError] before any effect;
      [close] closes the handle once; [setcharclass] is registered with 0
      arguments and cannot be called with its three; [ResultSet::BEGINNING]
      is [false], so [move(BEGINNING)] raises [TypeError]; [next_doc]
      hands any wrapped object to the library as an [ODEUM *]; the errors
      of [query] reach the result set; [add_content] adds every word,
      empty ones included, and [add_word_list] stops at the first [nil].
    - [Villa]: the handle.  The Depot store (spec-modelled: a [gmap] from
      record keys to byte strings, a flags word, the error code), the
      metadata records [vldpputnum] / [vldpgetnum] keep under the keys -1
      .. -5, the [VILLA] record with the fields of the C struct (depot,
      writer flag, root, last leaf, counters, the two page caches, cursor,
      tuning, transaction flag and the saved metadata of the rollback), and
      a state monad with failure [vlm] in which a failing call keeps the
      state it reached, as C keeps the side effects done before [return
      FALSE].  A leaf or node pointer of the C code is its id: the page
      managers [vlleafnew], [vlnodenew], [vlleafload], [vlnodeload],
      [vlleafsave], [vlnodesave], [vlleafcacheout], [vlnodecacheout], the
      descent [vlsearchleaf] and [vlcacheadjust] read and write the cached
      page of an id.  Where the C code would dereference a NULL or freed
      pointer or index out of range, the model sets the error code
      [VL_EUNDEF] and fails; no theorem assumes it away.  The section
      [Frame] shows that the primitives which only write the Depot, the
      error code or the caches leave alone any view of the handle those
      writes do not touch; its instances [rnum_*] show which primitives
      leave [villa->rnum] alone.
    - [Engine]: [vlput] (with [vlleafdivide] and the split of the parent
      nodes, [split_up]), [vlout], [vlget], [vlvnum], [vlgetlist],
      [vlgetcat], [vlputlist], [vloutlist] and the counters.  Theorems: a
      successful [vlput] moves [villa->rnum] by the [put_delta] of the
      leaf it reaches ([put_leaf]: by one, by zero exactly when
      [VL_DOVER] replaces a key already there), a successful [vlout]
      removes one; [vlleafdivide] (section [LeafSplit]) leaves the first
      half of the records in the leaf and the rest in a new leaf with the
      next free id, linked between the leaf and its old successor; a
      reader gets [DP_EMODE] from [vlput] but [DP_EMISC] from
      [vloutlist].
    - [Cursor]: [vlcurfirst], [vlcurlast], [vlcurprev], [vlcurnext],
      [vlcurjump], [vlcurkey], [vlcurval] over the leaf chain.  Theorem
      (liveness): when the chain from the first leaf, through cached
      leaves, reaches a leaf with a record or its end within [lnum] links
      (the inductive [chain_ends]), [vlcurfirst] gets there: the cursor
      lands on the first value of a leaf with records, or the call fails
      with [DP_ENOITEM], never by running out of rounds.
    - [Tran]: [vltranbegin], [vltrancommit], [vltranabort], [vlsync],
      [vloptimize], [vlsettuning], [vlopen] and [vlclose].  Theorems:
      the loops of the transaction functions keep the metadata, its
      rollback copy and the transaction flag ([tran_state]), so a
      [vltranabort] after a [vltranbegin] puts back the root, last leaf
      and counters [vltranbegin] saw, whatever ran in between without
      touching the rollback copy; opening an empty database as a writer
      writes a clean root leaf and the metadata; as a reader it fails.
    - [Scenarios]: the concrete scenarios of the specification run on the
      model by evaluation, as tests beside the general theorems: the
      first leaf split under [leaf_record_max = 3], duplicate values
      under [VL_DDUP], and a transaction rolled back by [vltranabort]
      after it split a leaf.

    ** What is not modelled

    Depot itself (the backing file store, locking, [dpoptimize],
    [dprepair]) is outside src/ and is modelled from the specification as a
    finite map from page ids to byte strings; I/O failures of Depot and
    zlib compression ([_qdbm_deflate]) are not modelled; the decimal
    comparator [vldeccompare] relies on [strtod] and floating point and is
    not modelled.  [vlname], [vlfsiz], [vlinode], [vlmtime] and
    [vlfatalerror] only report facts of the Depot file; [vlremove],
    [vlrepair], [vlexportdb] and [vlimportdb] work on file names and are
    not modelled yet.  The Odeum library (odeum.h, odeum.c) and the Ruby
    interpreter are not in the repository: the binding odeum_index.c is
    modelled whole over the interface [OdeumLib] and the runtime of
    [RubyRt]; its finalizer [ResultSet_free] only frees memory, garbage
    collection and Marshal's byte format are not modelled, and the
    constants [OREADER] ... [ONOLCK] are values of odeum.h.  The suffix
    array builder [bsarray] (sarray.c) is not in the repository either:
    [SuffixArray_initialize] takes it as an argument; [SuffixArray_free]
    and [Init_suffix_array] only free memory and register methods.  Of
    Cabin, [cbsprintf] and the date functions are not modelled yet; [cbdeflate], [cbinflate],
    [cbgetcrc] and [cbiconv] wrap zlib and iconv; file, directory and
    process helpers ([cbreadfile], [cbdirlist], [cbproctime], ...) are
    I/O; memory allocation failure ([cbmyfatal]) is not modelled.

    ** Fuel

    Loops are Fixpoints with a fuel argument chosen so that it is provably
    enough: the binary narrowing loop gets [length + 1] rounds, since
    [right - left] drops by one at least each round; the varint writer gets
    32 rounds, since each round removes 7 bits of a non-negative 32-bit
    int; the value loop of [vlleafload] runs at most [vnum] times, its own
    bound; the record and entry loops of the page parsers get one round
    per byte of the page and one more, which the round-trip theorems show
    enough for every saved page (each record or entry takes a byte at
    least), and which a corrupt page can exhaust, as the loop in the C
    code then does not end.  The descent of [vlsearchleaf] gets [nnum + 1]
    rounds (each round enters a node, and a tree of [nnum] nodes has a
    path of at most [nnum] nodes), and stops as C does with undefined
    behaviour when its history reaches [VL_LEVELMAX] = 64 levels; the
    cursor walks over empty leaves get [lnum + 1] rounds, enough for a
    chain of distinct leaves (proved for [vlcurfirst] on cached chains);
    the eviction loop of [vlcacheadjust] runs [VL_CACHEOUT] = 8 times, as
    in C, and [vlclose] / [vlsync] visit each cached id once.  The Cabin decoders that walk a C string are
    structural on the memory after the pointer, except the Base64 decoder,
    whose fuel is the length of the string plus one, and the XML decoder,
    whose fuel is the length of the memory (each round consumes a byte);
    the loops of [cblistload] and [cbmapload] run [ln] and [rn] times,
    the counts they read, as the C [for] loops do.  The copy loop of
    [cbstrtrim] and [cbstrsqzspc] gets one round per byte of the memory
    and one more.  The loops of [cbsplit] get one round per byte of the
    region and one more (each round consumes a byte), the loop of
    [cbreplace] one per byte of the memory and one more, enough when no
    key is empty (each round consumes a byte of the string or a key);
    with an empty key the C loop does not end and the model runs out of
    every bound.  The loop of [cbxmlbreak] gets one round per byte of the
    memory and one more: each round moves the index forward by one byte
    at least, and the theorem shows the bound enough for every text of
    well-formed tokens; its CDATA loop gets the same bound, more than the
    bytes of the section.  The loops of [cbxmlattrs] over [rp] are
    structural on the memory; its main loop gets one round per byte of
    the memory and one more, enough on every C string (each round passes
    a byte at least).  The loops of [cburlbreak] are structural on the
    memory or on the copy of the URL.  The loop of [cbmimedecode] gets
    one round per byte of the memory and one more (each round passes a
    byte at least), the two scans of [cbmimeparts] one round per byte of
    the region, as the C [for] loops.  The binary search of
    [find_longest_match] gets [slen + 2] rounds: each round shrinks
    [high - low] or makes [high] wrap past [slen]; running out of rounds
    is the result [CAbort], apart from every exit of the C loop, and the
    theorem [find_longest_match_terminates] shows it never happens (the
    measure is [high - low + 2], [flm_fuel]); the
    loops of the suffix array methods get the bound of their C [for]
    loops, the walk back of [match] [start + 1] rounds, after which its
    [size_t] index has wrapped and the read fails.  The inner loop of [cbssort] gets [i + 1] rounds (the
    gap is at least 1), its loop over [i] and the loop over the gaps
    [nmemb] and [nmemb + 1] rounds; the
    partition loop of [cbqsortsub] [nmemb + 1] rounds ([bottom - top]
    falls each round) and its recursion [nmemb + 1] levels (each call is
    on fewer elements); the sift loop of [cbhsort] [nmemb + 1] rounds
    ([mybot] grows each round and stays at most [top]), the loop that
    builds the heap [nmemb + 2] rounds (it starts from [bottom = (nmemb -
    1) / 2 + 1], which is 1 for the empty array) and the loop that takes
    it apart [nmemb + 1]; the theorems show each bound enough.  The
    [for] loops of the Odeum binding ([CBLIST_2_array], [to_a],
    [add_content]) are structural on the count they run to, and the
    loops over a Ruby array ([array_2_CBLIST], [add_word_list]) on the
    array. *)

From Stdlib Require Import ZArith Lia List Bool.
Import ListNotations.
Open Scope Z_scope.

Create HintDb vl.
Create Rewrite HintDb vl_rw.

Declare Scope vl_scope.
Delimit Scope vl_scope with vl.

(** ** Machine integers *)

(** The range of a C [int] on the platforms QDBM targets (32 bits). *)
Definition INT_MIN : Z := -2147483648.
Definition INT_MAX : Z := 2147483647.

Definition int_ok (z : Z) : Prop := INT_MIN <= z <= INT_MAX.

(** Two's complement wrap-around of a mathematical integer into an [int]. *)
Definition wrap32 (z : Z) : Z := (z + 2147483648) mod 4294967296 - 2147483648.

(** C division of [int]s truncates toward zero: [(left + right) / 2] with
    [left = 0, right = -1] is [0]. *)
Notation "a /c b" := (Z.quot a b) (at level 40, left associativity) : vl_scope.
Open Scope vl_scope.

(** ** Bytes *)

(** A byte of a buffer, as the unsigned value of the [char]. *)
Definition byte_ok (b : Z) : Prop := 0 <= b < 256.
Definition bytes_ok (l : list Z) : Prop := Forall byte_ok l.

(** The value of a byte read through a [signed char *]. *)
Definition sc (b : Z) : Z := if b <? 128 then b else b - 256.

(** The byte stored when a [signed char] cell receives the value [s]. *)
Definition uc (s : Z) : Z := s mod 256.

Lemma sc_uc (s : Z) : -128 <= s < 128 -> sc (uc s) = s.
Proof.
  intros H. unfold sc, uc.
  destruct (Z_lt_le_dec s 0).
  - replace (s mod 256) with (s + 256)
      by (apply Z.mod_unique with (-1); lia).
    destruct (Z.ltb_spec (s + 256) 128); lia.
  - rewrite Z.mod_small by lia. destruct (Z.ltb_spec s 128); lia.
Qed.

Lemma uc_byte_ok (s : Z) : byte_ok (uc s).
Proof. unfold byte_ok, uc. apply Z.mod_pos_bound. lia. Qed.

Lemma sc_range (b : Z) : byte_ok b -> -128 <= sc b < 128.
Proof. unfold byte_ok, sc. intros H. destruct (Z.ltb_spec b 128); lia. Qed.

Lemma sc_nonneg_iff (b : Z) : byte_ok b -> (0 <= sc b <-> b < 128).
Proof. unfold byte_ok, sc. intros H. destruct (Z.ltb_spec b 128); lia. Qed.

#[export] Hint Resolve uc_byte_ok : vl.

Lemma bytes_ok_app (l1 l2 : list Z) :
  bytes_ok (l1 ++ l2) <-> bytes_ok l1 /\ bytes_ok l2.
Proof. unfold bytes_ok. apply Forall_app. Qed.

Lemma bytes_ok_nil : bytes_ok [].
Proof. constructor. Qed.

Lemma bytes_ok_cons (b : Z) (l : list Z) :
  byte_ok b -> bytes_ok l -> bytes_ok (b :: l).
Proof. intros; constructor; auto. Qed.

#[export] Hint Resolve bytes_ok_nil bytes_ok_cons : vl.

(** ** Lists *)

(** [Z]-indexed access, as the C code indexes its lists with [int]s. *)
Definition znth {A} (d : A) (l : list A) (i : Z) : A := nth (Z.to_nat i) l d.
Definition zlen {A} (l : list A) : Z := Z.of_nat (length l).

Lemma zlen_app {A} (l1 l2 : list A) : zlen (l1 ++ l2) = zlen l1 + zlen l2.
Proof. unfold zlen. rewrite length_app. lia. Qed.

Lemma zlen_cons {A} (x : A) (l : list A) : zlen (x :: l) = 1 + zlen l.
Proof. unfold zlen. simpl length. lia. Qed.

Lemma zlen_nil {A} : zlen (@nil A) = 0.
Proof. reflexivity. Qed.

Lemma zlen_nonneg {A} (l : list A) : 0 <= zlen l.
Proof. unfold zlen. lia. Qed.

#[export] Hint Rewrite @zlen_app @zlen_cons @zlen_nil : vl_rw.
#[export] Hint Resolve zlen_nonneg : vl.

Lemma firstn_skipn_nth {A} (l : list A) (n : nat) (d : A) :
  (n < length l)%nat -> l = firstn n l ++ nth n l d :: skipn (S n) l.
Proof.
  revert n. induction l as [|x l IH]; intros [|n] H; simpl in *; try lia.
  - reflexivity.
  - f_equal. apply IH. lia.
Qed.

(** A tactic that turns the boolean tests the code makes into
    propositions and case-splits on them. *)
Ltac vl_case_test :=
  match goal with
  | |- context [Z.ltb ?a ?b] => destruct (Z.ltb_spec a b)
  | |- context [Z.leb ?a ?b] => destruct (Z.leb_spec a b)
  | |- context [Z.eqb ?a ?b] => destruct (Z.eqb_spec a b)
  | |- context [Nat.ltb ?a ?b] => destruct (Nat.ltb_spec a b)
  | |- context [Nat.leb ?a ?b] => destruct (Nat.leb_spec a b)
  | |- context [Nat.eqb ?a ?b] => destruct (Nat.eqb_spec a b)
  end.

(** Record [0 <= zlen l] for every length in the goal and hypotheses. *)
Ltac zlen_facts :=
  repeat match goal with
  | |- context [zlen ?l] =>
      lazymatch goal with
      | _ : 0 <= zlen l |- _ => fail
      | _ => pose proof (zlen_nonneg l)
      end
  | _ : context [zlen ?l] |- _ =>
      lazymatch goal with
      | _ : 0 <= zlen l |- _ => fail
      | _ => pose proof (zlen_nonneg l)
      end
  end.

Lemma existsb_false_forall {A} (f : A -> bool) (l : list A) :
  (forall x, In x l -> f x = false) -> existsb f l = false.
Proof.
  intros H. destruct (existsb f l) eqn:E; [|reflexivity].
  apply existsb_exists in E as (x & Hx & Fx). rewrite H in Fx by exact Hx. discriminate.
Qed.

(** Decide the first test of the goal whose outcome the hypotheses fix,
    dropping the branch [lia] refutes. *)
Ltac vl_test :=
  match goal with
  | |- context [Z.ltb ?a ?b] => destruct (Z.ltb_spec a b); try (exfalso; lia)
  | |- context [Z.leb ?a ?b] => destruct (Z.leb_spec a b); try (exfalso; lia)
  | |- context [Z.eqb ?a ?b] => destruct (Z.eqb_spec a b); try (exfalso; lia)
  end; cbn [andb orb negb].
