(* ===== verification/Varint.v ===== *)
(** * Varint: the variable-length number codec of villa.c

    [vlsetvnumbuf] (villa.c 1300-1318) writes a non-negative [int] in
    base 128, least significant group first; every group but the last is
    stored as [-(group) - 1], so that its [signed char] is negative and
    marks "more bytes follow".  [vlreadvnumbuf] (villa.c 1325-1344) reads
    such a buffer back.  Buffers are lists of unsigned bytes; the cell
    values the C code stores are converted with [uc] and read back with
    [sc]. *)

From Stdlib Require Import ZArith Lia List Bool.
From S2P Require Import Prelude.
Import ListNotations.
Open Scope Z_scope.
Open Scope vl_scope.

(** ** Definitions *)

(** Size of the buffer the callers reserve ([VL_VNUMBUFSIZ]). *)
Definition VL_VNUMBUFSIZ : Z := 8.

(** The [while(num > 0)] loop of [vlsetvnumbuf]; [div(num, 128)] on a
    positive [num] is [Z.quot]/[Z.rem]. *)
Fixpoint vnum_loop (fuel : nat) (num : Z) : list Z :=
  match fuel with
  | O => []
  | S f =>
      if 0 <? num then
        let q := num /c 128 in
        let r := Z.rem num 128 in
        let cell := if 0 <? q then - r - 1 else r in
        uc cell :: vnum_loop f q
      else []
  end.

(** Each round removes 7 bits of a 32-bit [int], so 32 rounds are more
    than enough (see [vnum_loop_fuel]). *)
Definition vnum_fuel : nat := 32.

Definition vlsetvnumbuf (num : Z) : list Z :=
  if num =? 0 then [uc 0] else vnum_loop vnum_fuel num.

(** The [for(i = 0; i < size; i++)] loop of [vlreadvnumbuf], walking the
    [size] bytes that remain in [buf]; when no byte ends the number the loop
    runs off the end with [i = size] and reports [i + 1] bytes read. *)
Fixpoint vread_loop (buf : list Z) (i num base : Z) : Z * Z :=
  match buf with
  | [] => (num, i + 1)
  | c :: rest =>
      if 0 <=? sc c then (num + sc c * base, i + 1)
      else vread_loop rest (i + 1) (num + base * (sc c + 1) * -1) (base * 128)
  end.

(** [vlreadvnumbuf buf size sp]: the value and, as second component, the
    number of bytes consumed ([*sp]).  The [size] of the C code is the
    length of the remaining buffer. *)
Definition vlreadvnumbuf (buf : list Z) : Z * Z :=
  if zlen buf <? 2 then (sc (hd 0 buf), 1) else vread_loop buf 0 0 1.

(** ** Lemmas on the writer loop *)

Lemma vnum_loop_0 (f : nat) : vnum_loop f 0 = [].
Proof. destruct f; reflexivity. Qed.

Lemma quot_rem_128 (num : Z) :
  0 < num -> num = 128 * (num /c 128) + Z.rem num 128 /\
             0 <= Z.rem num 128 < 128 /\ 0 <= num /c 128.
Proof.
  intros H. split; [apply Z.quot_rem; lia|]. split.
  - split; [apply Z.rem_nonneg; lia|].
    pose proof (Z.rem_bound_pos num 128). lia.
  - apply Z.quot_pos; lia.
Qed.

Lemma vnum_loop_cons (f : nat) (num : Z) :
  0 < num ->
  vnum_loop (S f) num =
  uc (if 0 <? num /c 128 then - Z.rem num 128 - 1 else Z.rem num 128)
     :: vnum_loop f (num /c 128).
Proof. intros H. simpl. destruct (Z.ltb_spec 0 num); [reflexivity | lia]. Qed.

Lemma quot_128_lt_pow (f : nat) (num : Z) :
  0 < num < 128 ^ Z.of_nat (S f) -> num /c 128 < 128 ^ Z.of_nat f.
Proof.
  intros H. destruct (quot_rem_128 num (proj1 H)) as (E & R & Q).
  rewrite Nat2Z.inj_succ, Z.pow_succ_r in H by lia. lia.
Qed.

(** Extra fuel changes nothing once [num < 128^f]. *)
Lemma vnum_loop_fuel_add (f k : nat) (num : Z) :
  0 <= num < 128 ^ Z.of_nat f -> vnum_loop (f + k) num = vnum_loop f num.
Proof.
  revert num. induction f as [|f IH]; intros num H.
  - simpl in H. assert (num = 0) by lia. subst. now rewrite !vnum_loop_0.
  - destruct (Z.eq_dec num 0) as [->|Hn]; [now rewrite !vnum_loop_0|].
    change (S f + k)%nat with (S (f + k)).
    rewrite !vnum_loop_cons by lia. f_equal. apply IH.
    pose proof (quot_128_lt_pow f num ltac:(lia)).
    pose proof (quot_rem_128 num ltac:(lia)). lia.
Qed.

(** The central fact of the codec: reading the writer's output, followed by
    anything, adds [base * num] to the accumulator and consumes exactly the
    bytes written. *)
Lemma vread_vnum_loop (f : nat) (num : Z) (rest : list Z) (i acc base : Z) :
  0 < num < 128 ^ Z.of_nat f ->
  vread_loop (vnum_loop f num ++ rest) i acc base =
  (acc + base * num, i + zlen (vnum_loop f num)).
Proof.
  revert num i acc base. induction f as [|f IH]; intros num i acc base H.
  - simpl in H. lia.
  - rewrite vnum_loop_cons by lia.
    destruct (quot_rem_128 num ltac:(lia)) as (E & R & Q).
    destruct (Z.ltb_spec 0 (num /c 128)) as [Hq|Hq].
    + cbn [app vread_loop]. rewrite sc_uc by lia.
      destruct (Z.leb_spec 0 (- Z.rem num 128 - 1)); [lia|].
      rewrite IH by (split; [lia | apply quot_128_lt_pow; lia]).
      rewrite zlen_cons. f_equal; lia.
    + replace (num /c 128) with 0 by lia. rewrite vnum_loop_0.
      cbn [app vread_loop]. rewrite sc_uc by lia.
      destruct (Z.leb_spec 0 (Z.rem num 128)); [|lia].
      assert (Z.rem num 128 = num) as -> by lia.
      rewrite zlen_cons, zlen_nil. f_equal; lia.
Qed.

Lemma vnum_loop_length (f : nat) (num : Z) (k : nat) :
  0 <= num < 128 ^ Z.of_nat k -> (length (vnum_loop f num) <= k)%nat.
Proof.
  revert num k. induction f as [|f IH]; intros num k H; [simpl; lia|].
  destruct (Z.eq_dec num 0) as [->|Hn]; [rewrite vnum_loop_0; simpl; lia|].
  rewrite vnum_loop_cons by lia. simpl length.
  destruct k as [|k]; [simpl in H; lia|].
  pose proof (quot_128_lt_pow k num ltac:(lia)).
  pose proof (quot_rem_128 num ltac:(lia)).
  specialize (IH (num /c 128) k ltac:(lia)). lia.
Qed.

Lemma vnum_loop_nonempty (f : nat) (num : Z) :
  0 < num -> vnum_loop (S f) num <> [].
Proof. intros H. rewrite vnum_loop_cons by lia. discriminate. Qed.

Lemma int_max_lt_pow : INT_MAX < 128 ^ Z.of_nat 5.
Proof. reflexivity. Qed.

Lemma pow_128_mono (a b : nat) : (a <= b)%nat -> 128 ^ Z.of_nat a <= 128 ^ Z.of_nat b.
Proof. intros H. apply Z.pow_le_mono_r; lia. Qed.

#[export] Hint Resolve vnum_loop_0 int_max_lt_pow : vl.

(** ** Theorems *)

(** The writer's fuel is never the reason the loop stops: for every
    non-negative [int], [vnum_fuel] rounds give the same bytes as any
    larger number of rounds. *)
Theorem vlsetvnumbuf_fuel_enough (num : Z) (k : nat) :
  0 <= num <= INT_MAX ->
  vnum_loop (vnum_fuel + k) num = vnum_loop vnum_fuel num.
Proof.
  intros H. apply vnum_loop_fuel_add.
  pose proof int_max_lt_pow. pose proof (pow_128_mono 5 vnum_fuel ltac:(cbv; lia)).
  lia.
Qed.

Lemma vlsetvnumbuf_pos (num : Z) :
  0 < num <= INT_MAX -> vlsetvnumbuf num = vnum_loop vnum_fuel num.
Proof. intros H. unfold vlsetvnumbuf. destruct (Z.eqb_spec num 0); [lia|reflexivity]. Qed.

Lemma vnum_fuel_bound (num : Z) :
  0 <= num <= INT_MAX -> num < 128 ^ Z.of_nat vnum_fuel.
Proof.
  intros H. pose proof int_max_lt_pow.
  pose proof (pow_128_mono 5 vnum_fuel ltac:(cbv; lia)). lia.
Qed.

Lemma vread_vset (num : Z) (rest : list Z) :
  0 <= num <= INT_MAX ->
  vlreadvnumbuf (vlsetvnumbuf num ++ rest) = (num, zlen (vlsetvnumbuf num)).
Proof.
  intros H. destruct (Z.eq_dec num 0) as [->|Hn].
  - unfold vlreadvnumbuf. cbn. destruct (_ <? 2); reflexivity.
  - rewrite vlsetvnumbuf_pos by lia. unfold vlreadvnumbuf.
    pose proof (vnum_fuel_bound num H) as Hb.
    destruct (Z.ltb_spec (zlen (vnum_loop vnum_fuel num ++ rest)) 2) as [Hs|Hs].
    + (* a one-byte buffer: the number is below 128 and is that byte *)
      unfold vnum_fuel in *. rewrite vnum_loop_cons in * by lia.
      rewrite zlen_app, zlen_cons in Hs.
      pose proof (zlen_nonneg (vnum_loop 31 (num /c 128))).
      pose proof (zlen_nonneg rest).
      destruct (vnum_loop 31 (num /c 128)) eqn:E; [|rewrite zlen_cons in Hs; pose proof (zlen_nonneg l); lia].
      destruct (quot_rem_128 num ltac:(lia)) as (Eq & R & Q).
      assert (Hq : num /c 128 = 0).
      { destruct (Z.eq_dec (num /c 128) 0); [assumption|].
        exfalso. apply (vnum_loop_nonempty 30 (num /c 128)); [lia | exact E]. }
      rewrite Hq in *. cbn -[Z.rem]. rewrite sc_uc by lia. f_equal; lia.
    + rewrite vread_vnum_loop by lia. f_equal; lia.
Qed.

(** C8: Round trip: [vlreadvnumbuf] returns the number [vlsetvnumbuf] wrote
    and the number of bytes it wrote, whatever follows in the buffer. *)
Theorem vlreadvnumbuf_vlsetvnumbuf (num : Z) (rest : list Z) :
  0 <= num <= INT_MAX ->
  vlreadvnumbuf (vlsetvnumbuf num ++ rest) = (num, zlen (vlsetvnumbuf num)).
Proof. apply vread_vset. Qed.

Lemma vset_len (num : Z) :
  0 <= num <= INT_MAX -> 1 <= zlen (vlsetvnumbuf num) <= 5.
Proof.
  intros H. destruct (Z.eq_dec num 0) as [->|Hn].
  - cbv. split; discriminate.
  - rewrite vlsetvnumbuf_pos by lia. unfold zlen.
    pose proof (vnum_loop_length vnum_fuel num 5 ltac:(pose proof int_max_lt_pow; lia)).
    unfold vnum_fuel in *. pose proof (vnum_loop_nonempty 31 num ltac:(lia)).
    destruct (vnum_loop 32 num); [congruence|]. simpl length in *. lia.
Qed.

(** Every encoding of a C [int] is 1 to 5 bytes long, within the
    [VL_VNUMBUFSIZ]-byte buffer the callers pass. *)
Theorem vlsetvnumbuf_length (num : Z) :
  0 <= num <= INT_MAX ->
  1 <= zlen (vlsetvnumbuf num) <= 5 /\ 5 <= VL_VNUMBUFSIZ.
Proof. intros H. split; [apply vset_len, H | cbv; discriminate]. Qed.

(** The bytes written are bytes. *)
Lemma vlsetvnumbuf_bytes_ok (num : Z) : bytes_ok (vlsetvnumbuf num).
Proof.
  unfold vlsetvnumbuf. destruct (num =? 0); [auto with vl|].
  generalize vnum_fuel. intros f. revert num.
  induction f as [|f IH]; intros num; simpl; [auto with vl|].
  destruct (0 <? num); auto with vl.
Qed.

#[export] Hint Resolve vlsetvnumbuf_bytes_ok : vl.

(** Encoding is injective on C [int]s: two numbers with the same bytes
    are equal. *)
Corollary vlsetvnumbuf_inj (a b : Z) :
  0 <= a <= INT_MAX -> 0 <= b <= INT_MAX ->
  vlsetvnumbuf a = vlsetvnumbuf b -> a = b.
Proof.
  intros Ha Hb E.
  pose proof (vread_vset a [] Ha) as A.
  pose proof (vread_vset b [] Hb) as B.
  rewrite E in A. rewrite A in B. congruence.
Qed.

Example vlsetvnumbuf_300 : vlsetvnumbuf 300 = [211; 2].
Proof. reflexivity. Qed.

Example vlreadvnumbuf_300 : vlreadvnumbuf [211; 2; 77] = (300, 2).
Proof. reflexivity. Qed.

Lemma vlreadvnumbuf_vlsetvnumbuf_witness :
  vlsetvnumbuf 100000000 = [255; 189; 168; 47] /\
  vlreadvnumbuf (vlsetvnumbuf 100000000 ++ [5; 200]) = (100000000, zlen (vlsetvnumbuf 100000000)).
Proof.
  split; [reflexivity|]. apply (vlreadvnumbuf_vlsetvnumbuf 100000000 [5; 200]). cbv; split; discriminate.
Defined.

Lemma vlsetvnumbuf_length_witness :
  zlen (vlsetvnumbuf INT_MAX) = 5 /\
  1 <= zlen (vlsetvnumbuf INT_MAX) <= 5 /\ 5 <= VL_VNUMBUFSIZ.
Proof.
  split; [reflexivity|]. apply (vlsetvnumbuf_length INT_MAX). cbv; split; discriminate.
Defined.

Lemma vlsetvnumbuf_fuel_enough_witness :
  vnum_loop (vnum_fuel + 3) 16384 = vnum_loop vnum_fuel 16384 /\
  vnum_loop vnum_fuel 16384 = [255; 255; 1].
Proof.
  split; [|reflexivity]. apply (vlsetvnumbuf_fuel_enough 16384 3). cbv; split; discriminate.
Defined.
