(* ===== verification/Compare.v ===== *)
(** * Compare: the key comparison functions of villa.c

    A Villa database orders its keys with a caller-supplied function
    [VLCFUNC] (villa.h 69) returning a negative, zero or positive [int].
    The engine's searches and its sortedness invariant are correct only if
    that function is a strict total order; the class [Comparator] states
    what the engine needs.  The file models the three comparators of
    villa.c that do not use floating point and checks each against the
    class. *)

From Stdlib Require Import ZArith Lia List Bool Sorting.Sorted.
From S2P Require Import Prelude.
Import ListNotations.
Open Scope Z_scope.
Open Scope vl_scope.

(** Keys and values are byte strings ([CBDATUM] contents). *)
Abbreviation key := (list Z).

(** ** The interface the engine relies on *)

Class Comparator (cmp : key -> key -> Z) : Prop := {
  cmp_eq : forall a b, cmp a b = 0 <-> a = b;
  cmp_antisym : forall a b, cmp a b < 0 <-> 0 < cmp b a;
  cmp_trans : forall a b c, cmp a b < 0 -> cmp b c < 0 -> cmp a c < 0
}.

(** ** The comparators of villa.c *)

(** [vllexcompare] (villa.c 1204-1214): bytes compared as [unsigned char]
    over the common prefix, then the sizes.  The recursion walks the
    common prefix; when one key runs out, the difference of the remaining
    sizes is [asiz - bsiz]. *)
Fixpoint vllexcompare (a b : key) : Z :=
  match a, b with
  | x :: a', y :: b' => if negb (x =? y) then x - y else vllexcompare a' b'
  | _, _ => zlen a - zlen b
  end.

(** The [int] a key of [sizeof(int)] bytes holds on a little-endian
    machine ([*(int * )aptr]). *)
Definition native_int (a : key) : Z :=
  match a with
  | [b0; b1; b2; b3] => wrap32 (b0 + 256 * b1 + 65536 * b2 + 16777216 * b3)
  | _ => 0
  end.

(** [vlintcompare] (villa.c 1224-1230); both subtractions are [int]
    subtractions and wrap. *)
Definition vlintcompare (a b : key) : Z :=
  if negb (zlen a =? zlen b) then wrap32 (zlen a - zlen b)
  else
    let anum := if zlen a =? 4 then native_int a else INT_MIN in
    let bnum := if zlen b =? 4 then native_int b else INT_MIN in
    wrap32 (anum - bnum).

(** The loop of [vlnumcompare] over two keys of the same size: [aptr] is a
    [const char *] and [char] is signed on the x86 ABIs, so the bytes are
    compared through [sc]. *)
Fixpoint numcompare_bytes (a b : key) : Z :=
  match a, b with
  | x :: a', y :: b' => if negb (x =? y) then sc x - sc y else numcompare_bytes a' b'
  | _, _ => 0
  end.

(** [vlnumcompare] (villa.c 1241-1248). *)
Definition vlnumcompare (a b : key) : Z :=
  if negb (zlen a =? zlen b) then zlen a - zlen b else numcompare_bytes a b.

(** The little-endian bytes of an [int], as a key built by a caller of
    [VL_CMPINT] would hold them. *)
Definition int_key (n : Z) : key :=
  let u := n mod 4294967296 in
  [u mod 256; (u / 256) mod 256; (u / 65536) mod 256; u / 16777216].

(** ** The lexical comparator is a comparator *)

Lemma vllexcompare_swap (a b : key) : vllexcompare b a = - vllexcompare a b.
Proof.
  revert b. induction a as [|x a IH]; intros [|y b]; cbn [vllexcompare]; try (autorewrite with vl_rw; lia).
  destruct (Z.eqb_spec x y), (Z.eqb_spec y x); cbn [negb]; subst; try lia.
  apply IH.
Qed.

Lemma vllexcompare_eq (a b : key) : vllexcompare a b = 0 <-> a = b.
Proof.
  revert b. induction a as [|x a IH]; intros [|y b]; cbn [vllexcompare];
    autorewrite with vl_rw.
  - split; reflexivity.
  - pose proof (zlen_nonneg b). split; [lia | discriminate].
  - pose proof (zlen_nonneg a). split; [lia | discriminate].
  - destruct (Z.eqb_spec x y); cbn [negb].
    + subst. rewrite IH. split; [intros ->|intros H; injection H]; auto.
    + split; [lia | intros H; injection H; lia].
Qed.

Lemma vllexcompare_nil_l (b : key) : vllexcompare [] b < 0 -> b <> [].
Proof. destruct b; cbn; [lia | discriminate]. Qed.

Lemma vllexcompare_trans (a b c : key) :
  vllexcompare a b < 0 -> vllexcompare b c < 0 -> vllexcompare a c < 0.
Proof.
  revert b c. induction a as [|x a IH]; intros [|y b] [|z c]; cbn [vllexcompare];
    autorewrite with vl_rw; zlen_facts; try lia.
  destruct (Z.eqb_spec x y), (Z.eqb_spec y z), (Z.eqb_spec x z); cbn [negb];
    subst; try lia; eauto.
Qed.

#[export] Instance vllexcompare_Comparator : Comparator vllexcompare.
Proof.
  split.
  - apply vllexcompare_eq.
  - intros a b. rewrite (vllexcompare_swap a b). lia.
  - apply vllexcompare_trans.
Qed.

(** ** Consequences of the laws, shared by the searches *)

Section ComparatorFacts.
Context (cmp : key -> key -> Z) `{Hc : !Comparator cmp}.

Lemma cmp_refl (a : key) : cmp a a = 0.
  Proof. apply cmp_eq. reflexivity. Qed.

Lemma cmp_gt_lt (a b : key) : 0 < cmp a b -> cmp b a < 0.
  Proof. intros H. apply cmp_antisym. exact H. Qed.

Lemma cmp_lt_gt (a b : key) : cmp a b < 0 -> 0 < cmp b a.
  Proof. apply cmp_antisym. Qed.

Lemma cmp_le_lt_trans (a b c : key) : cmp a b <= 0 -> cmp b c < 0 -> cmp a c < 0.
  Proof.
    intros H1 H2. destruct (Z.eq_dec (cmp a b) 0) as [E|E].
    - apply cmp_eq in E. subst. exact H2.
    - apply cmp_trans with b; [lia | exact H2].
  Qed.

Lemma cmp_lt_le_trans (a b c : key) : cmp a b < 0 -> cmp b c <= 0 -> cmp a c < 0.
  Proof.
    intros H1 H2. destruct (Z.eq_dec (cmp b c) 0) as [E|E].
    - apply cmp_eq in E. subst. exact H1.
    - apply cmp_trans with b; [exact H1 | lia].
  Qed.

Lemma cmp_nlt_ge (a b : key) : ~ cmp a b < 0 -> cmp b a <= 0.
  Proof.
    intros H. destruct (Z.eq_dec (cmp a b) 0) as [E|E].
    - apply cmp_eq in E. subst. rewrite cmp_refl. lia.
    - pose proof (cmp_gt_lt a b). lia.
  Qed.

Lemma cmp_gt_trans (a b c : key) : 0 < cmp a b -> 0 < cmp b c -> 0 < cmp a c.
  Proof.
    intros H1 H2. apply cmp_lt_gt. apply cmp_trans with b; apply cmp_gt_lt; assumption.
  Qed.
End ComparatorFacts.

#[export] Hint Resolve cmp_refl cmp_gt_lt cmp_lt_gt : vl.

(** ** Theorems *)

(** C39: The lexical comparator [VL_CMPLEX] is a strict total order on keys:
    zero exactly on equal keys, antisymmetric and transitive. *)
Theorem vllexcompare_is_comparator :
  (forall a b, vllexcompare a b = 0 <-> a = b) /\
  (forall a b, vllexcompare b a = - vllexcompare a b) /\
  (forall a b c, vllexcompare a b < 0 -> vllexcompare b c < 0 -> vllexcompare a c < 0).
Proof. split; [|split]; [apply vllexcompare_eq | apply vllexcompare_swap | apply vllexcompare_trans]. Qed.

(** [vlintcompare] returns [anum - bnum] in an [int]: with [anum] the
    largest [int] and [bnum = -1] the difference wraps, so each key
    compares below the other and [VL_CMPINT] is not a comparator. *)
Theorem vlintcompare_overflow :
  native_int (int_key INT_MAX) = INT_MAX /\ native_int (int_key (-1)) = -1 /\
  vlintcompare (int_key INT_MAX) (int_key (-1)) < 0 /\
  vlintcompare (int_key (-1)) (int_key INT_MAX) < 0 /\
  ~ Comparator vlintcompare.
Proof.
  split; [reflexivity|]. split; [reflexivity|].
  split; [reflexivity|]. split; [reflexivity|].
  intros Hc. pose proof (proj1 (cmp_antisym (int_key INT_MAX) (int_key (-1)))) as H.
  specialize (H eq_refl). vm_compute in H. discriminate.
Qed.

(** [vlnumcompare] is meant to order big-endian numbers of equal width
    (villa.h: "numbers of big endian"), but its bytes are [char]s, signed
    on x86: the one-byte number 0x80 compares below 0x7F. *)
Theorem vlnumcompare_signed_char :
  vlnumcompare [128] [127] < 0 /\ vlnumcompare [0; 255] [1; 0] < 0 /\
  vlnumcompare [255; 0] [1; 0] < 0.
Proof. repeat split; reflexivity. Qed.
