(* ===== verification/Search.v ===== *)
(** * Search: the binary narrowing loop and the linear scan of villa.c

    Four functions of villa.c search a sorted page for a key with the same
    two-phase pattern: a binary narrowing loop
<<
    i = (left + right) / 2;
    while(right >= left && i < ln){
      rv = cmp(kbuf, ksiz, key of element i);
      if(rv == 0) break;  else if(rv <= 0) right = i - 1;  else left = i + 1;
      i = (left + right) / 2;
    }
>>
    ([vlleafaddrec] 1572-1585, [vlnodeaddidx] 1810-1823, [vlsearchleaf]
    1863-1877, [vlrecsearch] 1937-1952), followed in the first three by a
    linear scan upward from the index the loop left in [i].  This file
    models the loop once ([vl_narrow]) and the upward scan once
    ([scan_first]), over any element type with a key, and proves the loop's
    invariant on strictly sorted pages, which is what makes the scan that
    follows return the same answer as a scan from the start. *)

From Stdlib Require Import ZArith Lia List Bool Sorting.Sorted.
From S2P Require Import Prelude Compare.
Import ListNotations.
Open Scope Z_scope.
Open Scope vl_scope.

Section Narrow.
Context {A : Type} (keyof : A -> key) (cmp : key -> key -> Z).

  (** Where the loop stopped: [n_hit] if it broke on an equal key, the
      final [i], and the element it read last (the [recp] / [idxp]
      pointer of the C code, [None] when it read none). *)
Record narrow_out := NarrowOut { n_hit : bool; n_i : Z; n_last : option A }.

Fixpoint vl_narrow (fuel : nat) (k : key) (l : list A) (left right i : Z)
           (last : option A) : narrow_out :=
    match fuel with
    | O => NarrowOut false i last
    | S f =>
        if (left <=? right) && (i <? zlen l) then
          match nth_error l (Z.to_nat i) with
          | None => NarrowOut false i last
          | Some x =>
              let rv := cmp k (keyof x) in
              if rv =? 0 then NarrowOut true i (Some x)
              else if rv <=? 0 then
                vl_narrow f k l left (i - 1) ((left + (i - 1)) /c 2) (Some x)
              else vl_narrow f k l (i + 1) right ((i + 1 + right) /c 2) (Some x)
          end
        else NarrowOut false i last
    end.

  (** The upward scan [while(i < ln){ ...; i++; }] over the elements from
      index [i] on: [f] says, for the element at the current index, whether
      the loop body leaves the loop and with which outcome. *)
Fixpoint scan_first {B} (f : A -> option B) (i : Z) (rest : list A) : option (Z * B) :=
    match rest with
    | [] => None
    | x :: rest' =>
        match f x with
        | Some b => Some (i, b)
        | None => scan_first f (i + 1) rest'
        end
    end.

  (** The page invariant: keys strictly increasing. *)
Definition key_sorted (l : list A) : Prop :=
    StronglySorted (fun x y => cmp (keyof x) (keyof y) < 0) l.
End Narrow.

Arguments NarrowOut {A}.
Arguments n_hit {A}.
Arguments n_i {A}.
Arguments n_last {A}.

Section NarrowFacts.
Context {A : Type} (keyof : A -> key) (cmp : key -> key -> Z) `{Hc : !Comparator cmp}.

Abbreviation sorted := (key_sorted keyof cmp).

Lemma sorted_nth_lt (l : list A) (j1 j2 : nat) (x y : A) :
    sorted l -> (j1 < j2)%nat -> nth_error l j1 = Some x -> nth_error l j2 = Some y ->
    cmp (keyof x) (keyof y) < 0.
  Proof.
    intros Hs. revert j1 j2. induction Hs as [|z l Hs IH Hf]; intros j1 j2 Hj E1 E2.
    - destruct j1; discriminate.
    - destruct j2 as [|j2]; [lia|]. simpl in E2. destruct j1 as [|j1].
      + simpl in E1. injection E1 as <-. eapply Forall_forall in Hf; [exact Hf|].
        eapply nth_error_In. exact E2.
      + simpl in E1. eapply IH; [|exact E1|exact E2]. lia.
  Qed.

Lemma sorted_nth_le (l : list A) (j1 j2 : nat) (x y : A) :
    sorted l -> (j1 <= j2)%nat -> nth_error l j1 = Some x -> nth_error l j2 = Some y ->
    cmp (keyof x) (keyof y) <= 0.
  Proof.
    intros Hs Hj E1 E2. destruct (Nat.eq_dec j1 j2) as [->|Hne].
    - rewrite E1 in E2. injection E2 as ->. rewrite cmp_refl; [lia|exact Hc].
    - pose proof (sorted_nth_lt l j1 j2 x y Hs ltac:(lia) E1 E2). lia.
  Qed.

Lemma nth_error_Z_lt (l : list A) (i : Z) :
    0 <= i < zlen l -> exists x, nth_error l (Z.to_nat i) = Some x.
  Proof.
    intros H. destruct (nth_error l (Z.to_nat i)) eqn:E; [eauto|].
    apply nth_error_None in E. unfold zlen in H. lia.
  Qed.

Lemma nth_error_Z_ge (l : list A) (j : Z) :
    zlen l <= j -> nth_error l (Z.to_nat j) = None.
  Proof. intros H. apply nth_error_None. unfold zlen in H. lia. Qed.

  (** The invariant of the narrowing loop on a sorted page: every index in
      [[lo, left)] holds a key below [k], every index in [(right, ln)] a key
      above it, and [i] is the midpoint. *)
Definition narrow_inv (k : key) (l : list A) (lo left right i : Z) : Prop :=
    0 <= lo <= left /\ left - 1 <= right <= zlen l /\ left <= zlen l + 1 /\
    i = (left + right) /c 2 /\
    (forall j x, lo <= j < left -> nth_error l (Z.to_nat j) = Some x -> 0 < cmp k (keyof x)) /\
    (forall j x, right < j -> nth_error l (Z.to_nat j) = Some x -> cmp k (keyof x) < 0).

  (** What the loop guarantees when it ends: on a hit, [i] holds the key;
      otherwise [i] is at most the page size, every index in [[lo, i)]
      holds a smaller key and no index from [lo] on holds the key. *)
Definition narrow_post (k : key) (l : list A) (lo : Z) (o : @narrow_out A) : Prop :=
    0 <= n_i o <= zlen l /\
    (n_hit o = true -> exists x, nth_error l (Z.to_nat (n_i o)) = Some x /\
                             n_last o = Some x /\ cmp k (keyof x) = 0 /\ n_i o < zlen l) /\
    (n_hit o = false ->
       (forall j x, lo <= j < n_i o -> nth_error l (Z.to_nat j) = Some x -> 0 < cmp k (keyof x)) /\
       (forall j x, lo <= j -> nth_error l (Z.to_nat j) = Some x -> cmp k (keyof x) <> 0)).

Lemma quot2_bounds (a b : Z) : 0 <= a -> a - 1 <= b ->
    (a <= b -> a <= (a + b) /c 2 <= b /\ 2 * ((a + b) /c 2) <= a + b) /\
    (b < a -> (a + b) /c 2 = Z.max 0 (a - 1)).
  Proof.
    intros Ha Hb. split.
    - intros Hab. pose proof (Z.quot_div_nonneg (a + b) 2 ltac:(lia) ltac:(lia)) as ->.
      split; [split|]; [apply Z.div_le_lower_bound | apply Z.div_le_upper_bound
                       | apply Z.mul_div_le]; lia.
    - intros Hab. assert (b = a - 1) as -> by lia.
      destruct (Z.eq_dec a 0) as [->|Ha0]; [reflexivity|].
      rewrite Z.quot_div_nonneg by lia.
      replace (a + (a - 1)) with ((a - 1) * 2 + 1) by lia.
      rewrite Z.div_add_l by lia. change (1 / 2) with 0. lia.
  Qed.

Lemma narrow_exit (k : key) (l : list A) (lo left right i : Z) (last : option A) :
    sorted l -> narrow_inv k l lo left right i ->
    ~ (left <= right /\ i < zlen l) -> narrow_post k l lo (NarrowOut false i last).
  Proof.
    intros Hs (Hlo & Hr & Hl & -> & Hleft & Hright) Hx.
    pose proof (quot2_bounds left right ltac:(lia) ltac:(lia)) as [Q1 Q2].
    unfold narrow_post; cbn [n_i n_hit n_last].
    assert (Hi : (left + right) /c 2 = Z.max 0 (left - 1) /\ right < left
                 \/ left >= zlen l /\ (left + right) /c 2 = zlen l).
    { destruct (Z_lt_le_dec right left) as [Hlt|Hle].
      - rewrite (Q2 Hlt). left. lia.
      - right. specialize (Q1 Hle). lia. }
    pose proof (zlen_nonneg l). split; [lia|]. split; [discriminate|]. intros _. split.
    - intros j x Hj E. apply (Hleft j x); [lia|exact E].
    - intros j x Hj E.
      destruct (Z_lt_le_dec j left) as [Hjl|Hjl].
      + pose proof (Hleft j x ltac:(lia) E). lia.
      + destruct (Z_lt_le_dec j (zlen l)) as [Hjn|Hjn].
        * assert (right < j) by lia. pose proof (Hright j x ltac:(lia) E). lia.
        * rewrite nth_error_Z_ge in E by lia. discriminate.
  Qed.

Lemma vl_narrow_spec (fuel : nat) (k : key) (l : list A) (lo left right i : Z)
        (last : option A) :
    sorted l -> narrow_inv k l lo left right i -> right - left < Z.of_nat fuel ->
    narrow_post k l lo (vl_narrow keyof cmp fuel k l left right i last).
  Proof.
    revert left right i last. induction fuel as [|f IH]; intros left right i last Hs Hinv Hf.
    - cbn [vl_narrow]. apply narrow_exit with left right; auto.
      destruct Hinv as (? & ? & ? & ? & _). lia.
    - cbn [vl_narrow].
      destruct (Z.leb_spec left right), (Z.ltb_spec i (zlen l)); cbn [andb];
        try (apply narrow_exit with left right; auto; lia).
      pose proof Hinv as (Hlo & Hr & Hl & Hi & Hleft & Hright).
      pose proof (quot2_bounds left right ltac:(lia) ltac:(lia)) as [Q1 _].
      specialize (Q1 ltac:(lia)). rewrite <- Hi in Q1.
      destruct (nth_error_Z_lt l i ltac:(lia)) as [x Ex]. rewrite Ex.
      destruct (Z.eqb_spec (cmp k (keyof x)) 0) as [E0|E0].
      + repeat split; cbn; try lia; try discriminate.
        intros _. exists x. repeat split; auto.
      + destruct (Z.leb_spec (cmp k (keyof x)) 0) as [Le|Gt].
        * apply IH; auto; [|lia].
          repeat split; try lia; auto.
          intros j y Hj Ey. destruct (Z.eq_dec j i) as [->|Hne].
          -- rewrite Ex in Ey. injection Ey as <-. lia.
          -- apply cmp_lt_le_trans with (keyof x); auto; [lia|].
             pose proof (sorted_nth_lt l (Z.to_nat i) (Z.to_nat j) x y Hs ltac:(lia) Ex Ey). lia.
        * apply IH; auto; [|lia].
          repeat split; try lia; auto.
          intros j y Hj Ey. destruct (Z_lt_le_dec j left) as [Hjl|Hjl]; [apply (Hleft j y); auto; lia|].
          pose proof (sorted_nth_le l (Z.to_nat j) (Z.to_nat i) y x Hs ltac:(lia) Ey Ex).
          apply cmp_lt_gt; auto. apply cmp_le_lt_trans with (keyof x); auto.
          apply cmp_gt_lt; auto.
  Qed.

  (** More fuel changes nothing once it exceeds the width of the range:
      the fuel bound never cuts the loop short. *)
Lemma vl_narrow_fuel (f m : nat) (k : key) (l : list A) (left right i : Z) (last : option A) :
    0 <= left -> left - 1 <= right -> i = (left + right) /c 2 -> right - left < Z.of_nat f ->
    vl_narrow keyof cmp (f + m) k l left right i last = vl_narrow keyof cmp f k l left right i last.
  Proof.
    revert left right i last. induction f as [|f IH]; intros left right i last H0 H1 Hi Hf.
    - cbn. destruct m; cbn; [reflexivity|].
      destruct (Z.leb_spec left right); [lia|reflexivity].
    - change (S f + m)%nat with (S (f + m)). cbn [vl_narrow].
      destruct ((left <=? right) && (i <? zlen l)) eqn:G; [|reflexivity].
      apply andb_true_iff in G as [G1 G2]. apply Z.leb_le in G1.
      pose proof (proj1 (quot2_bounds left right H0 H1) G1). rewrite <- Hi in *.
      destruct (nth_error l (Z.to_nat i)); [|reflexivity].
      destruct (cmp k (keyof a) =? 0); [reflexivity|].
      destruct (cmp k (keyof a) <=? 0); apply IH; lia.
  Qed.

  (** The call made by [vlleafaddrec], [vlnodeaddidx] and [vlrecsearch]:
      [left = 0], [right = ln], [length + 1] rounds of fuel. *)
Lemma vl_narrow_from0 (k : key) (l : list A) :
    sorted l ->
    narrow_post k l 0
      (vl_narrow keyof cmp (S (length l)) k l 0 (zlen l) ((0 + zlen l) /c 2) None).
  Proof.
    intros Hs. apply vl_narrow_spec; auto; [|unfold zlen; lia].
    pose proof (zlen_nonneg l).
    repeat split; try lia.
    intros j x Hj E. rewrite nth_error_Z_ge in E by lia. discriminate.
  Qed.

  (** The call made by [vlsearchleaf]: [left = 1], [right = ln]. *)
Lemma vl_narrow_from1 (k : key) (l : list A) :
    sorted l ->
    narrow_post k l 1
      (vl_narrow keyof cmp (S (length l)) k l 1 (zlen l) ((1 + zlen l) /c 2) None).
  Proof.
    intros Hs. apply vl_narrow_spec; auto; [|unfold zlen; lia].
    pose proof (zlen_nonneg l).
    repeat split; try lia.
    intros j x Hj E. rewrite nth_error_Z_ge in E by lia. discriminate.
  Qed.

  (** On a sorted page, every index below the one the loop ends on holds a
      smaller key, whether the loop stopped on the key or not. *)
Lemma narrow_post_prefix (k : key) (l : list A) (o : @narrow_out A) :
    sorted l -> narrow_post k l 0 o ->
    forall j x, (j < Z.to_nat (n_i o))%nat -> nth_error l j = Some x -> 0 < cmp k (keyof x).
  Proof.
    intros Hs (Hb & Hhit & Hmiss) j x Hj E. destruct (n_hit o).
    - destruct (Hhit eq_refl) as (y & Ey & _ & Hy & _).
      pose proof (sorted_nth_lt l j (Z.to_nat (n_i o)) x y Hs Hj E Ey).
      apply cmp_lt_gt; auto. apply cmp_lt_le_trans with (keyof y); auto.
      apply cmp_eq in Hy. subst. rewrite cmp_refl; auto. lia.
    - apply (proj1 (Hmiss eq_refl) (Z.of_nat j) x); [lia|]. rewrite Nat2Z.id. exact E.
  Qed.

  (** ** The upward scan *)

Lemma scan_first_shift {B} (g : A -> option B) (i c : Z) (rest : list A) :
    scan_first g (i + c) rest =
    option_map (fun '(j, b) => (j + c, b)) (scan_first g i rest).
  Proof.
    revert i. induction rest as [|x rest IH]; intros i; cbn; [reflexivity|].
    destruct (g x); [reflexivity|]. replace (i + c + 1) with (i + 1 + c) by lia. apply IH.
  Qed.

  (** Starting the scan at [s] gives the answer of a scan from [0] when the
      body lets the loop continue on every element before [s]. *)
Lemma scan_first_skip {B} (g : A -> option B) (l : list A) (s : nat) :
    (forall j x, (j < s)%nat -> nth_error l j = Some x -> g x = None) ->
    scan_first g (Z.of_nat s) (skipn s l) = scan_first g 0 l.
  Proof.
    revert l. induction s as [|s IH]; intros l H; [reflexivity|].
    destruct l as [|x l]; [reflexivity|].
    cbn [skipn scan_first]. rewrite (H 0%nat x ltac:(lia) eq_refl).
    replace (Z.of_nat (S s)) with (Z.of_nat s + 1) by lia.
    rewrite scan_first_shift, IH.
    - change 1 with (0 + 1) at 2. rewrite scan_first_shift. reflexivity.
    - intros j y Hj E. apply (H (S j) y); [lia | exact E].
  Qed.

Lemma scan_first_Some {B} (g : A -> option B) (i : Z) (rest : list A) (j : Z) (b : B) :
    scan_first g i rest = Some (j, b) ->
    exists x, nth_error rest (Z.to_nat (j - i)) = Some x /\ g x = Some b /\ i <= j /\
    forall j' y, (j' < Z.to_nat (j - i))%nat -> nth_error rest j' = Some y -> g y = None.
  Proof.
    revert i. induction rest as [|x rest IH]; intros i H; [discriminate|].
    cbn in H. destruct (g x) eqn:Gx.
    - injection H as <- <-. exists x. rewrite Z.sub_diag. repeat split; auto; [lia|].
      intros j' y Hj'. lia.
    - destruct (IH (i + 1) H) as (y & Ey & Gy & Hij & Hbefore).
      exists y. replace (Z.to_nat (j - i)) with (S (Z.to_nat (j - (i + 1)))) by lia.
      repeat split; auto; [lia|].
      intros [|j'] z Hj' Ez; [cbn in Ez; congruence|].
      apply (Hbefore j' z); [lia | exact Ez].
  Qed.

Lemma scan_first_None {B} (g : A -> option B) (i : Z) (rest : list A) :
    scan_first g i rest = None -> forall x, In x rest -> g x = None.
  Proof.
    revert i. induction rest as [|x rest IH]; intros i H y Hy; [destruct Hy|].
    cbn in H. destruct (g x) eqn:Gx; [discriminate|].
    destruct Hy as [<-|Hy]; [exact Gx | exact (IH _ H y Hy)].
  Qed.
End NarrowFacts.

#[export] Hint Resolve sorted_nth_lt sorted_nth_le : vl.
