(* ===== verification/Leaf.v ===== *)
(** * Leaf: records and leaf pages of villa.c

    A leaf ([VLLEAF], villa.h 47-53) holds a list of records ([VLREC],
    villa.h 36-40) sorted by key: a key, its first value and the list of
    the values stored after it with [VL_DDUP] (NULL when there are none,
    here the empty list; the code never distinguishes an empty list from
    NULL).  This file models the operations on one leaf: the record search
    [vlrecsearch], the insertion [vlleafaddrec] in its three modes, the
    removal of [vlout] and the split of [vlleafdivide]; the abstract view of
    a leaf is the sorted list of (key, values) pairs it stores. *)

From Stdlib Require Import ZArith Lia List Bool Sorting.Sorted.
From S2P Require Import Prelude Varint Compare Search.
Import ListNotations.
Open Scope Z_scope.
Open Scope vl_scope.

(** ** Data *)

Record VLREC := mkrec { rec_key : key; rec_first : list Z; rec_rest : list (list Z) }.

Record VLLEAF := mkleaf {
  leaf_id : Z; leaf_dirty : bool; leaf_recs : list VLREC;
  leaf_prev : Z; leaf_next : Z }.

(** The write modes of [vlput] (villa.h 114-118); [vlleafaddrec] treats
    every mode other than the first two as [VL_DDUP]. *)
Inductive dmode := VL_DOVER | VL_DKEEP | VL_DDUP.

(** The values stored under a record, in order. *)
Definition rec_vals (r : VLREC) : list (list Z) := rec_first r :: rec_rest r.

(** The abstract content of a page: (key, values) pairs in page order. *)
Definition recs_view (recs : list VLREC) : list (key * list (list Z)) :=
  map (fun r => (rec_key r, rec_vals r)) recs.

(** The number of values a page holds, which [villa->rnum] counts. *)
Definition recs_count (recs : list VLREC) : Z :=
  fold_right (fun r acc => zlen (rec_vals r) + acc) 0 recs.

Definition insert_at {A} (i : nat) (x : A) (l : list A) : list A :=
  firstn i l ++ x :: skipn i l.

Definition update_at {A} (i : nat) (f : A -> A) (l : list A) : list A :=
  firstn i l ++ match nth_error l i with Some x => [f x] | None => [] end ++ skipn (S i) l.

Definition remove_at {A} (i : nat) (l : list A) : list A :=
  firstn i l ++ skipn (S i) l.

Section LeafOps.
Context (cmp : key -> key -> Z).

  (** [vlrecsearch] (villa.c 1933-1955): the record with the key, if any,
      and the index [*ip] the loop ended on. *)
Definition vlrecsearch (recs : list VLREC) (k : key) : option VLREC * Z :=
    let ln := zlen recs in
    let o := vl_narrow rec_key cmp (S (length recs)) k recs 0 ln ((0 + ln) /c 2) None in
    if n_hit o then (n_last o, n_i o) else (None, n_i o).

  (** The body of the upward scan of [vlleafaddrec]: leave on an equal key
      ([true]) or on a greater key ([false]), else go on. *)
Definition addrec_step (k : key) (r : VLREC) : option bool :=
    let rv := cmp k (rec_key r) in
    if rv =? 0 then Some true else if rv <? 0 then Some false else None.

  (** What the body does where the scan left the loop: at [(j, true)] an
      equal key, at [(j, false)] a greater one, and past the end ([None])
      the [cblistpush] after the loop.  The new record list and the change
      of [villa->rnum]; [None] is the [return FALSE] of [VL_DKEEP]. *)
Definition addrec_apply (dm : dmode) (k v : list Z) (recs : list VLREC)
             (res : option (Z * bool)) : option (list VLREC * Z) :=
    match res with
    | Some (j, true) =>
        match dm with
        | VL_DOVER =>
            Some (update_at (Z.to_nat j)
                    (fun r => mkrec (rec_key r) v (rec_rest r)) recs, 0)
        | VL_DKEEP => None
        | VL_DDUP =>
            Some (update_at (Z.to_nat j)
                    (fun r => mkrec (rec_key r) (rec_first r) (rec_rest r ++ [v])) recs, 1)
        end
    | Some (j, false) => Some (insert_at (Z.to_nat j) (mkrec k v []) recs, 1)
    | None => Some (recs ++ [mkrec k v []], 1)
    end.

  (** The search of [vlleafaddrec]: narrowing, then the scan from [i]. *)
Definition leafaddrec_recs (dm : dmode) (k v : list Z) (recs : list VLREC)
    : option (list VLREC * Z) :=
    let ln := zlen recs in
    let i := n_i (vl_narrow rec_key cmp (S (length recs)) k recs 0 ln ((0 + ln) /c 2) None) in
    addrec_apply dm k v recs (scan_first (addrec_step k) i (skipn (Z.to_nat i) recs)).

  (** [vlleafaddrec] (villa.c 1566-1624): on success the leaf is marked
      dirty and [villa->rnum] moves by the returned amount. *)
Definition vlleafaddrec (dm : dmode) (k v : list Z) (leaf : VLLEAF) (rnum : Z)
    : option (VLLEAF * Z) :=
    match leafaddrec_recs dm k v (leaf_recs leaf) with
    | None => None
    | Some (recs', d) =>
        Some (mkleaf (leaf_id leaf) true recs' (leaf_prev leaf) (leaf_next leaf), rnum + d)
    end.

  (** The record change of [vlout] (villa.c 296-309) at the index [ri]
      [vlrecsearch] found: the first duplicate is promoted, or the record
      goes. *)
Definition vlout_recs (recs : list VLREC) (ri : Z) : list VLREC :=
    match nth_error recs (Z.to_nat ri) with
    | Some r =>
        match rec_rest r with
        | v :: rest => update_at (Z.to_nat ri) (fun r => mkrec (rec_key r) v rest) recs
        | [] => remove_at (Z.to_nat ri) recs
        end
    | None => recs
    end.

  (** ** The reference: insertion into a sorted association list *)

Fixpoint ref_put (dm : dmode) (k v : list Z) (recs : list VLREC) : option (list VLREC) :=
    match recs with
    | [] => Some [mkrec k v []]
    | r :: rs =>
        let rv := cmp k (rec_key r) in
        if rv =? 0 then
          match dm with
          | VL_DOVER => Some (mkrec (rec_key r) v (rec_rest r) :: rs)
          | VL_DKEEP => None
          | VL_DDUP => Some (mkrec (rec_key r) (rec_first r) (rec_rest r ++ [v]) :: rs)
          end
        else if rv <? 0 then Some (mkrec k v [] :: r :: rs)
        else option_map (cons r) (ref_put dm k v rs)
    end.

  (** The change of the value count a reference insertion makes. *)
Definition put_delta (dm : dmode) (k : key) (recs : list VLREC) : Z :=
    match dm with
    | VL_DOVER => if existsb (fun r => cmp k (rec_key r) =? 0) recs then 0 else 1
    | _ => 1
    end.
End LeafOps.

(** ** List surgery lemmas *)

Lemma update_at_0 {A} (f : A -> A) (x : A) (l : list A) : update_at 0 f (x :: l) = f x :: l.
Proof. reflexivity. Qed.

Lemma update_at_S {A} (n : nat) (f : A -> A) (x : A) (l : list A) :
  update_at (S n) f (x :: l) = x :: update_at n f l.
Proof. reflexivity. Qed.

Lemma insert_at_0 {A} (y x : A) (l : list A) : insert_at 0 y (x :: l) = y :: x :: l.
Proof. reflexivity. Qed.

Lemma insert_at_S {A} (n : nat) (y x : A) (l : list A) :
  insert_at (S n) y (x :: l) = x :: insert_at n y l.
Proof. reflexivity. Qed.

Lemma recs_count_cons (r : VLREC) (rs : list VLREC) :
  recs_count (r :: rs) = 1 + zlen (rec_rest r) + recs_count rs.
Proof. unfold recs_count, rec_vals. cbn [fold_right]. rewrite zlen_cons. lia. Qed.

Lemma recs_count_nil : recs_count [] = 0.
Proof. reflexivity. Qed.

#[export] Hint Rewrite @update_at_0 @update_at_S @insert_at_0 @insert_at_S
  recs_count_cons recs_count_nil : vl_rw.

Section LeafFacts.
Context (cmp : key -> key -> Z) `{Hc : !Comparator cmp}.
Abbreviation sorted := (key_sorted rec_key cmp).

Lemma sorted_cons_iff (r : VLREC) (rs : list VLREC) :
    sorted (r :: rs) <-> sorted rs /\ Forall (fun y => cmp (rec_key r) (rec_key y) < 0) rs.
  Proof.
    split; [intros H; apply StronglySorted_inv in H; tauto|].
    intros [H1 H2]. constructor; assumption.
  Qed.

  (** Past a greater key a sorted page holds no equal key. *)
Lemma existsb_eq_after (k : key) (r : VLREC) (rs : list VLREC) :
    sorted (r :: rs) -> cmp k (rec_key r) < 0 ->
    existsb (fun y => cmp k (rec_key y) =? 0) (r :: rs) = false.
  Proof.
    intros Hs Hlt. apply sorted_cons_iff in Hs as [_ Hf].
    cbn [existsb]. destruct (Z.eqb_spec (cmp k (rec_key r)) 0); [lia|]. cbn [orb].
    apply existsb_false_forall. intros y Hy.
    eapply Forall_forall in Hf; [|exact Hy].
    pose proof (cmp_trans _ _ _ Hlt Hf). apply Z.eqb_neq. lia.
  Qed.

Lemma put_delta_cons (dm : dmode) (k : key) (r : VLREC) (rs : list VLREC) :
    cmp k (rec_key r) <> 0 -> put_delta cmp dm k (r :: rs) = put_delta cmp dm k rs.
  Proof.
    intros H. destruct dm; cbn; [|reflexivity|reflexivity].
    destruct (Z.eqb_spec (cmp k (rec_key r)) 0); [lia|reflexivity].
  Qed.

  (** Shifting the scan result by one element is consing the skipped record. *)
Lemma addrec_apply_cons (dm : dmode) (k v : list Z) (r : VLREC) (rs : list VLREC)
        (res : option (Z * bool)) :
    (forall j b, res = Some (j, b) -> 0 <= j) ->
    addrec_apply dm k v (r :: rs) (option_map (fun '(j, b) => (j + 1, b)) res) =
    option_map (fun '(l, d) => (r :: l, d)) (addrec_apply dm k v rs res).
  Proof.
    intros Hj. destruct res as [[j [|]]|]; cbn; [| |reflexivity].
    - specialize (Hj j true eq_refl).
      replace (Z.to_nat (j + 1)) with (S (Z.to_nat j)) by lia.
      destruct dm; reflexivity.
    - specialize (Hj j false eq_refl).
      replace (Z.to_nat (j + 1)) with (S (Z.to_nat j)) by lia. reflexivity.
  Qed.

Lemma scan_first_nonneg {B} (g : VLREC -> option B) (l : list VLREC) (j : Z) (b : B) :
    scan_first g 0 l = Some (j, b) -> 0 <= j.
  Proof. intros H. apply scan_first_Some in H as (_ & _ & _ & H & _). exact H. Qed.

  (** The linear scan from the first record, followed by the body's
      action, is the reference insertion. *)
Lemma addrec_apply_ref (dm : dmode) (k v : list Z) (recs : list VLREC) :
    sorted recs ->
    addrec_apply dm k v recs (scan_first (addrec_step cmp k) 0 recs) =
    option_map (fun l => (l, put_delta cmp dm k recs)) (ref_put cmp dm k v recs).
  Proof.
    induction recs as [|r rs IH]; intros Hs; [destruct dm; reflexivity|].
    cbn [scan_first ref_put]. unfold addrec_step at 1.
    destruct (Z.eqb_spec (cmp k (rec_key r)) 0) as [E|E].
    - destruct dm; cbn; rewrite ?E; reflexivity.
    - destruct (Z.ltb_spec (cmp k (rec_key r)) 0) as [L|L].
      + cbn. destruct dm; [|reflexivity|reflexivity].
        cbn -[existsb]. rewrite (existsb_eq_after k r rs Hs L). reflexivity.
      + change (0 + 1) with (0 + 1). rewrite (scan_first_shift (B := bool)).
        rewrite addrec_apply_cons by (intros j b H; eapply scan_first_nonneg; exact H).
        apply sorted_cons_iff in Hs as [Hs _].
        rewrite IH by exact Hs. rewrite put_delta_cons by exact E.
        destruct (ref_put cmp dm k v rs); reflexivity.
  Qed.

  (** Every key of the reference result is the new key or an old one. *)
Lemma ref_put_keys (dm : dmode) (k v : list Z) (recs recs' : list VLREC) :
    ref_put cmp dm k v recs = Some recs' ->
    forall y, In y recs' -> rec_key y = k \/ exists r, In r recs /\ rec_key r = rec_key y.
  Proof.
    revert recs'. induction recs as [|r rs IH]; intros recs' H y Hy; cbn in H.
    - injection H as <-. destruct Hy as [<-|[]]. left. reflexivity.
    - destruct (Z.eqb_spec (cmp k (rec_key r)) 0).
      + destruct dm; try discriminate; injection H as <-;
          destruct Hy as [Hy|Hy]; right.
        all: try (exists r; split; [left; reflexivity | subst y; reflexivity]).
        all: exists y; split; [right; exact Hy | reflexivity].
      + destruct (Z.ltb_spec (cmp k (rec_key r)) 0).
        * injection H as <-. destruct Hy as [<-|Hy]; [left; reflexivity|].
          right. exists y. split; auto.
        * destruct (ref_put cmp dm k v rs) as [l|] eqn:E; [|discriminate].
          injection H as <-. destruct Hy as [<-|Hy]; [right; exists r; split; [left|]; auto|].
          destruct (IH l eq_refl y Hy) as [H|(r' & Hr' & Hk)]; [left; exact H|].
          right. exists r'. split; [right|]; auto.
  Qed.

  (** The reference insertion keeps a page strictly sorted. *)
Lemma ref_put_sorted (dm : dmode) (k v : list Z) (recs recs' : list VLREC) :
    sorted recs -> ref_put cmp dm k v recs = Some recs' -> sorted recs'.
  Proof.
    revert recs'. induction recs as [|r rs IH]; intros recs' Hs H; cbn in H.
    - injection H as <-. repeat constructor.
    - pose proof Hs as Hs'. apply sorted_cons_iff in Hs' as [Hrs Hf].
      destruct (Z.eqb_spec (cmp k (rec_key r)) 0).
      + destruct dm; try discriminate; injection H as <-; apply sorted_cons_iff; auto.
      + destruct (Z.ltb_spec (cmp k (rec_key r)) 0) as [L|L].
        * injection H as <-. apply sorted_cons_iff. split; [exact Hs|].
          constructor; [exact L|]. eapply Forall_impl; [|exact Hf].
          intros y Hy. exact (cmp_trans _ _ _ L Hy).
        * destruct (ref_put cmp dm k v rs) as [l|] eqn:E; [|discriminate].
          injection H as <-. apply sorted_cons_iff. split; [exact (IH l Hrs eq_refl)|].
          apply Forall_forall. intros y Hy.
          destruct (ref_put_keys dm k v rs l E y Hy) as [Hk|(r' & Hr' & Hk)].
          -- rewrite Hk. apply cmp_gt_lt; auto. lia.
          -- rewrite <- Hk. eapply Forall_forall in Hf; [exact Hf|exact Hr'].
  Qed.

  (** The reference insertion adds [put_delta] values. *)
Lemma ref_put_count (dm : dmode) (k v : list Z) (recs recs' : list VLREC) :
    sorted recs -> ref_put cmp dm k v recs = Some recs' ->
    recs_count recs' = recs_count recs + put_delta cmp dm k recs.
  Proof.
    revert recs'. induction recs as [|r rs IH]; intros recs' Hs H; cbn in H.
    - injection H as <-. destruct dm; reflexivity.
    - destruct (Z.eqb_spec (cmp k (rec_key r)) 0) as [E|E].
      + assert (Ek : (cmp k (rec_key r) =? 0) = true) by (apply Z.eqb_eq; exact E).
        destruct dm; try discriminate; injection H as <-;
          cbn -[zlen recs_count]; rewrite ?Ek; cbn -[zlen recs_count];
          autorewrite with vl_rw; cbn [rec_rest]; autorewrite with vl_rw; lia.
      + destruct (Z.ltb_spec (cmp k (rec_key r)) 0) as [L|L].
        * assert (put_delta cmp dm k (r :: rs) = 1).
          { destruct dm; cbn -[existsb]; try reflexivity.
            rewrite existsb_eq_after by assumption. reflexivity. }
          injection H as <-. autorewrite with vl_rw. cbn [rec_rest]. autorewrite with vl_rw. lia.
        * rewrite put_delta_cons by exact E.
          apply sorted_cons_iff in Hs as [Hs _].
          destruct (ref_put cmp dm k v rs) as [l|] eqn:El; [|discriminate].
          injection H as <-. autorewrite with vl_rw. rewrite (IH l Hs eq_refl). lia.
  Qed.

  (** The scan of [vlleafaddrec], started where the narrowing loop ended,
      answers as a scan from the first record. *)
Lemma leafaddrec_scan_start (k : key) (recs : list VLREC) :
    sorted recs ->
    let i := n_i (vl_narrow rec_key cmp (S (length recs)) k recs 0 (zlen recs)
                    ((0 + zlen recs) /c 2) None) in
    scan_first (addrec_step cmp k) i (skipn (Z.to_nat i) recs) =
    scan_first (addrec_step cmp k) 0 recs.
  Proof.
    intros Hs i. pose proof (vl_narrow_from0 rec_key cmp k recs Hs) as Hp.
    pose proof Hp as (Hb & _).
    replace i with (Z.of_nat (Z.to_nat i)) at 1 by (subst i; lia).
    apply scan_first_skip. intros j x Hj E.
    pose proof (narrow_post_prefix rec_key cmp k recs _ Hs Hp j x Hj E) as Hlt.
    unfold addrec_step. destruct (Z.eqb_spec (cmp k (rec_key x)) 0); [lia|].
    destruct (Z.ltb_spec (cmp k (rec_key x)) 0); [lia|reflexivity].
  Qed.

Lemma leafaddrec_recs_ref (dm : dmode) (k v : list Z) (recs : list VLREC) :
  sorted recs ->
  leafaddrec_recs cmp dm k v recs =
  option_map (fun l => (l, put_delta cmp dm k recs)) (ref_put cmp dm k v recs).
Proof.
  intros Hs. unfold leafaddrec_recs.
  rewrite (leafaddrec_scan_start k recs Hs). apply addrec_apply_ref; assumption.
Qed.

Lemma find_after_prefix (f : VLREC -> bool) (l : list VLREC) (i : nat) (x : VLREC) :
    (forall j y, (j < i)%nat -> nth_error l j = Some y -> f y = false) ->
    nth_error l i = Some x -> f x = true -> find f l = Some x.
  Proof.
    revert i. induction l as [|y l IH]; intros [|i] Hb E F; try discriminate.
    - injection E as ->. cbn. rewrite F. reflexivity.
    - cbn. rewrite (Hb 0%nat y ltac:(lia) eq_refl).
      apply (IH i); auto. intros j z Hj Ez. apply (Hb (S j) z); [lia|exact Ez].
  Qed.

Lemma find_none (f : VLREC -> bool) (l : list VLREC) :
    (forall j y, nth_error l j = Some y -> f y = false) -> find f l = None.
  Proof.
    induction l as [|y l IH]; intros H; [reflexivity|].
    cbn. rewrite (H 0%nat y eq_refl). apply IH. intros j z Ez. exact (H (S j) z Ez).
  Qed.
End LeafFacts.

(** ** Theorems *)

Section LeafTheorems.
Context (cmp : key -> key -> Z) `{Hc : !Comparator cmp}.

  (** C1: The insertion of [vlleafaddrec] — binary narrowing, then a linear
      scan from where it stopped — computes exactly the plain sorted
      insertion [ref_put] on every strictly sorted page, in all three
      duplicate modes, with the record count moving by [put_delta]. *)
Theorem leafaddrec_recs_equiv (dm : dmode) (k v : list Z) (recs : list VLREC) :
    key_sorted rec_key cmp recs ->
    leafaddrec_recs cmp dm k v recs =
    option_map (fun l => (l, put_delta cmp dm k recs)) (ref_put cmp dm k v recs).
  Proof. apply (leafaddrec_recs_ref cmp). Qed.

  (** C5: [vlleafaddrec] keeps the records of a leaf strictly sorted, keeps its
      id and neighbours, marks it dirty, and moves [rnum] by exactly the
      number of values it added to the leaf. *)
Theorem vlleafaddrec_invariant (dm : dmode) (k v : list Z) (leaf leaf' : VLLEAF) (rnum rnum' : Z) :
    key_sorted rec_key cmp (leaf_recs leaf) ->
    vlleafaddrec cmp dm k v leaf rnum = Some (leaf', rnum') ->
    key_sorted rec_key cmp (leaf_recs leaf') /\
    recs_count (leaf_recs leaf') - recs_count (leaf_recs leaf) = rnum' - rnum /\
    leaf_dirty leaf' = true /\ leaf_id leaf' = leaf_id leaf /\
    leaf_prev leaf' = leaf_prev leaf /\ leaf_next leaf' = leaf_next leaf.
  Proof.
    intros Hs H. unfold vlleafaddrec in H.
    rewrite (leafaddrec_recs_ref cmp dm k v _ Hs) in H.
    destruct (ref_put cmp dm k v (leaf_recs leaf)) as [l|] eqn:E; [|discriminate].
    cbn in H. injection H as <- <-. cbn [leaf_recs leaf_dirty leaf_id leaf_prev leaf_next].
    pose proof (ref_put_count cmp dm k v _ l Hs E).
    repeat split; try reflexivity; [eapply ref_put_sorted; eauto | lia].
  Qed.

Lemma ref_put_none_iff (dm : dmode) (k v : list Z) (recs : list VLREC) :
    key_sorted rec_key cmp recs ->
    (ref_put cmp dm k v recs = None <->
     dm = VL_DKEEP /\ exists r, In r recs /\ rec_key r = k).
  Proof.
    induction recs as [|r rs IH]; intros Hs; cbn.
    - split; [discriminate | intros (_ & _ & [] & _)].
    - apply sorted_cons_iff in Hs as [Hrs Hf].
      destruct (Z.eqb_spec (cmp k (rec_key r)) 0) as [E|E].
      + apply cmp_eq in E. destruct dm; split.
        all: try (intros Hn; discriminate Hn).
        all: try (intros (Hn & _); discriminate Hn).
        all: try (intros; reflexivity).
        intros _. split; [reflexivity|]. exists r. split; [left; reflexivity | symmetry; exact E].
      + destruct (Z.ltb_spec (cmp k (rec_key r)) 0) as [L|L].
        * split; [intros Hn; discriminate Hn|]. intros (_ & r' & [<-|Hr'] & Hk).
          -- subst k. rewrite cmp_refl in E; auto. lia.
          -- eapply Forall_forall in Hf; [|exact Hr']. rewrite Hk in Hf.
             apply cmp_lt_gt in Hf; auto. lia.
        * destruct (ref_put cmp dm k v rs) as [l|] eqn:R; cbn.
          -- split; [intros Hn; discriminate Hn|]. intros (Hd & r' & [<-|Hr'] & Hk).
             ++ subst k. rewrite cmp_refl in E; auto. lia.
             ++ assert (Nn : Some l = None) by (apply (proj2 (IH Hrs)); eauto).
                discriminate Nn.
          -- destruct (proj1 (IH Hrs) eq_refl) as (Hd & r' & Hr' & Hk).
             split; [intros _; split; [exact Hd | exists r'; split; [right|]; auto]|].
             intros _; reflexivity.
  Qed.

  (** [vlleafaddrec] fails exactly in [VL_DKEEP] mode on a key the leaf
      already holds (the [return FALSE] that [vlput] reports as
      [DP_EKEEP]); in every other case it succeeds. *)
Theorem vlleafaddrec_fails_iff (dm : dmode) (k v : list Z) (leaf : VLLEAF) (rnum : Z) :
    key_sorted rec_key cmp (leaf_recs leaf) ->
    (vlleafaddrec cmp dm k v leaf rnum = None <->
     dm = VL_DKEEP /\ exists r, In r (leaf_recs leaf) /\ rec_key r = k).
  Proof.
    intros Hs. rewrite <- (ref_put_none_iff dm k v _ Hs).
    unfold vlleafaddrec. rewrite (leafaddrec_recs_ref cmp dm k v _ Hs).
    destruct (ref_put cmp dm k v (leaf_recs leaf)); cbn; split; congruence.
  Qed.

  (** [vlrecsearch] finds a record exactly when a linear search does, and
      the same record: on a sorted page the binary search loses nothing. *)
Theorem vlrecsearch_find (recs : list VLREC) (k : key) :
    key_sorted rec_key cmp recs ->
    fst (vlrecsearch cmp recs k) = find (fun r => cmp k (rec_key r) =? 0) recs.
  Proof.
    intros Hs. unfold vlrecsearch.
    pose proof (vl_narrow_from0 rec_key cmp k recs Hs) as Hp.
    set (o := vl_narrow rec_key cmp (S (length recs)) k recs 0 (zlen recs)
                ((0 + zlen recs) /c 2) None) in *.
    pose proof (narrow_post_prefix rec_key cmp k recs _ Hs Hp) as Hpre.
    destruct Hp as (Hb & Hhit & Hmiss).
    destruct (n_hit o) eqn:H; cbn [fst].
    - destruct (Hhit eq_refl) as (x & Ex & Hl & Hx & _). rewrite Hl.
      symmetry. apply (find_after_prefix _ recs (Z.to_nat (n_i o)) x); auto.
      + intros j y Hj Ey. specialize (Hpre j y Hj Ey). apply Z.eqb_neq. lia.
      + apply Z.eqb_eq. exact Hx.
    - symmetry. apply find_none. intros j y Ey.
      apply Z.eqb_neq. apply (proj2 (Hmiss eq_refl) (Z.of_nat j) y); [lia|].
      rewrite Nat2Z.id. exact Ey.
  Qed.
End LeafTheorems.

(** ** Witnesses on a concrete leaf, under the lexical comparator *)

Definition leaf_abc : VLLEAF :=
  mkleaf 1 false [mkrec [97] [1] []; mkrec [98] [2] []; mkrec [99] [3] []] (-1) (-1).

Lemma leaf_abc_sorted : key_sorted rec_key vllexcompare (leaf_recs leaf_abc).
Proof.
  unfold key_sorted. cbn.
  repeat constructor; cbn; lia.
Qed.

Lemma leafaddrec_recs_equiv_witness :
  key_sorted rec_key vllexcompare (leaf_recs leaf_abc) /\
  leafaddrec_recs vllexcompare VL_DDUP [98] [7] (leaf_recs leaf_abc) =
  option_map (fun l => (l, put_delta vllexcompare VL_DDUP [98] (leaf_recs leaf_abc)))
    (ref_put vllexcompare VL_DDUP [98] [7] (leaf_recs leaf_abc)).
Proof.
  split; [exact leaf_abc_sorted|].
  apply (leafaddrec_recs_equiv vllexcompare VL_DDUP [98] [7] _ leaf_abc_sorted).
Defined.

Lemma vlleafaddrec_invariant_witness :
  exists leaf' rnum',
  vlleafaddrec vllexcompare VL_DOVER [100] [4] leaf_abc 3 = Some (leaf', rnum') /\
  key_sorted rec_key vllexcompare (leaf_recs leaf') /\
  recs_count (leaf_recs leaf') - recs_count (leaf_recs leaf_abc) = rnum' - 3.
Proof.
  eexists _, _. split; [reflexivity|].
  pose proof (vlleafaddrec_invariant vllexcompare VL_DOVER [100] [4] leaf_abc _ 3 _
                leaf_abc_sorted eq_refl) as (H1 & H2 & _). split; [exact H1 | exact H2].
Defined.

Lemma vlleafaddrec_fails_iff_witness :
  vlleafaddrec vllexcompare VL_DKEEP [99] [5] leaf_abc 3 = None.
Proof.
  apply (proj2 (vlleafaddrec_fails_iff vllexcompare VL_DKEEP [99] [5] leaf_abc 3 leaf_abc_sorted)).
  split; [reflexivity|]. exists (mkrec [99] [3] []). split; [right; right; left; reflexivity|reflexivity].
Defined.

Lemma vlrecsearch_find_witness :
  fst (vlrecsearch vllexcompare (leaf_recs leaf_abc) [98]) = Some (mkrec [98] [2] []) /\
  fst (vlrecsearch vllexcompare (leaf_recs leaf_abc) [98]) =
  find (fun r => vllexcompare [98] (rec_key r) =? 0) (leaf_recs leaf_abc).
Proof.
  split; [reflexivity|].
  apply (vlrecsearch_find vllexcompare (leaf_recs leaf_abc) [98] leaf_abc_sorted).
Defined.
