(* ===== verification/Node.v ===== *)
(** * Node: index entries and node pages of villa.c

    A node ([VLNODE], villa.h 55-60) routes a key to a child page: keys
    below the first separator go to the "heir" child, a key at or above
    the separator of entry [i] (and below that of entry [i+1]) goes to the
    child of entry [i] ([VLIDX], villa.h 42-45).  This file models the
    insertion [vlnodeaddidx], the node split [vlput] performs when a node
    overflows, and the per-node step of [vlsearchleaf]; each is related to
    a plain reference on sorted nodes. *)

From Stdlib Require Import ZArith Lia List Bool Sorting.Sorted.
From S2P Require Import Prelude Compare Search Leaf.
Import ListNotations.
Open Scope Z_scope.
Open Scope vl_scope.

(** ** Data *)

Record VLIDX := mkidx { idx_pid : Z; idx_key : key }.

Record VLNODE := mknode {
  node_id : Z; node_dirty : bool; node_heir : Z; node_idxs : list VLIDX }.

Definition last_opt {A} (l : list A) : option A := nth_error l (length l - 1).

Lemma last_opt_cons2 {A} (y z : A) (l : list A) :
  last_opt (y :: z :: l) = last_opt (z :: l).
Proof. unfold last_opt. cbn [length]. replace (S (S (length l)) - 1)%nat with (S (length l)) by lia.
  replace (S (length l) - 1)%nat with (length l) by lia. reflexivity. Qed.

Section NodeOps.
Context (cmp : key -> key -> Z).

  (** The body of the upward scan of [vlnodeaddidx] and [vlsearchleaf]:
      leave at the first separator greater than the key. *)
Definition idx_gt_step (k : key) (x : VLIDX) : option unit :=
    if cmp k (idx_key x) <? 0 then Some tt else None.

  (** [vlnodeaddidx] (villa.c 1799-1839): with [order] the entry is
      appended; otherwise it goes before the first greater separator found
      by narrowing and scanning, or at the end.  The node becomes dirty. *)
Definition vlnodeaddidx (order : bool) (pid : Z) (k : key) (node : VLNODE) : VLNODE :=
    let idx := mkidx pid k in
    let idxs := node_idxs node in
    let idxs' :=
      if order then idxs ++ [idx]
      else
        let ln := zlen idxs in
        let i := n_i (vl_narrow idx_key cmp (S (length idxs)) k idxs 0 ln ((0 + ln) /c 2) None) in
        match scan_first (idx_gt_step k) i (skipn (Z.to_nat i) idxs) with
        | Some (j, _) => insert_at (Z.to_nat j) idx idxs
        | None => idxs ++ [idx]
        end in
    mknode (node_id node) true (node_heir node) idxs'.

  (** The per-node step of [vlsearchleaf] (villa.c 1859-1894): narrowing
      from [left = 1], one step back, then the scan.  [None] is the NULL
      [idxp] the code would dereference if neither loop read an entry. *)
Definition vlsearchleaf_child (k : key) (node : VLNODE) : option Z :=
    let idxs := node_idxs node in
    let ln := zlen idxs in
    let o := vl_narrow idx_key cmp (S (length idxs)) k idxs 1 ln ((1 + ln) /c 2) None in
    let i := if 0 <? n_i o then n_i o - 1 else n_i o in
    match scan_first (idx_gt_step k) i (skipn (Z.to_nat i) idxs) with
    | Some (j, _) =>
        if j =? 0 then Some (node_heir node)
        else option_map idx_pid (nth_error idxs (Z.to_nat (j - 1)))
    | None => option_map idx_pid (if i <? ln then last_opt idxs else n_last o)
    end.

  (** The split of an overflowing node in [vlput] (villa.c 255-271): the
      entry at [mid = ln / 2] moves up, its child becomes the heir of the
      new node, the entries after it are appended to the new node in order,
      and [mid + 1] entries are popped off the end of the old node.  The
      result is (kept entries, promoted entry, entries of the new node). *)
Definition node_split (idxs : list VLIDX) : list VLIDX * option VLIDX * list VLIDX :=
    let ln := length idxs in
    let mid := (ln / 2)%nat in
    (firstn (ln - (mid + 1)) idxs, nth_error idxs mid, skipn (S mid) idxs).

  (** ** References *)

  (** Insert after every separator at or below the key. *)
Fixpoint ref_addidx (k : key) (x : VLIDX) (l : list VLIDX) : list VLIDX :=
    match l with
    | [] => [x]
    | y :: l' => if cmp k (idx_key y) <? 0 then x :: y :: l' else y :: ref_addidx k x l'
    end.

  (** The child of the last separator at or below the key, or the heir. *)
Fixpoint ref_child (k : key) (cur : Z) (l : list VLIDX) : Z :=
    match l with
    | [] => cur
    | y :: l' => if cmp k (idx_key y) <? 0 then cur else ref_child k (idx_pid y) l'
    end.
End NodeOps.

(** ** Proofs *)

Section NodeFacts.
Context (cmp : key -> key -> Z) `{Hc : !Comparator cmp}.
Abbreviation sorted := (key_sorted idx_key cmp).

  (** The scan of [vlnodeaddidx] from the first entry is the reference. *)
Lemma addidx_scan_ref (k : key) (x : VLIDX) (l : list VLIDX) :
    match scan_first (idx_gt_step cmp k) 0 l with
    | Some (j, _) => insert_at (Z.to_nat j) x l
    | None => l ++ [x]
    end = ref_addidx cmp k x l.
  Proof.
    induction l as [|y l IH]; [reflexivity|].
    cbn [scan_first ref_addidx]. unfold idx_gt_step at 1.
    destruct (Z.ltb_spec (cmp k (idx_key y)) 0); [reflexivity|].
    change (0 + 1) with (0 + 1). rewrite (scan_first_shift (B := unit)).
    destruct (scan_first (idx_gt_step cmp k) 0 l) as [[j u]|] eqn:E; cbn.
    - pose proof (scan_first_Some _ _ _ _ _ E) as (_ & _ & _ & Hj & _).
      replace (Z.to_nat (j + 1)) with (S (Z.to_nat j)) by lia. cbn. rewrite <- IH. reflexivity.
    - rewrite <- IH. reflexivity.
  Qed.

  (** The selection of [vlsearchleaf] from the first entry is the
      reference, on a non-empty node. *)
Lemma child_scan_ref (k : key) (heir : Z) (l : list VLIDX) :
    l <> [] ->
    match scan_first (idx_gt_step cmp k) 0 l with
    | Some (j, _) =>
        if j =? 0 then Some heir else option_map idx_pid (nth_error l (Z.to_nat (j - 1)))
    | None => option_map idx_pid (last_opt l)
    end = Some (ref_child cmp k heir l).
  Proof.
    revert heir. induction l as [|y l IH]; intros heir Hne; [congruence|].
    cbn [scan_first ref_child]. unfold idx_gt_step at 1.
    destruct (Z.ltb_spec (cmp k (idx_key y)) 0); [reflexivity|].
    change (0 + 1) with (0 + 1). rewrite (scan_first_shift (B := unit)).
    destruct l as [|z l].
    - reflexivity.
    - specialize (IH (idx_pid y) ltac:(discriminate)).
      destruct (scan_first (idx_gt_step cmp k) 0 (z :: l)) as [[j u]|] eqn:E; cbn [option_map].
      + pose proof (scan_first_Some _ _ _ _ _ E) as (_ & _ & _ & Hj & _).
        destruct (Z.eqb_spec (j + 1) 0); [lia|].
        replace (Z.to_nat (j + 1 - 1)) with (Z.to_nat j) by lia.
        rewrite <- IH. destruct (Z.eqb_spec j 0) as [->|Hj0]; [reflexivity|].
        replace (Z.to_nat j) with (S (Z.to_nat (j - 1))) by lia. reflexivity.
      + rewrite last_opt_cons2. rewrite <- IH. reflexivity.
  Qed.

  (** Every index before the one [vlsearchleaf]'s scan starts from holds a
      separator at or below the key. *)
Lemma searchleaf_scan_start (k : key) (l : list VLIDX) :
    sorted l ->
    let o := vl_narrow idx_key cmp (S (length l)) k l 1 (zlen l) ((1 + zlen l) /c 2) None in
    let i := if 0 <? n_i o then n_i o - 1 else n_i o in
    0 <= i /\ (l <> [] -> i < zlen l) /\
    forall j y, (j < Z.to_nat i)%nat -> nth_error l j = Some y -> idx_gt_step cmp k y = None.
  Proof.
    intros Hs o i. pose proof (vl_narrow_from1 idx_key cmp k l Hs) as (Hb & Hhit & Hmiss).
    fold o in Hb, Hhit, Hmiss.
    assert (Hi : 0 <= i /\ (0 < n_i o -> i = n_i o - 1) /\ (n_i o <= 0 -> i = n_i o)).
    { subst i. destruct (Z.ltb_spec 0 (n_i o)); lia. }
    clearbody i. split; [lia|]. split.
    { intros Hne. destruct l; [congruence|]. rewrite zlen_cons in *. zlen_facts. lia. }
    intros j y Hj Ey. unfold idx_gt_step.
    destruct (Z.ltb_spec (cmp k (idx_key y)) 0) as [L|L]; [exfalso|reflexivity].
    (* the key is below the separator at [j], yet [j] lies before the start *)
    assert (Hj1 : (j + 1 < Z.to_nat (n_i o))%nat) by lia.
    destruct (nth_error l (S j)) as [z|] eqn:Ez;
      [|apply nth_error_None in Ez; unfold zlen in Hb; lia].
    pose proof (sorted_nth_lt idx_key cmp l j (S j) y z Hs ltac:(lia) Ey Ez) as Hyz.
    assert (Hz : 0 < cmp k (idx_key z)).
    { destruct (n_hit o) eqn:H.
      - destruct (Hhit eq_refl) as (w & Ew & _ & Hw & _).
        pose proof (sorted_nth_lt idx_key cmp l (S j) (Z.to_nat (n_i o)) z w Hs ltac:(lia) Ez Ew).
        apply cmp_eq in Hw. subst k. apply cmp_lt_gt; auto.
      - apply (proj1 (Hmiss eq_refl) (Z.of_nat (S j)) z); [lia|]. rewrite Nat2Z.id. exact Ez. }
    pose proof (cmp_trans _ _ _ L Hyz). lia.
  Qed.
End NodeFacts.

Section NodeTheorems.
Context (cmp : key -> key -> Z) `{Hc : !Comparator cmp}.

  (** Sorted insertion of [vlnodeaddidx] (unordered mode) equals the
      reference insertion after every separator at or below the key. *)
Theorem vlnodeaddidx_equiv (pid : Z) (k : key) (node : VLNODE) :
    key_sorted idx_key cmp (node_idxs node) ->
    node_idxs (vlnodeaddidx cmp false pid k node) =
    ref_addidx cmp k (mkidx pid k) (node_idxs node).
  Proof.
    intros Hs. unfold vlnodeaddidx. cbn [node_idxs].
    set (l := node_idxs node) in *.
    pose proof (vl_narrow_from0 idx_key cmp k l Hs) as Hp.
    set (o := vl_narrow idx_key cmp (S (length l)) k l 0 (zlen l) ((0 + zlen l) /c 2) None) in *.
    rewrite <- addidx_scan_ref. pose proof Hp as (Hb & _).
    replace (n_i o) with (Z.of_nat (Z.to_nat (n_i o))) at 1 by lia.
    rewrite scan_first_skip; [reflexivity|].
    intros j x Hj E. pose proof (narrow_post_prefix idx_key cmp k l o Hs Hp j x Hj E).
    unfold idx_gt_step. destruct (Z.ltb_spec (cmp k (idx_key x)) 0); [lia|reflexivity].
  Qed.

Lemma ref_addidx_keys (k : key) (x : VLIDX) (l : list VLIDX) (y : VLIDX) :
    In y (ref_addidx cmp k x l) -> y = x \/ In y l.
  Proof.
    induction l as [|z l IH]; cbn; [intros [<-|[]]; left; reflexivity|].
    destruct (cmp k (idx_key z) <? 0); cbn; [intros [<-|H]; [left; reflexivity | right; exact H]|].
    intros [<-|H]; [right; left; reflexivity|]. destruct (IH H); tauto.
  Qed.

  (** The reference insertion keeps separators strictly sorted when the
      new separator is not already present. *)
Lemma ref_addidx_sorted (k : key) (x : VLIDX) (l : list VLIDX) :
    idx_key x = k -> key_sorted idx_key cmp l ->
    (forall y, In y l -> idx_key y <> k) ->
    key_sorted idx_key cmp (ref_addidx cmp k x l).
  Proof.
    intros Hx Hs Hnot. induction Hs as [|z l Hs IH Hf]; cbn.
    - repeat constructor.
    - destruct (Z.ltb_spec (cmp k (idx_key z)) 0) as [L|L].
      + constructor; [constructor; auto|].
        constructor; [rewrite Hx; exact L|].
        eapply Forall_impl; [|exact Hf]. intros w Hw. rewrite Hx. exact (cmp_trans _ _ _ L Hw).
      + constructor; [apply IH; intros y Hy; apply Hnot; right; exact Hy|].
        apply Forall_forall. intros y Hy. apply ref_addidx_keys in Hy as [->|Hy].
        * rewrite Hx. assert (cmp k (idx_key z) <> 0).
          { intros E. apply cmp_eq in E. apply (Hnot z); [left; reflexivity | symmetry; exact E]. }
          apply cmp_gt_lt; auto. lia.
        * eapply Forall_forall in Hf; [exact Hf | exact Hy].
  Qed.

  (** C6: One step of [vlsearchleaf] in a non-empty sorted node follows the
      child of the last separator at or below the key, or the heir: the
      binary narrowing from index 1, the step back and the scan lose
      nothing. *)
Theorem vlsearchleaf_child_equiv (k : key) (node : VLNODE) :
    key_sorted idx_key cmp (node_idxs node) -> node_idxs node <> [] ->
    vlsearchleaf_child cmp k node = Some (ref_child cmp k (node_heir node) (node_idxs node)).
  Proof.
    intros Hs Hne. unfold vlsearchleaf_child.
    set (l := node_idxs node) in *.
    pose proof (searchleaf_scan_start cmp k l Hs) as (H0 & Hlt & Hskip).
    set (o := vl_narrow idx_key cmp (S (length l)) k l 1 (zlen l) ((1 + zlen l) /c 2) None) in *.
    set (i := if 0 <? n_i o then n_i o - 1 else n_i o) in *.
    specialize (Hlt Hne). clearbody i.
    replace i with (Z.of_nat (Z.to_nat i)) at 1 by lia.
    rewrite (scan_first_skip _ _ _ Hskip).
    destruct (Z.ltb_spec i (zlen l)); [|lia].
    apply child_scan_ref. exact Hne.
  Qed.

  (** The node split of [vlput], which runs only on an odd number of
      entries, partitions them: the kept entries, the promoted one and the
      new node's entries are the old entries in order, half on each
      side. *)
Theorem node_split_odd (idxs : list VLIDX) (m : nat) :
    length idxs = (2 * m + 1)%nat ->
    exists p, node_split idxs = (firstn m idxs, Some p, skipn (S m) idxs) /\
      firstn m idxs ++ p :: skipn (S m) idxs = idxs /\
      length (firstn m idxs) = m /\ length (skipn (S m) idxs) = m.
  Proof.
    intros Hl. unfold node_split. rewrite Hl.
    replace ((2 * m + 1) / 2)%nat with m
      by (apply Nat.div_unique with 1%nat; lia).
    replace (2 * m + 1 - (m + 1))%nat with m by lia.
    destruct (nth_error idxs m) as [p|] eqn:E; [|apply nth_error_None in E; lia].
    exists p. split; [reflexivity|]. split.
    - erewrite (firstn_skipn_nth idxs m p) at 3; [|lia].
      erewrite nth_error_nth; [reflexivity | exact E].
    - rewrite length_firstn, length_skipn. lia.
  Qed.

  (** Were the split run on an even number [2m + 2] of entries (what the
      specification describes), the [mid + 1] pops would keep only [m]
      entries: the entry at index [m], just below the promoted one, would
      be in neither node. *)
Theorem node_split_even_drops (idxs : list VLIDX) (m : nat) :
    length idxs = (2 * m + 2)%nat ->
    exists p, node_split idxs = (firstn m idxs, Some p, skipn (S (S m)) idxs) /\
      length (firstn m idxs ++ p :: skipn (S (S m)) idxs) = (length idxs - 1)%nat.
  Proof.
    intros Hl. unfold node_split. rewrite Hl.
    replace ((2 * m + 2) / 2)%nat with (S m)
      by (apply Nat.div_unique with 0%nat; lia).
    replace (2 * m + 2 - (S m + 1))%nat with m by lia.
    destruct (nth_error idxs (S m)) as [p|] eqn:E; [|apply nth_error_None in E; lia].
    exists p. split; [reflexivity|].
    rewrite length_app. cbn [length]. rewrite length_firstn, length_skipn. lia.
  Qed.
End NodeTheorems.

(** ** Witnesses under the lexical comparator *)

Definition node_bdf : VLNODE :=
  mknode 100000000 false 1 [mkidx 2 [98]; mkidx 3 [100]; mkidx 4 [102]].

Lemma node_bdf_sorted : key_sorted idx_key vllexcompare (node_idxs node_bdf).
Proof. unfold key_sorted. cbn. repeat constructor; cbn; lia. Qed.

Lemma vlnodeaddidx_equiv_witness :
  node_idxs (vlnodeaddidx vllexcompare false 5 [99] node_bdf) =
  [mkidx 2 [98]; mkidx 5 [99]; mkidx 3 [100]; mkidx 4 [102]] /\
  node_idxs (vlnodeaddidx vllexcompare false 5 [99] node_bdf) =
  ref_addidx vllexcompare [99] (mkidx 5 [99]) (node_idxs node_bdf).
Proof.
  split; [reflexivity|]. apply (vlnodeaddidx_equiv vllexcompare 5 [99] node_bdf node_bdf_sorted).
Defined.

Lemma vlsearchleaf_child_equiv_witness :
  vlsearchleaf_child vllexcompare [101] node_bdf = Some 3 /\
  vlsearchleaf_child vllexcompare [97] node_bdf = Some 1 /\
  vlsearchleaf_child vllexcompare [101] node_bdf =
  Some (ref_child vllexcompare [101] (node_heir node_bdf) (node_idxs node_bdf)).
Proof.
  split; [reflexivity|]. split; [reflexivity|].
  apply (vlsearchleaf_child_equiv vllexcompare [101] node_bdf node_bdf_sorted). discriminate.
Defined.

Lemma node_split_odd_witness :
  node_split [mkidx 2 [98]; mkidx 3 [100]; mkidx 4 [102]] =
  ([mkidx 2 [98]], Some (mkidx 3 [100]), [mkidx 4 [102]]) /\
  exists p, node_split (node_idxs node_bdf) =
    (firstn 1 (node_idxs node_bdf), Some p, skipn 2 (node_idxs node_bdf)) /\
    firstn 1 (node_idxs node_bdf) ++ p :: skipn 2 (node_idxs node_bdf) = node_idxs node_bdf /\
    length (firstn 1 (node_idxs node_bdf)) = 1%nat /\ length (skipn 2 (node_idxs node_bdf)) = 1%nat.
Proof.
  split; [reflexivity|]. apply (node_split_odd (node_idxs node_bdf) 1). reflexivity.
Defined.

Lemma node_split_even_drops_witness :
  node_split [mkidx 2 [98]; mkidx 3 [100]; mkidx 4 [102]; mkidx 5 [104]] =
  ([mkidx 2 [98]], Some (mkidx 4 [102]), [mkidx 5 [104]]) /\
  exists p, node_split [mkidx 2 [98]; mkidx 3 [100]; mkidx 4 [102]; mkidx 5 [104]] =
    (firstn 1 [mkidx 2 [98]; mkidx 3 [100]; mkidx 4 [102]; mkidx 5 [104]], Some p,
     skipn 3 [mkidx 2 [98]; mkidx 3 [100]; mkidx 4 [102]; mkidx 5 [104]]) /\
    length (firstn 1 [mkidx 2 [98]; mkidx 3 [100]; mkidx 4 [102]; mkidx 5 [104]] ++
            p :: skipn 3 [mkidx 2 [98]; mkidx 3 [100]; mkidx 4 [102]; mkidx 5 [104]]) = 3%nat.
Proof.
  split; [reflexivity|].
  apply (node_split_even_drops [mkidx 2 [98]; mkidx 3 [100]; mkidx 4 [102]; mkidx 5 [104]] 1).
  reflexivity.
Defined.
