(* ===== verification/Cache.v ===== *)
(** * Cache: the insertion-ordered map of cabin.c used as Villa's page caches

    [CBMAP] (cabin.h 53-75, cabin.c 708-1050) is a hash map whose entries
    are also threaded on a doubly linked list in insertion order
    ([first], [last], [prev], [next]); iteration follows that list.  Villa
    keeps its leaf cache and its node cache in two such maps, keyed by the
    [int] page id.  The bucket array and the per-bucket binary trees only
    index the entries of the list by key, so the model keeps the list: an
    association list in iteration order, with at most one entry per key.
    [cbmapput] with [over] replaces a value in place and otherwise appends;
    [cbmapmove] unlinks an entry and relinks it at one end. *)

From Stdlib Require Import ZArith Lia List Bool.
From S2P Require Import Prelude.
Import ListNotations.
Open Scope Z_scope.

(** ** Keys

    [CBMAP] compares keys by their regions ([cbkeycmp], cabin.c 2826).
    The map is generic in its key type through this interface: a boolean
    equality that reflects [=].  Villa's caches use [int] page ids
    ([KeyEq_Z]); the maps [cbmapdump] and [cbmapload] serialize have byte
    strings as keys ([KeyEq_bytes]). *)
Class KeyEq (K : Type) := {
  keqb : K -> K -> bool;
  keqb_spec : forall a b, reflect (a = b) (keqb a b)
}.

#[export] Instance KeyEq_Z : KeyEq Z := { keqb := Z.eqb; keqb_spec := Z.eqb_spec }.

Definition bytes_eqb (a b : list Z) : bool := if list_eq_dec Z.eq_dec a b then true else false.

Lemma bytes_eqb_spec (a b : list Z) : reflect (a = b) (bytes_eqb a b).
Proof. unfold bytes_eqb. destruct (list_eq_dec Z.eq_dec a b); constructor; assumption. Qed.

#[export] Instance KeyEq_bytes : KeyEq (list Z) := { keqb := bytes_eqb; keqb_spec := bytes_eqb_spec }.

Definition keq_dec {K : Type} `{KeyEq K} (a b : K) : {a = b} + {a <> b} := reflect_dec _ _ (keqb_spec a b).

(** The entries of a map, in the order of its linked list; [cbmap] is a
    map with [int] keys, the caches of Villa. *)
Definition kmap (K V : Type) : Type := list (K * V).
Definition cbmap (V : Type) : Type := kmap Z V.

Section CbMap.
Context {K V : Type} `{HK : KeyEq K}.
Implicit Types (m : kmap K V) (k : K).

(** [cbmapget] (cabin.c 952-977): the value of the entry with the key. *)
Fixpoint cbmapget m k : option V :=
  match m with
  | [] => None
  | (k', v) :: m' => if keqb k' k then Some v else cbmapget m' k
  end.

Fixpoint cbmap_replace m k (v : V) : kmap K V :=
  match m with
  | [] => []
  | (k', v') :: m' => if keqb k' k then (k', v) :: m' else (k', v') :: cbmap_replace m' k v
  end.

(** [cbmapput] (cabin.c 747-803): an existing key keeps its place and,
    with [over], takes the new value; a new key is linked after [last].
    The boolean is the function's result. *)
Definition cbmapput m k (v : V) (over : bool) : kmap K V * bool :=
  match cbmapget m k with
  | Some _ => if over then (cbmap_replace m k v, true) else (m, false)
  | None => (m ++ [(k, v)], true)
  end.

(** Unlinking the entry with the key. *)
Fixpoint cbmap_unlink m k : kmap K V :=
  match m with
  | [] => []
  | (k', v') :: m' => if keqb k' k then m' else (k', v') :: cbmap_unlink m' k
  end.

(** [cbmapout] (cabin.c 866-949). *)
Definition cbmapout m k : kmap K V * bool :=
  match cbmapget m k with
  | Some _ => (cbmap_unlink m k, true)
  | None => (m, false)
  end.

(** [cbmapmove] (cabin.c 981-1024): relink the entry at the head or at the
    end of the list; an entry already there stays. *)
Definition cbmapmove m k (head : bool) : kmap K V * bool :=
  match cbmapget m k with
  | Some v =>
      if head then ((k, v) :: cbmap_unlink m k, true)
      else (cbmap_unlink m k ++ [(k, v)], true)
  | None => (m, false)
  end.

(** [cbmaprnum] (cabin.c 1047-1050). *)
Definition cbmaprnum m : Z := zlen m.

(** The keys in the order [cbmapiterinit] / [cbmapiternext]
    (cabin.c 1028-1043) return them. *)
Definition cbmap_iter m : list K := map fst m.

(** The representation invariant: one entry per key. *)
Definition cbmap_ok m : Prop := NoDup (cbmap_iter m).

(** The key of the entry at [map->last]. *)
Definition last_key m : option K := option_map fst (last (map Some m) None).
End CbMap.

(** ** Lemmas *)

Section CbMapFacts.
Context {K V : Type} `{HK : KeyEq K}.
Implicit Types (m : kmap K V) (k : K) (v : V).

Lemma cbmapget_app m1 m2 k :
  cbmapget (m1 ++ m2) k = match cbmapget m1 k with Some v => Some v | None => cbmapget m2 k end.
Proof.
  induction m1 as [|[k' v'] m1 IH]; cbn; [reflexivity|].
  destruct (keqb k' k); [reflexivity | exact IH].
Qed.

Lemma cbmapget_In m k v : cbmapget m k = Some v -> In k (cbmap_iter m).
Proof.
  induction m as [|[k' v'] m IH]; cbn; [discriminate|].
  destruct (keqb_spec k' k); [left; assumption | right; auto].
Qed.

Lemma cbmapget_notin m k : ~ In k (cbmap_iter m) -> cbmapget m k = None.
Proof.
  induction m as [|[k' v'] m IH]; cbn; [reflexivity|]. intros H.
  destruct (keqb_spec k' k); [exfalso; apply H; left; assumption|].
  apply IH. intros Hin. apply H. right. exact Hin.
Qed.

Lemma cbmap_replace_keys m k v : cbmap_iter (cbmap_replace m k v) = cbmap_iter m.
Proof.
  induction m as [|[k' v'] m IH]; cbn; [reflexivity|].
  destruct (keqb k' k); cbn; [reflexivity | f_equal; exact IH].
Qed.

Lemma cbmap_replace_get m k v k' :
  In k (cbmap_iter m) ->
  cbmapget (cbmap_replace m k v) k' = if keqb k k' then Some v else cbmapget m k'.
Proof.
  induction m as [|[k0 v0] m IH]; cbn; [intros []|]. intros Hin.
  destruct (keqb_spec k0 k) as [->|Hne]; cbn.
  - destruct (keqb_spec k k'); reflexivity.
  - destruct Hin as [->|Hin]; [congruence|]. rewrite IH by exact Hin.
    destruct (keqb_spec k0 k'), (keqb_spec k k'); subst; congruence.
Qed.

Lemma cbmap_unlink_keys m k :
  cbmap_ok m -> cbmap_iter (cbmap_unlink m k) = List.remove keq_dec k (cbmap_iter m).
Proof.
  unfold cbmap_ok. induction m as [|[k' v'] m IH]; cbn; intros Hnd; [reflexivity|].
  apply NoDup_cons_iff in Hnd as [Hn Hnd'].
  destruct (keqb_spec k' k) as [->|Hne].
  - destruct (keq_dec k k) as [_|]; [|congruence].
    symmetry. apply notin_remove. exact Hn.
  - destruct (keq_dec k k') as [|_]; [congruence|]. cbn. f_equal. exact (IH Hnd').
Qed.

Lemma cbmap_unlink_get m k k' :
  cbmap_ok m -> cbmapget (cbmap_unlink m k) k' = if keqb k k' then None else cbmapget m k'.
Proof.
  unfold cbmap_ok. induction m as [|[k0 v0] m IH]; cbn; intros Hnd.
  - destruct (keqb k k'); reflexivity.
  - apply NoDup_cons_iff in Hnd as [Hn Hnd'].
    destruct (keqb_spec k0 k) as [->|Hne]; cbn.
    + destruct (keqb_spec k k') as [Ek|]; [|reflexivity].
      rewrite <- Ek. apply cbmapget_notin. exact Hn.
    + rewrite IH by exact Hnd'. destruct (keqb_spec k0 k'), (keqb_spec k k'); subst; congruence.
Qed.

Lemma NoDup_remove_K (l : list K) k : NoDup l -> NoDup (List.remove keq_dec k l).
Proof.
  induction l as [|x l IH]; cbn; intros H; [constructor|].
  apply NoDup_cons_iff in H as [Hn H'].
  destruct (keq_dec k x); [exact (IH H')|].
  constructor; [|exact (IH H')]. intros Hin. apply in_remove in Hin as [Hin _]. contradiction.
Qed.

Lemma NoDup_snoc_K (l : list K) k : NoDup l -> ~ In k l -> NoDup (l ++ [k]).
Proof.
  induction l as [|x l IH]; cbn; intros H Hn.
  - constructor; [intros []|constructor].
  - apply NoDup_cons_iff in H as [Hx H']. constructor.
    + rewrite in_app_iff. intros [Hin|[Hk|[]]]; [contradiction|]. subst. apply Hn. left. reflexivity.
    + apply IH; [exact H'|]. intros Hin. apply Hn. right. exact Hin.
Qed.

#[local] Hint Resolve NoDup_remove_K NoDup_snoc_K : vl.
End CbMapFacts.

Section CbMapTheorems.
Context {K V : Type} `{HK : KeyEq K}.
Implicit Types (m : kmap K V) (k : K) (v : V).

Lemma cbmap_unlink_ok m k : cbmap_ok m -> cbmap_ok (cbmap_unlink m k).
Proof. intros H. unfold cbmap_ok. rewrite cbmap_unlink_keys by exact H. apply NoDup_remove_K, H. Qed.

Lemma cbmap_unlink_length m k :
  cbmap_ok m -> In k (cbmap_iter m) -> length (cbmap_unlink m k) = (length m - 1)%nat.
Proof.
  unfold cbmap_ok. induction m as [|[k0 v0] m IH]; cbn; intros Hnd Hin; [destruct Hin|].
  apply NoDup_cons_iff in Hnd as [Hn Hnd'].
  destruct (keqb_spec k0 k) as [E|E]; cbn; [lia|].
  destruct Hin as [Hin|Hin]; [congruence|]. rewrite IH by assumption.
  destruct m; cbn in *; [destruct Hin|lia].
Qed.

Lemma cbmapget_None_notin m k : cbmapget m k = None -> ~ In k (cbmap_iter m).
Proof.
  induction m as [|[k0 v0] m IH]; cbn; [intros _ []|].
  destruct (keqb_spec k0 k); [discriminate|]. intros H [E|Hin]; [congruence | exact (IH H Hin)].
Qed.

Lemma cbmap_iter_app m1 m2 : cbmap_iter (m1 ++ m2) = cbmap_iter m1 ++ cbmap_iter m2.
Proof. apply map_app. Qed.

(** [cbmapput] with [over] keeps one entry per key, makes the key map to
    the new value and leaves the other keys alone; a new key is linked
    last in iteration order, an existing one keeps its place. *)
Theorem cbmapput_spec m k v :
  cbmap_ok m ->
  cbmap_ok (fst (cbmapput m k v true)) /\
  (forall k', cbmapget (fst (cbmapput m k v true)) k' =
              if keqb k k' then Some v else cbmapget m k') /\
  (cbmapget m k = None -> cbmap_iter (fst (cbmapput m k v true)) = cbmap_iter m ++ [k]) /\
  (cbmapget m k <> None -> cbmap_iter (fst (cbmapput m k v true)) = cbmap_iter m).
Proof.
  intros Hok. unfold cbmapput.
  destruct (cbmapget m k) as [w|] eqn:E; cbn [fst].
  - pose proof (cbmapget_In m k w E) as Hin.
    split; [unfold cbmap_ok; rewrite cbmap_replace_keys; exact Hok|].
    split; [intros k'; apply cbmap_replace_get; exact Hin|].
    split; [discriminate|]. intros _. apply cbmap_replace_keys.
  - pose proof (cbmapget_None_notin m k E) as Hn.
    split; [unfold cbmap_ok; rewrite cbmap_iter_app; apply NoDup_snoc_K; assumption|].
    split; [|split; [intros _; apply cbmap_iter_app | congruence]].
    intros k'. rewrite cbmapget_app. cbn.
    destruct (cbmapget m k') eqn:E'; destruct (keqb_spec k k'); subst; congruence.
Qed.

(** [cbmapmove] to the end ([vlleafload] / [vlnodeload] on a cache hit)
    keeps the same entries and makes the key the last one in iteration
    order, so the next batch [vlcacheadjust] evicts comes from the least
    recently loaded pages. *)
Theorem cbmapmove_spec m k v :
  cbmap_ok m -> cbmapget m k = Some v ->
  cbmap_ok (fst (cbmapmove m k false)) /\
  (forall k', cbmapget (fst (cbmapmove m k false)) k' = cbmapget m k') /\
  last_key (fst (cbmapmove m k false)) = Some k /\
  cbmaprnum (fst (cbmapmove m k false)) = cbmaprnum m.
Proof.
  intros Hok E. unfold cbmapmove. rewrite E. cbn [fst].
  pose proof (cbmapget_In m k v E) as Hin.
  split.
  { unfold cbmap_ok. rewrite cbmap_iter_app, cbmap_unlink_keys by exact Hok.
    apply NoDup_snoc_K; [apply NoDup_remove_K, Hok|]. apply remove_In. }
  split.
  { intros k'. rewrite cbmapget_app, cbmap_unlink_get by exact Hok. cbn.
    destruct (keqb_spec k k'); subst; [rewrite E; reflexivity|].
    destruct (cbmapget m k'); reflexivity. }
  split.
  { unfold last_key. rewrite map_app. cbn [map]. rewrite last_last. reflexivity. }
  unfold cbmaprnum, zlen. rewrite length_app, cbmap_unlink_length by assumption. cbn.
  rewrite Nat.add_1_r. destruct m; [destruct Hin|]. cbn [length]. rewrite Nat.sub_1_r, Nat.pred_succ. reflexivity.
Qed.

(** [cbmapout] removes the key, keeps one entry per key and the other
    entries, and the count drops by one exactly when the key was there. *)
Theorem cbmapout_spec m k :
  cbmap_ok m ->
  cbmap_ok (fst (cbmapout m k)) /\
  (forall k', cbmapget (fst (cbmapout m k)) k' = if keqb k k' then None else cbmapget m k') /\
  cbmaprnum (fst (cbmapout m k)) = cbmaprnum m - (if snd (cbmapout m k) then 1 else 0).
Proof.
  intros Hok. unfold cbmapout. destruct (cbmapget m k) as [w|] eqn:E; cbn [fst snd].
  - pose proof (cbmapget_In m k w E) as Hin.
    split; [apply cbmap_unlink_ok, Hok|]. split; [intros k'; apply cbmap_unlink_get, Hok|].
    unfold cbmaprnum, zlen. rewrite cbmap_unlink_length by assumption.
    destruct m; [destruct Hin|]. cbn [length]. rewrite Nat.sub_1_r, Nat.pred_succ. lia.
  - split; [exact Hok|]. split; [|lia].
    intros k'. destruct (keqb_spec k k'); subst; [exact E|reflexivity].
Qed.
End CbMapTheorems.

(** ** Witnesses: a leaf cache holding pages 1, 3 and 2, in that order *)

Definition cache_132 : cbmap Z := [(1, 10); (3, 30); (2, 20)].

Lemma cache_132_ok : cbmap_ok cache_132.
Proof. unfold cbmap_ok, cbmap_iter, cache_132. cbn. repeat constructor; cbn; intuition lia. Qed.

Lemma cbmapput_spec_witness :
  fst (cbmapput cache_132 4 40 true) = [(1, 10); (3, 30); (2, 20); (4, 40)] /\
  cbmapget (fst (cbmapput cache_132 4 40 true)) 4 = Some 40.
Proof.
  split; [reflexivity|].
  destruct (cbmapput_spec cache_132 4 40 cache_132_ok) as (_ & G & _). rewrite G. reflexivity.
Defined.

Lemma cbmapmove_spec_witness :
  fst (cbmapmove cache_132 1 false) = [(3, 30); (2, 20); (1, 10)] /\
  last_key (fst (cbmapmove cache_132 1 false)) = Some 1.
Proof.
  split; [reflexivity|].
  exact (proj1 (proj2 (proj2 (cbmapmove_spec cache_132 1 10 cache_132_ok eq_refl)))).
Defined.

Lemma cbmapout_spec_witness :
  cbmapget (fst (cbmapout cache_132 3)) 3 = None /\
  cbmaprnum (fst (cbmapout cache_132 3)) = 2.
Proof.
  destruct (cbmapout_spec cache_132 3 cache_132_ok) as (_ & G & N). split.
  - rewrite G. reflexivity.
  - rewrite N. reflexivity.
Defined.
