(* ===== verification/Codec.v ===== *)
(** * Codec: the page formats of villa.c

    A page leaves the cache as a byte string stored in the Depot under its
    id.  [vlleafsave] (villa.c 1402-1468) writes a leaf as varints and raw
    bytes: [prev], [next] (with -1 written as [VL_NODEIDMIN - 1]), then per
    record the key size and key, the number of values, and each value's
    size and bytes.  [vlnodesave] (villa.c 1705-1737) writes the heir, then
    per entry the child id, the key size and the key.  [vlleafload]
    (villa.c 1475-1554) and [vlnodeload] (villa.c 1744-1789) parse them
    back with a read pointer [rp] and a count [size] of the bytes left;
    both move together, so [rp - buf + size] is always the buffer size.

    The parsers here keep [rp] as an offset into the buffer [dpget]
    returns, followed by the terminating zero [dpget] appends.  A read at
    an offset outside that memory is undefined behaviour in C and the
    result [POob] here.  Sizes are trusted as the code trusts them: a
    negative size, which [vlreadvnumbuf] returns for a last byte at or
    above 0x80, makes [cbdatumopen] and [cblistpush] copy up to the next
    zero byte, and moves [rp] backwards.  Compression ([zmode], zlib) is
    not modelled: the pages are the raw buffers. *)

From Stdlib Require Import ZArith Lia List Bool.
From S2P Require Import Prelude Varint Compare Search Leaf Node.
Import ListNotations.
Open Scope Z_scope.
Open Scope vl_scope.

Definition VL_LEAFIDMIN : Z := 1.
Definition VL_NODEIDMIN : Z := 100000000.

(** The outcome of a parse: a value, a read outside the buffer, or the
    loop bound of the model exhausted. *)
Inductive pres (A : Type) : Type :=
| PDone (a : A)
| POob
| PFuel.
Arguments PDone {A} a.
Arguments POob {A}.
Arguments PFuel {A}.

(** ** Writers *)

Definition vnum_chunk (v : list Z) : list Z := vlsetvnumbuf (zlen v) ++ v.

(** The bytes [vlleafsave] appends for one record (villa.c 1417-1436). *)
Definition rec_buf (r : VLREC) : list Z :=
  vnum_chunk (rec_key r) ++ vlsetvnumbuf (1 + zlen (rec_rest r)) ++
  vnum_chunk (rec_first r) ++ flat_map vnum_chunk (rec_rest r).

(** The link as [vlleafsave] writes it: -1 becomes [VL_NODEIDMIN - 1]. *)
Definition link_out (l : Z) : Z := if l =? -1 then VL_NODEIDMIN - 1 else l.

(** The buffer of [vlleafsave] (villa.c 1402-1436). *)
Definition vlleafsave_buf (leaf : VLLEAF) : list Z :=
  vlsetvnumbuf (link_out (leaf_prev leaf)) ++ vlsetvnumbuf (link_out (leaf_next leaf)) ++
  flat_map rec_buf (leaf_recs leaf).

(** The bytes [vlnodesave] appends for one entry (villa.c 1716-1725). *)
Definition idx_buf (x : VLIDX) : list Z := vlsetvnumbuf (idx_pid x) ++ vnum_chunk (idx_key x).

(** The buffer of [vlnodesave] (villa.c 1705-1725). *)
Definition vlnodesave_buf (node : VLNODE) : list Z :=
  vlsetvnumbuf (node_heir node) ++ flat_map idx_buf (node_idxs node).

(** ** Reading the buffer *)

(** [vlreadvnumbuf(rp, size, &step)] with [rp] at offset [pos] of the
    memory [m]: the buffer and its terminating zero. *)
Definition readv (m : list Z) (pos size : Z) : option (Z * Z) :=
  if (pos <? 0) || (zlen m <=? pos) then None
  else Some (vlreadvnumbuf (firstn (Z.to_nat size) (skipn (Z.to_nat pos) m))).

(** [strlen] from a position, which a negative size makes [cbdatumcat] and
    [cblistpush] use. *)
Fixpoint take_cstr (l : list Z) : list Z :=
  match l with
  | [] => []
  | c :: r => if c =? 0 then [] else c :: take_cstr r
  end.

(** The bytes [cbdatumopen(ptr, n)] or [cblistpush(list, ptr, n)] copy
    with [ptr] at offset [pos]. *)
Definition datum_at (m : list Z) (pos n : Z) : list Z :=
  if n <? 0 then take_cstr (skipn (Z.to_nat pos) m)
  else firstn (Z.to_nat n) (skipn (Z.to_nat pos) m).

(** ** The leaf parser of [vlleafload] *)

(** The [for(i = 0; i < vnum && size >= 1; i++)] loop over the values of a
    record (villa.c 1526-1541).  [rec] is the C variable of the same name,
    shared by the iterations; the loop runs at most [vnum] times, which is
    its fuel. *)
Fixpoint vals_loop (m : list Z) (fuel : nat) (kpos ksiz i vnum pos size : Z) (rec : VLREC)
  : pres (Z * Z * Z * VLREC) :=
  match fuel with
  | O => PDone (i, pos, size, rec)
  | S f =>
      if (i <? vnum) && (1 <=? size) then
        match readv m pos size with
        | None => POob
        | Some (vsiz, step) =>
            let pos := pos + step in
            let size := size - step in
            if size <? vsiz then PDone (i, pos, size, rec)
            else
              let v := datum_at m pos vsiz in
              let rec :=
                if i <? 1 then mkrec (datum_at m kpos ksiz) v []
                else mkrec (rec_key rec) (rec_first rec) (rec_rest rec ++ [v]) in
              vals_loop m f kpos ksiz (i + 1) vnum (pos + vsiz) (size - vsiz) rec
        end
      else PDone (i, pos, size, rec)
  end.

(** The [while(size >= 1)] loop over the records (villa.c 1514-1543). *)
Fixpoint recs_loop (m : list Z) (fuel : nat) (pos size : Z) (rec : VLREC) (acc : list VLREC)
  : pres (list VLREC) :=
  match fuel with
  | O => PFuel
  | S f =>
      if 1 <=? size then
        match readv m pos size with
        | None => POob
        | Some (ksiz, step) =>
            let pos := pos + step in
            let size := size - step in
            if size <? ksiz then PDone acc
            else
              let kpos := pos in
              let pos := pos + ksiz in
              let size := size - ksiz in
              match readv m pos size with
              | None => POob
              | Some (vnum, step) =>
                  let pos := pos + step in
                  let size := size - step in
                  if (vnum <? 1) || (size <? 1) then PDone acc
                  else
                    match vals_loop m (Z.to_nat vnum) kpos ksiz 0 vnum pos size rec with
                    | PDone (i, pos, size, rec) =>
                        recs_loop m f pos size rec (if 0 <? i then acc ++ [rec] else acc)
                    | POob => POob
                    | PFuel => PFuel
                    end
              end
        end
      else PDone acc
  end.

(** A link as [vlleafload] reads it back (villa.c 1500-1511). *)
Definition link_in (l : Z) : Z := if VL_NODEIDMIN - 1 <=? l then -1 else l.

(** One of the two leading [if(size >= 1)] reads of [vlleafload]. *)
Definition read_link (m : list Z) (pos size : Z) : option (Z * Z * Z) :=
  if 1 <=? size then
    match readv m pos size with
    | None => None
    | Some (l, step) => Some (link_in l, pos + step, size - step)
    end
  else Some (-1, pos, size).

(** The record the C variable [rec] holds before the first record. *)
Definition rec0 : VLREC := mkrec [] [] [].

(** The parse of [vlleafload] (villa.c 1475-1554, past the cache lookup
    and the [dpget]) of the page [buf] of the leaf [id].  The record loop
    gets one round per byte and one more. *)
Definition vlleafload_buf (id : Z) (buf : list Z) : pres VLLEAF :=
  let m := buf ++ [0] in
  match read_link m 0 (zlen buf) with
  | None => POob
  | Some (prev, pos, size) =>
      match read_link m pos size with
      | None => POob
      | Some (next, pos, size) =>
          match recs_loop m (S (length buf)) pos size rec0 [] with
          | PDone recs => PDone (mkleaf id false recs prev next)
          | POob => POob
          | PFuel => PFuel
          end
      end
  end.

(** ** The node parser of [vlnodeload] *)

(** The [while(size >= 1)] loop over the entries (villa.c 1768-1783). *)
Fixpoint idxs_loop (m : list Z) (fuel : nat) (pos size : Z) (acc : list VLIDX)
  : pres (list VLIDX) :=
  match fuel with
  | O => PFuel
  | S f =>
      if 1 <=? size then
        match readv m pos size with
        | None => POob
        | Some (pid, step) =>
            let pos := pos + step in
            let size := size - step in
            if size <? 1 then PDone acc
            else
              match readv m pos size with
              | None => POob
              | Some (ksiz, step) =>
                  let pos := pos + step in
                  let size := size - step in
                  if size <? ksiz then PDone acc
                  else idxs_loop m f (pos + ksiz) (size - ksiz)
                         (acc ++ [mkidx pid (datum_at m pos ksiz)])
              end
        end
      else PDone acc
  end.

(** The parse of [vlnodeload] (villa.c 1744-1789): [None] is the [NULL]
    it returns on a negative heir. *)
Definition vlnodeload_buf (id : Z) (buf : list Z) : pres (option VLNODE) :=
  let m := buf ++ [0] in
  let hd :=
    if 1 <=? zlen buf then
      match readv m 0 (zlen buf) with
      | None => None
      | Some (h, step) => Some (h, step, zlen buf - step)
      end
    else Some (-1, 0, zlen buf) in
  match hd with
  | None => POob
  | Some (heir, pos, size) =>
      if heir <? 0 then PDone None
      else
        match idxs_loop m (S (length buf)) pos size [] with
        | PDone idxs => PDone (Some (mknode id false heir idxs))
        | POob => POob
        | PFuel => PFuel
        end
  end.

(** ** Well-formed pages *)

(** What the writers need to write numbers [vlreadvnumbuf] reads back:
    every size and count fits in an [int]. *)
Definition chunk_ok (v : list Z) : Prop := zlen v <= INT_MAX.

Definition rec_ok (r : VLREC) : Prop :=
  chunk_ok (rec_key r) /\ chunk_ok (rec_first r) /\ Forall chunk_ok (rec_rest r) /\
  1 + zlen (rec_rest r) <= INT_MAX.

(** A link survives the trip when it is -1 or a leaf id below the
    sentinel [VL_NODEIDMIN - 1]. *)
Definition link_ok (l : Z) : Prop := l = -1 \/ 0 <= l < VL_NODEIDMIN - 1.

Definition leaf_ok (leaf : VLLEAF) : Prop :=
  link_ok (leaf_prev leaf) /\ link_ok (leaf_next leaf) /\ Forall rec_ok (leaf_recs leaf).

Definition idx_ok (x : VLIDX) : Prop := 0 <= idx_pid x <= INT_MAX /\ chunk_ok (idx_key x).

Definition node_ok (node : VLNODE) : Prop :=
  0 <= node_heir node <= INT_MAX /\ Forall idx_ok (node_idxs node).

(** ** Reading what was written *)

Lemma skipn_zlen_app (p x : list Z) : skipn (Z.to_nat (zlen p)) (p ++ x) = x.
Proof. unfold zlen. rewrite Nat2Z.id. induction p; [reflexivity | exact IHp]. Qed.

Lemma firstn_zlen_app (s x : list Z) : firstn (Z.to_nat (zlen s)) (s ++ x) = s.
Proof. unfold zlen. rewrite Nat2Z.id. induction s as [|a s IH]; [reflexivity | cbn; f_equal; exact IH]. Qed.

Lemma readv_at (m p t : list Z) (n pos size : Z) :
  m = p ++ (vlsetvnumbuf n ++ t) ++ [0] -> pos = zlen p -> size = zlen (vlsetvnumbuf n ++ t) ->
  0 <= n <= INT_MAX ->
  readv m pos size = Some (n, zlen (vlsetvnumbuf n)).
Proof.
  intros -> -> -> Hn. unfold readv. pose proof (vset_len n Hn).
  rewrite skipn_zlen_app, firstn_zlen_app, vread_vset by exact Hn.
  replace ((zlen p <? 0) || _) with false; [reflexivity|].
  symmetry. apply orb_false_intro; [apply Z.ltb_ge | apply Z.leb_gt];
    autorewrite with vl_rw; zlen_facts; lia.
Qed.

Lemma datum_at_at (m p d t : list Z) (pos n : Z) :
  m = p ++ d ++ t -> pos = zlen p -> n = zlen d -> datum_at m pos n = d.
Proof.
  intros -> -> ->. unfold datum_at. zlen_facts.
  destruct (Z.ltb_spec (zlen d) 0); [lia|]. rewrite skipn_zlen_app. apply firstn_zlen_app.
Qed.

Lemma vnum_chunk_len (v : list Z) : chunk_ok v -> zlen (vnum_chunk v) >= 1.
Proof.
  intros H. unfold vnum_chunk. pose proof (vset_len (zlen v) ltac:(zlen_facts; unfold chunk_ok in H; lia)).
  autorewrite with vl_rw. zlen_facts. lia.
Qed.


Lemma vnum_chunk_eq (v : list Z) : vnum_chunk v = vlsetvnumbuf (zlen v) ++ v.
Proof. reflexivity. Qed.

(** The side conditions of [readv_at] and [datum_at_at] in a proof that
    walks a buffer: the memory equation or arithmetic on lengths. *)
Ltac codec_side Hm :=
  first [ rewrite Hm; rewrite ?vnum_chunk_eq; rewrite <- !app_assoc; reflexivity
        | rewrite ?vnum_chunk_eq in *; autorewrite with vl_rw in *; unfold chunk_ok in *;
          zlen_facts; lia ].

(** The memory seen from the next position: the prefix grows by what was
    read. *)
Lemma mem_shift (m p a t : list Z) : m = p ++ (a ++ t) ++ [0] -> m = (p ++ a) ++ t ++ [0].
Proof. intros ->. rewrite <- !app_assoc. reflexivity. Qed.

Lemma vals_loop_enc (m : list Z) (vs : list (list Z)) : forall p t fuel kpos ksiz i vnum pos size rec,
  m = p ++ (flat_map vnum_chunk vs ++ t) ++ [0] -> pos = zlen p ->
  size = zlen (flat_map vnum_chunk vs ++ t) ->
  Forall chunk_ok vs -> 1 <= i -> vnum = i + zlen vs -> (length vs <= fuel)%nat ->
  vals_loop m fuel kpos ksiz i vnum pos size rec =
  PDone (vnum, zlen p + zlen (flat_map vnum_chunk vs), zlen t,
         mkrec (rec_key rec) (rec_first rec) (rec_rest rec ++ vs)).
Proof.
  induction vs as [|v vs IH]; intros p t fuel kpos ksiz i vnum pos size [k f r] Hm Hp Hs Hok Hi Hv Hf;
    cbn [flat_map] in *; autorewrite with vl_rw in *; rewrite ?app_nil_r.
  - rewrite app_nil_l in *. subst.
    destruct fuel; cbn [vals_loop]; [|vl_test];
      f_equal; repeat apply (f_equal2 pair); (reflexivity || lia).
  - apply Forall_cons_iff in Hok as [Hv1 Hok']. destruct fuel as [|fuel]; [cbn in Hf; lia|].
    pose proof (vnum_chunk_len v Hv1). rewrite vnum_chunk_eq in *. autorewrite with vl_rw in *.
    zlen_facts. cbn [vals_loop].
    do 3 vl_test. rewrite <- !app_assoc in Hm.
    rewrite (readv_at m p (v ++ flat_map vnum_chunk vs ++ t) (zlen v)) by codec_side Hm.
    vl_test.
    rewrite (datum_at_at m (p ++ vlsetvnumbuf (zlen v)) v (flat_map vnum_chunk vs ++ t ++ [0]))
      by codec_side Hm.
    cbn [rec_key rec_first rec_rest length] in *.
    rewrite (IH (p ++ vlsetvnumbuf (zlen v) ++ v) t fuel) by (assumption || codec_side Hm).
    cbn [rec_key rec_first rec_rest]. rewrite <- app_assoc. autorewrite with vl_rw.
    f_equal. repeat apply (f_equal2 pair); (reflexivity || lia).
Qed.

(** The value loop from [i = 0]: the first value opens the record with the
    key at [kpos], the others follow it. *)
Lemma vals_loop_rec (m p t : list Z) (v : list Z) (vs : list (list Z)) kpos ksiz vnum pos size rec :
  m = p ++ (vnum_chunk v ++ flat_map vnum_chunk vs ++ t) ++ [0] -> pos = zlen p ->
  size = zlen (vnum_chunk v ++ flat_map vnum_chunk vs ++ t) ->
  chunk_ok v -> Forall chunk_ok vs -> vnum = 1 + zlen vs ->
  vals_loop m (Z.to_nat vnum) kpos ksiz 0 vnum pos size rec =
  PDone (vnum, zlen p + zlen (vnum_chunk v ++ flat_map vnum_chunk vs), zlen t,
         mkrec (datum_at m kpos ksiz) v vs).
Proof.
  intros Hm Hp Hs Hv Hvs Hn. pose proof (vnum_chunk_len v Hv).
  rewrite vnum_chunk_eq in *. autorewrite with vl_rw in *. zlen_facts.
  replace (Z.to_nat vnum) with (S (length vs)) by (unfold zlen in Hn; lia).
  cbn [vals_loop]. do 3 vl_test. rewrite <- !app_assoc in Hm.
  rewrite (readv_at m p (v ++ flat_map vnum_chunk vs ++ t) (zlen v)) by codec_side Hm.
  vl_test.
  rewrite (datum_at_at m (p ++ vlsetvnumbuf (zlen v)) v (flat_map vnum_chunk vs ++ t ++ [0])
             (pos + zlen (vlsetvnumbuf (zlen v))) (zlen v)) by codec_side Hm.
  rewrite (vals_loop_enc m vs (p ++ vlsetvnumbuf (zlen v) ++ v) t (length vs))
    by (assumption || lia || codec_side Hm).
  cbn [rec_key rec_first rec_rest app]. autorewrite with vl_rw.
  f_equal. repeat apply (f_equal2 pair); (reflexivity || lia).
Qed.

Lemma rec_buf_eq (r : VLREC) :
  rec_buf r = vnum_chunk (rec_key r) ++ vlsetvnumbuf (1 + zlen (rec_rest r)) ++
              vnum_chunk (rec_first r) ++ flat_map vnum_chunk (rec_rest r).
Proof. reflexivity. Qed.

Lemma rec_buf_len (r : VLREC) : rec_ok r -> zlen (rec_buf r) >= 1.
Proof.
  intros (Hk & _). unfold rec_buf. pose proof (vnum_chunk_len _ Hk).
  autorewrite with vl_rw. zlen_facts. lia.
Qed.

Lemma flat_map_length_ge {A B} (f : A -> list B) (l : list A) :
  (forall x, In x l -> (1 <= length (f x))%nat) -> (length l <= length (flat_map f l))%nat.
Proof.
  induction l as [|x l IH]; intros H; cbn; [lia|]. rewrite length_app.
  pose proof (H x (or_introl eq_refl)). pose proof (IH (fun y Hy => H y (or_intror Hy))). lia.
Qed.

Lemma recs_buf_length (recs : list VLREC) :
  Forall rec_ok recs -> (length recs <= length (flat_map rec_buf recs))%nat.
Proof.
  intros H. apply flat_map_length_ge. intros r Hin.
  pose proof (rec_buf_len r (proj1 (Forall_forall _ _) H r Hin)). unfold zlen in *. lia.
Qed.

(** The record loop over the records of a saved leaf: all of them come
    back, in order, and the loop leaves at the end of the buffer. *)
Lemma recs_loop_enc (m : list Z) (recs : list VLREC) : forall p fuel pos size rec acc,
  m = p ++ flat_map rec_buf recs ++ [0] -> pos = zlen p ->
  size = zlen (flat_map rec_buf recs) -> Forall rec_ok recs -> (length recs < fuel)%nat ->
  recs_loop m fuel pos size rec acc = PDone (acc ++ recs).
Proof.
  induction recs as [|r recs IH]; intros p fuel pos size rec acc Hm Hp Hs Hok Hf;
    destruct fuel as [|fuel]; cbn [length] in Hf; try lia; cbn [flat_map] in *.
  - cbn [recs_loop]. rewrite Hs. cbn. rewrite app_nil_r. reflexivity.
  - apply Forall_cons_iff in Hok as [Hr Hok]. pose proof (rec_buf_len r Hr) as Hl.
    destruct r as [k f rest]. destruct Hr as (Hk & Hf1 & Hrest & Hn). cbn [rec_key rec_first rec_rest] in *.
    pose proof (vset_len (1 + zlen rest) ltac:(zlen_facts; lia)).
    rewrite rec_buf_eq in *. cbn [rec_key rec_first rec_rest] in *.
    pose proof (vnum_chunk_len f Hf1). rewrite !vnum_chunk_eq in *. autorewrite with vl_rw in *. zlen_facts.
    cbn [recs_loop]. vl_test. rewrite <- !app_assoc in Hm.
    rewrite (readv_at m p (k ++ vlsetvnumbuf (1 + zlen rest) ++ vlsetvnumbuf (zlen f) ++ f ++ flat_map vnum_chunk rest ++ flat_map rec_buf recs)
               (zlen k)) by codec_side Hm. vl_test.
    rewrite (readv_at m (p ++ vlsetvnumbuf (zlen k) ++ k) (vlsetvnumbuf (zlen f) ++ f ++ flat_map vnum_chunk rest ++ flat_map rec_buf recs)
               (1 + zlen rest)) by codec_side Hm.
    do 2 vl_test.
    rewrite (vals_loop_rec m (p ++ vlsetvnumbuf (zlen k) ++ k ++ vlsetvnumbuf (1 + zlen rest))
               (flat_map rec_buf recs) f rest) by (assumption || codec_side Hm).
    rewrite (datum_at_at m (p ++ vlsetvnumbuf (zlen k)) k
               (vlsetvnumbuf (1 + zlen rest) ++ vnum_chunk f ++ flat_map vnum_chunk rest ++
                flat_map rec_buf recs ++ [0])) by codec_side Hm.
    vl_test. replace (acc ++ _ :: recs) with ((acc ++ [mkrec k f rest]) ++ recs)
      by (rewrite <- app_assoc; reflexivity).
    apply (IH (p ++ vlsetvnumbuf (zlen k) ++ k ++ vlsetvnumbuf (1 + zlen rest) ++
               vnum_chunk f ++ flat_map vnum_chunk rest)); (assumption || lia || codec_side Hm).
Qed.

Lemma link_out_range (l : Z) : l = -1 \/ 0 <= l <= INT_MAX -> 0 <= link_out l <= INT_MAX.
Proof. unfold link_out, VL_NODEIDMIN, INT_MAX. intros H. vl_case_test; lia. Qed.

(** A leaf whose links are -1 or [int]s comes back with its records and
    with each link passed through [link_out] and [link_in]. *)
Lemma vlleafload_save (leaf : VLLEAF) :
  (leaf_prev leaf = -1 \/ 0 <= leaf_prev leaf <= INT_MAX) ->
  (leaf_next leaf = -1 \/ 0 <= leaf_next leaf <= INT_MAX) ->
  Forall rec_ok (leaf_recs leaf) ->
  vlleafload_buf (leaf_id leaf) (vlleafsave_buf leaf) =
  PDone (mkleaf (leaf_id leaf) false (leaf_recs leaf)
           (link_in (link_out (leaf_prev leaf))) (link_in (link_out (leaf_next leaf)))).
Proof.
  intros Hp Hn Hr. destruct leaf as [id d recs prev next]; cbn [leaf_id leaf_prev leaf_next leaf_recs] in *.
  apply link_out_range in Hp, Hn. pose proof (vset_len _ Hp). pose proof (vset_len _ Hn).
  unfold vlleafload_buf, vlleafsave_buf, read_link. cbn [leaf_prev leaf_next leaf_recs].
  set (m := _ ++ [0]). assert (Hm : m = [] ++ (vlsetvnumbuf (link_out prev) ++
          vlsetvnumbuf (link_out next) ++ flat_map rec_buf recs) ++ [0]) by reflexivity.
  autorewrite with vl_rw. zlen_facts. vl_test.
  rewrite (readv_at m [] _ (link_out prev)) by (reflexivity || codec_side Hm || assumption).
  vl_test.
  rewrite (readv_at m (vlsetvnumbuf (link_out prev)) (flat_map rec_buf recs) (link_out next))
    by (assumption || codec_side Hm).
  rewrite (recs_loop_enc m recs (vlsetvnumbuf (link_out prev) ++ vlsetvnumbuf (link_out next)))
    by (assumption || codec_side Hm ||
        (rewrite !length_app; pose proof (recs_buf_length recs Hr); lia)).
  reflexivity.
Qed.

Lemma idx_buf_eq (x : VLIDX) : idx_buf x = vlsetvnumbuf (idx_pid x) ++ vnum_chunk (idx_key x).
Proof. reflexivity. Qed.

(** The entry loop over the entries of a saved node. *)
Lemma idxs_loop_enc (m : list Z) (idxs : list VLIDX) : forall p fuel pos size acc,
  m = p ++ flat_map idx_buf idxs ++ [0] -> pos = zlen p ->
  size = zlen (flat_map idx_buf idxs) -> Forall idx_ok idxs -> (length idxs < fuel)%nat ->
  idxs_loop m fuel pos size acc = PDone (acc ++ idxs).
Proof.
  induction idxs as [|[pid k] idxs IH]; intros p fuel pos size acc Hm Hp Hs Hok Hf;
    destruct fuel as [|fuel]; cbn [length] in Hf; try lia; cbn [flat_map] in *.
  - cbn [idxs_loop]. rewrite Hs. cbn. rewrite app_nil_r. reflexivity.
  - apply Forall_cons_iff in Hok as [[Hpid Hk] Hok]. cbn [idx_pid idx_key] in *.
    pose proof (vnum_chunk_len k Hk). pose proof (vset_len pid Hpid).
    rewrite idx_buf_eq in *. cbn [idx_pid idx_key] in *. rewrite !vnum_chunk_eq in *.
    autorewrite with vl_rw in *. zlen_facts. rewrite <- !app_assoc in Hm.
    cbn [idxs_loop]. vl_test.
    rewrite (readv_at m p (vlsetvnumbuf (zlen k) ++ k ++ flat_map idx_buf idxs) pid)
      by (assumption || codec_side Hm).
    vl_test.
    rewrite (readv_at m (p ++ vlsetvnumbuf pid) (k ++ flat_map idx_buf idxs) (zlen k))
      by (assumption || codec_side Hm).
    vl_test.
    rewrite (datum_at_at m (p ++ vlsetvnumbuf pid ++ vlsetvnumbuf (zlen k)) k
               (flat_map idx_buf idxs ++ [0])) by codec_side Hm.
    replace (acc ++ _ :: idxs) with ((acc ++ [mkidx pid k]) ++ idxs)
      by (rewrite <- app_assoc; reflexivity).
    apply (IH (p ++ vlsetvnumbuf pid ++ vlsetvnumbuf (zlen k) ++ k)); (assumption || lia || codec_side Hm).
Qed.

Lemma idxs_buf_length (idxs : list VLIDX) :
  Forall idx_ok idxs -> (length idxs <= length (flat_map idx_buf idxs))%nat.
Proof.
  intros H. apply flat_map_length_ge. intros [pid k] Hin.
  destruct (proj1 (Forall_forall _ _) H _ Hin) as [Hp Hk]. cbn in *.
  pose proof (vset_len pid Hp). rewrite idx_buf_eq, length_app. unfold zlen in *. cbn [idx_pid]. lia.
Qed.

Lemma link_in_out (l : Z) : link_ok l -> link_in (link_out l) = l.
Proof.
  unfold link_ok, link_in, link_out, VL_NODEIDMIN. intros H.
  destruct (Z.eqb_spec l (-1)); vl_case_test; lia.
Qed.

Lemma link_ok_int (l : Z) : link_ok l -> l = -1 \/ 0 <= l <= INT_MAX.
Proof. unfold link_ok, VL_NODEIDMIN, INT_MAX. lia. Qed.

Lemma readv_neg (m : list Z) (pos size : Z) : pos < 0 -> readv m pos size = None.
Proof. intros H. unfold readv. vl_test. reflexivity. Qed.

(** ** Theorems *)

(** C3: Saving a well-formed leaf with [vlleafsave] and loading the page
    with [vlleafload] gives back the leaf, clean: the same id, records,
    and links. *)
Theorem vlleafload_vlleafsave (leaf : VLLEAF) :
  leaf_ok leaf ->
  vlleafload_buf (leaf_id leaf) (vlleafsave_buf leaf) =
  PDone (mkleaf (leaf_id leaf) false (leaf_recs leaf) (leaf_prev leaf) (leaf_next leaf)).
Proof.
  intros (Hp & Hn & Hr).
  rewrite vlleafload_save by (exact Hr || (apply link_ok_int; assumption)).
  rewrite !link_in_out by assumption. reflexivity.
Qed.

(** A leaf linked to a leaf whose id is [VL_NODEIDMIN - 1] or more, which
    [vlleafnew] hands out once [villa->lnum] reaches 99999998, is read
    back as linked to nothing: [vlleafload] takes the id for the -1
    sentinel [vlleafsave] writes. *)
Theorem vlleafload_sentinel_next (leaf : VLLEAF) :
  link_ok (leaf_prev leaf) -> Forall rec_ok (leaf_recs leaf) ->
  VL_NODEIDMIN - 1 <= leaf_next leaf <= INT_MAX ->
  vlleafload_buf (leaf_id leaf) (vlleafsave_buf leaf) =
  PDone (mkleaf (leaf_id leaf) false (leaf_recs leaf) (leaf_prev leaf) (-1)).
Proof.
  intros Hp Hr Hn.
  rewrite vlleafload_save
    by (exact Hr || (apply link_ok_int; assumption) || (unfold VL_NODEIDMIN in Hn; lia)).
  rewrite link_in_out by assumption.
  unfold link_out, link_in, VL_NODEIDMIN in *.
  destruct (Z.eqb_spec (leaf_next leaf) (-1)); [lia|]. vl_case_test; [reflexivity | lia].
Qed.

(** C32: Saving a well-formed node with [vlnodesave] and loading it with
    [vlnodeload] gives back the node, clean. *)
Theorem vlnodeload_vlnodesave (node : VLNODE) :
  node_ok node ->
  vlnodeload_buf (node_id node) (vlnodesave_buf node) =
  PDone (Some (mknode (node_id node) false (node_heir node) (node_idxs node))).
Proof.
  intros [Hh Hi]. destruct node as [id d heir idxs]; cbn [node_id node_heir node_idxs] in *.
  pose proof (vset_len heir Hh). unfold vlnodeload_buf, vlnodesave_buf. cbn [node_heir node_idxs].
  set (m := _ ++ [0]).
  assert (Hm : m = [] ++ (vlsetvnumbuf heir ++ flat_map idx_buf idxs) ++ [0]) by reflexivity.
  autorewrite with vl_rw. zlen_facts. vl_test.
  rewrite (readv_at m [] (flat_map idx_buf idxs) heir) by (reflexivity || assumption || codec_side Hm).
  vl_test.
  rewrite (idxs_loop_enc m idxs (vlsetvnumbuf heir))
    by (assumption || codec_side Hm ||
        (rewrite !length_app; pose proof (idxs_buf_length idxs Hi); lia)).
  reflexivity.
Qed.

(** [vlleafload] trusts a size read from the page.  On the three-byte
    page [x; y; b] with [x] and [y] below 0x80 and [0x80 <= b < 0xFD], the
    key size read from the last byte is [b - 256], [rp] moves back by that
    much, before the start of the buffer, and the next [vlreadvnumbuf]
    reads there: the load of such a corrupt page is undefined behaviour. *)
Theorem vlleafload_reads_before_buffer (id x y b : Z) :
  0 <= x < 128 -> 0 <= y < 128 -> 128 <= b < 253 ->
  vlleafload_buf id [x; y; b] = POob.
Proof.
  intros Hx Hy Hb.
  assert (Sx : sc x = x) by (unfold sc; vl_case_test; lia).
  assert (Sy : sc y = y) by (unfold sc; vl_case_test; lia).
  assert (Sb : sc b = b - 256) by (unfold sc; vl_case_test; lia).
  unfold vlleafload_buf. cbn [app].
  assert (R1 : read_link [x; y; b; 0] 0 (zlen [x; y; b]) = Some (x, 1, 2)).
  { unfold read_link, readv, vlreadvnumbuf, link_in, VL_NODEIDMIN. simpl. rewrite Sx.
    repeat (vl_test; simpl). repeat f_equal. lia. }
  assert (R2 : read_link [x; y; b; 0] 1 2 = Some (y, 2, 1)).
  { unfold read_link, readv, vlreadvnumbuf, link_in, VL_NODEIDMIN. simpl. rewrite Sy.
    repeat (vl_test; simpl). repeat f_equal. lia. }
  assert (R3 : readv [x; y; b; 0] 2 1 = Some (b - 256, 1)).
  { unfold readv, vlreadvnumbuf. simpl. rewrite Sb. reflexivity. }
  rewrite R1, R2. cbn [recs_loop]. rewrite R3. do 2 vl_test.
  rewrite readv_neg by lia. reflexivity.
Qed.

(** On the corrupt page [1; 2; 253] the record loop of [vlleafload] never
    ends: at offset 2 with one byte left the key size is -3, [rp] goes
    back to the start, the count of values is 1, the value size 2 exceeds
    the one byte left, and the loop is at offset 2 with one byte left
    again, having stored nothing.  Whatever the bound, the model runs out
    of it. *)
Theorem vlleafload_loops_forever (fuel : nat) (rec : VLREC) (acc : list VLREC) :
  recs_loop [1; 2; 253; 0] fuel 2 1 rec acc = PFuel.
Proof. induction fuel as [|fuel IH]; [reflexivity | exact IH]. Qed.

(** ** Witnesses *)

Definition leaf_sample : VLLEAF :=
  mkleaf 3 true [mkrec [97] [1; 2] [[3]; []]; mkrec [98; 99] [] []] (-1) 7.

Lemma leaf_sample_ok : leaf_ok leaf_sample.
Proof.
  unfold leaf_ok, link_ok, leaf_sample, VL_NODEIDMIN; cbn.
  split; [left; reflexivity|]. split; [right; lia|].
  repeat constructor; unfold chunk_ok, INT_MAX; cbn; lia.
Qed.

Lemma vlleafload_vlleafsave_witness :
  vlleafsave_buf leaf_sample = [128; 190; 168; 47; 7; 1; 97; 3; 2; 1; 2; 1; 3; 0; 2; 98; 99; 1; 0] /\
  vlleafload_buf 3 (vlleafsave_buf leaf_sample) =
  PDone (mkleaf 3 false (leaf_recs leaf_sample) (-1) 7).
Proof.
  split; [vm_compute; reflexivity|].
  exact (vlleafload_vlleafsave leaf_sample leaf_sample_ok).
Defined.

Lemma vlleafload_sentinel_next_witness :
  vlleafload_buf 5 (vlleafsave_buf (mkleaf 5 true [] (-1) 99999999)) =
  PDone (mkleaf 5 false [] (-1) (-1)).
Proof.
  apply (vlleafload_sentinel_next (mkleaf 5 true [] (-1) 99999999));
    [left; reflexivity | constructor | unfold VL_NODEIDMIN, INT_MAX; cbn; lia].
Defined.

Lemma vlnodeload_vlnodesave_witness :
  vlnodeload_buf 100000000 (vlnodesave_buf (mknode 100000000 true 1 [mkidx 2 [98]; mkidx 300 []])) =
  PDone (Some (mknode 100000000 false 1 [mkidx 2 [98]; mkidx 300 []])).
Proof.
  apply (vlnodeload_vlnodesave (mknode 100000000 true 1 [mkidx 2 [98]; mkidx 300 []])).
  unfold node_ok, idx_ok, chunk_ok, INT_MAX; cbn. split; [lia|].
  repeat constructor; cbn; lia.
Defined.

Lemma vlleafload_reads_before_buffer_witness :
  vlleafload_buf 1 [0; 0; 128] = POob.
Proof. apply vlleafload_reads_before_buffer; lia. Defined.

Lemma vlleafload_loops_forever_page : vlleafload_buf 1 [1; 2; 253] = PFuel.
Proof. vm_compute. reflexivity. Qed.
