(* ===== verification/CbList.v ===== *)
(** * CbList: the datum and list handles of cabin.c

    [CBDATUM] (cabin.c 370-450) is a growable byte buffer: the region
    [dptr] of [asize] allocated bytes, of which the first [dsize] are the
    datum, always followed by a zero byte so that the datum is also a C
    string.  [CBLIST] (cabin.c 454-704, 2584-2595) is an array of [anum]
    slots of which the [num] slots from [start] hold the elements: pushing
    and popping work at the end, shifting and unshifting at the front,
    and the array doubles when the end is reached.  Both are modelled as
    the C structs with their allocated regions, so that the theorems are
    about the representation: the invariant every operation keeps, and a
    refinement theorem that each list operation acts on the elements as
    the matching operation on a plain list.

    Slot indices and counts are [nat]: they are array positions, bounded
    by the memory the array takes; the [int] overflow of [anum * 2] would
    need 2^30 slots and is not modelled.  A [realloc] extends a region
    with bytes (or slots) of unspecified content; the model fills them
    with zeros (empty slots), and the theorems do not depend on them.
    The regions the caller passes as [(ptr, size)] are lists of bytes
    from [ptr]; a negative [size] means [strlen(ptr)], as in the code. *)

From Stdlib Require Import ZArith Lia List Bool.
From S2P Require Import Prelude Varint Compare Codec.
Import ListNotations.
Open Scope Z_scope.
Open Scope vl_scope.

Definition CB_DATUMUNIT : Z := 16.
Definition CB_LISTUNIT : nat := 64.

(** [memcmp] on two regions of the same size: the sign of the first
    difference of the bytes as [unsigned char]s. *)
Fixpoint memcmp (a b : list Z) : Z :=
  match a, b with
  | x :: a', y :: b' => if x =? y then memcmp a' b' else x - y
  | _, _ => 0
  end.

(** The region [(ptr, size)] an operation copies. *)
Definition region (ptr : list Z) (size : Z) : list Z := datum_at ptr 0 size.

(** A slot of an array overwritten ([array[i] = x]). *)
Definition list_set {A} (l : list A) (i : nat) (x : A) : list A :=
  firstn i l ++ x :: skipn (S i) l.

(** [memmove(array + dst, array + src, n * sizeof(slot))]. *)
Definition move_slots {A} (l : list A) (dst src n : nat) : list A :=
  firstn dst l ++ firstn n (skipn src l) ++ skipn (dst + n) l.

(** ** CBDATUM *)

Record CBDATUM := mkdatum { d_buf : list Z; d_size : Z; d_asize : Z }.

(** The datum a handle holds. *)
Definition cbdatumptr (d : CBDATUM) : list Z := firstn (Z.to_nat (d_size d)) (d_buf d).
Definition cbdatumsize (d : CBDATUM) : Z := d_size d.

(** [CB_REALLOC(datum->dptr, asize)]: the region grows to [asize] bytes. *)
Definition grow_buf (buf : list Z) (asize : Z) : list Z :=
  buf ++ repeat 0 (Z.to_nat asize - length buf).

(** [cbdatumcat] (cabin.c 398-408). *)
Definition cbdatumcat (d : CBDATUM) (ptr : list Z) (size : Z) : CBDATUM :=
  let r := region ptr size in
  let size := zlen r in
  let '(buf, asize) :=
    if d_asize d <=? d_size d + size then
      let asize := d_asize d * 2 + size + 1 in (grow_buf (d_buf d) asize, asize)
    else (d_buf d, d_asize d) in
  let buf := firstn (Z.to_nat (d_size d)) buf ++ r ++ skipn (Z.to_nat (d_size d + size)) buf in
  mkdatum (list_set buf (Z.to_nat (d_size d + size)) 0) (d_size d + size) asize.

(** [cbdatumopen] (cabin.c 370-379): [ptr = None] is a [NULL] region. *)
Definition cbdatumopen (ptr : option (list Z)) (size : Z) : CBDATUM :=
  let d := mkdatum (0 :: repeat 0 (Z.to_nat CB_DATUMUNIT - 1)) 0 CB_DATUMUNIT in
  match ptr with
  | Some p => cbdatumcat d p size
  | None => d
  end.

(** [cbdatumdup] (cabin.c 383-386). *)
Definition cbdatumdup (d : CBDATUM) : CBDATUM := cbdatumopen (Some (d_buf d)) (d_size d).

(** [cbdatumsetsize] (cabin.c 426-439), for the asserted [size >= 0]. *)
Definition cbdatumsetsize (d : CBDATUM) (size : Z) : CBDATUM :=
  if size <=? d_size d then mkdatum (list_set (d_buf d) (Z.to_nat size) 0) size (d_asize d)
  else
    let '(buf, asize) :=
      if d_asize d <=? size then
        let asize := d_asize d * 2 + size + 1 in (grow_buf (d_buf d) asize, asize)
      else (d_buf d, d_asize d) in
    let n := Z.to_nat (size - d_size d + 1) in
    mkdatum (firstn (Z.to_nat (d_size d)) buf ++ repeat 0 n ++ skipn (Z.to_nat (d_size d) + n) buf)
            size asize.

(** The handle is well formed: the region is [asize] bytes, the datum
    fits in it with room for the terminating zero, which is there. *)
Definition datum_ok (d : CBDATUM) : Prop :=
  0 <= d_size d < d_asize d /\ zlen (d_buf d) = d_asize d /\
  nth (Z.to_nat (d_size d)) (d_buf d) 1 = 0.

(** ** CBLIST *)

Record CBLIST := mkcblist { cl_array : list (list Z); cl_anum : nat; cl_start : nat; cl_num : nat }.

(** The elements of a list, in order. *)
Definition cl_view (l : CBLIST) : list (list Z) := firstn (cl_num l) (skipn (cl_start l) (cl_array l)).

(** The slots in use lie inside the allocated array, which is not empty. *)
Definition cl_ok (l : CBLIST) : Prop :=
  (cl_start l + cl_num l <= cl_anum l)%nat /\ length (cl_array l) = cl_anum l /\ (1 <= cl_anum l)%nat.

(** [list->anum *= 2; CB_REALLOC(list->array, ...)]. *)
Definition cl_grow (l : CBLIST) : CBLIST :=
  mkcblist (cl_array l ++ repeat [] (cl_anum l)) (cl_anum l * 2) (cl_start l) (cl_num l).

(** The [if(index >= list->anum)] (or [start + num >= anum]) test before
    a slot is added at the end. *)
Definition grow_if_full (l : CBLIST) : CBLIST :=
  if (cl_anum l <=? cl_start l + cl_num l)%nat then cl_grow l else l.

(** [cblistopen] (cabin.c 454-462). *)
Definition cblistopen : CBLIST := mkcblist (repeat [] CB_LISTUNIT) CB_LISTUNIT 0 0.

(** [cblistnum] (cabin.c 494-497). *)
Definition cblistnum (l : CBLIST) : nat := cl_num l.

(** [cblistval] (cabin.c 501-507), for the asserted [index >= 0]. *)
Definition cblistval (l : CBLIST) (index : nat) : option (list Z) :=
  if (cl_num l <=? index)%nat then None else nth_error (cl_array l) (cl_start l + index).

(** [cblistpushbuf] (cabin.c 2584-2595): the slot after the last one. *)
Definition cblistpushbuf (l : CBLIST) (d : list Z) : CBLIST :=
  let l := grow_if_full l in
  mkcblist (list_set (cl_array l) (cl_start l + cl_num l) d) (cl_anum l) (cl_start l) (S (cl_num l)).

(** [cblistpush] (cabin.c 511-525): the same on a copy of the region. *)
Definition cblistpush (l : CBLIST) (ptr : list Z) (size : Z) : CBLIST :=
  cblistpushbuf l (region ptr size).

(** [cblistpop] (cabin.c 529-537). *)
Definition cblistpop (l : CBLIST) : CBLIST * option (list Z) :=
  if (cl_num l <? 1)%nat then (l, None)
  else (mkcblist (cl_array l) (cl_anum l) (cl_start l) (cl_num l - 1),
        nth_error (cl_array l) (cl_start l + cl_num l - 1)).

(** [cblistunshift] (cabin.c 541-560): with no slot before [start], the
    elements move to the end of the (possibly doubled) array first. *)
Definition cblistunshift (l : CBLIST) (ptr : list Z) (size : Z) : CBLIST :=
  let l :=
    if (cl_start l <? 1)%nat then
      let l := grow_if_full l in
      let st := (cl_anum l - cl_num l)%nat in
      mkcblist (move_slots (cl_array l) st 0 (cl_num l)) (cl_anum l) st (cl_num l)
    else l in
  mkcblist (list_set (cl_array l) (cl_start l - 1) (region ptr size))
           (cl_anum l) (cl_start l - 1) (S (cl_num l)).

(** [cblistshift] (cabin.c 564-573). *)
Definition cblistshift (l : CBLIST) : CBLIST * option (list Z) :=
  if (cl_num l <? 1)%nat then (l, None)
  else (mkcblist (cl_array l) (cl_anum l) (S (cl_start l)) (cl_num l - 1),
        nth_error (cl_array l) (cl_start l)).

(** [cblistinsert] (cabin.c 577-591). *)
Definition cblistinsert (l : CBLIST) (index : nat) (ptr : list Z) (size : Z) : CBLIST :=
  if (cl_num l <? index)%nat then l
  else
    let l := grow_if_full l in
    let i := (cl_start l + index)%nat in
    let arr := move_slots (cl_array l) (S i) i (cl_start l + cl_num l - i) in
    mkcblist (list_set arr i (region ptr size)) (cl_anum l) (cl_start l) (S (cl_num l)).

(** [cblistremove] (cabin.c 595-606). *)
Definition cblistremove (l : CBLIST) (index : nat) : CBLIST * option (list Z) :=
  if (cl_num l <=? index)%nat then (l, None)
  else
    let i := (cl_start l + index)%nat in
    let num := (cl_num l - 1)%nat in
    (mkcblist (move_slots (cl_array l) i (S i) (cl_start l + num - i)) (cl_anum l) (cl_start l) num,
     nth_error (cl_array l) i).

(** [cblistover] (cabin.c 610-620). *)
Definition cblistover (l : CBLIST) (index : nat) (ptr : list Z) (size : Z) : CBLIST :=
  if (cl_num l <=? index)%nat then l
  else mkcblist (list_set (cl_array l) (cl_start l + index) (region ptr size))
                (cl_anum l) (cl_start l) (cl_num l).

(** [cblistdup] (cabin.c 466-477). *)
Definition cblistdup (l : CBLIST) : CBLIST :=
  fold_left (fun nl v => cblistpush nl v (zlen v)) (cl_view l) cblistopen.

(** ** The list operations on a plain list of elements *)

(** The operations of the list interface, with their arguments. *)
Inductive lop :=
| LPush (d : list Z) | LPop | LUnshift (d : list Z) | LShift
| LInsert (i : nat) (d : list Z) | LRemove (i : nat) | LOver (i : nat) (d : list Z)
| LVal (i : nat).

(** One operation on the handle: the new handle and what it returns. *)
Definition cl_step (l : CBLIST) (o : lop) : CBLIST * option (list Z) :=
  match o with
  | LPush d => (cblistpush l d (zlen d), None)
  | LPop => cblistpop l
  | LUnshift d => (cblistunshift l d (zlen d), None)
  | LShift => cblistshift l
  | LInsert i d => (cblistinsert l i d (zlen d), None)
  | LRemove i => cblistremove l i
  | LOver i d => (cblistover l i d (zlen d), None)
  | LVal i => (l, cblistval l i)
  end.

(** The specification: the same operation on the list of elements. *)
Definition al_step (xs : list (list Z)) (o : lop) : list (list Z) * option (list Z) :=
  match o with
  | LPush d => (xs ++ [d], None)
  | LPop => match xs with [] => ([], None) | _ => (removelast xs, Some (last xs [])) end
  | LUnshift d => (d :: xs, None)
  | LShift => match xs with [] => ([], None) | x :: r => (r, Some x) end
  | LInsert i d => if (length xs <? i)%nat then (xs, None) else (firstn i xs ++ d :: skipn i xs, None)
  | LRemove i => if (length xs <=? i)%nat then (xs, None)
                 else (firstn i xs ++ skipn (S i) xs, nth_error xs i)
  | LOver i d => if (length xs <=? i)%nat then (xs, None) else (firstn i xs ++ d :: skipn (S i) xs, None)
  | LVal i => (xs, nth_error xs i)
  end.

Fixpoint cl_run (l : CBLIST) (ops : list lop) : CBLIST * list (option (list Z)) :=
  match ops with
  | [] => (l, [])
  | o :: ops' =>
      let '(l', r) := cl_step l o in
      let '(l'', rs) := cl_run l' ops' in (l'', r :: rs)
  end.

Fixpoint al_run (xs : list (list Z)) (ops : list lop) : list (list Z) * list (option (list Z)) :=
  match ops with
  | [] => (xs, [])
  | o :: ops' =>
      let '(xs', r) := al_step xs o in
      let '(xs'', rs) := al_run xs' ops' in (xs'', r :: rs)
  end.

(** ** Searching, comparing and serializing *)

(** [cbsetvnumbuf] and [cbreadvnumbuf] (cabin.c 2838-2882) have the
    bodies of [vlsetvnumbuf] and [vlreadvnumbuf] of villa.c, line for
    line. *)
Definition cbsetvnumbuf (num : Z) : list Z := vlsetvnumbuf num.
Definition cbreadvnumbuf (buf : list Z) : Z * Z := vlreadvnumbuf buf.

(** The loop of [cblistelemcmp] (cabin.c 2766-2781): [char] is signed. *)
Fixpoint elemcmp_loop (a b : list Z) : option Z :=
  match a, b with
  | x :: a', y :: b' =>
      if sc y <? sc x then Some 1 else if sc x <? sc y then Some (-1) else elemcmp_loop a' b'
  | _, _ => None
  end.

Definition cblistelemcmp (a b : list Z) : Z :=
  match elemcmp_loop a b with
  | Some r => r
  | None => zlen a - zlen b
  end.

(** [cblistlsearch] (cabin.c 631-645): the loop from [start] to [end]. *)
Fixpoint lsearch_loop (xs : list (list Z)) (i : Z) (key : list Z) : Z :=
  match xs with
  | [] => -1
  | x :: xs' => if (zlen x =? zlen key) && (memcmp x key =? 0) then i else lsearch_loop xs' (i + 1) key
  end.

Definition cblistlsearch (l : CBLIST) (ptr : list Z) (size : Z) : Z :=
  lsearch_loop (cl_view l) 0 (region ptr size).

(** The C library's [bsearch], as glibc writes it: halve [[lo, hi)] until
    an element compares equal.  The loop gets one round per element and
    one more. *)
Fixpoint bsearch_loop (cmp : list Z -> list Z -> Z) (key : list Z) (xs : list (list Z))
    (fuel : nat) (lo hi : nat) : option nat :=
  match fuel with
  | O => None
  | S f =>
      if (lo <? hi)%nat then
        let idx := ((lo + hi) / 2)%nat in
        let c := cmp key (nth idx xs []) in
        if c <? 0 then bsearch_loop cmp key xs f lo idx
        else if 0 <? c then bsearch_loop cmp key xs f (S idx) hi
        else Some idx
      else None
  end.

(** [cblistbsearch] (cabin.c 645-654). *)
Definition cblistbsearch (l : CBLIST) (ptr : list Z) (size : Z) : Z :=
  let xs := cl_view l in
  match bsearch_loop cblistelemcmp (region ptr size) xs (S (length xs)) 0 (length xs) with
  | Some i => Z.of_nat i
  | None => -1
  end.

(** [cblistdump] (cabin.c 658-679). *)
Definition cblistdump (l : CBLIST) : list Z :=
  cbsetvnumbuf (Z.of_nat (cblistnum l)) ++
  flat_map (fun v => cbsetvnumbuf (zlen v) ++ v) (cl_view l).

(** What a reading function does with the region [(ptr, size)] it is
    given: a result, a read outside the region, or a failed [assert]. *)
Inductive cres (A : Type) : Type :=
| CDone (a : A)
| COob
| CAbort.
Arguments CDone {A} a.
Arguments COob {A}.
Arguments CAbort {A}.

(** [cbreadvnumbuf(rp, size, &step)] with [rp] at offset [pos] of the
    region [m]: [None] when it reads a byte outside [m].  It reads
    [min(step, size)] bytes (one when [size < 2]). *)
Definition readv_in (m : list Z) (pos size : Z) : option (Z * Z) :=
  if (pos <? 0) || (zlen m <=? pos) then None
  else
    let '(n, step) := cbreadvnumbuf (firstn (Z.to_nat size) (skipn (Z.to_nat pos) m)) in
    if zlen m - pos <? (if size <? 2 then 1 else Z.min step size) then None else Some (n, step).

(** The bytes [cblistpush(list, rp, n)] reads lie in [m]: [n] of them,
    or up to a zero byte when [n] is negative. *)
Definition copy_in (m : list Z) (pos n : Z) : bool :=
  (0 <=? pos) &&
  (if n <? 0 then existsb (Z.eqb 0) (skipn (Z.to_nat pos) m) else pos + n <=? zlen m).

(** The loop of [cblistload] (cabin.c 692-702): [size] drops by the size
    of each number read and not by the size of the element, and the loop
    runs at most [ln] times, its fuel. *)
Fixpoint load_loop (m : list Z) (fuel : nat) (pos size : Z) (l : CBLIST) : cres CBLIST :=
  match fuel with
  | O => CDone l
  | S f =>
      if size <? 1 then CDone l
      else
        match readv_in m pos size with
        | None => COob
        | Some (vsiz, step) =>
            let pos := pos + step in
            let size := size - step in
            if size <? vsiz then CDone l
            else if negb (copy_in m pos vsiz) then COob
            else load_loop m f (pos + vsiz) size (cblistpush l (skipn (Z.to_nat pos) m) vsiz)
        end
  end.

(** [cblistload] (cabin.c 683-704) of the region [buf]; [cbreadvnumbuf]
    asserts [size > 0]. *)
Definition cblistload (buf : list Z) : cres CBLIST :=
  if zlen buf <? 1 then CAbort
  else
    match readv_in buf 0 (zlen buf) with
    | None => COob
    | Some (ln, step) =>
        let size := zlen buf - step in
        if size <? ln then CDone cblistopen
        else load_loop buf (Z.to_nat ln) step size cblistopen
    end.

(** ** Lemmas: lists read position by position *)

Lemma nth_error_app_if {A} (l1 l2 : list A) (j : nat) :
  nth_error (l1 ++ l2) j = if (j <? length l1)%nat then nth_error l1 j else nth_error l2 (j - length l1).
Proof.
  destruct (Nat.ltb_spec j (length l1)).
  - apply nth_error_app1; assumption.
  - apply nth_error_app2; assumption.
Qed.

Lemma nth_error_cons_if {A} (x : A) (l : list A) (j : nat) :
  nth_error (x :: l) j = if (j =? 0)%nat then Some x else nth_error l (j - 1).
Proof. destruct j; cbn; [reflexivity | rewrite Nat.sub_0_r; reflexivity]. Qed.

Lemma nth_error_nil_any {A} (j : nat) : nth_error (@nil A) j = None.
Proof. destruct j; reflexivity. Qed.

Lemma nth_error_tl {A} (l : list A) (j : nat) : nth_error (tl l) j = nth_error l (S j).
Proof. destruct l; cbn [tl]; [rewrite !nth_error_nil_any |]; reflexivity. Qed.

Lemma nth_error_removelast {A} (l : list A) (j : nat) :
  nth_error (removelast l) j = if (j <? length l - 1)%nat then nth_error l j else None.
Proof.
  destruct l as [|x l] using rev_ind; [cbn [removelast]; rewrite nth_error_nil_any; destruct (_ <? _)%nat; reflexivity|].
  rewrite removelast_last, length_app, nth_error_app_if. cbn [length].
  replace (length l + 1 - 1)%nat with (length l) by lia.
  destruct (Nat.ltb_spec j (length l)); [reflexivity|].
  apply nth_error_None; lia.
Qed.

Lemma nth_error_last_len {A} (l : list A) (d : A) :
  l <> [] -> nth_error l (length l - 1) = Some (last l d).
Proof.
  intros Hn. destruct l as [|x l] using rev_ind; [congruence|].
  rewrite last_last, length_app, nth_error_app_if. cbn [length].
  replace (length l + 1 - 1)%nat with (length l) by lia.
  rewrite Nat.ltb_irrefl, Nat.sub_diag. reflexivity.
Qed.

Lemma length_list_set {A} (l : list A) (i : nat) (x : A) :
  (i < length l)%nat -> length (list_set l i x) = length l.
Proof.
  intros H. unfold list_set. rewrite length_app, length_firstn. cbn [length].
  rewrite length_skipn. lia.
Qed.

Lemma nth_error_list_set {A} (l : list A) (i : nat) (x : A) (j : nat) :
  (i < length l)%nat ->
  nth_error (list_set l i x) j = if (j =? i)%nat then Some x else nth_error l j.
Proof.
  intros H. unfold list_set.
  rewrite nth_error_app_if, length_firstn, nth_error_firstn, nth_error_cons_if, nth_error_skipn.
  destruct (Nat.eqb_spec j i); [subst; rewrite Nat.min_l by lia; rewrite Nat.ltb_irrefl, Nat.sub_diag; reflexivity|].
  destruct (Nat.ltb_spec j (Nat.min i (length l))), (Nat.ltb_spec j i); try lia; try reflexivity.
  destruct (Nat.eqb_spec (j - Nat.min i (length l)) 0); [lia|]. f_equal. lia.
Qed.

Lemma length_move_slots {A} (l : list A) (dst src n : nat) :
  (dst + n <= length l)%nat -> (src + n <= length l)%nat -> length (move_slots l dst src n) = length l.
Proof.
  intros H1 H2. unfold move_slots. rewrite !length_app, !length_firstn, length_skipn, length_skipn. lia.
Qed.

Lemma nth_error_move_slots {A} (l : list A) (dst src n j : nat) :
  (dst + n <= length l)%nat -> (src + n <= length l)%nat ->
  nth_error (move_slots l dst src n) j =
  if (dst <=? j)%nat && (j <? dst + n)%nat then nth_error l (src + (j - dst)) else nth_error l j.
Proof.
  intros H1 H2. unfold move_slots.
  rewrite !nth_error_app_if, ?length_app, ?length_firstn, ?length_skipn, ?nth_error_firstn,
    ?nth_error_skipn.
  destruct (Nat.leb_spec dst j), (Nat.ltb_spec j (dst + n)),
    (Nat.ltb_spec j (Nat.min dst (length l))), (Nat.ltb_spec j dst); cbn [andb]; try lia;
    try reflexivity.
  - destruct (Nat.ltb_spec (j - Nat.min dst (length l)) (Nat.min n (length l - src))); [|lia].
    destruct (Nat.ltb_spec (j - Nat.min dst (length l)) n); [|lia]. f_equal; lia.
  - destruct (Nat.ltb_spec (j - Nat.min dst (length l)) (Nat.min n (length l - src))); [lia|].
    f_equal; lia.
Qed.

Lemma nth_error_view (l : CBLIST) (j : nat) :
  nth_error (cl_view l) j = if (j <? cl_num l)%nat then nth_error (cl_array l) (cl_start l + j) else None.
Proof. unfold cl_view. rewrite nth_error_firstn, nth_error_skipn. reflexivity. Qed.

Lemma length_view (l : CBLIST) : cl_ok l -> length (cl_view l) = cl_num l.
Proof.
  intros (H1 & H2 & _). unfold cl_view. rewrite length_firstn, length_skipn. lia.
Qed.

Lemma region_self (d : list Z) : region d (zlen d) = d.
Proof.
  unfold region, datum_at. pose proof (zlen_nonneg d).
  destruct (Z.ltb_spec (zlen d) 0); [lia|]. unfold zlen. rewrite Nat2Z.id. apply firstn_all.
Qed.

Lemma nth_error_repeat_if {A} (x : A) (m j : nat) :
  nth_error (repeat x m) j = if (j <? m)%nat then Some x else None.
Proof.
  destruct (Nat.ltb_spec j m); [apply nth_error_repeat; exact H|].
  apply nth_error_None. rewrite repeat_length. exact H.
Qed.

Create Rewrite HintDb cbl_rw.
#[export] Hint Rewrite @nth_error_app_if @nth_error_cons_if @nth_error_nil_any @nth_error_tl
  @nth_error_removelast @nth_error_repeat_if @nth_error_firstn @nth_error_skipn nth_error_view @length_firstn : cbl_rw.

(** Case analysis on the index tests left once both sides are read at
    position [j], each case closed by arithmetic. *)
Ltac nat_tests :=
  repeat match goal with
  | |- context [Nat.ltb ?a ?b] => destruct (Nat.ltb_spec a b)
  | |- context [Nat.leb ?a ?b] => destruct (Nat.leb_spec a b)
  | |- context [Nat.eqb ?a ?b] => destruct (Nat.eqb_spec a b)
  end; cbn [andb orb negb] in *;
  try lia; try reflexivity; try (f_equal; lia);
  try (symmetry; apply nth_error_None; lia); try (apply nth_error_None; lia).

(** Both sides read at a position [j]. *)
Ltac view_ext :=
  apply nth_error_ext; intro j; autorewrite with cbl_rw;
  cbn [cl_num cl_start cl_array cl_anum fst snd] in *; autorewrite with cbl_rw.

(** ** The representation refines the list of elements *)

Section Refinement.

Lemma cblistopen_ok : cl_ok cblistopen.
Proof. cbv. repeat split; lia. Qed.

Lemma cblistopen_view : cl_view cblistopen = [].
Proof. reflexivity. Qed.

Lemma grow_if_full_spec (l : CBLIST) :
  cl_ok l ->
  cl_ok (grow_if_full l) /\ cl_view (grow_if_full l) = cl_view l /\
  cl_start (grow_if_full l) = cl_start l /\ cl_num (grow_if_full l) = cl_num l /\
  (cl_start (grow_if_full l) + cl_num (grow_if_full l) < cl_anum (grow_if_full l))%nat.
Proof.
  intros (H1 & H2 & H3). unfold grow_if_full.
  destruct (Nat.leb_spec (cl_anum l) (cl_start l + cl_num l)) as [Hf|Hf].
  - unfold cl_grow. cbn [cl_num cl_start cl_array cl_anum].
    split; [unfold cl_ok; cbn; rewrite length_app, repeat_length; lia|].
    repeat split; try lia. view_ext. nat_tests.
  - repeat split; assumption.
Qed.

Lemma pushbuf_sim (l : CBLIST) (d : list Z) :
  cl_ok l -> cl_ok (cblistpushbuf l d) /\ cl_view (cblistpushbuf l d) = cl_view l ++ [d].
Proof.
  intros H. destruct (grow_if_full_spec l H) as (Hg & Hv & _ & _ & Hr).
  unfold cblistpushbuf. rewrite <- Hv. pose proof (length_view _ Hg) as Hl.
  destruct Hg as (H1 & H2 & H3). split.
  - unfold cl_ok; cbn [cl_num cl_start cl_array cl_anum]. rewrite length_list_set; lia.
  - view_ext. rewrite ?Hl, nth_error_list_set by lia. nat_tests.
Qed.

Lemma pop_sim (l : CBLIST) :
  cl_ok l -> cl_ok (fst (cblistpop l)) /\
  cl_view (fst (cblistpop l)) = fst (al_step (cl_view l) LPop) /\
  snd (cblistpop l) = snd (al_step (cl_view l) LPop).
Proof.
  intros H. pose proof (length_view _ H) as Hl. destruct H as (H1 & H2 & H3).
  unfold cblistpop. destruct (Nat.ltb_spec (cl_num l) 1).
  - cbn [fst snd]. destruct (cl_view l); [|cbn in Hl; lia]. repeat split; (assumption || reflexivity).
  - assert (Hne : cl_view l <> []) by (intros E; rewrite E in Hl; cbn in Hl; lia).
    assert (E : al_step (cl_view l) LPop = (removelast (cl_view l), Some (last (cl_view l) [])))
      by (destruct (cl_view l); [congruence | reflexivity]).
    rewrite E. cbn [fst snd]. split; [unfold cl_ok; cbn; lia|]. split.
    + view_ext. rewrite Hl. nat_tests.
    + rewrite <- nth_error_last_len by exact Hne. rewrite nth_error_view, Hl.
      nat_tests.
Qed.

Lemma unshift_slot_sim (l : CBLIST) (d : list Z) :
  cl_ok l -> (1 <= cl_start l)%nat ->
  cl_ok (mkcblist (list_set (cl_array l) (cl_start l - 1) d) (cl_anum l) (cl_start l - 1) (S (cl_num l))) /\
  cl_view (mkcblist (list_set (cl_array l) (cl_start l - 1) d) (cl_anum l) (cl_start l - 1) (S (cl_num l)))
  = d :: cl_view l.
Proof.
  intros (H1 & H2 & H3) Hs. split.
  - unfold cl_ok; cbn [cl_num cl_start cl_array cl_anum]. rewrite length_list_set; lia.
  - view_ext. rewrite nth_error_list_set by lia. nat_tests.
Qed.

Lemma unshift_move_sim (l : CBLIST) :
  cl_ok l -> cl_start l = 0%nat ->
  let g := grow_if_full l in
  let st := (cl_anum g - cl_num g)%nat in
  cl_ok (mkcblist (move_slots (cl_array g) st 0 (cl_num g)) (cl_anum g) st (cl_num g)) /\
  cl_view (mkcblist (move_slots (cl_array g) st 0 (cl_num g)) (cl_anum g) st (cl_num g)) = cl_view l /\
  (1 <= st)%nat.
Proof.
  intros H Hs g st. destruct (grow_if_full_spec l H) as (Hg & Hv & Hgs & _ & Hr).
  fold g in Hg, Hv, Hgs, Hr. rewrite <- Hv. destruct Hg as (H1 & H2 & H3).
  split; [|split; [|unfold st; lia]].
  - unfold cl_ok; cbn [cl_num cl_start cl_array cl_anum]. rewrite length_move_slots; unfold st; lia.
  - view_ext. rewrite nth_error_move_slots by (unfold st; lia). unfold st. nat_tests.
Qed.

Lemma unshift_sim (l : CBLIST) (ptr : list Z) (size : Z) :
  cl_ok l -> cl_ok (cblistunshift l ptr size) /\
  cl_view (cblistunshift l ptr size) = region ptr size :: cl_view l.
Proof.
  intros H. unfold cblistunshift. destruct (Nat.ltb_spec (cl_start l) 1).
  - destruct (unshift_move_sim l H ltac:(lia)) as (Hm & Hv & Hst).
    rewrite <- Hv. apply unshift_slot_sim; assumption.
  - apply unshift_slot_sim; assumption.
Qed.

Lemma shift_sim (l : CBLIST) :
  cl_ok l -> cl_ok (fst (cblistshift l)) /\
  cl_view (fst (cblistshift l)) = fst (al_step (cl_view l) LShift) /\
  snd (cblistshift l) = snd (al_step (cl_view l) LShift).
Proof.
  intros H. pose proof (length_view _ H) as Hl. destruct H as (H1 & H2 & H3).
  unfold cblistshift. destruct (Nat.ltb_spec (cl_num l) 1).
  - cbn [fst snd]. destruct (cl_view l); [|cbn in Hl; lia]. repeat split; (assumption || reflexivity).
  - assert (E : al_step (cl_view l) LShift = (tl (cl_view l), nth_error (cl_view l) 0))
      by (destruct (cl_view l); [cbn in Hl; lia | reflexivity]).
    rewrite E. cbn [fst snd]. split; [unfold cl_ok; cbn; lia|]. split.
    + view_ext. nat_tests.
    + rewrite nth_error_view. nat_tests.
Qed.

Lemma insert_sim (l : CBLIST) (i : nat) (ptr : list Z) (size : Z) :
  cl_ok l -> cl_ok (cblistinsert l i ptr size) /\
  cl_view (cblistinsert l i ptr size) =
  fst (al_step (cl_view l) (LInsert i (region ptr size))).
Proof.
  intros H. pose proof (length_view _ H) as Hl. cbn [al_step fst]. rewrite Hl.
  unfold cblistinsert. destruct (Nat.ltb_spec (cl_num l) i); [split; [exact H | reflexivity]|].
  destruct (grow_if_full_spec l H) as (Hg & Hv & Hgs & Hgn & Hr).
  set (g := grow_if_full l) in *. rewrite <- Hv. destruct Hg as (H1 & H2 & H3).
  rewrite Hgs, Hgn in *. split.
  - unfold cl_ok; cbn [cl_num cl_start cl_array cl_anum].
    rewrite length_list_set; rewrite length_move_slots; lia.
  - cbn [fst].
    assert (Hlg : length (cl_view g) = cl_num l) by (rewrite length_view by (repeat split; lia); exact Hgn).
    view_ext. rewrite ?Hlg, ?Hgs, ?Hgn.
    rewrite nth_error_list_set by (rewrite length_move_slots; lia).
    rewrite nth_error_move_slots by lia. nat_tests.
Qed.

Lemma remove_sim (l : CBLIST) (i : nat) :
  cl_ok l -> cl_ok (fst (cblistremove l i)) /\
  cl_view (fst (cblistremove l i)) = fst (al_step (cl_view l) (LRemove i)) /\
  snd (cblistremove l i) = snd (al_step (cl_view l) (LRemove i)).
Proof.
  intros H. pose proof (length_view _ H) as Hl. cbn [al_step]. rewrite Hl.
  unfold cblistremove. destruct H as (H1 & H2 & H3).
  destruct (Nat.leb_spec (cl_num l) i); [repeat split; assumption|].
  cbn [fst snd]. split; [|split].
  - unfold cl_ok; cbn [cl_num cl_start cl_array cl_anum]. rewrite length_move_slots; lia.
  - view_ext. rewrite ?Hl, nth_error_move_slots by lia. nat_tests.
  - rewrite nth_error_view. nat_tests.
Qed.

Lemma over_sim (l : CBLIST) (i : nat) (ptr : list Z) (size : Z) :
  cl_ok l -> cl_ok (cblistover l i ptr size) /\
  cl_view (cblistover l i ptr size) = fst (al_step (cl_view l) (LOver i (region ptr size))).
Proof.
  intros H. pose proof (length_view _ H) as Hl. cbn [al_step fst]. rewrite Hl.
  unfold cblistover. destruct H as (H1 & H2 & H3).
  destruct (Nat.leb_spec (cl_num l) i); [repeat split; assumption|]. split.
  - unfold cl_ok; cbn [cl_num cl_start cl_array cl_anum]. rewrite length_list_set; lia.
  - view_ext. rewrite ?Hl, nth_error_list_set by lia. nat_tests.
Qed.

Lemma cl_step_sim (l : CBLIST) (o : lop) :
  cl_ok l ->
  cl_ok (fst (cl_step l o)) /\ cl_view (fst (cl_step l o)) = fst (al_step (cl_view l) o) /\
  snd (cl_step l o) = snd (al_step (cl_view l) o).
Proof.
  intros H. destruct o; cbn [cl_step fst snd].
  - unfold cblistpush. rewrite region_self. destruct (pushbuf_sim l d H) as (A & B).
    split; [exact A | split; [exact B | reflexivity]].
  - apply pop_sim, H.
  - destruct (unshift_sim l d (zlen d) H) as (A & B). rewrite region_self in B.
    split; [exact A | split; [exact B | reflexivity]].
  - apply shift_sim, H.
  - destruct (insert_sim l i d (zlen d) H) as (A & B). rewrite region_self in B.
    split; [exact A|]. split; [exact B|]. cbn [al_step]. destruct (length (cl_view l) <? i)%nat; reflexivity.
  - apply remove_sim, H.
  - destruct (over_sim l i d (zlen d) H) as (A & B). rewrite region_self in B.
    split; [exact A|]. split; [exact B|]. cbn [al_step]. destruct (length (cl_view l) <=? i)%nat; reflexivity.
  - cbn [al_step fst snd]. unfold cblistval. rewrite nth_error_view.
    pose proof (length_view _ H). repeat split; try apply H; nat_tests.
Qed.

Lemma cl_run_sim (ops : list lop) : forall (l : CBLIST),
  cl_ok l ->
  cl_ok (fst (cl_run l ops)) /\ cl_view (fst (cl_run l ops)) = fst (al_run (cl_view l) ops) /\
  snd (cl_run l ops) = snd (al_run (cl_view l) ops).
Proof.
  induction ops as [|o ops IH]; intros l H; [split; [exact H | split; reflexivity]|].
  cbn [cl_run al_run].
  destruct (cl_step_sim l o H) as (H1 & H2 & H3).
  destruct (cl_step l o) as [l' r] eqn:E1, (al_step (cl_view l) o) as [xs' r'] eqn:E2.
  cbn [fst snd] in H1, H2, H3. subst r' xs'.
  destruct (IH l' H1) as (A & B & C).
  destruct (cl_run l' ops), (al_run (cl_view l') ops). cbn [fst snd] in *. subst.
  split; [exact A | split; reflexivity].
Qed.

End Refinement.

(** ** Serialization *)

Section Serial.

Lemma cblistdump_eq (l : CBLIST) :
  cblistdump l = vlsetvnumbuf (Z.of_nat (cl_num l)) ++ flat_map vnum_chunk (cl_view l).
Proof. reflexivity. Qed.

Lemma firstn_app_ge (s x : list Z) (n : Z) :
  zlen s <= n -> firstn (Z.to_nat n) (s ++ x) = s ++ firstn (Z.to_nat (n - zlen s)) x.
Proof.
  intros H. rewrite firstn_app, firstn_all2 by (unfold zlen in H; lia).
  f_equal. f_equal. unfold zlen. lia.
Qed.

(** A number the writer put at offset [zlen p] of [m] is read back by
    [readv_in] within the region, whatever [size] beyond its bytes. *)
Lemma readv_in_at (m p t : list Z) (n size : Z) :
  m = p ++ vlsetvnumbuf n ++ t -> 0 <= n <= INT_MAX -> zlen (vlsetvnumbuf n) <= size ->
  readv_in m (zlen p) size = Some (n, zlen (vlsetvnumbuf n)).
Proof.
  intros -> Hn Hs. pose proof (vset_len n Hn). unfold readv_in, cbreadvnumbuf.
  rewrite skipn_zlen_app, firstn_app_ge, vread_vset by (exact Hn || exact Hs).
  autorewrite with vl_rw. zlen_facts.
  destruct (Z.ltb_spec (zlen p) 0); [lia|]. destruct (Z.leb_spec (zlen p + (zlen (vlsetvnumbuf n) + zlen t)) (zlen p)); [lia|].
  cbn [orb]. destruct (Z.ltb_spec size 2); vl_test; reflexivity.
Qed.

Lemma readv_in_at0 (m t : list Z) (n size : Z) :
  m = vlsetvnumbuf n ++ t -> 0 <= n <= INT_MAX -> zlen (vlsetvnumbuf n) <= size ->
  readv_in m 0 size = Some (n, zlen (vlsetvnumbuf n)).
Proof. intros Hm. apply (readv_in_at m [] t n size Hm). Qed.

Lemma copy_in_at (m p d t : list Z) : m = p ++ d ++ t -> copy_in m (zlen p) (zlen d) = true.
Proof.
  intros ->. unfold copy_in. rewrite !zlen_app. zlen_facts.
  destruct (Z.leb_spec 0 (zlen p)); [|lia]. cbn [andb]. vl_test. apply Z.leb_le. lia.
Qed.

Lemma region_at (p v t : list Z) :
  region (skipn (Z.to_nat (zlen p)) (p ++ v ++ t)) (zlen v) = v.
Proof. rewrite skipn_zlen_app. unfold region. apply (datum_at_at _ [] v t); reflexivity. Qed.

(** The loop of [cblistload] reads back the elements the dump wrote;
    [size] may exceed the bytes left, as the loop does not take the
    elements off it. *)
Lemma load_loop_enc (m : list Z) (vs : list (list Z)) : forall p t size l,
  m = p ++ flat_map vnum_chunk vs ++ t -> zlen (flat_map vnum_chunk vs) <= size ->
  Forall chunk_ok vs -> cl_ok l ->
  exists l', load_loop m (length vs) (zlen p) size l = CDone l' /\ cl_ok l' /\
             cl_view l' = cl_view l ++ vs.
Proof.
  induction vs as [|v vs IH]; intros p t size l Hm Hs Hok Hl.
  - exists l. rewrite app_nil_r. split; [reflexivity | split; [exact Hl | reflexivity]].
  - apply Forall_cons_iff in Hok as (Hv & Hok). cbn [flat_map length] in *.
    rewrite vnum_chunk_eq in *. unfold chunk_ok in Hv.
    pose proof (vset_len (zlen v) ltac:(zlen_facts; lia)).
    autorewrite with vl_rw in Hs. zlen_facts.
    cbn [load_loop]. vl_test.
    rewrite (readv_in_at m p (v ++ flat_map vnum_chunk vs ++ t) (zlen v) size)
      by first [rewrite Hm, <- !app_assoc; reflexivity | zlen_facts; lia].
    vl_test.
    assert (Hm' : m = (p ++ vlsetvnumbuf (zlen v)) ++ v ++ (flat_map vnum_chunk vs ++ t))
      by (rewrite Hm, <- !app_assoc; reflexivity).
    rewrite <- zlen_app, (copy_in_at _ _ _ _ Hm'). cbn [negb]. unfold cblistpush.
    replace (region (skipn _ m) (zlen v)) with v by (rewrite Hm'; symmetry; apply region_at).
    destruct (pushbuf_sim l v Hl) as (Hl' & Hv').
    destruct (IH ((p ++ vlsetvnumbuf (zlen v)) ++ v) t (size - zlen (vlsetvnumbuf (zlen v)))
                 (cblistpushbuf l v)) as (l' & E & Hok' & Hview);
      [rewrite Hm, <- !app_assoc; reflexivity | lia | exact Hok | exact Hl' |].
    exists l'. rewrite zlen_app in E. rewrite E, Hview, Hv', <- app_assoc.
    split; [reflexivity | split; [exact Hok' | reflexivity]].
Qed.

End Serial.

(** ** Searching *)

Section BsearchSpec.
Context (cmp : key -> key -> Z) `{Hc : !Comparator cmp}.

(** The order a binary search needs, duplicates allowed. *)
Definition sorted_le (xs : list key) : Prop :=
  forall i j, (i < j < length xs)%nat -> cmp (nth i xs []) (nth j xs []) <= 0.

(** The C library's [bsearch] finds the key in a sorted array when it is
    there: the elements outside [[lo, hi)] never equal the key. *)
Lemma bsearch_loop_spec (k : key) (xs : list key) (Hs : sorted_le xs) (fuel : nat) :
  forall lo hi, (hi - lo < fuel)%nat -> (hi <= length xs)%nat ->
  (forall j, (j < lo \/ hi <= j < length xs)%nat -> nth j xs [] <> k) ->
  match bsearch_loop cmp k xs fuel lo hi with
  | Some i => (i < length xs)%nat /\ nth i xs [] = k
  | None => forall j, (j < length xs)%nat -> nth j xs [] <> k
  end.
Proof.
  induction fuel as [|f IH]; intros lo hi Hf Hh Hout; [lia|]. cbn [bsearch_loop].
  destruct (Nat.ltb_spec lo hi) as [Hlt|Hge]; [|intros j Hj; apply Hout; lia].
  set (idx := ((lo + hi) / 2)%nat).
  assert (Hi : (lo <= idx < hi)%nat) by (unfold idx; split; [apply Nat.div_le_lower_bound | apply Nat.Div0.div_lt_upper_bound]; lia).
  destruct (Z.ltb_spec (cmp k (nth idx xs [])) 0) as [Hc1|Hc1].
  - apply IH; [lia | lia|]. intros j [Hj|Hj]; [apply Hout; lia|].
    destruct (Nat.lt_ge_cases j hi); [|apply Hout; lia].
    intros E. assert (Hk : cmp k (nth j xs []) < 0).
    { destruct (Nat.eq_dec j idx) as [->|Hne]; [exact Hc1|].
      apply (cmp_lt_le_trans cmp _ (nth idx xs [])); [exact Hc1 | apply Hs; lia]. }
    rewrite E, (cmp_refl cmp) in Hk. lia.
  - destruct (Z.ltb_spec 0 (cmp k (nth idx xs []))) as [Hc2|Hc2].
    + apply IH; [lia | lia|]. intros j [Hj|Hj]; [|apply Hout; lia].
      destruct (Nat.lt_ge_cases j lo); [apply Hout; lia|].
      intros E. assert (Hk : cmp (nth j xs []) k < 0).
      { apply (cmp_gt_lt cmp) in Hc2.
        destruct (Nat.eq_dec j idx) as [->|Hne]; [exact Hc2|].
        apply (cmp_le_lt_trans cmp _ (nth idx xs [])); [apply Hs; lia | exact Hc2]. }
      rewrite E, (cmp_refl cmp) in Hk. lia.
    + split; [lia|]. symmetry. apply (cmp_eq (cmp := cmp)). lia.
Qed.

End BsearchSpec.

Section Searches.

(** [cblistelemcmp] has the sign of the lexical order of the bytes read
    as [signed char]s. *)
Lemma elemcmp_sign (a b : list Z) :
  (cblistelemcmp a b < 0 <-> vllexcompare (map sc a) (map sc b) < 0) /\
  (0 < cblistelemcmp a b <-> 0 < vllexcompare (map sc a) (map sc b)).
Proof.
  unfold cblistelemcmp. revert b.
  induction a as [|x a IH]; intros [|y b]; cbn [elemcmp_loop map vllexcompare];
    unfold zlen in *; rewrite ?length_map; cbn [length]; try lia.
  destruct (Z.ltb_spec (sc y) (sc x)), (Z.ltb_spec (sc x) (sc y)), (Z.eqb_spec (sc x) (sc y));
    cbn [negb]; try lia.
  destruct (IH b) as (A & B). destruct (elemcmp_loop a b); unfold zlen in *; rewrite ?length_map in *;
    cbn [length]; lia.
Qed.

Lemma bsearch_loop_map (k : list Z) (xs : list (list Z)) (fuel lo hi : nat) :
  bsearch_loop cblistelemcmp k xs fuel lo hi =
  bsearch_loop vllexcompare (map sc k) (map (map sc) xs) fuel lo hi.
Proof.
  revert lo hi. induction fuel as [|f IH]; intros lo hi; [reflexivity|]. cbn [bsearch_loop].
  destruct (lo <? hi)%nat; [|reflexivity].
  set (idx := ((lo + hi) / 2)%nat).
  replace (nth idx (map (map sc) xs) nil) with (map sc (nth idx xs nil))
    by first [apply (map_nth (map sc) xs []) | symmetry; apply (map_nth (map sc) xs [])].
  destruct (elemcmp_sign k (nth idx xs [])) as (A & B).
  destruct (Z.ltb_spec (cblistelemcmp k (nth idx xs [])) 0),
    (Z.ltb_spec (vllexcompare (map sc k) (map sc (nth idx xs []))) 0),
    (Z.ltb_spec 0 (cblistelemcmp k (nth idx xs []))),
    (Z.ltb_spec 0 (vllexcompare (map sc k) (map sc (nth idx xs [])))); try lia; try apply IH.
  reflexivity.
Qed.

Lemma sc_inj (x y : Z) : byte_ok x -> byte_ok y -> sc x = sc y -> x = y.
Proof.
  unfold byte_ok, sc. intros Hx Hy E.
  destruct (Z.ltb_spec x 128), (Z.ltb_spec y 128); lia.
Qed.

Lemma map_sc_inj (a b : list Z) : bytes_ok a -> bytes_ok b -> map sc a = map sc b -> a = b.
Proof.
  revert b. induction a as [|x a IH]; intros [|y b] Ha Hb E; cbn in E; try discriminate; [reflexivity|].
  apply Forall_cons_iff in Ha as (Hx & Ha). apply Forall_cons_iff in Hb as (Hy & Hb).
  injection E as E1 E2. f_equal; [apply sc_inj | apply IH]; assumption.
Qed.

Lemma memcmp_eq (a b : list Z) : length a = length b -> memcmp a b = 0 <-> a = b.
Proof.
  revert b. induction a as [|x a IH]; intros [|y b] H; cbn in H |- *; try discriminate;
    [split; reflexivity|].
  destruct (Z.eqb_spec x y) as [->|Hne].
  - rewrite IH by lia. split; [intros ->|injection 1]; auto.
  - split; [lia | injection 1; congruence].
Qed.

Lemma lsearch_loop_spec (k : list Z) (xs : list (list Z)) : forall i,
  (lsearch_loop xs i k = -1 /\ ~ In k xs) \/
  (exists n, lsearch_loop xs i k = i + Z.of_nat n /\ nth_error xs n = Some k /\
             forall j, (j < n)%nat -> nth_error xs j <> Some k).
Proof.
  induction xs as [|x xs IH]; intros i; cbn [lsearch_loop]; [left; split; [reflexivity | intros []]|].
  destruct (Z.eqb_spec (zlen x) (zlen k)) as [Hl|Hl]; cbn [andb].
  - destruct (Z.eqb_spec (memcmp x k) 0) as [Hm|Hm].
    + apply memcmp_eq in Hm; [|unfold zlen in Hl; lia]. subst x.
      right. exists 0%nat. split; [lia|]. split; [reflexivity | intros j Hj; lia].
    + assert (x <> k) by (intros ->; apply Hm, memcmp_eq; reflexivity).
      destruct (IH (i + 1)) as [(A & B)|(n & A & B & C)]; [left | right].
      * split; [exact A | intros [E|E]; [congruence | tauto]].
      * exists (S n). split; [lia|]. split; [exact B|].
        intros [|j] Hj; cbn; [congruence | apply C; lia].
  - assert (x <> k) by (intros ->; lia).
    destruct (IH (i + 1)) as [(A & B)|(n & A & B & C)]; [left | right].
    + split; [exact A | intros [E|E]; [congruence | tauto]].
    + exists (S n). split; [lia|]. split; [exact B|].
      intros [|j] Hj; cbn; [congruence | apply C; lia].
Qed.

(** The binary search of [cblistbsearch] on a list sorted by
    [cblistelemcmp]. *)
Lemma cblistbsearch_sorted (l : CBLIST) (k : list Z) :
  bytes_ok k -> Forall bytes_ok (cl_view l) ->
  (forall i j, (i < j < length (cl_view l))%nat ->
     cblistelemcmp (nth i (cl_view l) []) (nth j (cl_view l) []) <= 0) ->
  (cblistbsearch l k (zlen k) = -1 /\ ~ In k (cl_view l)) \/
  (0 <= cblistbsearch l k (zlen k) /\ nth_error (cl_view l) (Z.to_nat (cblistbsearch l k (zlen k))) = Some k).
Proof.
  intros Hk Hb Hs. unfold cblistbsearch. rewrite region_self, bsearch_loop_map.
  set (xs := cl_view l) in *.
  assert (Hs' : sorted_le vllexcompare (map (map sc) xs)).
  { intros i j Hij. rewrite length_map in Hij.
    change (@nil Z) with (map sc []). rewrite !map_nth.
    destruct (elemcmp_sign (nth i xs []) (nth j xs [])) as (_ & B). specialize (Hs i j Hij). lia. }
  pose proof (bsearch_loop_spec vllexcompare (map sc k) _ Hs' (S (length xs)) 0 (length xs))
    as Hsp.
  rewrite length_map in Hsp. specialize (Hsp ltac:(lia) ltac:(lia) ltac:(intros; lia)).
  destruct (bsearch_loop vllexcompare (map sc k) (map (map sc) xs) (S (length xs)) 0 (length xs))
    as [i|] eqn:E.
  - right. destruct Hsp as (Hi & Hn). rewrite ?length_map in Hi.
    change (@nil Z) with (map sc []) in Hn. rewrite map_nth in Hn.
    apply map_sc_inj in Hn; [|apply (proj1 (Forall_forall _ _) Hb), nth_In; exact Hi | exact Hk].
    split; [lia|]. rewrite Nat2Z.id, <- Hn. apply nth_error_nth'. exact Hi.
  - left. split; [reflexivity|]. intros Hin. apply In_nth with (d := []) in Hin as (j & Hj & Ej).
    apply (Hsp j); [rewrite ?length_map; exact Hj|].
    change (@nil Z) with (map sc []). rewrite map_nth, Ej. reflexivity.
Qed.

End Searches.

(** ** The datum handle *)

Section DatumFacts.

Lemma grow_buf_spec (buf : list Z) (A : Z) :
  zlen buf <= A -> zlen (grow_buf buf A) = A /\ forall j, (j < length buf)%nat -> nth_error (grow_buf buf A) j = nth_error buf j.
Proof.
  intros H. unfold grow_buf, zlen in *. split.
  - rewrite length_app, repeat_length. lia.
  - intros j Hj. apply nth_error_app1. exact Hj.
Qed.

(** The region after the [if(... >= datum->asize)] growth of [cbdatumcat]
    and [cbdatumsetsize]: [need] bytes fit, and the old bytes stay. *)
Lemma datum_grow (d : CBDATUM) (need extra : Z) :
  datum_ok d -> 0 <= extra -> need < d_asize d * 2 + extra + 1 ->
  exists buf a,
    (if d_asize d <=? need then (grow_buf (d_buf d) (d_asize d * 2 + extra + 1), d_asize d * 2 + extra + 1)
     else (d_buf d, d_asize d)) = (buf, a) /\
  zlen buf = a /\ need < a /\ d_asize d <= a /\
  forall j, (j < Z.to_nat (d_asize d))%nat -> nth_error buf j = nth_error (d_buf d) j.
Proof.
  intros (H1 & H2 & H3) He Hn. destruct (Z.leb_spec (d_asize d) need).
  - destruct (grow_buf_spec (d_buf d) (d_asize d * 2 + extra + 1)) as (A & B); [lia|].
    eexists _, _. split; [reflexivity|]. split; [exact A|]. split; [lia|]. split; [lia|].
    intros j Hj. apply B. unfold zlen in H2. lia.
  - eexists _, _. split; [reflexivity|]. split; [exact H2|]. split; [lia|]. split; [lia|].
    intros j Hj. reflexivity.
Qed.

Lemma nth_of_nth_error (l : list Z) (n : nat) (x d : Z) : nth_error l n = Some x -> nth n l d = x.
Proof. apply nth_error_nth. Qed.

Lemma cbdatumcat_ok (d : CBDATUM) (ptr : list Z) (size : Z) :
  datum_ok d -> datum_ok (cbdatumcat d ptr size) /\ cbdatumptr (cbdatumcat d ptr size) = cbdatumptr d ++ region ptr size.
Proof.
  intros Hd. pose proof Hd as (H1 & H2 & H3). unfold cbdatumcat. set (r := region ptr size).
  pose proof (zlen_nonneg r).
  destruct (datum_grow d (d_size d + zlen r) (zlen r) Hd ltac:(lia) ltac:(lia))
    as (buf & a & -> & Hb & Ha & Haa & Hpre).
  unfold zlen in *. set (ds := Z.to_nat (d_size d)).
  replace (Z.to_nat (d_size d + Z.of_nat (length r))) with (ds + length r)%nat by (unfold ds; lia).
  assert (Hl2 : length (firstn ds buf ++ r ++ skipn (ds + length r) buf) = length buf)
    by (rewrite !length_app, length_firstn, length_skipn; lia).
  unfold datum_ok, cbdatumptr, zlen; cbn [d_buf d_size d_asize]. split; [split; [lia|split]|].
  - rewrite length_list_set; lia.
  - apply nth_of_nth_error. replace (Z.to_nat (d_size d + Z.of_nat (length r))) with (ds + length r)%nat by (unfold ds; lia).
    rewrite nth_error_list_set by lia. rewrite Nat.eqb_refl. reflexivity.
  - replace (Z.to_nat (d_size d + Z.of_nat (length r))) with (ds + length r)%nat by (unfold ds; lia).
    fold ds. apply nth_error_ext. intros j.
    rewrite nth_error_firstn, nth_error_list_set by lia.
    autorewrite with cbl_rw. nat_tests; rewrite Hpre by (unfold ds in *; lia); reflexivity.
Qed.

Lemma cbdatumsetsize_ok (d : CBDATUM) (n : Z) :
  datum_ok d -> 0 <= n -> datum_ok (cbdatumsetsize d n) /\ cbdatumptr (cbdatumsetsize d n) = firstn (Z.to_nat n) (cbdatumptr d) ++ repeat 0 (Z.to_nat (n - d_size d)).
Proof.
  intros Hd Hn. pose proof Hd as (H1 & H2 & H3). unfold cbdatumsetsize, zlen in *.
  destruct (Z.leb_spec n (d_size d)).
  - unfold datum_ok, cbdatumptr, zlen; cbn [d_buf d_size d_asize].
    replace (Z.to_nat (n - d_size d)) with 0%nat by lia. rewrite app_nil_r.
    split; [split; [lia|split]|].
    + rewrite length_list_set; lia.
    + apply nth_of_nth_error. rewrite nth_error_list_set by lia. rewrite Nat.eqb_refl. reflexivity.
    + apply nth_error_ext. intros j. rewrite nth_error_firstn, nth_error_list_set by lia.
      autorewrite with cbl_rw. nat_tests.
  - destruct (datum_grow d n n Hd ltac:(lia) ltac:(lia)) as (buf & a & -> & Hb & Ha & Haa & Hpre).
    unfold zlen in *. set (ds := Z.to_nat (d_size d)). set (k := Z.to_nat (n - d_size d + 1)).
    assert (Hl2 : length (firstn ds buf ++ repeat 0 k ++ skipn (ds + k) buf) = length buf)
      by (rewrite !length_app, length_firstn, repeat_length, length_skipn; unfold ds, k; lia).
    unfold datum_ok, cbdatumptr, zlen; cbn [d_buf d_size d_asize]. split; [split; [lia|split]|].
    + lia.
    + apply nth_of_nth_error. autorewrite with cbl_rw. rewrite repeat_length.
      nat_tests.
    + apply nth_error_ext. intros j. autorewrite with cbl_rw. rewrite ?repeat_length.
      nat_tests; rewrite Hpre by (unfold ds in *; lia); reflexivity.
Qed.

Lemma cbdatumopen_ok (ptr : option (list Z)) (size : Z) :
  datum_ok (cbdatumopen ptr size) /\
  cbdatumptr (cbdatumopen ptr size) = match ptr with Some p => region p size | None => [] end.
Proof.
  assert (H0 : datum_ok (mkdatum (0 :: repeat 0 (Z.to_nat CB_DATUMUNIT - 1)) 0 CB_DATUMUNIT))
    by (repeat split; vm_compute; congruence).
  destruct ptr as [p|]; unfold cbdatumopen.
  - destruct (cbdatumcat_ok _ p size H0) as (A & B). split; [exact A | rewrite B; reflexivity].
  - split; [exact H0 | reflexivity].
Qed.

End DatumFacts.

(** ** Theorems *)

(** C9: Refinement: from [cblistopen], any sequence of [cblistpush],
    [cblistpop], [cblistunshift], [cblistshift], [cblistinsert],
    [cblistremove], [cblistover] and [cblistval] keeps the array
    well formed and acts on the elements in slots [start .. start + num]
    exactly as the same operations on a plain list, with the same
    results. *)
Theorem cblist_refinement (ops : list lop) :
  cl_ok (fst (cl_run cblistopen ops)) /\
  cl_view (fst (cl_run cblistopen ops)) = fst (al_run [] ops) /\
  snd (cl_run cblistopen ops) = snd (al_run [] ops).
Proof. pose proof (cl_run_sim ops cblistopen cblistopen_ok) as H. rewrite cblistopen_view in H. exact H. Qed.

(** C10: Round trip: [cblistload] of the bytes [cblistdump] writes gives a
    list with the same elements, when the count and each size fit in an
    [int]. *)
Theorem cblistload_cblistdump (l : CBLIST) :
  cl_ok l -> Forall chunk_ok (cl_view l) -> Z.of_nat (cl_num l) <= INT_MAX ->
  exists l', cblistload (cblistdump l) = CDone l' /\ cl_ok l' /\ cl_view l' = cl_view l.
Proof.
  intros H Hok Hn. pose proof (length_view l H) as Hl. rewrite cblistdump_eq.
  pose proof (vset_len (Z.of_nat (cl_num l)) ltac:(lia)) as Hv.
  pose proof (flat_map_length_ge vnum_chunk (cl_view l)) as Hge.
  lapply Hge; [clear Hge; intros Hge|intros x Hx; pose proof (vnum_chunk_len x (proj1 (Forall_forall _ _) Hok x Hx)); unfold zlen in *; lia].
  unfold cblistload. autorewrite with vl_rw. zlen_facts. vl_test.
  rewrite (readv_in_at0 _ (flat_map vnum_chunk (cl_view l)) (Z.of_nat (cl_num l))
             (zlen (vlsetvnumbuf (Z.of_nat (cl_num l))) + zlen (flat_map vnum_chunk (cl_view l))) eq_refl)
    by lia.
  replace (zlen (vlsetvnumbuf (Z.of_nat (cl_num l))) + zlen (flat_map vnum_chunk (cl_view l)) -
           zlen (vlsetvnumbuf (Z.of_nat (cl_num l))))
    with (zlen (flat_map vnum_chunk (cl_view l))) by lia.
  vl_test; [exfalso; unfold zlen in *; lia|].
  replace (Z.to_nat (Z.of_nat (cl_num l))) with (length (cl_view l)) by lia.
  destruct (load_loop_enc (vlsetvnumbuf (Z.of_nat (cl_num l)) ++ flat_map vnum_chunk (cl_view l))
              (cl_view l) (vlsetvnumbuf (Z.of_nat (cl_num l))) [] (zlen (flat_map vnum_chunk (cl_view l))) cblistopen)
    as (l' & E & Hok' & Hv'); [rewrite app_nil_r; reflexivity | lia | exact Hok | apply cblistopen_ok |].
  exists l'. rewrite E, Hv'. split; [reflexivity | split; [exact Hok' | reflexivity]].
Qed.

(** [cblistload] reads outside the region it is given: its loop
    takes the size of each number read off [size] but not the size of
    the element, so on the four bytes [2, 1, x, 1] it accepts the second
    element, of size 1, at offset 4 and copies the byte after the
    region. *)
Theorem cblistload_reads_past_region (x : Z) :
  0 <= x < 256 -> cblistload [2; 1; x; 1] = COob.
Proof. intros _. vm_compute. reflexivity. Qed.

(** [cblistbsearch] on a list sorted by [cblistelemcmp] (duplicates
    allowed) returns the index of an element equal to the key, or -1
    exactly when no element is. *)
Theorem cblistbsearch_spec (l : CBLIST) (k : list Z) :
  bytes_ok k -> Forall bytes_ok (cl_view l) ->
  (forall i j, (i < j < length (cl_view l))%nat ->
     cblistelemcmp (nth i (cl_view l) []) (nth j (cl_view l) []) <= 0) ->
  (cblistbsearch l k (zlen k) = -1 /\ ~ In k (cl_view l)) \/
  (0 <= cblistbsearch l k (zlen k) /\ nth_error (cl_view l) (Z.to_nat (cblistbsearch l k (zlen k))) = Some k).
Proof. apply cblistbsearch_sorted. Qed.

(** [cblistlsearch] returns the index of the first element equal to
    the key, or -1 when there is none. *)
Theorem cblistlsearch_spec (l : CBLIST) (k : list Z) :
  (cblistlsearch l k (zlen k) = -1 /\ ~ In k (cl_view l)) \/
  (0 <= cblistlsearch l k (zlen k) /\
   nth_error (cl_view l) (Z.to_nat (cblistlsearch l k (zlen k))) = Some k /\
   forall j, (j < Z.to_nat (cblistlsearch l k (zlen k)))%nat -> nth_error (cl_view l) j <> Some k).
Proof.
  unfold cblistlsearch. rewrite region_self.
  destruct (lsearch_loop_spec k (cl_view l) 0) as [A|(n & A & B & C)]; [left; exact A|].
  right. rewrite A, Z.add_0_l, Nat2Z.id. split; [lia | split; assumption].
Qed.

(** On a well-formed datum handle [cbdatumcat] appends the region to
    the datum and [cbdatumsetsize] truncates it or pads it with zero
    bytes; both keep the handle well formed, so the datum stays
    followed by the zero byte that makes it a C string. *)
Theorem cbdatum_spec (d : CBDATUM) (ptr : list Z) (size n : Z) :
  datum_ok d ->
  datum_ok (cbdatumcat d ptr size) /\
  cbdatumptr (cbdatumcat d ptr size) = cbdatumptr d ++ region ptr size /\
  (0 <= n -> datum_ok (cbdatumsetsize d n) /\
   cbdatumptr (cbdatumsetsize d n) = firstn (Z.to_nat n) (cbdatumptr d) ++ repeat 0 (Z.to_nat (n - d_size d))).
Proof.
  intros H. destruct (cbdatumcat_ok d ptr size H) as (A & B).
  split; [exact A | split; [exact B | intros Hn; apply cbdatumsetsize_ok; assumption]].
Qed.

(** The list of the two elements "a" and "bc". *)
Definition list_ab : CBLIST := cblistpush (cblistpush cblistopen [97] 1) [98; 99] 2.

(** The list of "a" and the byte 200, in the lexical order of
    [memcmp]. *)
Definition list_a200 : CBLIST := cblistpush (cblistpush cblistopen [97] 1) [200] 1.

(** The order of [cblistelemcmp] is not the lexical order cabin.h
    asks of a list given to [cblistbsearch]: it compares [signed char]s,
    so on the list "a", "\xC8", sorted by [memcmp] (and [vllexcompare]),
    the binary search misses "a", which the linear search finds at 0. *)
Theorem cblistbsearch_signed_order :
  vllexcompare [97] [200] < 0 /\ cl_view list_a200 = [[97]; [200]] /\
  cblistbsearch list_a200 [97] 1 = -1 /\ cblistlsearch list_a200 [97] 1 = 0.
Proof. vm_compute. repeat split; congruence. Qed.

Lemma cblistload_cblistdump_witness :
  exists l', cblistload (cblistdump list_ab) = CDone l' /\ cl_ok l' /\ cl_view l' = cl_view list_ab.
Proof.
  apply cblistload_cblistdump.
  - repeat split; vm_compute; lia.
  - change (Forall chunk_ok [[97]; [98; 99]]).
    repeat constructor; unfold chunk_ok, zlen, INT_MAX; cbn; lia.
  - change (Z.of_nat 2 <= INT_MAX). unfold INT_MAX. lia.
Defined.

Lemma cblistload_reads_past_region_witness : cblistload [2; 1; 65; 1] = COob.
Proof. apply (cblistload_reads_past_region 65). lia. Defined.

Lemma cblistbsearch_spec_witness :
  (cblistbsearch list_ab [98; 99] (zlen [98; 99]) = -1 /\ ~ In [98; 99] (cl_view list_ab)) \/
  (0 <= cblistbsearch list_ab [98; 99] (zlen [98; 99]) /\
   nth_error (cl_view list_ab) (Z.to_nat (cblistbsearch list_ab [98; 99] (zlen [98; 99]))) = Some [98; 99]).
Proof.
  apply cblistbsearch_spec.
  - repeat constructor; unfold byte_ok; lia.
  - change (Forall bytes_ok [[97]; [98; 99]]). repeat constructor; unfold byte_ok; lia.
  - intros i j Hij. assert (E : length (cl_view list_ab) = 2%nat) by reflexivity.
    rewrite E in Hij. destruct i as [|[|i]], j as [|[|j]]; try lia.
    vm_compute. intros H. discriminate H.
Defined.

Lemma cbdatum_spec_witness :
  datum_ok (cbdatumcat (cbdatumopen (Some [104; 105]) 2) [33] 1) /\
  cbdatumptr (cbdatumcat (cbdatumopen (Some [104; 105]) 2) [33] 1) =
    cbdatumptr (cbdatumopen (Some [104; 105]) 2) ++ region [33] 1 /\
  (0 <= 5 -> datum_ok (cbdatumsetsize (cbdatumopen (Some [104; 105]) 2) 5) /\
   cbdatumptr (cbdatumsetsize (cbdatumopen (Some [104; 105]) 2) 5) =
   firstn (Z.to_nat 5) (cbdatumptr (cbdatumopen (Some [104; 105]) 2)) ++
   repeat 0 (Z.to_nat (5 - d_size (cbdatumopen (Some [104; 105]) 2)))).
Proof. apply cbdatum_spec. apply cbdatumopen_ok. Defined.
