(* ===== verification/CbCodec.v ===== *)
(** * CbCodec: the text encoders of cabin.c

    The URL encoding ([cburlencode], [cburldecode], cabin.c 1483-1549),
    Base64 ([cbbaseencode], [cbbasedecode], 1553-1648), quoted-printable
    ([cbquoteencode], [cbquotedecode], 1652-1717), the CSV field escape
    ([cbcsvescape], [cbcsvunescape], 1999-2038) and the XML entity escape
    ([cbxmlescape], [cbxmlunescape], 2166-2229, on the datum handle of
    [CbList]).  Bytes are [Z] in [[0, 256)].  A decoder reads a C string:
    its argument here is the memory from the string pointer on, the
    string, its terminating zero and what follows.  A decoder that runs
    off the memory it is given returns [COob], the model of a read after
    the terminating zero; a result longer than the region the code
    allocates for it is [COob] too, the model of a write past it.  The
    theorems show that each decoder inverts its encoder, and exhibit the
    inputs on which [cburldecode] reads past the string, and [cbbasedecode]
    and [cbcsvunescape] write past their buffers. *)

From Stdlib Require Import ZArith Lia List Bool.
From S2P Require Import Prelude Varint Compare Codec CbList.
Import ListNotations.
Open Scope Z_scope.
Open Scope vl_scope.

(** ** Hexadecimal digits *)

(** The digit [sprintf("%02X")] prints for [0 <= n < 16]. *)
Definition hexdig (n : Z) : Z := if n <? 10 then 48 + n else 55 + n.

(** [sprintf(wp, "%02X", c)] for a byte. *)
Definition hex2 (c : Z) : list Z := [hexdig (c / 16); hexdig (c mod 16)].

(** ** URL encoding *)

(** The bytes [cburlencode] writes as they are: letters, digits and
    [_-.] (the [c != '\0'] guard keeps the terminator of ["_-."] out). *)
Definition url_safe (c : Z) : bool :=
  ((65 <=? c) && (c <=? 90)) || ((97 <=? c) && (c <=? 122)) || ((48 <=? c) && (c <=? 57)) ||
  negb (c =? 0) && ((c =? 95) || (c =? 45) || (c =? 46)).

(** [cburlencode] (cabin.c 1483-1501): the encoded string. *)
Definition cburlencode (ptr : list Z) (size : Z) : list Z :=
  flat_map (fun c => if url_safe c then [c] else 37 :: hex2 c) (region ptr size).

(** [CB_MALLOC(buf, size * 3 + 1)]: the allocation size as the [int]
    expression computes it. *)
Definition cburlencode_alloc (size : Z) : Z := wrap32 (size * 3 + 1).

(** [strchr("1234567890abcdefABCDEF", c)]: also true for [c = 0], whose
    match is the terminator of the table. *)
Definition url_hexchar (c : Z) : bool :=
  (c =? 0) || ((48 <=? c) && (c <=? 57)) || ((97 <=? c) && (c <=? 102)) || ((65 <=? c) && (c <=? 70)).

(** The value of a digit as [cburldecode] computes it from an [unsigned
    char]: upper case is lowered, letters count from 10, the rest from
    ['0']. *)
Definition url_hexval (c : Z) : Z :=
  let c := if (65 <=? c) && (c <=? 90) then c + 32 else c in
  if (97 <=? c) && (c <=? 122) then c - 97 + 10 else c - 48.

(** The [while( *str != '\0')] loop of [cburldecode] (cabin.c 1509-1543)
    over the memory from [str]; [acc] is the output so far.  A read
    beyond the memory is [COob]. *)
Fixpoint urldec_loop (mem acc : list Z) : cres (list Z) :=
  match mem with
  | [] => COob
  | c :: r =>
      if c =? 0 then CDone acc
      else if c =? 37 then
        match r with
        | [] => COob
        | c1 :: r1 =>
            if negb (url_hexchar c1) then CDone acc
            else
              match r1 with
              | [] => COob
              | c2 :: r2 =>
                  if negb (url_hexchar c2) then CDone acc
                  else urldec_loop r2 (acc ++ [uc (url_hexval c1 * 16 + url_hexval c2)])
              end
        end
      else if c =? 43 then urldec_loop r (acc ++ [32])
      else urldec_loop r (acc ++ [c])
  end.

(** [cburldecode] (cabin.c 1505-1549): the decoded bytes. *)
Definition cburldecode (mem : list Z) : cres (list Z) := urldec_loop mem [].

(** ** Base64 *)

(** The table of [cbbaseencode]. *)
Definition b64tbl : list Z :=
  map (fun n => 65 + n) (map Z.of_nat (seq 0 26)) ++ map (fun n => 97 + n) (map Z.of_nat (seq 0 26)) ++
  map (fun n => 48 + n) (map Z.of_nat (seq 0 10)) ++ [43; 47].

Definition tbl (n : Z) : Z := znth 0 b64tbl n.

(** The [for(i = 0; i < size; i += 3)] loop of [cbbaseencode] (cabin.c
    1563-1587), by the [switch(size - i)] on the bytes left. *)
Fixpoint b64enc (obj : list Z) : list Z :=
  match obj with
  | [] => []
  | [a] => [tbl (Z.shiftr a 2); tbl (Z.shiftl (Z.land a 3) 4); 61; 61]
  | [a; b] => [tbl (Z.shiftr a 2); tbl (Z.shiftl (Z.land a 3) 4 + Z.shiftr b 4);
               tbl (Z.shiftl (Z.land b 15) 2); 61]
  | a :: b :: c :: r =>
      [tbl (Z.shiftr a 2); tbl (Z.shiftl (Z.land a 3) 4 + Z.shiftr b 4);
       tbl (Z.shiftl (Z.land b 15) 2 + Z.shiftr c 6); tbl (Z.land c 63)] ++ b64enc r
  end.

(** [cbbaseencode] (cabin.c 1553-1588). *)
Definition cbbaseencode (ptr : list Z) (size : Z) : list Z := b64enc (region ptr size).

(** One character of the inner loop of [cbbasedecode] (cabin.c
    1604-1625): its six bits, [Some None] for ['='], [None] for a byte
    the decoder skips. *)
Definition b64val (c : Z) : option (option Z) :=
  if (65 <=? c) && (c <=? 90) then Some (Some (c - 65))
  else if (97 <=? c) && (c <=? 122) then Some (Some (c - 97 + 26))
  else if (48 <=? c) && (c <=? 57) then Some (Some (c - 48 + 52))
  else if c =? 43 then Some (Some 62)
  else if c =? 47 then Some (Some 63)
  else if c =? 61 then Some None
  else None.

(** The inner [for(i = 0; bpos < len && i < 4; bpos++)] loop: the
    characters left after it, [i], [bits] and [eqcnt]. *)
Fixpoint b64group (s : list Z) (i bits eqcnt : Z) : list Z * Z * Z * Z :=
  match s with
  | [] => ([], i, bits, eqcnt)
  | c :: r =>
      if 4 <=? i then (s, i, bits, eqcnt)
      else
        match b64val c with
        | Some (Some v) => b64group r (i + 1) (Z.lor (Z.shiftl bits 6) v) eqcnt
        | Some None => b64group r (i + 1) (Z.shiftl bits 6) (eqcnt + 1)
        | None => b64group r i bits eqcnt
        end
  end.

(** The bytes one group writes, by the [switch(eqcnt)]. *)
Definition b64out (bits eqcnt : Z) : list Z :=
  let b0 := Z.land (Z.shiftr bits 16) 255 in
  let b1 := Z.land (Z.shiftr bits 8) 255 in
  let b2 := Z.land bits 255 in
  if eqcnt =? 0 then [b0; b1; b2]
  else if eqcnt =? 1 then [b0; b1]
  else if eqcnt =? 2 then [b0]
  else [].

(** The outer [while(bpos < len && eqcnt == 0)] loop (cabin.c
    1601-1644).  Each round that does not stop reads a character, so
    [length s + 1] rounds are enough ([None] would be the bound of the
    model exhausted). *)
Fixpoint b64dec_loop (fuel : nat) (s : list Z) (eqcnt : Z) (acc : list Z) : option (list Z) :=
  match fuel with
  | O => None
  | S f =>
      match s with
      | [] => Some acc
      | _ =>
          if negb (eqcnt =? 0) then Some acc
          else
            let '(s', i, bits, eqcnt') := b64group s 0 0 eqcnt in
            if i =? 0 then Some acc
            else b64dec_loop f s' eqcnt' (acc ++ b64out bits eqcnt')
      end
  end.

(** [cbbasedecode] (cabin.c 1592-1648) of the string at [mem]: the
    decoded bytes, or [COob] when they and the terminating zero do not fit
    the [len + 1] bytes it allocates. *)
Definition cbbasedecode (mem : list Z) : option (cres (list Z)) :=
  let s := take_cstr mem in
  match b64dec_loop (S (length s)) s 0 [] with
  | Some out => Some (if zlen s <? zlen out then COob else CDone out)
  | None => None
  end.

(** ** Quoted-printable *)

(** The bytes [cbquoteencode] writes as [=XX]. *)
Definition qp_escaped (c : Z) : bool :=
  (c =? 61) || ((c <? 32) && negb (c =? 13) && negb (c =? 10) && negb (c =? 9)) || (126 <? c).

(** [cbquoteencode] (cabin.c 1652-1674). *)
Definition cbquoteencode (ptr : list Z) (size : Z) : list Z :=
  flat_map (fun c => if qp_escaped c then 61 :: hex2 c else [c]) (region ptr size).

(** The value of a digit as [cbquotedecode] computes it from a [char]. *)
Definition qp_hexval (c : Z) : Z :=
  let c := sc c in
  if (65 <=? c) && (c <=? 90) then c - 65 + 10
  else if (97 <=? c) && (c <=? 122) then c - 97 + 10
  else c - 48.

(** The [for(; *str != '\0'; str++)] loop of [cbquotedecode] (cabin.c
    1682-1712): [=] followed by CR LF or by a lone CR or LF is a soft line
    break; [=] and two characters is a byte. *)
Fixpoint qpdec_loop (mem acc : list Z) : cres (list Z) :=
  match mem with
  | [] => COob
  | c :: r =>
      if c =? 0 then CDone acc
      else if c =? 61 then
        match r with
        | [] => COob
        | c1 :: r1 =>
            if c1 =? 0 then CDone acc
            else if c1 =? 13 then
              match r1 with
              | [] => COob
              | c2 :: r2 => if c2 =? 10 then qpdec_loop r2 acc else qpdec_loop r1 acc
              end
            else if c1 =? 10 then qpdec_loop r1 acc
            else
              match r1 with
              | [] => COob
              | c2 :: r2 =>
                  if c2 =? 0 then CDone acc
                  else qpdec_loop r2 (acc ++ [uc (qp_hexval c1 * 16 + qp_hexval c2)])
              end
        end
      else qpdec_loop r (acc ++ [c])
  end.

(** [cbquotedecode] (cabin.c 1678-1717). *)
Definition cbquotedecode (mem : list Z) : cres (list Z) := qpdec_loop mem [].

(** ** CSV fields *)

(** [cbcsvescape] (cabin.c 1999-2013): the field in double quotes, each
    quote doubled. *)
Definition cbcsvescape (mem : list Z) : list Z :=
  34 :: flat_map (fun c => if c =? 34 then [34; 34] else [c]) (take_cstr mem) ++ [34].

(** The [for(i = 0; i < len; i++)] loop of [cbcsvunescape] (cabin.c
    2027-2033) over the bytes from [str], [n] rounds: a doubled quote is
    one quote, a single one is dropped.  [str[i + 1]] may be the byte
    after the [len] the loop counts. *)
Fixpoint csv_loop (l : list Z) (n : nat) : list Z :=
  match n, l with
  | O, _ => []
  | S _, [] => []
  | S n', c :: r =>
      if c =? 34 then
        match r with
        | c' :: r' => if c' =? 34 then c :: csv_loop r' (n' - 1) else csv_loop r n'
        | [] => csv_loop r n'
        end
      else c :: csv_loop r n'
  end.

(** [cbcsvunescape] (cabin.c 2017-2038): past an opening quote the
    length drops by one, and by one more when [str[len - 1]] is a quote,
    which for the string made of one double quote is the opening quote itself.  The
    result, with its terminating zero, must fit the [len + 1] bytes
    allocated. *)
Definition cbcsvunescape (mem : list Z) : cres (list Z) :=
  let s := take_cstr mem in
  let '(body, len) :=
    match s with
    | 34 :: t => (t, zlen t - (if last s 0 =? 34 then 1 else 0))
    | _ => (s, zlen s)
    end in
  let out := csv_loop body (Z.to_nat len) in
  if len + 1 <? zlen out + 1 then COob else CDone out.

(** ** XML entities *)

(** [cbstrfwmatch] (cabin.c 237-245): [str] begins with [key]. *)
Fixpoint cbstrfwmatch (str key : list Z) {struct key} : bool :=
  match key with
  | [] => true
  | k :: key' =>
      match str with
      | [] => false
      | c :: str' => if negb (c =? k) || (c =? 0) then false else cbstrfwmatch str' key'
      end
  end.

Definition ent_amp : list Z := [38; 97; 109; 112; 59].
Definition ent_lt : list Z := [38; 108; 116; 59].
Definition ent_gt : list Z := [38; 103; 116; 59].
Definition ent_quot : list Z := [38; 113; 117; 111; 116; 59].
Definition ent_apos : list Z := [38; 97; 112; 111; 115; 59].

(** [cbdatumtomalloc] (cabin.c 443-450) with a [NULL] size pointer: the
    region of the datum, as the string it holds. *)
Definition cbdatumtomalloc (d : CBDATUM) : list Z := cbdatumptr d.

(** The [while( *str != '\0')] loop of [cbxmlescape] (cabin.c 2169-2191);
    [mem] is the memory from [str]. *)
Fixpoint xmlesc_loop (mem : list Z) (d : CBDATUM) : CBDATUM :=
  match mem with
  | [] => d
  | c :: r =>
      if c =? 0 then d
      else
        let d :=
          if c =? 38 then cbdatumcat d ent_amp 5
          else if c =? 60 then cbdatumcat d ent_lt 4
          else if c =? 62 then cbdatumcat d ent_gt 4
          else if c =? 34 then cbdatumcat d ent_quot 6
          else if c =? 39 then cbdatumcat d ent_apos 6
          else cbdatumcat d mem 1 in
        xmlesc_loop r d
  end.

(** [cbxmlescape] (cabin.c 2166-2194). *)
Definition cbxmlescape (mem : list Z) : list Z :=
  cbdatumtomalloc (xmlesc_loop mem (cbdatumopen (Some []) 0)).

(** The loop of [cbxmlunescape] (cabin.c 2202-2226): an entity moves
    [str] past it, any other byte by one.  Each round reads a byte, so the
    length of the memory is enough rounds. *)
Fixpoint xmlun_loop (fuel : nat) (mem : list Z) (d : CBDATUM) : option CBDATUM :=
  match fuel with
  | O => None
  | S f =>
      match mem with
      | [] => None
      | c :: r =>
          if c =? 0 then Some d
          else if c =? 38 then
            if cbstrfwmatch mem ent_amp then xmlun_loop f (skipn 5 mem) (cbdatumcat d [38] 1)
            else if cbstrfwmatch mem ent_lt then xmlun_loop f (skipn 4 mem) (cbdatumcat d [60] 1)
            else if cbstrfwmatch mem ent_gt then xmlun_loop f (skipn 4 mem) (cbdatumcat d [62] 1)
            else if cbstrfwmatch mem ent_quot then xmlun_loop f (skipn 6 mem) (cbdatumcat d [34] 1)
            else if cbstrfwmatch mem ent_apos then xmlun_loop f (skipn 6 mem) (cbdatumcat d [39] 1)
            else xmlun_loop f r (cbdatumcat d mem 1)
          else xmlun_loop f r (cbdatumcat d mem 1)
      end
  end.

(** [cbxmlunescape] (cabin.c 2198-2229); [None] is a read past the
    memory given (or the bound of the model, which the theorems show is
    not reached). *)
Definition cbxmlunescape (mem : list Z) : option (list Z) :=
  option_map cbdatumtomalloc (xmlun_loop (length mem) mem (cbdatumopen (Some []) 0)).

(** ** Lemmas *)

(** A fact of every integer of [[0, k)], checked by computation. *)
Lemma check_range (P : Z -> bool) (k : nat) :
  forallb P (map Z.of_nat (seq 0 k)) = true -> forall n, 0 <= n < Z.of_nat k -> P n = true.
Proof.
  intros H n Hn. rewrite forallb_forall in H. apply H.
  replace n with (Z.of_nat (Z.to_nat n)) by lia. apply in_map, in_seq. lia.
Qed.

Ltac by_range k := intros ?n ?Hn; apply (check_range _ k); [vm_compute; reflexivity | try (unfold byte_ok in *); lia].

(** What the URL decoder does on one encoded byte. *)
Definition url_byte_ok (c : Z) : bool :=
  if url_safe c then negb ((c =? 0) || (c =? 37) || (c =? 43))
  else url_hexchar (hexdig (c / 16)) && url_hexchar (hexdig (c mod 16)) &&
       (uc (url_hexval (hexdig (c / 16)) * 16 + url_hexval (hexdig (c mod 16))) =? c).

Lemma url_byte_ok_all : forall c, byte_ok c -> url_byte_ok c = true.
Proof. by_range 256%nat. Qed.

Lemma urldec_enc (s : list Z) : forall (t acc : list Z),
  bytes_ok s ->
  urldec_loop (flat_map (fun c => if url_safe c then [c] else 37 :: hex2 c) s ++ 0 :: t) acc =
  CDone (acc ++ s).
Proof.
  induction s as [|c s IH]; intros t acc Hs; [rewrite app_nil_r; reflexivity|].
  apply Forall_cons_iff in Hs as (Hc & Hs). pose proof (url_byte_ok_all c Hc) as Hb.
  unfold url_byte_ok in Hb. cbn [flat_map]. rewrite <- app_assoc.
  destruct (url_safe c).
  - apply negb_true_iff, orb_false_iff in Hb as (Hb & H43). apply orb_false_iff in Hb as (H0 & H37).
    cbn [app urldec_loop]. rewrite H0, H37, H43. rewrite IH by exact Hs. rewrite <- app_assoc. reflexivity.
  - apply andb_true_iff in Hb as (Hb & Hv). apply andb_true_iff in Hb as (H1 & H2).
    apply Z.eqb_eq in Hv. cbn [app urldec_loop hex2]. rewrite H1, H2, Hv. cbn [negb].
    rewrite IH by exact Hs. rewrite <- app_assoc. reflexivity.
Qed.

(** What the quoted-printable decoder does on one encoded byte. *)
Definition qp_byte_ok (c : Z) : bool :=
  if qp_escaped c then
    negb ((hexdig (c / 16) =? 0) || (hexdig (c / 16) =? 13) || (hexdig (c / 16) =? 10) ||
          (hexdig (c mod 16) =? 0)) &&
    (uc (qp_hexval (hexdig (c / 16)) * 16 + qp_hexval (hexdig (c mod 16))) =? c)
  else negb ((c =? 0) || (c =? 61)).

Lemma qp_byte_ok_all : forall c, byte_ok c -> qp_byte_ok c = true.
Proof. by_range 256%nat. Qed.

Lemma qpdec_enc (s : list Z) : forall (t acc : list Z),
  bytes_ok s ->
  qpdec_loop (flat_map (fun c => if qp_escaped c then 61 :: hex2 c else [c]) s ++ 0 :: t) acc =
  CDone (acc ++ s).
Proof.
  induction s as [|c s IH]; intros t acc Hs; [rewrite app_nil_r; reflexivity|].
  apply Forall_cons_iff in Hs as (Hc & Hs). pose proof (qp_byte_ok_all c Hc) as Hb.
  unfold qp_byte_ok in Hb. cbn [flat_map]. rewrite <- app_assoc.
  destruct (qp_escaped c).
  - apply andb_true_iff in Hb as (Hb & Hv). apply Z.eqb_eq in Hv.
    apply negb_true_iff in Hb. repeat (apply orb_false_iff in Hb as (Hb & ?)).
    cbn [app qpdec_loop hex2 Z.eqb Pos.eqb]. replace (61 =? 0) with false by reflexivity.
    replace (61 =? 61) with true by reflexivity.
    repeat match goal with H : (_ =? _) = false |- _ => rewrite H; clear H end.
    rewrite Hv, IH by exact Hs. rewrite <- app_assoc. reflexivity.
  - apply negb_true_iff, orb_false_iff in Hb as (H0 & H61).
    cbn [app qpdec_loop]. rewrite H0, H61, IH by exact Hs. rewrite <- app_assoc. reflexivity.
Qed.

Lemma take_cstr_app (l t : list Z) : Forall (fun b => b <> 0) l -> take_cstr (l ++ 0 :: t) = l.
Proof.
  induction l as [|c l IH]; intros H; [reflexivity|].
  apply Forall_cons_iff in H as (Hc & H). cbn [app take_cstr].
  destruct (Z.eqb_spec c 0); [contradiction|]. rewrite IH by exact H. reflexivity.
Qed.

Lemma take_cstr_nz (m : list Z) : Forall (fun b => b <> 0) (take_cstr m).
Proof.
  induction m as [|c m IH]; cbn [take_cstr]; [constructor|].
  destruct (Z.eqb_spec c 0); [constructor | constructor; assumption].
Qed.

Lemma flat_map_nz (f : Z -> list Z) (s : list Z) :
  (forall c, c <> 0 -> Forall (fun b => b <> 0) (f c)) -> Forall (fun b => b <> 0) s ->
  Forall (fun b => b <> 0) (flat_map f s).
Proof.
  intros Hf. induction s as [|c s IH]; intros Hs; cbn [flat_map]; [constructor|].
  apply Forall_cons_iff in Hs as (Hc & Hs). apply Forall_app. split; [apply Hf, Hc | apply IH, Hs].
Qed.

(** ** CSV *)

Lemma csv_loop_enc (s rest : list Z) :
  csv_loop (flat_map (fun c => if c =? 34 then [34; 34] else [c]) s ++ rest)
           (length (flat_map (fun c => if c =? 34 then [34; 34] else [c]) s)) = s.
Proof.
  induction s as [|c s IH]; [destruct rest; reflexivity|]. cbn [flat_map].
  destruct (Z.eqb_spec c 34) as [->|Hc]; cbn [app length csv_loop Z.eqb Pos.eqb].
  - rewrite Nat.sub_1_r, Nat.pred_succ, IH. reflexivity.
  - destruct (Z.eqb_spec c 34); [contradiction|]. rewrite IH. reflexivity.
Qed.

(** ** XML *)

(** The entity [cbxmlescape] writes for a byte. *)
Definition xml_ent (c : Z) : list Z :=
  if c =? 38 then ent_amp else if c =? 60 then ent_lt else if c =? 62 then ent_gt
  else if c =? 34 then ent_quot else if c =? 39 then ent_apos else [c].

Lemma cbdatumcat_region (d : CBDATUM) (p q : list Z) (n k : Z) :
  region p n = region q k -> cbdatumcat d p n = cbdatumcat d q k.
Proof. intros H. unfold cbdatumcat. rewrite H. reflexivity. Qed.

(** [cbdatumcat] of a region whose bytes are [x]. *)
Ltac datum_step Hd x :=
  match goal with
  | |- context [cbdatumcat ?d ?p ?n] =>
      rewrite (cbdatumcat_region d p x n (zlen x)) by (rewrite region_self; reflexivity);
      destruct (cbdatumcat_ok d x (zlen x) Hd) as (?A & ?B)
  end.

Lemma xmlesc_loop_spec (mem : list Z) : forall d,
  datum_ok d ->
  datum_ok (xmlesc_loop mem d) /\ cbdatumptr (xmlesc_loop mem d) = cbdatumptr d ++ flat_map xml_ent (take_cstr mem).
Proof.
  induction mem as [|c r IH]; intros d Hd; cbn [xmlesc_loop take_cstr flat_map];
    [rewrite app_nil_r; split; [exact Hd | reflexivity]|].
  destruct (Z.eqb_spec c 0); [rewrite app_nil_r; split; [exact Hd | reflexivity]|].
  cbn [flat_map]. unfold xml_ent.
  destruct (Z.eqb_spec c 38); [|destruct (Z.eqb_spec c 60); [|destruct (Z.eqb_spec c 62);
    [|destruct (Z.eqb_spec c 34); [|destruct (Z.eqb_spec c 39)]]]];
  first [datum_step Hd ent_amp | datum_step Hd ent_lt | datum_step Hd ent_gt
        | datum_step Hd ent_quot | datum_step Hd ent_apos | datum_step Hd [c]];
  destruct (IH _ A) as (A' & B'); (split; [exact A' | rewrite B', B, region_self, app_assoc; reflexivity]).
Qed.

(** One round of the [cbxmlunescape] loop on what [cbxmlescape] wrote for
    a byte [c]: the byte is appended. *)
Lemma xmlun_step (c : Z) (rest : list Z) (d : CBDATUM) (f : nat) :
  c <> 0 -> xmlun_loop (S f) (xml_ent c ++ rest) d = xmlun_loop f rest (cbdatumcat d [c] 1).
Proof.
  intros Hc. unfold xml_ent.
  destruct (Z.eqb_spec c 38) as [->|H38]; [cbn -[cbdatumcat]; reflexivity|].
  destruct (Z.eqb_spec c 60) as [->|H60]; [cbn -[cbdatumcat]; reflexivity|].
  destruct (Z.eqb_spec c 62) as [->|H62]; [cbn -[cbdatumcat]; reflexivity|].
  destruct (Z.eqb_spec c 34) as [->|H34]; [cbn -[cbdatumcat]; reflexivity|].
  destruct (Z.eqb_spec c 39) as [->|H39]; [cbn -[cbdatumcat]; reflexivity|].
  cbn [app xmlun_loop]. destruct (Z.eqb_spec c 0); [contradiction|].
  destruct (Z.eqb_spec c 38); [contradiction|].
  rewrite (cbdatumcat_region d (c :: rest) [c] 1 1) by reflexivity. reflexivity.
Qed.

Lemma xmlun_enc (s : list Z) : forall t d fuel,
  datum_ok d -> Forall (fun b => b <> 0) s -> (length (flat_map xml_ent s) < fuel)%nat ->
  exists d', xmlun_loop fuel (flat_map xml_ent s ++ 0 :: t) d = Some d' /\ datum_ok d' /\
             cbdatumptr d' = cbdatumptr d ++ s.
Proof.
  induction s as [|c s IH]; intros t d fuel Hd Hs Hf.
  - destruct fuel as [|f]; [cbn in Hf; lia|]. exists d. rewrite app_nil_r.
    split; [reflexivity | split; [exact Hd | reflexivity]].
  - apply Forall_cons_iff in Hs as (Hc & Hs).
    assert (Hl : (1 <= length (xml_ent c))%nat) by (unfold xml_ent; repeat destruct (_ =? _); cbn; lia).
    cbn [flat_map] in *. rewrite length_app in Hf. destruct fuel as [|f]; [lia|].
    rewrite <- app_assoc, xmlun_step by exact Hc.
    destruct (cbdatumcat_ok d [c] 1 Hd) as (A & B).
    destruct (IH t _ f A Hs ltac:(lia)) as (d' & E & A' & B'). exists d'.
    rewrite E, B', B. split; [reflexivity | split; [exact A' | rewrite <- app_assoc; reflexivity]].
Qed.

(** ** Base64 *)

Definition b64_char_ok (n : Z) : bool :=
  negb (tbl n =? 0) && match b64val (tbl n) with Some (Some m) => m =? n | _ => false end.

Lemma b64_char_ok_all : forall n, 0 <= n < 64 -> b64_char_ok n = true.
Proof. by_range 64%nat. Qed.

Lemma b64val_tbl (n : Z) : 0 <= n < 64 -> b64val (tbl n) = Some (Some n) /\ tbl n <> 0.
Proof.
  intros Hn. pose proof (b64_char_ok_all n Hn) as H. unfold b64_char_ok in H.
  apply andb_true_iff in H as (H0 & H). apply negb_true_iff, Z.eqb_neq in H0.
  destruct (b64val (tbl n)) as [[m|]|]; try discriminate. apply Z.eqb_eq in H. subst. auto.
Qed.

(** [bits = (bits << 6) | v] on six fresh bits. *)
Lemma lor_shiftl6 (x v : Z) : 0 <= x -> 0 <= v < 64 -> Z.lor (Z.shiftl x 6) v = x * 64 + v.
Proof.
  intros Hx Hv.
  assert (Hz : Z.land (Z.shiftl x 6) v = 0).
  { rewrite <- (Z.mod_small v (2 ^ 6)) by (cbn; lia). rewrite <- Z.land_ones by lia.
    rewrite (Z.land_comm v), Z.land_assoc, Z.land_ones, Z.shiftl_mul_pow2, Z.mod_mul by (cbn; lia).
    apply Z.land_0_l. }
  rewrite <- Z.lxor_lor, <- Z.add_nocarry_lxor by exact Hz.
  rewrite Z.shiftl_mul_pow2 by lia. reflexivity.
Qed.

(** The six-bit values [cbbaseencode] takes of three bytes. *)
Lemma b64_split (a b c : Z) :
  byte_ok a -> byte_ok b -> byte_ok c ->
  0 <= Z.shiftr a 2 < 64 /\ 0 <= Z.shiftl (Z.land a 3) 4 + Z.shiftr b 4 < 64 /\
  0 <= Z.shiftl (Z.land b 15) 2 + Z.shiftr c 6 < 64 /\ 0 <= Z.land c 63 < 64 /\
  0 <= Z.shiftl (Z.land a 3) 4 < 64 /\ 0 <= Z.shiftl (Z.land b 15) 2 < 64 /\
  ((Z.shiftr a 2 * 64 + (Z.shiftl (Z.land a 3) 4 + Z.shiftr b 4)) * 64 +
     (Z.shiftl (Z.land b 15) 2 + Z.shiftr c 6)) * 64 + Z.land c 63 = a * 65536 + b * 256 + c /\
  (Z.shiftr a 2 * 64 + Z.shiftl (Z.land a 3) 4) * 64 * 64 = a * 65536 /\
  ((Z.shiftr a 2 * 64 + (Z.shiftl (Z.land a 3) 4 + Z.shiftr b 4)) * 64 +
     Z.shiftl (Z.land b 15) 2) * 64 = a * 65536 + b * 256.
Proof.
  unfold byte_ok. intros Ha Hb Hc.
  rewrite !Z.shiftr_div_pow2, !Z.shiftl_mul_pow2 by lia.
  change 3 with (Z.ones 2). change 15 with (Z.ones 4). change 63 with (Z.ones 6).
  rewrite !Z.land_ones by lia. cbn [Z.pow Z.pow_pos Pos.iter Z.mul]. Z.div_mod_to_equations. lia.
Qed.

Lemma b64out_bytes (a b c : Z) :
  byte_ok a -> byte_ok b -> byte_ok c ->
  b64out (a * 65536 + b * 256 + c) 0 = [a; b; c] /\ b64out (a * 65536 + b * 256) 1 = [a; b] /\
  b64out (a * 65536) 2 = [a].
Proof.
  unfold byte_ok, b64out. intros Ha Hb Hc. cbn [Z.eqb Pos.eqb].
  change 255 with (Z.ones 8). rewrite !Z.land_ones, !Z.shiftr_div_pow2 by lia.
  cbn [Z.pow Z.pow_pos Pos.iter Z.mul].
  repeat split; repeat f_equal; Z.div_mod_to_equations; lia.
Qed.

Lemma b64group_4 (v0 v1 v2 v3 : Z) (rest : list Z) :
  0 <= v0 < 64 -> 0 <= v1 < 64 -> 0 <= v2 < 64 -> 0 <= v3 < 64 ->
  b64group (tbl v0 :: tbl v1 :: tbl v2 :: tbl v3 :: rest) 0 0 0 =
  (rest, 4, ((v0 * 64 + v1) * 64 + v2) * 64 + v3, 0).
Proof.
  intros H0 H1 H2 H3. cbn [b64group].
  rewrite (proj1 (b64val_tbl v0 H0)), (proj1 (b64val_tbl v1 H1)), (proj1 (b64val_tbl v2 H2)),
    (proj1 (b64val_tbl v3 H3)). cbn [Z.leb Z.compare Pos.compare Z.add].
  rewrite !lor_shiftl6 by (try lia; nia). rewrite ?Z.shiftl_0_l, ?Z.mul_0_l, ?Z.add_0_l.
  destruct rest; reflexivity.
Qed.

Lemma b64group_pad (v0 v1 v2 : Z) :
  0 <= v0 < 64 -> 0 <= v1 < 64 -> 0 <= v2 < 64 ->
  b64group [tbl v0; tbl v1; 61; 61] 0 0 0 = ([], 4, (v0 * 64 + v1) * 64 * 64, 2) /\
  b64group [tbl v0; tbl v1; tbl v2; 61] 0 0 0 = ([], 4, ((v0 * 64 + v1) * 64 + v2) * 64, 1).
Proof.
  intros H0 H1 H2. cbn [b64group].
  rewrite (proj1 (b64val_tbl v0 H0)), (proj1 (b64val_tbl v1 H1)), (proj1 (b64val_tbl v2 H2)).
  cbn [Z.leb Z.compare Pos.compare Z.add b64val Z.eqb Pos.eqb andb].
  rewrite !lor_shiftl6 by (try lia; nia). rewrite ?Z.shiftl_0_l, ?Z.mul_0_l, ?Z.add_0_l.
  rewrite !Z.shiftl_mul_pow2 by lia. split; reflexivity.
Qed.

(** The Base64 text of a byte string holds no zero byte, and each round
    of the decoder turns four characters back into the bytes they came
    from. *)
Lemma b64dec_enc (n : nat) : forall (obj acc : list Z) (fuel : nat),
  (length obj <= n)%nat -> bytes_ok obj -> (length (b64enc obj) < fuel)%nat ->
  b64dec_loop fuel (b64enc obj) 0 acc = Some (acc ++ obj) /\
  Forall (fun x => x <> 0) (b64enc obj) /\ (length obj <= length (b64enc obj))%nat.
Proof.
  induction n as [|n IH]; intros obj acc fuel Hn Hb Hf;
    (destruct fuel as [|f]; [cbn in Hf; lia|]).
  - destruct obj; [|cbn in Hn; lia]. rewrite app_nil_r. repeat constructor.
  - destruct obj as [|a [|b [|c r]]]; [rewrite app_nil_r; repeat constructor | | |].
    + apply Forall_cons_iff in Hb as (Ha & _).
      destruct (b64_split a 0 0 Ha ltac:(unfold byte_ok; lia) ltac:(unfold byte_ok; lia))
        as (R0 & _ & _ & _ & R1 & _ & _ & E1 & _).
      cbn [b64enc length] in *. cbn [b64dec_loop Z.eqb negb].
      rewrite (proj1 (b64group_pad _ _ 0 R0 R1 ltac:(lia))). cbn [Z.eqb Pos.eqb].
      rewrite E1, (proj2 (proj2 (b64out_bytes a 0 0 Ha ltac:(unfold byte_ok; lia) ltac:(unfold byte_ok; lia)))).
      destruct f as [|f]; [lia|]. split; [reflexivity|].
      split; [repeat constructor; try lia; apply b64val_tbl; assumption | lia].
    + apply Forall_cons_iff in Hb as (Ha & Hb). apply Forall_cons_iff in Hb as (Hb & _).
      destruct (b64_split a b 0 Ha Hb ltac:(unfold byte_ok; lia))
        as (R0 & R1 & _ & _ & _ & R2 & _ & _ & E2).
      cbn [b64enc length] in *. cbn [b64dec_loop Z.eqb negb].
      rewrite (proj2 (b64group_pad _ _ _ R0 R1 R2)). cbn [Z.eqb Pos.eqb].
      rewrite E2, (proj1 (proj2 (b64out_bytes a b 0 Ha Hb ltac:(unfold byte_ok; lia)))).
      destruct f as [|f]; [lia|]. split; [reflexivity|].
      split; [repeat constructor; try lia; apply b64val_tbl; assumption | lia].
    + apply Forall_cons_iff in Hb as (Ha & Hb). apply Forall_cons_iff in Hb as (Hb & Hc).
      apply Forall_cons_iff in Hc as (Hc & Hr).
      destruct (b64_split a b c Ha Hb Hc) as (R0 & R1 & R2 & R3 & _ & _ & E3 & _).
      cbn [b64enc length app] in *.
      destruct (IH r (acc ++ [a; b; c]) f ltac:(lia) Hr ltac:(lia)) as (IH1 & IH2 & IH3).
      cbn [b64dec_loop]. rewrite b64group_4 by assumption. cbn [Z.eqb Pos.eqb negb].
      rewrite E3, (proj1 (b64out_bytes a b c Ha Hb Hc)), IH1, <- app_assoc.
      split; [reflexivity | split; [repeat constructor; try apply b64val_tbl; assumption | lia]].
Qed.

Lemma flat_map_length_le3 (f : Z -> list Z) (s : list Z) :
  (forall c, (length (f c) <= 3)%nat) -> (length (flat_map f s) <= 3 * length s)%nat.
Proof.
  intros Hf. induction s as [|c s IH]; cbn [flat_map length]; [lia|].
  rewrite length_app. specialize (Hf c). lia.
Qed.

(** ** Theorems *)

(** [cbbasedecode] of what the Base64 loop wrote gives the bytes back. *)
Lemma base_dec_enc (obj t : list Z) : bytes_ok obj -> cbbasedecode (b64enc obj ++ 0 :: t) = Some (CDone obj).
Proof.
  intros Hb. destruct (b64dec_enc (length obj) obj [] (S (length (b64enc obj))) ltac:(lia) Hb ltac:(lia))
    as (E & Hnz & Hl).
  unfold cbbasedecode. rewrite take_cstr_app by exact Hnz. rewrite E. cbn [app].
  destruct (Z.ltb_spec (zlen (b64enc obj)) (zlen obj)); [unfold zlen in *; lia | reflexivity].
Qed.

(** C12: Round trips of the byte encoders: [cburldecode], [cbbasedecode]
    and [cbquotedecode] give back any byte string (zero bytes included)
    from what [cburlencode], [cbbaseencode] and [cbquoteencode] wrote,
    followed by its terminating zero, whatever comes after it. *)
Theorem cbcodec_roundtrip (obj t : list Z) :
  bytes_ok obj ->
  cburldecode (cburlencode obj (zlen obj) ++ 0 :: t) = CDone obj /\
  cbbasedecode (cbbaseencode obj (zlen obj) ++ 0 :: t) = Some (CDone obj) /\
  cbquotedecode (cbquoteencode obj (zlen obj) ++ 0 :: t) = CDone obj.
Proof.
  intros Hb. unfold cburlencode, cbbaseencode, cbquoteencode. rewrite !region_self.
  split; [apply (urldec_enc obj t []), Hb|]. split; [apply base_dec_enc, Hb | apply (qpdec_enc obj t []), Hb].
Qed.

(** [cbcsvunescape] of what [cbcsvescape] wrote gives back the string. *)
Lemma csv_unescape_escape (mem t : list Z) :
  cbcsvunescape (cbcsvescape mem ++ 0 :: t) = CDone (take_cstr mem).
Proof.
  pose proof (take_cstr_nz mem) as Hnz. unfold cbcsvunescape, cbcsvescape.
  set (E := flat_map (fun c => if c =? 34 then [34; 34] else [c]) (take_cstr mem)).
  assert (HE : Forall (fun b => b <> 0) E)
    by (apply flat_map_nz; [intros c Hc; destruct (c =? 34); repeat constructor; lia | exact Hnz]).
  rewrite take_cstr_app
    by (constructor; [lia | apply Forall_app; split; [exact HE | repeat constructor; lia]]).
  cbn [Z.eqb Pos.eqb]. rewrite app_comm_cons, last_last. cbn [Z.eqb Pos.eqb].
  rewrite zlen_app, zlen_cons, zlen_nil. replace (zlen E + (1 + 0) - 1) with (zlen E) by lia.
  unfold zlen. rewrite Nat2Z.id. unfold E. rewrite csv_loop_enc.
  pose proof (flat_map_length_ge (fun c => if c =? 34 then [34; 34] else [c]) (take_cstr mem)) as Hge.
  lapply Hge; [intros Hl|intros c _; destruct (c =? 34); cbn; lia].
  rewrite (proj2 (Z.ltb_ge _ _)) by lia. reflexivity.
Qed.

(** What [cbxmlescape] writes: the entity of each byte of the string. *)
Lemma xml_escape_ent (mem : list Z) : cbxmlescape mem = flat_map xml_ent (take_cstr mem).
Proof.
  unfold cbxmlescape, cbdatumtomalloc. destruct (cbdatumopen_ok (Some []) 0) as (H0 & P0).
  destruct (xmlesc_loop_spec mem _ H0) as (_ & Pe). rewrite Pe, P0. reflexivity.
Qed.

Lemma xml_unescape_escape (mem t : list Z) : cbxmlunescape (cbxmlescape mem ++ 0 :: t) = Some (take_cstr mem).
Proof.
  pose proof (take_cstr_nz mem) as Hnz. rewrite xml_escape_ent. unfold cbxmlunescape, cbdatumtomalloc.
  destruct (cbdatumopen_ok (Some []) 0) as (H0 & P0).
  destruct (xmlun_enc (take_cstr mem) t (cbdatumopen (Some []) 0)
              (length (flat_map xml_ent (take_cstr mem) ++ 0 :: t)) H0 Hnz)
    as (d' & E & _ & B); [rewrite length_app; cbn; lia|].
  rewrite E. cbn [option_map]. rewrite B, P0. reflexivity.
Qed.

(** Round trips of the text escapes: [cbcsvunescape] of what
    [cbcsvescape] wrote and [cbxmlunescape] of what [cbxmlescape] wrote
    give back the C string they were given. *)
Theorem cbescape_roundtrip (mem t : list Z) :
  cbcsvunescape (cbcsvescape mem ++ 0 :: t) = CDone (take_cstr mem) /\
  cbxmlunescape (cbxmlescape mem ++ 0 :: t) = Some (take_cstr mem).
Proof. split; [apply csv_unescape_escape | apply xml_unescape_escape]. Qed.

(** [cburldecode] reads past the string it decodes: [strchr] finds the
    terminating zero in its table of hex digits, so a [%] followed by one
    digit and the end of the string is decoded with the zero as second
    digit, and the loop goes on after the terminator. *)
Theorem cburldecode_reads_past_string (x : Z) :
  url_hexchar x = true -> x <> 0 -> cburldecode [37; x; 0] = COob.
Proof.
  intros Hx Hx0. unfold cburldecode. cbn [urldec_loop Z.eqb Pos.eqb].
  destruct (Z.eqb_spec x 0); [contradiction|]. rewrite Hx. reflexivity.
Qed.

(** [cbbasedecode] writes past the buffer it allocates: a string of
    one Base64 character gets [len + 1 = 2] bytes, and the decoder
    writes three bytes of the incomplete group and the terminating
    zero. *)
Theorem cbbasedecode_writes_past_buffer (x : Z) :
  0 <= x < 64 -> cbbasedecode [tbl x; 0] = Some COob.
Proof.
  intros Hx. destruct (b64val_tbl x Hx) as (V & N).
  unfold cbbasedecode. cbn [take_cstr]. destruct (Z.eqb_spec (tbl x) 0); [contradiction|].
  cbn [length b64dec_loop b64group]. rewrite V. cbn. reflexivity.
Qed.

(** [cbcsvunescape] writes past the buffer it allocates: on the string
    made of one double quote the quote counts as opening and closing, the
    length becomes -1, [malloc(0)] is called and the terminating zero is
    written into it. *)
Theorem cbcsvunescape_writes_past_buffer (t : list Z) : cbcsvunescape (34 :: 0 :: t) = COob.
Proof. reflexivity. Qed.

(** The buffer of [cburlencode], [size * 3 + 1] bytes as an [int],
    holds the encoding and its zero up to [size = 715827882]; past it the
    multiplication overflows, and at [size = 1431655765] the allocation
    is [malloc(0)]. *)
Theorem cburlencode_alloc_bounds (ptr : list Z) (size : Z) :
  zlen (region ptr size) <= 715827882 ->
  zlen (cburlencode ptr size) + 1 <= cburlencode_alloc (zlen (region ptr size)) /\
  cburlencode_alloc 715827883 < 0 /\ cburlencode_alloc 1431655765 = 0.
Proof.
  intros H. split; [|split; reflexivity].
  unfold cburlencode, cburlencode_alloc, wrap32.
  pose proof (flat_map_length_le3 (fun c => if url_safe c then [c] else 37 :: hex2 c) (region ptr size))
    as Hl. lapply Hl; [intros Hl'|intros c; destruct (url_safe c); cbn; lia].
  pose proof (zlen_nonneg (region ptr size)).
  rewrite Z.mod_small by lia. unfold zlen in *. lia.
Qed.

(** The bytes "hi", a zero byte and "&+%\xC8". *)
Definition codec_sample : list Z := [104; 105; 0; 38; 43; 37; 200].

Lemma cbcodec_roundtrip_witness :
  cburldecode (cburlencode codec_sample (zlen codec_sample) ++ 0 :: []) = CDone codec_sample /\
  cbbasedecode (cbbaseencode codec_sample (zlen codec_sample) ++ 0 :: []) = Some (CDone codec_sample) /\
  cbquotedecode (cbquoteencode codec_sample (zlen codec_sample) ++ 0 :: []) = CDone codec_sample.
Proof. apply cbcodec_roundtrip. unfold codec_sample. repeat constructor; unfold byte_ok; lia. Defined.

Lemma cburldecode_reads_past_string_witness : cburldecode [37; 52; 0] = COob.
Proof. apply cburldecode_reads_past_string; [reflexivity | lia]. Defined.

Lemma cbbasedecode_writes_past_buffer_witness : cbbasedecode [tbl 0; 0] = Some COob.
Proof. apply cbbasedecode_writes_past_buffer. lia. Defined.

Lemma cburlencode_alloc_bounds_witness :
  zlen (cburlencode codec_sample 7) + 1 <= cburlencode_alloc (zlen (region codec_sample 7)) /\
  cburlencode_alloc 715827883 < 0 /\ cburlencode_alloc 1431655765 = 0.
Proof. apply cburlencode_alloc_bounds. vm_compute. discriminate. Defined.
