(* ===== verification/CbStr.v ===== *)
(** * CbStr: the string helpers of cabin.c

    [cbstricmp], [cbstrfwimatch], [cbstrbwmatch], [cbstrbwimatch],
    [cbstrtoupper], [cbstrtolower], [cbstrtrim] and [cbstrsqzspc]
    (cabin.c 221-366).  A string argument is the memory from the string
    pointer on: the string, its terminating zero and what follows.  A read
    outside that memory, after its end or before the pointer, is [COob];
    the functions that change the string in place return the memory they
    leave.  [char] is signed: the case tests read a byte through [sc].  The
    theorems show that [cbstricmp] orders strings as [vllexcompare] orders
    their lower-case forms, that the case-insensitive matches are the plain
    ones on the strings [cbstrtolower] writes, that [cbstrbwmatch] reads the
    byte before the string when the string is a proper suffix of the key,
    and what [cbstrtrim] and [cbstrsqzspc] leave in the string. *)

From Stdlib Require Import ZArith Lia List Bool.
From S2P Require Import Prelude Compare Codec CbList CbCodec.
Import ListNotations.
Open Scope Z_scope.
Open Scope vl_scope.

(** ** Sequencing reads that may leave the memory *)

Definition cbind {A B : Type} (r : cres A) (k : A -> cres B) : cres B :=
  match r with CDone a => k a | COob => COob | CAbort => CAbort end.

Declare Scope cres_scope.
Delimit Scope cres_scope with cres.
Notation "'let?' x ':=' r 'in' k" := (cbind r (fun x => k))
  (at level 10, x name, r at level 100, k at level 200) : cres_scope.
Open Scope cres_scope.

(** ** Reading C strings *)

(** [strlen]: the bytes before the first zero of the memory; [COob]
    when the memory has no zero. *)
Fixpoint c_str (m : list Z) : cres (list Z) :=
  match m with
  | [] => COob
  | c :: r =>
      if c =? 0 then CDone []
      else match c_str r with
           | CDone s => CDone (c :: s)
           | COob => COob
           | CAbort => CAbort
           end
  end.

(** [str[k]] for an index [k] that may be negative. *)
Definition zread (m : list Z) (k : Z) : cres Z :=
  if k <? 0 then COob
  else match nth_error m (Z.to_nat k) with Some c => CDone c | None => COob end.

(** ** Letter case *)

(** [c >= 'A' && c <= 'Z'] and [c >= 'a' && c <= 'z'] on a [char]. *)
Definition is_upper (c : Z) : bool := (65 <=? sc c) && (sc c <=? 90).
Definition is_lower (c : Z) : bool := (97 <=? sc c) && (sc c <=? 122).

(** The byte [cbstrtolower] stores for [c] ([str[i] += 'a' - 'A']), also the
    value [cbstricmp] compares ([*astr + ('a' - 'A')] or the [unsigned
    char]). *)
Definition tolower_char (c : Z) : Z := if is_upper c then c + 32 else c.

(** The byte [cbstrtoupper] stores for [c] ([str[i] -= 'a' - 'A']). *)
Definition toupper_char (c : Z) : Z := if is_lower c then c - 32 else c.

(** The [int] [cbstrfwimatch] and [cbstrbwimatch] compare: the signed
    [char], moved to lower case when it is an upper-case letter. *)
Definition ci_char (c : Z) : Z :=
  let s := sc c in if (65 <=? s) && (s <=? 90) then s + 32 else s.

(** ** Operations *)

(** [cbstricmp] (cabin.c 221-233). *)
Fixpoint cbstricmp (astr bstr : list Z) : cres Z :=
  match astr, bstr with
  | [], _ => COob
  | a :: astr', _ =>
      if a =? 0 then
        match bstr with
        | [] => COob
        | b :: _ => CDone (if b =? 0 then 0 else -1)
        end
      else
        match bstr with
        | [] => COob
        | b :: bstr' =>
            if b =? 0 then CDone 1
            else
              let ac := tolower_char a in
              let bc := tolower_char b in
              if negb (ac =? bc) then CDone (ac - bc) else cbstricmp astr' bstr'
        end
  end.

(** [cbstrfwimatch] (cabin.c 249-263). *)
Fixpoint cbstrfwimatch (str key : list Z) {struct key} : cres bool :=
  match key with
  | [] => COob
  | k :: key' =>
      if k =? 0 then CDone true
      else
        match str with
        | [] => COob
        | c :: str' =>
            if c =? 0 then CDone false
            else if negb (ci_char c =? ci_char k) then CDone false
            else cbstrfwimatch str' key'
        end
  end.

(** The loop of [cbstrbwmatch] and [cbstrbwimatch] (cabin.c 272-275 and
    285-291), the bytes compared through [f]: [str[slen-i]] is read
    before [i > slen] is tested, so a key longer than the string reads
    [str[-1]].  It runs [klen] times. *)
Fixpoint bw_loop (f : Z -> Z) (str key : list Z) (slen klen i : Z) (n : nat) : cres bool :=
  match n with
  | O => CDone true
  | S n' =>
      match zread str (slen - i) with
      | CDone s =>
          if negb (f s =? f (znth 0 key (klen - i))) || (slen <? i) then CDone false
          else bw_loop f str key slen klen (i + 1) n'
      | _ => COob
      end
  end.

Definition bw_match (f : Z -> Z) (str key : list Z) : cres bool :=
  match c_str str, c_str key with
  | CDone s, CDone k => bw_loop f str key (zlen s) (zlen k) 1 (length k)
  | _, _ => COob
  end.

(** [cbstrbwmatch] (cabin.c 267-277). *)
Definition cbstrbwmatch (str key : list Z) : cres bool := bw_match (fun c => c) str key.

(** [cbstrbwimatch] (cabin.c 281-293). *)
Definition cbstrbwimatch (str key : list Z) : cres bool := bw_match ci_char str key.

(** The loops of [cbstrtoupper] and [cbstrtolower] (cabin.c 297-315): each
    byte of the string is rewritten in place, the zero and what follows
    are kept. *)
Fixpoint case_loop (f : Z -> Z) (m : list Z) : cres (list Z) :=
  match m with
  | [] => COob
  | c :: r =>
      if c =? 0 then CDone m
      else match case_loop f r with
           | CDone r' => CDone (f c :: r')
           | COob => COob
           | CAbort => CAbort
           end
  end.

Definition cbstrtoupper (m : list Z) : cres (list Z) := case_loop toupper_char m.
Definition cbstrtolower (m : list Z) : cres (list Z) := case_loop tolower_char m.

(** The space of [cbstrtrim]: [(c >= 0x07 && c <= 0x0d) || c == 0x20]. *)
Definition trim_space (c : Z) : bool := ((7 <=? sc c) && (sc c <=? 13)) || (sc c =? 32).

(** The space of [cbstrsqzspc]: [c > 0 && c <= ' ']. *)
Definition sqz_space (c : Z) : bool := (0 <? sc c) && (sc c <=? 32).

(** One round of the first loop of [cbstrtrim] (cabin.c 326-331) on the
    byte [c] with the flag [head] (only spaces read so far): whether [c]
    is copied to [wp], and the next flag. *)
Definition trim_step (head : bool) (c : Z) : bool * bool :=
  if trim_space c then (negb head, head) else (true, false).

(** One round of the first loop of [cbstrsqzspc] (cabin.c 349-355): a
    space is copied only after a byte that is not one ([spc] false). *)
Definition sqz_step (spc : bool) (c : Z) : bool * bool :=
  if sqz_space c then (negb spc, true) else (true, false).

(** The first loop of [cbstrtrim] and [cbstrsqzspc], the round [g]:
    [str[i]] is read at [i] and copied to [wp <= i].  It returns the
    memory and [wp].  Its fuel, [length m + 1] rounds, is more than the
    reads within the memory. *)
Fixpoint copy_loop (g : bool -> Z -> bool * bool) (m : list Z) (i wp : nat) (b : bool) (n : nat)
  : cres (list Z * nat) :=
  match n with
  | O => COob
  | S n' =>
      match nth_error m i with
      | None => COob
      | Some c =>
          if c =? 0 then CDone (m, wp)
          else match g b c with
               | (true, b') => copy_loop g (list_set m wp c) (S i) (S wp) b' n'
               | (false, b') => copy_loop g m (S i) wp b' n'
               end
      end
  end.

(** The last loops of [cbstrtrim] (cabin.c 334-336) and [cbstrsqzspc]
    (cabin.c 358-364): the bytes before [wp] that are spaces of [p] are
    set to zero, from [wp - 1] down, until a byte that is not. *)
Fixpoint back_loop (p : Z -> bool) (m : list Z) (wp : nat) : list Z :=
  match wp with
  | O => m
  | S w => if p (nth w m 0) then back_loop p (list_set m w 0) w else m
  end.

(** [cbstrtrim] (cabin.c 319-338). *)
Definition cbstrtrim (m : list Z) : cres (list Z) :=
  match copy_loop trim_step m 0 0 true (S (length m)) with
  | CDone (m', wp) => CDone (back_loop trim_space (list_set m' wp 0) wp)
  | COob => COob
  | CAbort => CAbort
  end.

(** [cbstrsqzspc] (cabin.c 342-366). *)
Definition cbstrsqzspc (m : list Z) : cres (list Z) :=
  match copy_loop sqz_step m 0 0 true (S (length m)) with
  | CDone (m', wp) => CDone (back_loop sqz_space (list_set m' wp 0) wp)
  | COob => COob
  | CAbort => CAbort
  end.

(** ** Lemmas *)

Section StrFacts.

Lemma c_str_app (s t : list Z) : Forall (fun b => b <> 0) s -> c_str (s ++ 0 :: t) = CDone s.
Proof.
  induction s as [|c s IH]; intros H; [reflexivity|].
  apply Forall_cons_iff in H as (Hc & H). cbn [app c_str].
  destruct (Z.eqb_spec c 0); [contradiction|]. rewrite IH by exact H. reflexivity.
Qed.

Lemma case_loop_app (f : Z -> Z) (s t : list Z) :
  Forall (fun b => b <> 0) s -> case_loop f (s ++ 0 :: t) = CDone (map f s ++ 0 :: t).
Proof.
  induction s as [|c s IH]; intros H; [reflexivity|].
  apply Forall_cons_iff in H as (Hc & H). cbn [app case_loop].
  destruct (Z.eqb_spec c 0); [contradiction|]. rewrite IH by exact H. reflexivity.
Qed.

Lemma tolower_byte (c : Z) : byte_ok c -> byte_ok (tolower_char c).
Proof.
  unfold tolower_char, is_upper, sc, byte_ok. intros H. repeat (vl_case_test; cbn [andb] in *); lia.
Qed.

Lemma tolower_nz (c : Z) : byte_ok c -> c <> 0 -> tolower_char c <> 0.
Proof.
  unfold tolower_char, is_upper, sc, byte_ok. intros H H0. repeat (vl_case_test; cbn [andb] in *); lia.
Qed.

Lemma ci_char_tolower (c : Z) : byte_ok c -> ci_char c = sc (tolower_char c).
Proof.
  unfold ci_char, tolower_char, is_upper, sc, byte_ok. intros H. repeat (vl_case_test; cbn [andb] in *); lia.
Qed.

(** Two bytes compare equal through [ci_char] exactly when their lower
    cases are equal. *)
Lemma ci_char_eqb (a b : Z) : byte_ok a -> byte_ok b ->
  (ci_char a =? ci_char b) = (tolower_char a =? tolower_char b).
Proof.
  intros Ha Hb. rewrite !ci_char_tolower by assumption.
  destruct (Z.eqb_spec (tolower_char a) (tolower_char b)) as [E|E].
  - rewrite E. apply Z.eqb_refl.
  - apply Z.eqb_neq. intros E'. apply E, sc_inj; [apply tolower_byte; exact Ha | apply tolower_byte; exact Hb | exact E'].
Qed.

Lemma map_tolower_nz (s : list Z) : bytes_ok s -> Forall (fun b => b <> 0) s ->
  Forall (fun b => b <> 0) (map tolower_char s).
Proof.
  intros Hb Hn. apply Forall_map. apply Forall_forall. intros c Hc.
  apply tolower_nz; [exact (proj1 (Forall_forall _ _) Hb c Hc) | exact (proj1 (Forall_forall _ _) Hn c Hc)].
Qed.

End StrFacts.

(** What the backward match computes, on the two strings reversed: the
    key is read from its end while the string has bytes left. *)
Fixpoint bw_ref (f : Z -> Z) (rs rk : list Z) : cres bool :=
  match rk with
  | [] => CDone true
  | y :: rk' =>
      match rs with
      | [] => COob
      | x :: rs' => if f x =? f y then bw_ref f rs' rk' else CDone false
      end
  end.

(** [k] is a suffix of [s]. *)
Definition suffixb (k s : list Z) : bool :=
  if list_eq_dec Z.eq_dec (skipn (length s - length k) s) k then true else false.

Section BwMatch.

Lemma skipn_nth_cons {A} (l : list A) (j : nat) (d : A) :
  (j < length l)%nat -> skipn j l = nth j l d :: skipn (S j) l.
Proof.
  revert j. induction l as [|x l IH]; intros [|j] H; cbn [length skipn nth] in *; try lia.
  - reflexivity.
  - apply IH. lia.
Qed.

Lemma zread_app (s t : list Z) (k : Z) :
  0 <= k < zlen s -> zread (s ++ t) k = CDone (nth (Z.to_nat k) s 0).
Proof.
  intros H. unfold zread. destruct (Z.ltb_spec k 0); [lia|].
  rewrite nth_error_app1 by (unfold zlen in H; lia).
  rewrite (nth_error_nth' s 0) by (unfold zlen in H; lia). reflexivity.
Qed.

(** A read at or after the end of the memory is out of bounds. *)
Lemma zread_past (m : list Z) (k : Z) : zlen m <= k -> zread m k = COob.
Proof.
  intros H. unfold zread. destruct (Z.ltb_spec k 0); [reflexivity|].
  rewrite (proj2 (nth_error_None m (Z.to_nat k))) by (unfold zlen in H; lia). reflexivity.
Qed.

Lemma rev_nth_z (s : list Z) (j : nat) :
  (j < length s)%nat -> nth (Z.to_nat (zlen s - (Z.of_nat j + 1))) s 0 = nth j (rev s) 0.
Proof.
  intros H. rewrite rev_nth by exact H. f_equal. unfold zlen. lia.
Qed.

(** The loop after [j] rounds reads the rest of the reversed strings. *)
Lemma bw_loop_ref (f : Z -> Z) (s k t u : list Z) (n : nat) : forall j,
  (j + n = length k)%nat ->
  bw_loop f (s ++ 0 :: t) (k ++ 0 :: u) (zlen s) (zlen k) (Z.of_nat j + 1) n =
  bw_ref f (skipn j (rev s)) (skipn j (rev k)).
Proof.
  induction n as [|n IH]; intros j Hj; cbn [bw_loop].
  - rewrite skipn_all2 with (l := rev k) by (rewrite length_rev; lia).
    destruct (skipn j (rev s)); reflexivity.
  - rewrite (skipn_nth_cons (rev k) j 0) by (rewrite length_rev; lia). cbn [bw_ref].
    unfold znth. rewrite app_nth1 by (unfold zlen; lia). rewrite rev_nth_z by lia.
    destruct (Nat.ltb_spec j (length s)) as [Hs|Hs].
    + rewrite zread_app by (unfold zlen; lia). rewrite rev_nth_z by exact Hs.
      rewrite (skipn_nth_cons (rev s) j 0) by (rewrite length_rev; lia).
      destruct (Z.ltb_spec (zlen s) (Z.of_nat j + 1)); [unfold zlen in *; lia|]. rewrite orb_false_r.
      cbn [bw_ref]. destruct (Z.eqb_spec (f (nth j (rev s) 0)) (f (nth j (rev k) 0))); cbn [negb]; [|reflexivity].
      replace (Z.of_nat j + 1 + 1) with (Z.of_nat (S j) + 1) by lia. apply IH. lia.
    + unfold zread. destruct (Z.ltb_spec (zlen s - (Z.of_nat j + 1)) 0); [|unfold zlen in *; lia].
      rewrite skipn_all2 by (rewrite length_rev; lia). reflexivity.
Qed.

Lemma bw_match_app (f : Z -> Z) (s k t u : list Z) :
  Forall (fun b => b <> 0) s -> Forall (fun b => b <> 0) k ->
  bw_match f (s ++ 0 :: t) (k ++ 0 :: u) = bw_ref f (rev s) (rev k).
Proof.
  intros Hs Hk. unfold bw_match. rewrite !c_str_app by assumption.
  apply (bw_loop_ref f s k t u (length k) 0). reflexivity.
Qed.

Lemma bw_ref_id (rs rk : list Z) :
  bw_ref (fun c => c) rs rk =
  if list_eq_dec Z.eq_dec (firstn (length rk) rs) rk then CDone true
  else if list_eq_dec Z.eq_dec (firstn (length rs) rk) rs then COob else CDone false.
Proof.
  revert rs. induction rk as [|y rk IH]; intros [|x rs]; cbn [bw_ref length firstn]; try reflexivity.
  rewrite IH. destruct (Z.eqb_spec x y) as [->|E].
  - destruct (list_eq_dec Z.eq_dec (firstn (length rk) rs) rk),
      (list_eq_dec Z.eq_dec (y :: firstn (length rk) rs) (y :: rk)); try congruence;
    destruct (list_eq_dec Z.eq_dec (firstn (length rs) rk) rs),
      (list_eq_dec Z.eq_dec (y :: firstn (length rs) rk) (y :: rs)); congruence.
  - destruct (list_eq_dec Z.eq_dec (x :: firstn (length rk) rs) (y :: rk)); [congruence|].
    destruct (list_eq_dec Z.eq_dec (y :: firstn (length rs) rk) (x :: rs)); congruence.
Qed.

Lemma bw_ref_ci (rs rk : list Z) : bytes_ok rs -> bytes_ok rk ->
  bw_ref ci_char rs rk = bw_ref (fun c => c) (map tolower_char rs) (map tolower_char rk).
Proof.
  revert rs. induction rk as [|y rk IH]; intros [|x rs] Hs Hk; cbn [bw_ref map]; try reflexivity.
  apply Forall_cons_iff in Hs as (Hx & Hs), Hk as (Hy & Hk).
  rewrite ci_char_eqb by assumption. rewrite IH by assumption. reflexivity.
Qed.

Lemma suffixb_rev (k s : list Z) :
  suffixb k s = if list_eq_dec Z.eq_dec (firstn (length k) (rev s)) (rev k) then true else false.
Proof.
  unfold suffixb. rewrite firstn_rev.
  destruct (list_eq_dec Z.eq_dec (skipn (length s - length k) s) k) as [E|E],
    (list_eq_dec Z.eq_dec (rev (skipn (length s - length k) s)) (rev k)) as [F|F];
    try reflexivity.
  - congruence.
  - apply (f_equal (@rev Z)) in F. rewrite !rev_involutive in F. contradiction.
Qed.

End BwMatch.

Lemma fwimatch_app (s k t u : list Z) :
  bytes_ok s -> bytes_ok k -> Forall (fun b => b <> 0) s -> Forall (fun b => b <> 0) k ->
  cbstrfwimatch (s ++ 0 :: t) (k ++ 0 :: u) =
  CDone (cbstrfwmatch (map tolower_char s ++ 0 :: t) (map tolower_char k)).
Proof.
  revert s. induction k as [|y k IH]; intros s Hbs Hbk Hs Hk; [reflexivity|].
  apply Forall_cons_iff in Hbk as (Hby & Hbk), Hk as (Hy & Hk).
  pose proof (tolower_nz y Hby Hy) as Hly. cbn [app cbstrfwimatch map cbstrfwmatch].
  destruct (Z.eqb_spec y 0); [contradiction|].
  destruct s as [|x s]; cbn [app map].
  - replace (0 =? 0) with true by reflexivity. rewrite orb_true_r. reflexivity.
  - apply Forall_cons_iff in Hbs as (Hbx & Hbs), Hs as (Hx & Hs).
    pose proof (tolower_nz x Hbx Hx) as Hlx.
    destruct (Z.eqb_spec x 0); [contradiction|]. rewrite ci_char_eqb by assumption.
    destruct (Z.eqb_spec (tolower_char x) 0); [contradiction|]. rewrite orb_false_r.
    destruct (Z.eqb_spec (tolower_char x) (tolower_char y)); cbn [negb]; [|reflexivity].
    apply IH; assumption.
Qed.

(** Case analysis on the list comparisons of a goal. *)
Ltac dec_cases :=
  repeat match goal with |- context [list_eq_dec ?d ?x ?y] => destruct (list_eq_dec d x y) end;
  reflexivity.

(** What the copy loop writes over the string [p] from the flag [b]: the
    bytes copied and the last flag. *)
Fixpoint copy_ref (g : bool -> Z -> bool * bool) (b : bool) (p : list Z) : list Z * bool :=
  match p with
  | [] => ([], b)
  | c :: p' =>
      let '(cp, b') := g b c in
      let '(w, b'') := copy_ref g b' p' in
      ((if cp then [c] else []) ++ w, b'')
  end.

(** The rest of the memory behind the [w] bytes written at its start. *)
Definition over (w l : list Z) : list Z := w ++ skipn (length w) l.

Section CopyLoop.

Lemma nth_error_over (w l : list Z) (i : nat) :
  (length w <= i)%nat -> nth_error (over w l) i = nth_error l i.
Proof.
  intros H. unfold over. rewrite nth_error_app2 by exact H.
  rewrite nth_error_skipn. f_equal. lia.
Qed.

Lemma list_set_over (w l : list Z) (c : Z) :
  (length w < length l)%nat -> list_set (over w l) (length w) c = over (w ++ [c]) l.
Proof.
  intros H. unfold over, list_set. rewrite firstn_app, firstn_all, Nat.sub_diag, firstn_O, app_nil_r.
  rewrite skipn_app, skipn_all2 by lia. rewrite length_app. cbn [length].
  replace (S (length w) - length w)%nat with 1%nat by lia. rewrite skipn_skipn, <- app_assoc.
  cbn [app]. do 3 f_equal. lia.
Qed.

(** The copy loop run over the rest [q] of a string, with [w] written
    for the prefix [p] read so far. *)
Lemma copy_loop_over (g : bool -> Z -> bool * bool) (t : list Z) (q : list Z) :
  forall p w b n, Forall (fun c => c <> 0) q -> (length w <= length p)%nat -> (length q < n)%nat ->
  copy_loop g (over w (p ++ q ++ 0 :: t)) (length p) (length w) b n =
  let w' := w ++ fst (copy_ref g b q) in CDone (over w' (p ++ q ++ 0 :: t), length w').
Proof.
  induction q as [|c q IH]; intros p w b [|n] Hq Hw Hn; cbn [length] in Hn; try lia; cbn [copy_loop].
  - rewrite nth_error_over, nth_error_app2, Nat.sub_diag by lia. cbn [app nth_error Z.eqb].
    cbn [copy_ref fst]. rewrite app_nil_r. reflexivity.
  - apply Forall_cons_iff in Hq as (Hc & Hq).
    rewrite nth_error_over, nth_error_app2, Nat.sub_diag by lia. cbn [app nth_error].
    destruct (Z.eqb_spec c 0); [contradiction|]. cbn [copy_ref].
    replace (p ++ c :: q ++ 0 :: t) with ((p ++ [c]) ++ q ++ 0 :: t) by (rewrite <- app_assoc; reflexivity).
    destruct (g b c) as [[|] b'].
    + rewrite list_set_over by (rewrite !length_app; cbn [length]; lia).
      replace (S (length p)) with (length (p ++ [c])) by (rewrite length_app; cbn; lia).
      replace (S (length w)) with (length (w ++ [c])) by (rewrite length_app; cbn; lia).
      rewrite IH by (assumption || (rewrite ?length_app; cbn [length]; lia)).
      destruct (copy_ref g b' q) as [w2 b2]. cbn [fst]. rewrite <- app_assoc. reflexivity.
    + replace (S (length p)) with (length (p ++ [c])) by (rewrite length_app; cbn; lia).
      rewrite IH by (assumption || (rewrite ?length_app; cbn [length]; lia)).
      destruct (copy_ref g b' q) as [w2 b2]. reflexivity.
Qed.

Lemma copy_loop_app (g : bool -> Z -> bool * bool) (s t : list Z) (b : bool) :
  Forall (fun c => c <> 0) s ->
  copy_loop g (s ++ 0 :: t) 0 0 b (S (length (s ++ 0 :: t))) =
  let w := fst (copy_ref g b s) in CDone (over w (s ++ 0 :: t), length w).
Proof.
  intros Hs. apply (copy_loop_over g t s [] [] b); [exact Hs | cbn; lia | rewrite length_app; cbn; lia].
Qed.

End CopyLoop.

(** Leading bytes of [f] dropped; trailing ones ([rtrim]); both. *)
Fixpoint drop_sp (f : Z -> bool) (l : list Z) : list Z :=
  match l with
  | [] => []
  | c :: l' => if f c then drop_sp f l' else l
  end.

Definition rtrim (f : Z -> bool) (l : list Z) : list Z := rev (drop_sp f (rev l)).

Definition trim_ref (s : list Z) : list Z := rtrim trim_space (drop_sp trim_space s).

(** No space of [cbstrsqzspc] at the start (when [prev]) and no two in a
    row. *)
Fixpoint no_double (prev : bool) (r : list Z) : bool :=
  match r with
  | [] => true
  | c :: r' => if sqz_space c then negb prev && no_double true r' else no_double false r'
  end.

Section Trim.

Lemma drop_sp_suffix (f : Z -> bool) (l : list Z) : exists p, l = p ++ drop_sp f l /\ Forall (fun c => f c = true) p.
Proof.
  induction l as [|c l IH]; cbn [drop_sp]; [exists []; split; [reflexivity | constructor]|].
  destruct (f c) eqn:E; [|exists []; split; [reflexivity | constructor]].
  destruct IH as (p & Hp & Hf). exists (c :: p). split; [cbn; congruence | constructor; assumption].
Qed.

Lemma drop_sp_hd (f : Z -> bool) (l r : list Z) (c : Z) : drop_sp f l = c :: r -> f c = false.
Proof.
  induction l as [|x l IH]; cbn [drop_sp]; [discriminate|].
  destruct (f x) eqn:E; [exact IH | intros H; injection H as -> _; exact E].
Qed.

Lemma rtrim_prefix (f : Z -> bool) (l : list Z) : exists sp, l = rtrim f l ++ sp /\ Forall (fun c => f c = true) sp.
Proof.
  destruct (drop_sp_suffix f (rev l)) as (p & Hp & Hf). exists (rev p). split.
  - unfold rtrim. rewrite <- rev_app_distr, <- Hp, rev_involutive. reflexivity.
  - apply Forall_rev. exact Hf.
Qed.

Lemma rtrim_last (f : Z -> bool) (l r : list Z) (c : Z) : rtrim f l = r ++ [c] -> f c = false.
Proof.
  unfold rtrim. intros H. apply (f_equal (@rev Z)) in H. rewrite rev_involutive, rev_app_distr in H.
  exact (drop_sp_hd f _ _ _ H).
Qed.

Lemma back_loop_app (f : Z -> bool) (w z : list Z) :
  back_loop f (w ++ z) (length w) = rtrim f w ++ repeat 0 (length w - length (rtrim f w)) ++ z.
Proof.
  revert z. induction w as [|c w IH] using rev_ind; intros z; [reflexivity|].
  rewrite length_app, Nat.add_1_r. cbn [back_loop]. rewrite <- app_assoc.
  rewrite app_nth2, Nat.sub_diag by lia. cbn [app nth].
  unfold rtrim at 1 2. rewrite rev_app_distr. cbn [rev app drop_sp].
  destruct (f c) eqn:E.
  - unfold list_set. rewrite firstn_app, firstn_all, Nat.sub_diag, firstn_O, app_nil_r.
    rewrite skipn_app, skipn_all2 by lia. replace (S (length w) - length w)%nat with 1%nat by lia.
    cbn [app skipn]. rewrite IH. fold (rtrim f w).
    destruct (rtrim_prefix f w) as (sp & Hsp & _).
    assert (Hl : (length (rtrim f w) <= length w)%nat) by (rewrite Hsp at 2; rewrite length_app; lia).
    replace (S (length w) - length (rtrim f w))%nat with (length w - length (rtrim f w) + 1)%nat by lia.
    rewrite repeat_app, <- app_assoc. reflexivity.
  - cbn [rev]. rewrite rev_involutive, length_app, Nat.add_1_r, Nat.sub_diag.
    cbn [repeat app]. rewrite <- app_assoc. reflexivity.
Qed.

(** The end of [cbstrtrim] and [cbstrsqzspc]: the zero written at [wp]
    and the trailing spaces of the copied bytes [w] set to zero leave
    [rtrim w] as the string, and the memory from the old terminator on as
    it was. *)
Lemma finish_spec (f : Z -> bool) (w s t : list Z) :
  Forall (fun c => c <> 0) w -> (length w <= length s)%nat ->
  exists m', back_loop f (list_set (over w (s ++ 0 :: t)) (length w) 0) (length w) = m' /\
  take_cstr m' = rtrim f w /\ skipn (length s) m' = 0 :: t.
Proof.
  intros Hw Hl. rewrite list_set_over by (rewrite length_app; cbn; lia).
  unfold over. rewrite <- app_assoc. cbn [app]. rewrite back_loop_app.
  destruct (rtrim_prefix f w) as (sp & Hsp & _).
  assert (Hr : Forall (fun c => c <> 0) (rtrim f w)) by (rewrite Hsp in Hw; apply Forall_app in Hw; apply Hw).
  assert (Hlen : length w = (length (rtrim f w) + length sp)%nat)
    by (rewrite Hsp at 1; rewrite length_app; reflexivity).
  assert (Hk : (length (rtrim f w) + (length w - length (rtrim f w)) = length w)%nat) by lia.
  remember (length w - length (rtrim f w))%nat as k eqn:Ek. clear Ek.
  eexists. split; [reflexivity|]. split.
  - destruct k; cbn [repeat app]; apply take_cstr_app; exact Hr.
  - rewrite skipn_app. rewrite skipn_all2 by lia. cbn [app].
    rewrite skipn_app, repeat_length, skipn_all2 by (rewrite repeat_length; lia).
    cbn [app]. destruct (Nat.eq_dec (length w) (length s)) as [E|E].
    + replace (length s - length (rtrim f w) - k)%nat with 0%nat by lia. cbn [skipn].
      rewrite length_app, E, skipn_app, skipn_all2 by (cbn [length]; lia). cbn [length].
      replace (length s + 1 - length s)%nat with 1%nat by lia. reflexivity.
    + replace (length s - length (rtrim f w) - k)%nat with (S (length s - S (length w))) by lia.
      cbn [skipn]. rewrite skipn_skipn, length_app. cbn [length].
      replace (length s - S (length w) + (length w + 1))%nat with (length s) by lia.
      rewrite skipn_app, Nat.sub_diag, skipn_all2 by lia. reflexivity.
Qed.

Lemma copy_ref_sub (g : bool -> Z -> bool * bool) (P : Z -> Prop) (s : list Z) : forall b,
  Forall P s -> Forall P (fst (copy_ref g b s)) /\ (length (fst (copy_ref g b s)) <= length s)%nat.
Proof.
  induction s as [|c s IH]; intros b Hs; cbn [copy_ref fst]; [split; [constructor | cbn; lia]|].
  apply Forall_cons_iff in Hs as (Hc & Hs). destruct (g b c) as [cp b'].
  destruct (IH b' Hs) as (A & B). destruct (copy_ref g b' s) as [w b2]. cbn [fst] in *.
  destruct cp; cbn [app length]; split; try (constructor; assumption); try assumption; lia.
Qed.

Lemma copy_ref_trim (s : list Z) :
  fst (copy_ref trim_step false s) = s /\ fst (copy_ref trim_step true s) = drop_sp trim_space s.
Proof.
  induction s as [|c s IH]; [split; reflexivity|]. destruct IH as (A & B). cbn [copy_ref drop_sp].
  destruct (trim_step false c) as [cp1 b1] eqn:E1, (trim_step true c) as [cp2 b2] eqn:E2.
  unfold trim_step in E1, E2. destruct (trim_space c);
    injection E1 as <- <-; injection E2 as <- <-; cbn [negb];
    destruct (copy_ref trim_step false s) as [w1 x1], (copy_ref trim_step true s) as [w2 x2];
    cbn [fst app] in *; split; congruence.
Qed.

Lemma copy_ref_sqz (s : list Z) : forall b,
  no_double b (fst (copy_ref sqz_step b s)) = true /\
  filter (fun c => negb (sqz_space c)) (fst (copy_ref sqz_step b s)) = filter (fun c => negb (sqz_space c)) s.
Proof.
  induction s as [|c s IH]; intros b; [split; reflexivity|]. cbn [copy_ref filter].
  destruct (sqz_step b c) as [cp b'] eqn:Eg. destruct (IH b') as (A & B).
  destruct (copy_ref sqz_step b' s) as [w b2]. cbn [fst] in *.
  unfold sqz_step in Eg. destruct (sqz_space c) eqn:E; injection Eg as <- <-;
    [destruct b|]; cbn [negb app no_double filter]; rewrite ?E; cbn [negb andb]; split; congruence.
Qed.

Lemma no_double_app (b : bool) (r x : list Z) : no_double b (r ++ x) = true -> no_double b r = true.
Proof.
  revert b. induction r as [|c r IH]; intros b; cbn [app no_double]; [reflexivity|].
  destruct (sqz_space c); [rewrite !andb_true_iff; intros (A & B); split; [exact A | exact (IH _ B)]|apply IH].
Qed.

Lemma filter_rtrim (f : Z -> bool) (w : list Z) :
  filter (fun c => negb (f c)) (rtrim f w) = filter (fun c => negb (f c)) w.
Proof.
  destruct (rtrim_prefix f w) as (sp & Hsp & Hf). rewrite Hsp at 2. rewrite filter_app.
  replace (filter (fun c => negb (f c)) sp) with (@nil Z); [symmetry; apply app_nil_r|].
  clear Hsp. induction Hf as [|x sp Hx _ IH]; cbn [filter]; [reflexivity|]. rewrite Hx. exact IH.
Qed.

End Trim.

(** ** Theorems *)

(** [cbstricmp] on two C strings returns a number with the sign of
    [vllexcompare] on their lower-case forms: it is the lexical order of
    the strings with letter case ignored. *)
Theorem cbstricmp_lex (s u t v : list Z) :
  bytes_ok s -> bytes_ok u -> Forall (fun b => b <> 0) s -> Forall (fun b => b <> 0) u ->
  exists r, cbstricmp (s ++ 0 :: t) (u ++ 0 :: v) = CDone r /\
            Z.sgn r = Z.sgn (vllexcompare (map tolower_char s) (map tolower_char u)).
Proof.
  revert u. induction s as [|a s IH]; intros [|b u] Hbs Hbu Hs Hu; cbn [app cbstricmp map vllexcompare].
  - eexists. split; reflexivity.
  - apply Forall_cons_iff in Hu as (Hb & _). destruct (Z.eqb_spec b 0); [contradiction|].
    eexists. split; [reflexivity|]. rewrite zlen_nil, zlen_cons. zlen_facts.
    rewrite (Z.sgn_neg (0 - _)) by lia. reflexivity.
  - apply Forall_cons_iff in Hs as (Ha & _). destruct (Z.eqb_spec a 0); [contradiction|].
    eexists. split; [reflexivity|]. rewrite zlen_nil, zlen_cons. zlen_facts.
    rewrite (Z.sgn_pos (1 + _ - 0)) by lia. reflexivity.
  - apply Forall_cons_iff in Hs as (Ha & Hs), Hu as (Hb & Hu), Hbs as (_ & Hbs), Hbu as (_ & Hbu).
    destruct (Z.eqb_spec a 0); [contradiction|]. destruct (Z.eqb_spec b 0); [contradiction|].
    destruct (Z.eqb_spec (tolower_char a) (tolower_char b)); cbn [negb].
    + apply IH; assumption.
    + eexists. split; reflexivity.
Qed.

(** [cbstrfwimatch] is [cbstrfwmatch] on the strings [cbstrtolower]
    writes: a case-insensitive prefix test. *)
Theorem cbstrfwimatch_tolower (s k t u : list Z) :
  bytes_ok s -> bytes_ok k -> Forall (fun b => b <> 0) s -> Forall (fun b => b <> 0) k ->
  cbstrfwimatch (s ++ 0 :: t) (k ++ 0 :: u) =
  match cbstrtolower (s ++ 0 :: t), cbstrtolower (k ++ 0 :: u) with
  | CDone ls, CDone lk => CDone (cbstrfwmatch ls (take_cstr lk))
  | _, _ => COob
  end.
Proof.
  intros Hbs Hbk Hs Hk. unfold cbstrtolower. rewrite !case_loop_app by assumption.
  rewrite take_cstr_app by (apply map_tolower_nz; assumption). apply fwimatch_app; assumption.
Qed.

(** [cbstrbwmatch] is true when the key is a suffix of the string.  When
    the string is a proper suffix of the key, the loop matches every byte
    of the string and then reads [str[-1]], the byte before the string
    ([COob]); otherwise it is false. *)
Theorem cbstrbwmatch_spec (s k t u : list Z) :
  Forall (fun b => b <> 0) s -> Forall (fun b => b <> 0) k ->
  cbstrbwmatch (s ++ 0 :: t) (k ++ 0 :: u) =
  if suffixb k s then CDone true else if suffixb s k then COob else CDone false.
Proof.
  intros Hs Hk. unfold cbstrbwmatch. rewrite bw_match_app, bw_ref_id by assumption.
  rewrite !suffixb_rev, !length_rev. dec_cases.
Qed.

(** [cbstrbwimatch] is the same test on the lower-case forms. *)
Theorem cbstrbwimatch_spec (s k t u : list Z) :
  bytes_ok s -> bytes_ok k -> Forall (fun b => b <> 0) s -> Forall (fun b => b <> 0) k ->
  cbstrbwimatch (s ++ 0 :: t) (k ++ 0 :: u) =
  let ls := map tolower_char s in let lk := map tolower_char k in
  if suffixb lk ls then CDone true else if suffixb ls lk then COob else CDone false.
Proof.
  intros Hbs Hbk Hs Hk. unfold cbstrbwimatch. rewrite bw_match_app by assumption.
  rewrite bw_ref_ci by (apply Forall_rev; assumption). cbv zeta.
  rewrite !map_rev, bw_ref_id, !suffixb_rev, !length_rev. dec_cases.
Qed.

(** [cbstrtrim] leaves in the string its bytes without the leading and
    trailing spaces, and does not touch the memory from the old
    terminator on. *)
Theorem cbstrtrim_spec (s t : list Z) :
  Forall (fun c => c <> 0) s ->
  exists m', cbstrtrim (s ++ 0 :: t) = CDone m' /\
             take_cstr m' = trim_ref s /\ skipn (length s) m' = 0 :: t.
Proof.
  intros Hs. unfold cbstrtrim. rewrite copy_loop_app by exact Hs. cbv beta iota zeta.
  destruct (copy_ref_sub trim_step (fun c => c <> 0) s true Hs) as (Hn & Hl).
  rewrite (proj2 (copy_ref_trim s)) in *.
  destruct (finish_spec trim_space (drop_sp trim_space s) s t Hn Hl) as (m' & Em & Ht & Hk).
  exists m'. rewrite Em. split; [reflexivity | split; assumption].
Qed.

(** [cbstrsqzspc] leaves a string with no space at its start or end and
    no two spaces in a row, with the bytes that are not spaces those of
    the original, in order; the memory from the old terminator on is not
    touched. *)
Theorem cbstrsqzspc_spec (s t : list Z) :
  Forall (fun c => c <> 0) s ->
  exists m', cbstrsqzspc (s ++ 0 :: t) = CDone m' /\ skipn (length s) m' = 0 :: t /\
    let r := take_cstr m' in
    no_double true r = true /\ (forall x c, r = x ++ [c] -> sqz_space c = false) /\
    filter (fun c => negb (sqz_space c)) r = filter (fun c => negb (sqz_space c)) s.
Proof.
  intros Hs. unfold cbstrsqzspc. rewrite copy_loop_app by exact Hs. cbv beta iota zeta.
  destruct (copy_ref_sub sqz_step (fun c => c <> 0) s true Hs) as (Hn & Hl).
  destruct (copy_ref_sqz s true) as (Hd & Hf).
  set (w := fst (copy_ref sqz_step true s)) in *.
  destruct (finish_spec sqz_space w s t Hn Hl) as (m' & Em & Ht & Hk).
  exists m'. rewrite Em, Ht. split; [reflexivity | split; [exact Hk|]].
  destruct (rtrim_prefix sqz_space w) as (sp & Hsp & _). split; [|split].
  - rewrite Hsp in Hd. exact (no_double_app _ _ _ Hd).
  - apply rtrim_last.
  - rewrite filter_rtrim. exact Hf.
Qed.

(** ** Witnesses *)

(** [Forall] over a literal list of bytes, each fact by [lia]. *)
Ltac forall_lia :=
  unfold bytes_ok; repeat (apply Forall_cons; [unfold byte_ok; lia|]); apply Forall_nil.

(** ["a"] is a proper suffix of the key ["ba"]: [cbstrbwmatch] reads the
    byte before ["a"]. *)
Lemma cbstrbwmatch_spec_witness :
  cbstrbwmatch ([97] ++ 0 :: []) ([98; 97] ++ 0 :: []) = COob.
Proof.
  rewrite (cbstrbwmatch_spec [97] [98; 97] [] []) by forall_lia. vm_compute. reflexivity.
Defined.

(** ["Ab"] and ["aC"]: the order of ["ab"] and ["ac"]. *)
Lemma cbstricmp_lex_witness :
  exists r, cbstricmp ([65; 98] ++ 0 :: []) ([97; 67] ++ 0 :: []) = CDone r /\ Z.sgn r = -1.
Proof.
  destruct (cbstricmp_lex [65; 98] [97; 67] [] []) as (r & E & S); try forall_lia.
  exists r. split; [exact E | rewrite S; vm_compute; reflexivity].
Defined.

(** [" a b "] trims to ["a b"]. *)
Lemma cbstrtrim_spec_witness :
  exists m', cbstrtrim ([32; 97; 32; 98; 32] ++ 0 :: [7]) = CDone m' /\
             take_cstr m' = [97; 32; 98] /\ skipn 5 m' = [0; 7].
Proof.
  destruct (cbstrtrim_spec [32; 97; 32; 98; 32] [7]) as (m' & E & T & K); [forall_lia|].
  exists m'. split; [exact E | split; [rewrite T; vm_compute; reflexivity | exact K]].
Defined.

(** [" a \t b "] squeezes to a string with no double space. *)
Lemma cbstrsqzspc_spec_witness :
  exists m', cbstrsqzspc ([32; 97; 9; 32; 98; 32] ++ 0 :: []) = CDone m' /\
             no_double true (take_cstr m') = true.
Proof.
  destruct (cbstrsqzspc_spec [32; 97; 9; 32; 98; 32] []) as (m' & E & _ & D & _); [forall_lia|].
  exists m'. split; [exact E | exact D].
Defined.

(** ["fooBar"] begins with ["FOO"] with case ignored. *)
Lemma cbstrfwimatch_tolower_witness :
  cbstrfwimatch ([102; 111; 111; 66] ++ 0 :: []) ([70; 79; 79] ++ 0 :: []) = CDone true.
Proof.
  rewrite (cbstrfwimatch_tolower [102; 111; 111; 66] [70; 79; 79] [] []) by forall_lia.
  vm_compute. reflexivity.
Defined.
