(* ===== verification/CbSort.v ===== *)
(** * CbSort: the insertion and shell sorts of cabin.c

    [cbisort] (cabin.c 116-133) and [cbssort] (cabin.c 137-160) sort an
    array of [nmemb] elements in place with the comparison [compar].  The
    array is a list, read with [nth] and written with [list_set] as the
    [memcpy] of an element does; the element in [swap] is held apart from
    the array.  The comparison is a Rocq function: the sorts are proved
    for every comparison with the laws of [SortOrder], which [vllexcompare]
    and [cblistelemcmp] obey.  The theorems show that each sort returns a
    permutation of its input that is sorted, and that the shell sort ends
    with a pass of gap 1, which is the insertion sort. *)

From Stdlib Require Import ZArith Lia List Bool Permutation Sorted.
From S2P Require Import Prelude Compare CbList.
Import ListNotations.
Open Scope Z_scope.
Open Scope vl_scope.

(** ** The order a comparison must define *)

(** What the sorts need of [compar]: its sign is antisymmetric and
    [compar a b <= 0] is transitive. *)
Class SortOrder {A : Type} (cmp : A -> A -> Z) : Prop := {
  so_antisym : forall a b, cmp a b < 0 <-> 0 < cmp b a;
  so_trans : forall a b c, cmp a b <= 0 -> cmp b c <= 0 -> cmp a c <= 0
}.

(** ** The sorts *)

Section Sorts.
Context {A : Type} (d : A) (cmp : A -> A -> Z).

(** The inner loop of [cbisort] (cabin.c 125-128): [for(j = i; j > 0;
    j--)], shifting elements up while [compar(bp + (j - 1) * size, swap)
    >= 0].  It returns the array and [j]. *)
Fixpoint isort_shift (a : list A) (x : A) (j : nat) : list A * nat :=
  match j with
  | O => (a, O)
  | S j' =>
      if cmp (nth j' a d) x <? 0 then (a, j)
      else isort_shift (list_set a j (nth j' a d)) x j'
  end.

(** One round of the outer loop of [cbisort] (cabin.c 123-130). *)
Definition isort_step (a : list A) (i : nat) : list A :=
  if 0 <? cmp (nth (i - 1) a d) (nth i a d) then
    let x := nth i a d in
    let '(a', j) := isort_shift a x i in
    list_set a' j x
  else a.

(** [cbisort] (cabin.c 116-133): [for(i = 1; i < nmemb; i++)]. *)
Definition cbisort (a : list A) : list A :=
  fold_left isort_step (seq 1 (length a - 1)) a.

(** The inner loop of [cbssort] (cabin.c 149-152): [for(j = i; j > step -
    1; j -= step)].  Its fuel, [i + 1] rounds, is enough since [step >=
    1]. *)
Fixpoint gshift (step : nat) (a : list A) (x : A) (j : nat) (n : nat) : list A * nat :=
  match n with
  | O => (a, j)
  | S n' =>
      if (step - 1 <? j)%nat then
        if cmp (nth (j - step) a d) x <? 0 then (a, j)
        else gshift step (list_set a j (nth (j - step) a d)) x (j - step) n'
      else (a, j)
  end.

(** One round of [for(i = bottom + step; i < nmemb; i += step)] (cabin.c
    147-154). *)
Definition gstep (step : nat) (a : list A) (i : nat) : list A :=
  if 0 <? cmp (nth (i - step) a d) (nth i a d) then
    let x := nth i a d in
    let '(a', j) := gshift step a x i (S i) in
    list_set a' j x
  else a.

(** The loop over [i] (cabin.c 146-155), with fuel [nmemb]. *)
Fixpoint gpass_i (step n i : nat) (fuel : nat) (a : list A) : list A :=
  match fuel with
  | O => a
  | S f => if (i <? n)%nat then gpass_i step n (i + step) f (gstep step a i) else a
  end.

(** One pass of gap [step]: [for(bottom = 0; bottom < step; bottom++)]
    (cabin.c 145-156). *)
Definition gpass (step n : nat) (a : list A) : list A :=
  fold_left (fun a bottom => gpass_i step n (bottom + step) n a) (seq 0 step) a.

(** The loop over the gaps (cabin.c 143-158): [step] from [(nmemb - 1) /
    3], raised to 1 below 5, then [(step - 1) / 3], until a pass of gap
    below 2.  Its fuel is [nmemb + 1] rounds. *)
Fixpoint ssort_steps (n step : Z) (fuel : nat) (a : list A) : list A :=
  match fuel with
  | O => a
  | S f =>
      if step <? 0 then a
      else
        let step := if step <? 5 then 1 else step in
        let a := gpass (Z.to_nat step) (Z.to_nat n) a in
        if step <? 2 then a else ssort_steps n ((step - 1) ÷ 3) f a
  end.

(** [cbssort] (cabin.c 137-160). *)
Definition cbssort (a : list A) : list A :=
  ssort_steps (zlen a) ((zlen a - 1) ÷ 3) (S (length a)) a.

End Sorts.

(** ** Slot writes *)

Section Slots.
Context {A : Type}.

Lemma nth_list_set (l : list A) (i j : nat) (x d : A) :
  (i < length l)%nat -> nth j (list_set l i x) d = if (j =? i)%nat then x else nth j l d.
Proof.
  intros H. destruct (Nat.lt_ge_cases j (length l)) as [Hj|Hj].
  - rewrite <- !nth_default_eq. unfold nth_default. rewrite nth_error_list_set by exact H.
    destruct (Nat.eqb_spec j i); [reflexivity|]. reflexivity.
  - rewrite !nth_overflow by (rewrite ?length_list_set; lia).
    destruct (Nat.eqb_spec j i); [lia | reflexivity].
Qed.

Lemma list_set_ext (l l' : list A) :
  (forall j, nth_error l j = nth_error l' j) -> l = l'.
Proof. apply nth_error_ext. Qed.

Lemma list_set_same (l : list A) (i : nat) (d : A) :
  (i < length l)%nat -> list_set l i (nth i l d) = l.
Proof.
  intros H. apply list_set_ext. intros j. rewrite nth_error_list_set by exact H.
  destruct (Nat.eqb_spec j i) as [->|]; [symmetry; apply nth_error_nth'; exact H | reflexivity].
Qed.

Lemma list_set_twice (l : list A) (i : nat) (x y : A) :
  (i < length l)%nat -> list_set (list_set l i x) i y = list_set l i y.
Proof.
  intros H. apply list_set_ext. intros j.
  rewrite !nth_error_list_set by (rewrite ?length_list_set; exact H).
  destruct (Nat.eqb_spec j i); reflexivity.
Qed.

Lemma list_set_comm (l : list A) (i j : nat) (x y : A) :
  i <> j -> (i < length l)%nat -> (j < length l)%nat ->
  list_set (list_set l i x) j y = list_set (list_set l j y) i x.
Proof.
  intros Hij Hi Hj. apply list_set_ext. intros k.
  rewrite !nth_error_list_set by (rewrite ?length_list_set; assumption).
  destruct (Nat.eqb_spec k j), (Nat.eqb_spec k i); subst; try reflexivity. contradiction.
Qed.

Lemma list_set_app_len (p s : list A) (z w : A) : list_set (p ++ z :: s) (length p) w = p ++ w :: s.
Proof.
  unfold list_set. rewrite firstn_app, firstn_all, Nat.sub_diag, firstn_O, app_nil_r.
  rewrite skipn_app, skipn_all2 by lia. replace (S (length p) - length p)%nat with 1%nat by lia.
  reflexivity.
Qed.

(** Exchanging two slots, [i] before [j], permutes the array. *)
Lemma swap_perm_lt (l : list A) (i j : nat) (d : A) :
  (i < j)%nat -> (j < length l)%nat ->
  Permutation (list_set (list_set l i (nth j l d)) j (nth i l d)) l.
Proof.
  intros Hij Hj.
  set (p := firstn i l). set (x := nth i l d). set (s := skipn (S i) l).
  assert (El : l = p ++ x :: s) by (apply firstn_skipn_nth; lia).
  assert (Hp : length p = i) by (unfold p; rewrite length_firstn; lia).
  assert (Hs : (j - S i < length s)%nat) by (unfold s; rewrite length_skipn; lia).
  set (q := firstn (j - S i) s). set (y := nth (j - S i) s d). set (r := skipn (S (j - S i)) s).
  assert (Es : s = q ++ y :: r) by (apply firstn_skipn_nth; exact Hs).
  assert (Hq : length q = (j - S i)%nat) by (unfold q; rewrite length_firstn; lia).
  assert (Ey : nth j l d = y).
  { rewrite El, app_nth2 by lia. rewrite Hp. replace (j - i)%nat with (S (j - S i)) by lia. reflexivity. }
  rewrite Ey. fold x. rewrite El at 1 2. rewrite <- Hp at 1. rewrite list_set_app_len.
  rewrite Es. replace j with (length (p ++ y :: q)) by (rewrite length_app; cbn; lia).
  replace (p ++ y :: q ++ y :: r) with ((p ++ y :: q) ++ y :: r) by (rewrite <- app_assoc; reflexivity).
  rewrite list_set_app_len, <- app_assoc. cbn [app].
  apply Permutation_app_head.
  transitivity (y :: x :: q ++ r); [apply perm_skip, Permutation_sym, Permutation_middle|].
  transitivity (x :: y :: q ++ r); [apply perm_swap|]. apply perm_skip, Permutation_middle.
Qed.

Lemma swap_perm (l : list A) (i j : nat) (d : A) :
  (i < length l)%nat -> (j < length l)%nat ->
  Permutation (list_set (list_set l i (nth j l d)) j (nth i l d)) l.
Proof.
  intros Hi Hj. destruct (Nat.lt_total i j) as [H|[->|H]].
  - apply swap_perm_lt; assumption.
  - rewrite list_set_twice, list_set_same by assumption. reflexivity.
  - rewrite list_set_comm by (lia || rewrite ?length_list_set; lia). apply swap_perm_lt; assumption.
Qed.

(** The inner loops keep the element [x] they hold apart: the array with
    [x] written in the hole [j] is a permutation of the input, and one
    shift from slot [k] into the hole moves the hole to [k]. *)
Lemma hole_step (a a0 : list A) (j k : nat) (x d : A) :
  Permutation (list_set a j x) a0 -> (k < j)%nat -> (j < length a)%nat ->
  Permutation (list_set (list_set a j (nth k a d)) k x) a0.
Proof.
  intros H Hk Hj. set (l := list_set a j x).
  assert (Hl : length l = length a) by (apply length_list_set; exact Hj).
  assert (E1 : nth k l d = nth k a d) by (unfold l; rewrite nth_list_set by exact Hj; destruct (Nat.eqb_spec k j); [lia | reflexivity]).
  assert (E2 : nth j l d = x) by (unfold l; rewrite nth_list_set, Nat.eqb_refl by exact Hj; reflexivity).
  assert (E3 : list_set (list_set a j (nth k a d)) k x = list_set (list_set l j (nth k l d)) k (nth j l d)).
  { rewrite E1, E2. unfold l. rewrite list_set_twice by exact Hj. reflexivity. }
  rewrite E3. etransitivity; [apply swap_perm; lia | exact H].
Qed.

End Slots.

(** ** Every pass permutes the array *)

Section SortPerm.
Context {A : Type} (d : A) (cmp : A -> A -> Z).

Lemma gshift_perm (step : nat) (x : A) (a0 : list A) (n : nat) : forall a j,
  (1 <= step)%nat -> Permutation (list_set a j x) a0 -> (j < length a)%nat ->
  let '(a', j') := gshift d cmp step a x j n in
  Permutation (list_set a' j' x) a0 /\ (j' < length a')%nat /\ length a' = length a.
Proof.
  induction n as [|n IH]; intros a j Hs Hp Hj; cbn [gshift]; [repeat split; assumption|].
  destruct (Nat.ltb_spec (step - 1) j); [|repeat split; assumption].
  destruct (Z.ltb_spec (cmp (nth (j - step) a d) x) 0); [repeat split; assumption|].
  assert (P1 : Permutation (list_set (list_set a j (nth (j - step) a d)) (j - step) x) a0)
    by (apply hole_step; [assumption | lia | lia]).
  assert (P2 : (j - step < length (list_set a j (nth (j - step) a d)))%nat)
    by (rewrite length_list_set; lia).
  pose proof (IH _ _ Hs P1 P2) as Hr.
  destruct (gshift d cmp step _ x (j - step) n) as [a' j']. destruct Hr as (A1 & A2 & A3).
  rewrite length_list_set in A3 by exact Hj. repeat split; assumption.
Qed.

Lemma gstep_perm (step : nat) (a : list A) (i : nat) :
  (1 <= step)%nat -> (i < length a)%nat ->
  Permutation (gstep d cmp step a i) a /\ length (gstep d cmp step a i) = length a.
Proof.
  intros Hs Hi. unfold gstep. destruct (0 <? _); [|split; reflexivity].
  assert (P0 : Permutation (list_set a i (nth i a d)) a) by (rewrite list_set_same by exact Hi; reflexivity).
  pose proof (gshift_perm step (nth i a d) a (S i) a i Hs P0 Hi) as Hr.
  destruct (gshift d cmp step a _ i (S i)) as [a' j]. destruct Hr as (P & Hj & Hl).
  split; [exact P | rewrite length_list_set; lia].
Qed.

Lemma gpass_i_perm (step n : nat) (fuel : nat) : forall i a,
  (1 <= step)%nat -> (n <= length a)%nat ->
  Permutation (gpass_i d cmp step n i fuel a) a /\ length (gpass_i d cmp step n i fuel a) = length a.
Proof.
  induction fuel as [|f IH]; intros i a Hs Hn; cbn [gpass_i]; [split; reflexivity|].
  destruct (Nat.ltb_spec i n); [|split; reflexivity].
  destruct (gstep_perm step a i Hs) as (P & L); [lia|].
  destruct (IH (i + step)%nat (gstep d cmp step a i) Hs) as (P' & L'); [lia|].
  split; [etransitivity; eassumption | congruence].
Qed.

Lemma gpass_perm (step n : nat) (a : list A) :
  (1 <= step)%nat -> (n <= length a)%nat ->
  Permutation (gpass d cmp step n a) a /\ length (gpass d cmp step n a) = length a.
Proof.
  intros Hs. unfold gpass. generalize (seq 0 step) as bs. intros bs.
  revert a. induction bs as [|b bs IH]; intros a Hn; cbn [fold_left]; [split; reflexivity|].
  destruct (gpass_i_perm step n n (b + step) a Hs Hn) as (P & L).
  destruct (IH (gpass_i d cmp step n (b + step) n a)) as (P' & L'); [lia|].
  split; [etransitivity; eassumption | congruence].
Qed.

(** The gap loop ends with a pass of gap 1 over a permutation of its
    input: the fuel [Z.to_nat step + 1] is enough, since the gap falls
    from [step >= 5] to [(step - 1) / 3 < step]. *)
Lemma ssort_steps_last (n : Z) (fuel : nat) : forall step a,
  0 <= step -> (Z.to_nat step < fuel)%nat -> (Z.to_nat n <= length a)%nat ->
  exists a', Permutation a' a /\ length a' = length a /\
             ssort_steps d cmp n step fuel a = gpass d cmp 1 (Z.to_nat n) a'.
Proof.
  induction fuel as [|f IH]; intros step a H0 Hf Hn; [lia|]. cbn [ssort_steps].
  destruct (Z.ltb_spec step 0); [lia|].
  destruct (Z.ltb_spec step 5); cbn [Z.ltb Z.compare].
  - exists a. repeat split; reflexivity.
  - destruct (Z.ltb_spec step 2); [lia|].
    destruct (gpass_perm (Z.to_nat step) (Z.to_nat n) a ltac:(lia) Hn) as (P & L).
    destruct (IH ((step - 1) ÷ 3) (gpass d cmp (Z.to_nat step) (Z.to_nat n) a)) as (a' & P' & L' & E).
    + apply Z.quot_pos; lia.
    + assert ((step - 1) ÷ 3 < step) by (apply Z.quot_lt_upper_bound; lia). lia.
    + lia.
    + exists a'. split; [etransitivity; eassumption | split; [congruence | exact E]].
Qed.

(** With gap 1 the shell sort's inner loops are those of the insertion
    sort. *)
Lemma gshift_1 (x : A) (j : nat) : forall a n,
  (j < n)%nat -> gshift d cmp 1 a x j n = isort_shift d cmp a x j.
Proof.
  induction j as [|j IH]; intros a [|n] H; try lia; cbn [gshift isort_shift]; [reflexivity|].
  destruct (Nat.ltb_spec (1 - 1) (S j)); [|lia]. replace (S j - 1)%nat with j by lia.
  destruct (cmp (nth j a d) x <? 0); [reflexivity|]. apply IH. lia.
Qed.

Lemma gpass_i_1 (n k : nat) : forall i fuel a,
  (i + k = n)%nat -> (k <= fuel)%nat ->
  gpass_i d cmp 1 n i fuel a = fold_left (isort_step d cmp) (seq i k) a.
Proof.
  induction k as [|k IH]; intros i [|f] a Hk Hf; cbn [gpass_i seq fold_left]; try lia; try reflexivity.
  - destruct (Nat.ltb_spec i n); [lia | reflexivity].
  - destruct (Nat.ltb_spec i n); [|lia]. replace (i + 1)%nat with (S i) by lia. rewrite IH by lia. f_equal.
    unfold gstep, isort_step. destruct (0 <? cmp (nth (i - 1) a d) (nth i a d)); [|reflexivity].
    rewrite gshift_1 by lia. reflexivity.
Qed.

Lemma gpass_1_cbisort (a : list A) : gpass d cmp 1 (length a) a = cbisort d cmp a.
Proof.
  unfold gpass, cbisort. cbn [seq fold_left]. destruct (length a) as [|n] eqn:E; [reflexivity|].
  apply gpass_i_1; lia.
Qed.

End SortPerm.

(** ** Sortedness *)

(** Inserting [x] into [p] from its end, as the inner loop of [cbisort]
    does: past every element not below [x]. *)
Fixpoint rins {A : Type} (cmp : A -> A -> Z) (x : A) (r : list A) : list A :=
  match r with
  | [] => [x]
  | y :: r' => if cmp y x <? 0 then x :: r else y :: rins cmp x r'
  end.

Definition ins_r {A : Type} (cmp : A -> A -> Z) (x : A) (p : list A) : list A :=
  rev (rins cmp x (rev p)).

Section StronglySortedFacts.
Context {A : Type} (R : A -> A -> Prop).

Lemma SS_app (l1 l2 : list A) :
  StronglySorted R (l1 ++ l2) <->
  StronglySorted R l1 /\ StronglySorted R l2 /\ (forall x y, In x l1 -> In y l2 -> R x y).
Proof.
  induction l1 as [|a l1 IH]; cbn [app].
  - split; [intros H; split; [constructor | split; [exact H | intros x y []]] | intros (_ & H & _); exact H].
  - split.
    + intros H. apply StronglySorted_inv in H as (H1 & H2). apply IH in H1 as (A1 & A2 & A3).
      rewrite Forall_app in H2. destruct H2 as (B1 & B2).
      split; [constructor; assumption | split; [exact A2|]].
      intros x y [<-|Hx] Hy; [exact (proj1 (Forall_forall _ _) B2 y Hy) | exact (A3 x y Hx Hy)].
    + intros (H1 & H2 & H3). apply StronglySorted_inv in H1 as (A1 & A2). constructor.
      * apply IH. split; [exact A1 | split; [exact H2 | intros x y Hx Hy; apply H3; [right|]; assumption]].
      * apply Forall_app. split; [exact A2 | apply Forall_forall; intros y Hy; apply H3; [left|]; auto].
Qed.

End StronglySortedFacts.

Section Sortedness.
Context {A : Type} (d : A) (cmp : A -> A -> Z) `{Hso : !SortOrder cmp}.

Local Abbreviation le := (fun x y => cmp x y <= 0).

Lemma so_refl (a : A) : cmp a a <= 0.
Proof. destruct (Z.ltb_spec 0 (cmp a a)); [|lia]. pose proof (proj2 (so_antisym a a) H). lia. Qed.

Lemma so_nlt (a b : A) : ~ cmp a b < 0 -> cmp b a <= 0.
Proof. intros H. destruct (Z.ltb_spec 0 (cmp b a)); [|lia]. exfalso. apply H, so_antisym. exact H0. Qed.

Lemma SS_last (l : list A) (u : A) : StronglySorted le l -> In u l -> cmp u (last l d) <= 0.
Proof.
  induction l as [|z l IH] using rev_ind; [intros _ []|]. rewrite last_last.
  intros Hs Hu. apply SS_app in Hs as (_ & _ & H3). apply in_app_or in Hu as [Hu|[<-|[]]].
  - apply H3; [exact Hu | left; reflexivity].
  - apply so_refl.
Qed.

(** Where [rins] puts [x]: after the prefix [p1] whose last element is
    below [x], before the suffix [p2] of elements not below it. *)
Lemma ins_r_split (x : A) (p : list A) :
  exists p1 p2, p = p1 ++ p2 /\ ins_r cmp x p = p1 ++ x :: p2 /\
    Forall (fun z => ~ cmp z x < 0) p2 /\ (p1 = [] \/ cmp (last p1 d) x < 0).
Proof.
  induction p as [|z p IH] using rev_ind.
  - exists [], []. repeat split; [constructor | left; reflexivity].
  - unfold ins_r. rewrite rev_app_distr. cbn [rev app rins].
    destruct (Z.ltb_spec (cmp z x) 0) as [Hz|Hz].
    + exists (p ++ [z]), []. cbn [rev]. rewrite rev_involutive, app_nil_r, <- app_assoc.
      repeat split; [constructor | right; rewrite last_last; exact Hz].
    + destruct IH as (p1 & p2 & E & Ei & F & L). exists p1, (p2 ++ [z]). cbn [rev].
      fold (ins_r cmp x p). rewrite Ei, E, <- !app_assoc. repeat split; [|exact L].
      apply Forall_app. split; [exact F | constructor; [lia | constructor]].
Qed.

Lemma ins_r_sorted (x : A) (p : list A) :
  StronglySorted le p -> StronglySorted le (ins_r cmp x p) /\ Permutation (ins_r cmp x p) (p ++ [x]).
Proof.
  intros Hs. destruct (ins_r_split x p) as (p1 & p2 & -> & -> & F & L). split.
  - apply SS_app in Hs as (S1 & S2 & S3). apply SS_app. split; [exact S1|]. split.
    + constructor; [exact S2|]. apply Forall_forall. intros y Hy.
      apply so_nlt. exact (proj1 (Forall_forall _ _) F y Hy).
    + intros u v Hu [<-|Hv].
      * destruct L as [->|L]; [destruct Hu|]. pose proof (SS_last p1 u S1 Hu). apply (so_trans _ _ _ H); lia.
      * exact (S3 u v Hu Hv).
  - rewrite <- app_assoc. apply Permutation_app_head. cbn [app]. apply Permutation_cons_append.
Qed.

(** The inner loop of [cbisort] on a sorted prefix [p]: with [x] written
    where the loop stops, the prefix is [ins_r x p]. *)
Lemma isort_shift_spec (x y : A) (t p : list A) :
  let '(a', j) := isort_shift d cmp (p ++ y :: t) x (length p) in list_set a' j x = ins_r cmp x p ++ t.
Proof.
  revert y t. induction p as [|z p IH] using rev_ind; intros y t.
  - reflexivity.
  - rewrite length_app, Nat.add_1_r. cbn [isort_shift]. rewrite <- app_assoc. cbn [app].
    rewrite app_nth2, Nat.sub_diag by lia. cbn [nth]. unfold ins_r. rewrite rev_app_distr. cbn [rev app rins].
    destruct (Z.ltb_spec (cmp z x) 0).
    + replace (p ++ z :: y :: t) with ((p ++ [z]) ++ y :: t) by (rewrite <- app_assoc; reflexivity).
      replace (S (length p)) with (length (p ++ [z])) by (rewrite length_app; cbn; lia).
      rewrite list_set_app_len. cbn [rev]. rewrite rev_involutive, <- !app_assoc. reflexivity.
    + replace (p ++ z :: y :: t) with ((p ++ [z]) ++ y :: t) by (rewrite <- app_assoc; reflexivity).
      replace (S (length p)) with (length (p ++ [z])) by (rewrite length_app; cbn; lia).
      rewrite list_set_app_len, <- app_assoc. cbn [app]. specialize (IH z (z :: t)).
      destruct (isort_shift d cmp (p ++ z :: z :: t) x (length p)) as [a' j].
      rewrite IH. cbn [rev]. fold (ins_r cmp x p). rewrite <- app_assoc. reflexivity.
Qed.

Lemma nth_pred_last (p : list A) : p <> [] -> nth (length p - 1) p d = last p d.
Proof.
  induction p as [|z p _] using rev_ind; [contradiction|]. intros _.
  rewrite last_last, length_app, app_nth2 by (cbn; lia).
  replace (length p + length [z] - 1 - length p)%nat with 0%nat by (cbn; lia). reflexivity.
Qed.

Lemma isort_step_spec (p t : list A) (y : A) :
  p <> [] ->
  isort_step d cmp (p ++ y :: t) (length p) =
  (if 0 <? cmp (last p d) y then ins_r cmp y p else p ++ [y]) ++ t.
Proof.
  intros Hp. unfold isort_step.
  rewrite app_nth1 by (destruct p; [contradiction | cbn; lia]).
  rewrite app_nth2, Nat.sub_diag by lia. cbn [nth].
  rewrite nth_pred_last by exact Hp.
  destruct (0 <? cmp (last p d) y); [|rewrite <- app_assoc; reflexivity].
  pose proof (isort_shift_spec y y t p) as H. destruct (isort_shift d cmp _ y _). exact H.
Qed.

(** The outer loop of [cbisort] keeps a sorted prefix that grows by one
    element a round. *)
Lemma isort_fold (t : list A) : forall p,
  StronglySorted le p -> p <> [] ->
  exists q, fold_left (isort_step d cmp) (seq (length p) (length t)) (p ++ t) = q /\
            StronglySorted le q /\ Permutation q (p ++ t).
Proof.
  induction t as [|y t IH]; intros p Hs Hp; cbn [length seq fold_left].
  - exists (p ++ []). split; [reflexivity | rewrite app_nil_r; split; [exact Hs | reflexivity]].
  - rewrite isort_step_spec by exact Hp.
    set (r := if 0 <? cmp (last p d) y then ins_r cmp y p else p ++ [y]).
    assert (Hr : StronglySorted le r /\ Permutation r (p ++ [y])).
    { unfold r. destruct (Z.ltb_spec 0 (cmp (last p d) y)); [apply ins_r_sorted; exact Hs|].
      split; [|reflexivity]. apply SS_app. split; [exact Hs|]. split; [repeat constructor|].
      intros u v Hu [<-|[]]. apply (so_trans _ (last p d)); [apply SS_last; assumption | lia]. }
    destruct Hr as (Hr1 & Hr2).
    assert (Hl : length r = S (length p)) by (rewrite (Permutation_length Hr2), length_app; cbn; lia).
    destruct (IH r Hr1) as (q & Eq & Sq & Pq).
    + intros E. rewrite E in Hl. discriminate.
    + exists q. rewrite Hl in Eq. split; [exact Eq | split; [exact Sq|]].
      rewrite Pq. rewrite Hr2, <- app_assoc. reflexivity.
Qed.

(** [cbisort] returns a sorted permutation of its input. *)
Lemma cbisort_sorted (a : list A) :
  StronglySorted le (cbisort d cmp a) /\ Permutation (cbisort d cmp a) a.
Proof.
  destruct a as [|z t]; [split; constructor|].
  unfold cbisort. cbn [length]. replace (S (length t) - 1)%nat with (length t) by lia.
  destruct (isort_fold t [z]) as (q & E & S & P); [repeat constructor | discriminate |].
  cbn [length app] in E. rewrite E. split; [exact S | exact P].
Qed.

End Sortedness.

(** A comparator of keys ([Compare.Comparator]) is an order the sorts can
    use. *)
#[export] Instance comparator_sortorder (cmp : key -> key -> Z) `{!Comparator cmp} : SortOrder cmp.
Proof.
  split; [apply cmp_antisym|]. intros a b c H1 H2.
  destruct (Z.eq_dec (cmp a b) 0) as [E|E]; [apply cmp_eq in E; subst; exact H2|].
  pose proof (cmp_lt_le_trans cmp a b c ltac:(lia) H2). lia.
Qed.

(** The first gap of [cbssort], [(nmemb - 1) / 3], is in [[0, nmemb]]. *)
Lemma quot3_bound (z : Z) : 0 <= z -> 0 <= (z - 1) ÷ 3 <= z.
Proof.
  intros H. destruct (Z.lt_ge_cases z 2).
  - assert (z = 0 \/ z = 1) as [->| ->] by lia; cbn; lia.
  - split; [apply Z.quot_pos; lia | pose proof (Z.quot_lt (z - 1) 3); lia].
Qed.

(** ** Theorems *)

(** [cbisort] returns a permutation of the array, sorted for [compar]. *)
Theorem cbisort_spec {A : Type} (d : A) (cmp : A -> A -> Z) `{!SortOrder cmp} (a : list A) :
  Sorted (fun x y => cmp x y <= 0) (cbisort d cmp a) /\ Permutation (cbisort d cmp a) a.
Proof.
  destruct (cbisort_sorted d cmp a) as (S & P). split; [apply StronglySorted_Sorted, S | exact P].
Qed.

(** C30: [cbssort] returns a permutation of the array, sorted for [compar]:
    whatever the gaps before, its last pass has gap 1 and is the insertion
    sort of a permutation of the input. *)
Theorem cbssort_spec {A : Type} (d : A) (cmp : A -> A -> Z) `{!SortOrder cmp} (a : list A) :
  Sorted (fun x y => cmp x y <= 0) (cbssort d cmp a) /\ Permutation (cbssort d cmp a) a.
Proof.
  unfold cbssort. destruct (ssort_steps_last d cmp (zlen a) (S (length a)) ((zlen a - 1) ÷ 3) a)
    as (a' & P & L & E).
  - apply quot3_bound, zlen_nonneg.
  - pose proof (quot3_bound (zlen a) (zlen_nonneg a)). unfold zlen in *. lia.
  - unfold zlen. lia.
  - rewrite E. replace (Z.to_nat (zlen a)) with (length a') by (unfold zlen; lia).
    rewrite gpass_1_cbisort. destruct (cbisort_sorted d cmp a') as (S & P').
    split; [apply StronglySorted_Sorted, S | etransitivity; eassumption].
Qed.

(** ** Witnesses *)

Definition sort_sample : list key :=
  [[17]; [3]; [9]; [1]; [12]; [5]; [16]; [2]; [8]; [14]; [4]; [11]; [7]; [15]; [6]; [13]; [10]].

Lemma cbisort_spec_witness :
  cbisort [] vllexcompare [[3]; [1]; [2]] = [[1]; [2]; [3]] /\
  Sorted (fun x y => vllexcompare x y <= 0) (cbisort [] vllexcompare [[3]; [1]; [2]]).
Proof.
  split; [vm_compute; reflexivity | apply (cbisort_spec [] vllexcompare [[3]; [1]; [2]])].
Defined.

(** Seventeen elements: a pass of gap 5 runs before the pass of gap 1. *)
Lemma cbssort_spec_witness :
  cbssort [] vllexcompare sort_sample = map (fun n => [n]) (map Z.of_nat (seq 1 17)) /\
  Sorted (fun x y => vllexcompare x y <= 0) (cbssort [] vllexcompare sort_sample).
Proof.
  split; [vm_compute; reflexivity | apply (cbssort_spec [] vllexcompare sort_sample)].
Defined.
