(* ===== verification/CbQsort.v ===== *)
(** * CbQsort: the quick sort of cabin.c and [cblistsort]

    [cbqsort] (cabin.c 209-217) and its recursion [cbqsortsub] (cabin.c
    2731-2759), and [cblistsort] (cabin.c 624-627), which sorts the live
    slots of a [CBLIST] with [cblistelemcmp].  The partition loop keeps
    [top] and [bottom] as C [int]s; the two recursive calls sort the
    regions [[0, top)] and [[bottom + 1, nmemb)] of the array in place, one
    after the other (they share the slot [bottom + 1] when the loop ends
    with [top = bottom + 2]).  The theorems show that the recursion and
    the loop end within their fuel, that the result is a sorted
    permutation, and that [cblistsort] sorts the list the [CbList] model
    views, after which [cblistbsearch] finds exactly the elements it
    holds. *)

From Stdlib Require Import ZArith Lia List Bool Permutation Sorted.
From S2P Require Import Prelude Compare CbList CbSort.
Import ListNotations.
Open Scope Z_scope.
Open Scope vl_scope.

Section Qsort.
Context {A : Type} (d : A) (cmp : A -> A -> Z).

(** The three [memcpy] that exchange the elements [i] and [j] through
    [vswap]. *)
Definition zswap (a : list A) (i j : Z) : list A :=
  list_set (list_set a (Z.to_nat i) (znth d a j)) (Z.to_nat j) (znth d a i).

(** The partition loop of [cbqsortsub] (cabin.c 2742-2756) around the
    pivot [p]: [while(top - 1 < bottom)].  Its fuel, [nmemb + 1] rounds,
    is enough since [bottom - top] falls by one at least a round. *)
Fixpoint qpart (p : A) (a : list A) (top bottom : Z) (fuel : nat) : option (list A * Z * Z) :=
  match fuel with
  | O => None
  | S f =>
      if top - 1 <? bottom then
        if cmp (znth d a top) p <? 0 then qpart p a (top + 1) bottom f
        else if 0 <? cmp (znth d a bottom) p then qpart p a top (bottom - 1) f
        else
          let a' := if negb (top =? bottom) then zswap a top bottom else a in
          qpart p a' (top + 1) (bottom - 1) f
      else Some (a, top, bottom)
  end.

(** [cbqsortsub] (cabin.c 2731-2759): below 10 elements the insertion
    sort; else the partition around the middle element and the two
    recursive calls, the second on the array the first left.  Its fuel is
    [nmemb + 1] levels. *)
Fixpoint cbqsortsub (fuel : nat) (a : list A) : option (list A) :=
  match fuel with
  | O => None
  | S f =>
      let nmemb := zlen a in
      if nmemb <? 10 then Some (if 1 <? nmemb then cbisort d cmp a else a)
      else
        match qpart (znth d a (nmemb ÷ 2)) a 0 (nmemb - 1) (S (length a)) with
        | None => None
        | Some (a', top, bottom) =>
            match cbqsortsub f (firstn (Z.to_nat top) a') with
            | None => None
            | Some l =>
                let a1 := l ++ skipn (Z.to_nat top) a' in
                match cbqsortsub f (skipn (Z.to_nat (bottom + 1)) a1) with
                | None => None
                | Some r => Some (firstn (Z.to_nat (bottom + 1)) a1 ++ r)
                end
            end
        end
  end.

(** [cbqsort] (cabin.c 209-217).  The recursion never runs out of fuel
    ([cbqsortsub_total]); the input is returned only in that case. *)
Definition cbqsort (a : list A) : list A :=
  match cbqsortsub (S (length a)) a with Some l => l | None => a end.

End Qsort.

(** [cblistsort] (cabin.c 624-627): [cbqsort(list->array + list->start,
    list->num, sizeof(list->array[0]), cblistelemcmp)]. *)
Definition cblistsort (l : CBLIST) : CBLIST :=
  mkcblist (firstn (cl_start l) (cl_array l) ++ cbqsort [] cblistelemcmp (cl_view l) ++
            skipn (cl_start l + cl_num l) (cl_array l))
           (cl_anum l) (cl_start l) (cl_num l).

(** ** The partition *)

Section Partition.
Context {A : Type} (d : A) (cmp : A -> A -> Z) `{Hso : !SortOrder cmp}.
Context (a0 : list A).

Let n := zlen a0.
Let p := znth d a0 (n ÷ 2).

Lemma so_irrefl (x : A) : cmp x x = 0.
Proof.
  pose proof (so_refl cmp x). destruct (Z.eq_dec (cmp x x) 0) as [E|E]; [exact E|].
  pose proof (proj1 (@so_antisym _ cmp _ x x) ltac:(lia)). lia.
Qed.

(** The state of the partition loop: a permutation of the input, [top]
    and [bottom] within the array, the elements before [top] not above the
    pivot, those after [bottom] not below it; and while one of the two has
    not moved, the array is the input and the other has not passed the
    pivot's slot. *)
Definition pinv (a : list A) (top bottom : Z) : Prop :=
  Permutation a a0 /\ zlen a = n /\
  0 <= top <= n - 1 /\ 0 <= bottom <= n - 1 /\ top <= bottom + 2 /\
  (forall k, 0 <= k < top -> cmp (znth d a k) p <= 0) /\
  (forall k, bottom < k < n -> 0 <= cmp (znth d a k) p) /\
  (bottom = n - 1 -> a = a0 /\ top <= n ÷ 2) /\
  (top = 0 -> a = a0 /\ n ÷ 2 <= bottom).

Hypothesis Hn : 3 <= n.

Lemma half_bounds : 1 <= n ÷ 2 < n - 1.
Proof.
  rewrite Z.quot_div_nonneg by lia. split.
  - apply Z.div_le_lower_bound; lia.
  - apply Z.div_lt_upper_bound; lia.
Qed.

Lemma pinv_init : pinv a0 0 (n - 1).
Proof.
  pose proof half_bounds. unfold pinv. repeat split; try reflexivity; try lia.
Qed.

Lemma pinv_top (a : list A) (top bottom : Z) :
  pinv a top bottom -> top <= bottom -> cmp (znth d a top) p < 0 -> pinv a (top + 1) bottom.
Proof.
  intros (P & L & T & B & TB & Lo & Hi & Eb & Et) Hc Hlt. pose proof half_bounds.
  assert (Ht : top < n ÷ 2 \/ bottom < n - 1).
  { destruct (Z.eq_dec bottom (n - 1)) as [E|E]; [|right; lia]. destruct (Eb E) as (-> & Ht).
    left. destruct (Z.eq_dec top (n ÷ 2)) as [->|]; [|lia]. fold p in Hlt. rewrite so_irrefl in Hlt. lia. }
  do 5 (split; [assumption || lia|]). split; [|split; [exact Hi|split]].
  - intros k Hk. destruct (Z.eq_dec k top) as [->|]; [lia | apply Lo; lia].
  - intros E. destruct (Eb E) as (-> & H'). split; [reflexivity | lia].
  - intros E. lia.
Qed.

Lemma pinv_bottom (a : list A) (top bottom : Z) :
  pinv a top bottom -> top <= bottom -> 0 < cmp (znth d a bottom) p -> pinv a top (bottom - 1).
Proof.
  intros (P & L & T & B & TB & Lo & Hi & Eb & Et) Hc Hgt. pose proof half_bounds.
  assert (Hb : n ÷ 2 < bottom \/ 0 < top).
  { destruct (Z.eq_dec top 0) as [E|E]; [|right; lia]. destruct (Et E) as (-> & Hb).
    left. destruct (Z.eq_dec bottom (n ÷ 2)) as [->|]; [|lia]. fold p in Hgt. rewrite so_irrefl in Hgt. lia. }
  do 5 (split; [assumption || lia|]). split; [exact Lo|split; [|split]].
  - intros k Hk. destruct (Z.eq_dec k bottom) as [->|]; [lia | apply Hi; lia].
  - intros E. lia.
  - intros E. destruct (Et E) as (-> & H'). split; [reflexivity | lia].
Qed.

Lemma znth_zswap (a : list A) (i j k : Z) :
  0 <= i < zlen a -> 0 <= j < zlen a -> 0 <= k ->
  znth d (zswap d a i j) k = if k =? j then znth d a i else if k =? i then znth d a j else znth d a k.
Proof.
  intros Hi Hj Hk. unfold zswap, znth, zlen in *.
  rewrite !nth_list_set by (rewrite ?length_list_set; lia).
  destruct (Z.eqb_spec k j), (Nat.eqb_spec (Z.to_nat k) (Z.to_nat j)); try lia; [reflexivity|].
  destruct (Z.eqb_spec k i), (Nat.eqb_spec (Z.to_nat k) (Z.to_nat i)); try lia; reflexivity.
Qed.

Lemma zswap_perm (a : list A) (i j : Z) :
  0 <= i < zlen a -> 0 <= j < zlen a -> Permutation (zswap d a i j) a /\ zlen (zswap d a i j) = zlen a.
Proof.
  intros Hi Hj. unfold zswap, znth, zlen in *. split.
  - apply swap_perm; lia.
  - rewrite !length_list_set by (rewrite ?length_list_set; lia). reflexivity.
Qed.

Lemma pinv_swap (a : list A) (top bottom : Z) :
  pinv a top bottom -> top <= bottom -> ~ cmp (znth d a top) p < 0 -> ~ 0 < cmp (znth d a bottom) p ->
  pinv (if negb (top =? bottom) then zswap d a top bottom else a) (top + 1) (bottom - 1).
Proof.
  intros (P & L & T & B & TB & Lo & Hi & Eb & Et) Hc Hnl Hng. pose proof half_bounds.
  assert (Ht : top < n - 1).
  { destruct (Z.eq_dec bottom (n - 1)) as [E|E]; [destruct (Eb E); lia | lia]. }
  assert (Hb : 0 < bottom).
  { destruct (Z.eq_dec top 0) as [E|E]; [destruct (Et E); lia | lia]. }
  destruct (Z.eqb_spec top bottom) as [<-|Ne]; cbn [negb].
  - do 5 (split; [assumption || lia|]). split; [|split; [|split; intros E; lia]].
    + intros k Hk. destruct (Z.eq_dec k top) as [->|]; [lia | apply Lo; lia].
    + intros k Hk. destruct (Z.eq_dec k top) as [->|]; [lia | apply Hi; lia].
  - destruct (zswap_perm a top bottom) as (P' & L'); [lia | lia |].
    split; [etransitivity; eassumption|]. split; [congruence|].
    do 3 (split; [lia|]). split; [|split; [|split; intros E; lia]].
    + intros k Hk. rewrite znth_zswap by lia.
      destruct (Z.eqb_spec k bottom); [lia|]. destruct (Z.eqb_spec k top); [lia | apply Lo; lia].
    + intros k Hk. rewrite znth_zswap by lia.
      destruct (Z.eqb_spec k bottom); [lia|]. destruct (Z.eqb_spec k top); [lia | apply Hi; lia].
Qed.

(** The partition loop ends, with [top > bottom], within its fuel. *)
Lemma qpart_spec (fuel : nat) : forall a top bottom,
  pinv a top bottom -> 1 <= Z.of_nat fuel -> bottom - top + 2 <= Z.of_nat fuel ->
  exists a' top' bottom', qpart d cmp p a top bottom fuel = Some (a', top', bottom') /\
    pinv a' top' bottom' /\ bottom' + 1 <= top'.
Proof.
  induction fuel as [|f IH]; intros a top bottom H H1 H2; [lia|]. cbn [qpart].
  destruct (Z.ltb_spec (top - 1) bottom); [|exists a, top, bottom; split; [reflexivity | split; [exact H | lia]]].
  destruct (Z.ltb_spec (cmp (znth d a top) p) 0).
  - apply IH; [apply pinv_top; assumption || lia | lia | lia].
  - destruct (Z.ltb_spec 0 (cmp (znth d a bottom) p)).
    + apply IH; [apply pinv_bottom; assumption || lia | lia | lia].
    + apply IH; [apply pinv_swap; assumption || lia | lia | lia].
Qed.

End Partition.

(** ** The recursion *)

Section QsortSpec.
Context {A : Type} (d : A) (cmp : A -> A -> Z) `{Hso : !SortOrder cmp}.

Local Abbreviation le := (fun x y => cmp x y <= 0).

Lemma in_firstn_znth (a : list A) (m : nat) (x : A) :
  In x (firstn m a) -> exists k, 0 <= k < Z.of_nat m /\ k < zlen a /\ znth d a k = x.
Proof.
  intros H. destruct (In_nth _ _ d H) as (k & Hk & E). rewrite length_firstn in Hk.
  rewrite nth_firstn in E. destruct (Nat.ltb_spec k m); [|lia].
  exists (Z.of_nat k). unfold znth, zlen. rewrite Nat2Z.id. repeat split; lia || exact E.
Qed.

Lemma in_skipn_znth (a : list A) (m : nat) (x : A) :
  In x (skipn m a) -> exists k, Z.of_nat m <= k < zlen a /\ znth d a k = x.
Proof.
  intros H. destruct (In_nth _ _ d H) as (k & Hk & E). rewrite length_skipn in Hk.
  rewrite nth_skipn in E. exists (Z.of_nat (m + k)). unfold znth, zlen. rewrite Nat2Z.id.
  split; [lia | exact E].
Qed.

Lemma SS_firstn_skipn (l : list A) (m : nat) :
  StronglySorted le l ->
  StronglySorted le (firstn m l) /\ (forall x y, In x (firstn m l) -> In y (skipn m l) -> le x y).
Proof.
  intros H. rewrite <- (firstn_skipn m l) in H. apply SS_app in H as (H1 & _ & H3). split; assumption.
Qed.

(** [cbqsortsub] with fuel above the number of elements returns a sorted
    permutation of them. *)
Lemma cbqsortsub_spec (fuel : nat) : forall a,
  (length a < fuel)%nat ->
  exists l, cbqsortsub d cmp fuel a = Some l /\ StronglySorted le l /\ Permutation l a.
Proof.
  induction fuel as [|f IH]; intros a Hf; [lia|]. cbn [cbqsortsub].
  destruct (Z.ltb_spec (zlen a) 10).
  - eexists; split; [reflexivity|]. destruct (Z.ltb_spec 1 (zlen a)); [exact (cbisort_sorted d cmp a)|].
    split; [|reflexivity]. destruct a as [|x [|y t]]; [constructor | repeat constructor |].
    unfold zlen in *. cbn [length] in *. lia.
  - destruct (qpart_spec d cmp a ltac:(lia) (S (length a)) a 0 (zlen a - 1)) as (a' & t & b & E & Hinv & Htb);
      [apply pinv_init; lia | lia | unfold zlen; lia |].
    rewrite E. destruct Hinv as (P & L & T & B & TB & Lo & Hi & _ & _).
    pose proof (Permutation_length P) as La.
    destruct (IH (firstn (Z.to_nat t) a')) as (l & El & Sl & Pl); [rewrite length_firstn; unfold zlen in *; lia|].
    rewrite El. pose proof (Permutation_length Pl) as Ll. rewrite length_firstn in Ll.
    rewrite Nat.min_l in Ll by (unfold zlen in *; lia).
    set (a1 := l ++ skipn (Z.to_nat t) a').
    assert (L1 : length a1 = length a) by (unfold a1; rewrite length_app, length_skipn; unfold zlen in *; lia).
    destruct (IH (skipn (Z.to_nat (b + 1)) a1)) as (r & Er & Sr & Pr); [rewrite length_skipn; unfold zlen in *; lia|].
    rewrite Er. eexists; split; [reflexivity|].
    assert (F : firstn (Z.to_nat (b + 1)) a1 = firstn (Z.to_nat (b + 1)) l)
      by (unfold a1; rewrite firstn_app; replace (Z.to_nat (b + 1) - length l)%nat with 0%nat by lia;
          rewrite firstn_O, app_nil_r; reflexivity).
    assert (Sk : skipn (Z.to_nat (b + 1)) a1 = skipn (Z.to_nat (b + 1)) l ++ skipn (Z.to_nat t) a')
      by (unfold a1; rewrite skipn_app; replace (Z.to_nat (b + 1) - length l)%nat with 0%nat by lia; reflexivity).
    destruct (SS_firstn_skipn l (Z.to_nat (b + 1)) Sl) as (S1 & S2). split.
    + rewrite F. apply SS_app. split; [exact S1|]. split; [exact Sr|].
      intros x y Hx Hy. apply (Permutation_in _ Pr) in Hy. rewrite Sk in Hy.
      apply in_app_or in Hy as [Hy|Hy]; [exact (S2 x y Hx Hy)|].
      apply (in_skipn_znth a') in Hy as (k & Hk & <-).
      assert (Hx' : In x (firstn (Z.to_nat t) a')).
      { apply (Permutation_in _ Pl). rewrite <- (firstn_skipn (Z.to_nat (b + 1)) l). apply in_or_app. left. exact Hx. }
      apply (in_firstn_znth a') in Hx' as (j & Hj & _ & <-). rewrite Z2Nat.id in Hj, Hk by lia.
      apply (so_trans _ (znth d a (zlen a ÷ 2))); [apply Lo; lia|].
      apply (so_nlt cmp). specialize (Hi k ltac:(lia)). lia.
    + rewrite Pr, firstn_skipn. unfold a1. rewrite Pl, firstn_skipn. exact P.
Qed.

End QsortSpec.

(** ** [cblistsort] *)

(** [cblistelemcmp] orders byte strings: its sign is that of
    [vllexcompare] on the bytes read as [signed char]s. *)
#[export] Instance cblistelemcmp_sortorder : SortOrder cblistelemcmp.
Proof.
  split.
  - intros a b. destruct (elemcmp_sign a b) as (A1 & _), (elemcmp_sign b a) as (_ & B2).
    rewrite A1, B2. apply cmp_antisym.
  - intros a b c H1 H2.
    destruct (elemcmp_sign a b) as (_ & B1), (elemcmp_sign b c) as (_ & B2), (elemcmp_sign a c) as (_ & B3).
    assert (V1 : vllexcompare (map sc a) (map sc b) <= 0)
      by (destruct (Z.ltb_spec 0 (vllexcompare (map sc a) (map sc b))) as [G|G]; [apply B1 in G; lia | lia]).
    assert (V2 : vllexcompare (map sc b) (map sc c) <= 0)
      by (destruct (Z.ltb_spec 0 (vllexcompare (map sc b) (map sc c))) as [G|G]; [apply B2 in G; lia | lia]).
    pose proof (so_trans (cmp := vllexcompare) _ _ _ V1 V2) as V3.
    destruct (Z.ltb_spec 0 (cblistelemcmp a c)) as [G|G]; [apply B3 in G; lia | lia].
Qed.

Lemma SS_nth {A : Type} (R : A -> A -> Prop) (l : list A) (d : A) (i j : nat) :
  StronglySorted R l -> (i < j < length l)%nat -> R (nth i l d) (nth j l d).
Proof.
  revert i j. induction l as [|x l IH]; intros i j H Hij; cbn [length] in Hij; [lia|].
  apply StronglySorted_inv in H as (H1 & H2). destruct i as [|i], j as [|j]; try lia; cbn [nth].
  - apply (proj1 (Forall_forall _ _) H2), nth_In. lia.
  - apply IH; [exact H1 | lia].
Qed.

Lemma cbqsort_sorted {A : Type} (d : A) (cmp : A -> A -> Z) `{!SortOrder cmp} (a : list A) :
  cbqsortsub d cmp (S (length a)) a = Some (cbqsort d cmp a) /\
  StronglySorted (fun x y => cmp x y <= 0) (cbqsort d cmp a) /\ Permutation (cbqsort d cmp a) a.
Proof.
  unfold cbqsort. destruct (cbqsortsub_spec d cmp (S (length a)) a) as (l & -> & S & P); [lia|].
  split; [reflexivity | split; assumption].
Qed.

(** [cblistsort] keeps the handle well formed and puts in its live slots
    the result of [cbqsort] on them. *)
Lemma cblistsort_view (l : CBLIST) :
  cl_ok l -> cl_ok (cblistsort l) /\ cl_view (cblistsort l) = cbqsort [] cblistelemcmp (cl_view l).
Proof.
  intros (H1 & H2 & H3). destruct (cbqsort_sorted [] cblistelemcmp (cl_view l)) as (_ & _ & P).
  pose proof (Permutation_length P) as L. unfold cl_view in L at 2.
  rewrite length_firstn, length_skipn, Nat.min_l in L by lia. unfold cl_view in L.
  unfold cblistsort, cl_ok, cl_view. cbn [cl_array cl_anum cl_start cl_num]. split; [split; [|split]|].
  - lia.
  - rewrite !length_app, length_firstn, length_skipn, L. lia.
  - exact H3.
  - set (srt := cbqsort [] cblistelemcmp _). fold srt in L.
    rewrite skipn_app, length_firstn, Nat.min_l by lia. rewrite Nat.sub_diag.
    rewrite skipn_all2 by (rewrite length_firstn; lia). cbn [app skipn].
    rewrite firstn_app, L, Nat.sub_diag, firstn_O, app_nil_r, <- L, firstn_all. reflexivity.
Qed.

(** ** Theorems *)

(** C13: [cbqsort] terminates within its fuel ([cbqsortsub] never runs out of
    it, whatever the order of the input) and returns a permutation of
    the array, sorted for [compar]. *)
Theorem cbqsort_spec {A : Type} (d : A) (cmp : A -> A -> Z) `{!SortOrder cmp} (a : list A) :
  cbqsortsub d cmp (S (length a)) a = Some (cbqsort d cmp a) /\
  Sorted (fun x y => cmp x y <= 0) (cbqsort d cmp a) /\ Permutation (cbqsort d cmp a) a.
Proof.
  destruct (cbqsort_sorted d cmp a) as (E & S & P).
  split; [exact E | split; [apply StronglySorted_Sorted, S | exact P]].
Qed.

(** [cblistsort] keeps the list handle well formed and leaves in its live
    slots a permutation of the elements, sorted for [cblistelemcmp]. *)
Theorem cblistsort_spec (l : CBLIST) :
  cl_ok l ->
  cl_ok (cblistsort l) /\
  Sorted (fun x y => cblistelemcmp x y <= 0) (cl_view (cblistsort l)) /\
  Permutation (cl_view (cblistsort l)) (cl_view l).
Proof.
  intros H. destruct (cblistsort_view l H) as (Ok & ->).
  destruct (cbqsort_sorted [] cblistelemcmp (cl_view l)) as (_ & S & P).
  split; [exact Ok | split; [apply StronglySorted_Sorted, S | exact P]].
Qed.

(** [cblistbsearch] after [cblistsort] finds a key exactly when the list
    holds it: -1 when no element equals the key, else the index of one
    that does. *)
Theorem cblistsort_bsearch (l : CBLIST) (k : list Z) :
  cl_ok l -> bytes_ok k -> Forall bytes_ok (cl_view l) ->
  let l' := cblistsort l in
  (cblistbsearch l' k (zlen k) = -1 /\ ~ In k (cl_view l)) \/
  (0 <= cblistbsearch l' k (zlen k) /\
   nth_error (cl_view l') (Z.to_nat (cblistbsearch l' k (zlen k))) = Some k).
Proof.
  intros H Hk Hb l'. destruct (cblistsort_view l H) as (_ & Ev).
  destruct (cbqsort_sorted [] cblistelemcmp (cl_view l)) as (_ & S & P).
  fold l' in Ev. rewrite <- Ev in S, P.
  destruct (cblistbsearch_sorted l' k Hk) as [(E & N)|R].
  - apply Forall_forall. intros x Hx. apply (Permutation_in _ P) in Hx.
    exact (proj1 (Forall_forall _ _) Hb x Hx).
  - intros i j Hij. apply (SS_nth _ _ [] i j S Hij).
  - left. split; [exact E|]. intros Hin. apply N, (Permutation_in _ (Permutation_sym P)), Hin.
  - right. exact R.
Qed.

(** ** Witnesses *)

Definition qsort_sample : list key :=
  [[12]; [3]; [9]; [1]; [11]; [5]; [2]; [8]; [10]; [4]; [7]; [6]].

Lemma cbqsort_spec_witness :
  cbqsort [] vllexcompare qsort_sample = map (fun n => [n]) (map Z.of_nat (seq 1 12)) /\
  Sorted (fun x y => vllexcompare x y <= 0) (cbqsort [] vllexcompare qsort_sample).
Proof.
  split; [vm_compute; reflexivity | apply (cbqsort_spec [] vllexcompare qsort_sample)].
Defined.

(** A list of eleven one-byte elements in slots 1 to 11 of a 13-slot
    array. *)
Definition list_sample : CBLIST :=
  mkcblist [[0]; [200]; [7]; [3]; [9]; [1]; [5]; [8]; [2]; [6]; [4]; [10]; [0]] 13 1 11.

Lemma list_sample_ok : cl_ok list_sample.
Proof. unfold cl_ok. cbn. lia. Qed.

Lemma cblistsort_spec_witness :
  cl_view (cblistsort list_sample) = [[200]; [1]; [2]; [3]; [4]; [5]; [6]; [7]; [8]; [9]; [10]] /\
  Sorted (fun x y => cblistelemcmp x y <= 0) (cl_view (cblistsort list_sample)).
Proof.
  split; [vm_compute; reflexivity | apply (cblistsort_spec list_sample list_sample_ok)].
Defined.

Lemma cblistsort_bsearch_witness :
  cblistbsearch (cblistsort list_sample) [7] 1 = 7 /\
  ((cblistbsearch (cblistsort list_sample) [7] (zlen [7]) = -1 /\ ~ In [7] (cl_view list_sample)) \/
   (0 <= cblistbsearch (cblistsort list_sample) [7] (zlen [7]) /\
    nth_error (cl_view (cblistsort list_sample))
      (Z.to_nat (cblistbsearch (cblistsort list_sample) [7] (zlen [7]))) = Some [7])).
Proof.
  split; [vm_compute; reflexivity|].
  apply (cblistsort_bsearch list_sample [7] list_sample_ok).
  - unfold bytes_ok, byte_ok. repeat constructor; lia.
  - change (cl_view list_sample) with [[200]; [7]; [3]; [9]; [1]; [5]; [8]; [2]; [6]; [4]; [10]].
    repeat (apply Forall_cons; [unfold bytes_ok, byte_ok; repeat constructor; lia|]). apply Forall_nil.
Defined.
