(* ===== verification/CbHsort.v ===== *)
(** * CbHsort: the heap sort of cabin.c

    [cbhsort] (cabin.c 164-206) sorts an array of [nmemb] elements in
    place.  Its heap is laid out from slot 0 with the children of slot [k]
    at [2k] and [2k + 1]: slot 0 has the one child 1 (its "child" 0 is
    itself, which the comparison [compar(bp, bp) >= 0] ends at), and every
    other slot [k] has its parent at [k / 2].  [nmemb], [top], [bottom],
    [mybot] and [i] are C [int]s, kept as [Z]; the two [while (i <= top)]
    loops that sift an element down are [hsift], with fuel, and give
    [None] when the fuel runs out, as the C loop would not end.  The
    theorems show that for a comparison with the laws of [SortOrder] the
    sift loops end within their fuel and [cbhsort] returns a sorted
    permutation of its input. *)

From Stdlib Require Import ZArith Lia List Bool Permutation Sorted.
From S2P Require Import Prelude Compare CbList CbSort CbQsort.
Import ListNotations.
Open Scope Z_scope.
Open Scope vl_scope.

Section Hsort.
Context {A : Type} (d : A) (cmp : A -> A -> Z).

(** The greater child (cabin.c 178 and 195): [if(i < top && compar(bp +
    (i + 1) * size, bp + i * size) > 0) i++], from [i = 2 * mybot]. *)
Definition hchild (top : Z) (a : list A) (mybot : Z) : Z :=
  let i := 2 * mybot in
  if (i <? top) && (0 <? cmp (znth d a (i + 1)) (znth d a i)) then i + 1 else i.

(** The sift loop (cabin.c 176-185 and 193-202): [i = 2 * mybot]; while
    [i <= top], take the greater child, stop when [mybot] is not below it,
    else exchange the two through [swap] and go down. *)
Fixpoint hsift (top : Z) (a : list A) (mybot : Z) (fuel : nat) : option (list A) :=
  match fuel with
  | O => None
  | S f =>
      if 2 * mybot <=? top then
        let i := hchild top a mybot in
        if 0 <=? cmp (znth d a mybot) (znth d a i) then Some a
        else hsift top (zswap d a mybot i) i f
      else Some a
  end.

(** The loop that builds the heap (cabin.c 174-186): [while(bottom > 0)
    { bottom--; ... }].  It returns the array and the final [bottom].
    It runs [bottom + 1] rounds, at most [nmemb + 2] with [bottom =
    (nmemb - 1) / 2 + 1] (2 for the empty array). *)
Fixpoint hbuild (top bottom : Z) (fuel : nat) (a : list A) : option (list A * Z) :=
  match fuel with
  | O => None
  | S f =>
      if 0 <? bottom then
        match hsift top a (bottom - 1) (S (length a)) with
        | Some a' => hbuild top (bottom - 1) f a'
        | None => None
        end
      else Some (a, bottom)
  end.

(** The loop that takes the heap apart (cabin.c 187-203): move the top of
    the heap to slot [top], shrink the heap and sift the new slot 0 down
    from [mybot = bottom]. *)
Fixpoint hdrain (top bottom : Z) (fuel : nat) (a : list A) : option (list A) :=
  match fuel with
  | O => None
  | S f =>
      if 0 <? top then
        let a := zswap d a 0 top in
        match hsift (top - 1) a bottom (S (length a)) with
        | Some a' => hdrain (top - 1) bottom f a'
        | None => None
        end
      else Some a
  end.

(** [cbhsort] (cabin.c 164-206): [nmemb--; bottom = nmemb / 2 + 1; top =
    nmemb]. *)
Definition cbhsort (a : list A) : option (list A) :=
  let nmemb := zlen a - 1 in
  let bottom := nmemb ÷ 2 + 1 in
  let top := nmemb in
  match hbuild top bottom (S (S (length a))) a with
  | Some (a', bottom') => hdrain top bottom' (S (length a)) a'
  | None => None
  end.

End Hsort.

(** ** The heap *)

Section HeapFacts.
Context {A : Type} (d : A) (cmp : A -> A -> Z) `{Hso : !SortOrder cmp}.

Local Notation "x ≼ y" := (cmp x y <= 0) (at level 70).
Local Notation "a @ k" := (znth d a k) (at level 1, format "a @ k").

(** [c] is a child of [k] in the layout of [cbhsort]: slot [2k] or [2k +
    1], other than [k] itself. *)
Definition child (k c : Z) : Prop := (c = 2 * k \/ c = 2 * k + 1) /\ c <> k.

(** The heap order on the slots from [b] to [top]. *)
Definition heap (a : list A) (b top : Z) : Prop :=
  forall k c, b <= k -> child k c -> c <= top -> a @ c ≼ a @ k.

(** The state of a sift at [m]: the heap order holds but at [m], and the
    children of [m] are below its parent. *)
Definition hpx (a : list A) (b top m : Z) : Prop :=
  (forall k c, b <= k -> k <> m -> child k c -> c <= top -> a @ c ≼ a @ k) /\
  (forall p c, b <= p -> child p m -> child m c -> c <= top -> a @ c ≼ a @ p).

(** What a sift of the slots up to [top] may do to the array: permute
    them among themselves and leave the slots after [top] alone. *)
Definition frame (r a : list A) (top : Z) : Prop :=
  zlen r = zlen a /\ Permutation r a /\ (forall k, top < k -> r @ k = a @ k) /\
  (forall j, 0 <= j <= top -> exists j', 0 <= j' <= top /\ r @ j = a @ j').

Lemma child_unique (k k' c : Z) : 0 <= k -> 0 <= k' -> child k c -> child k' c -> k = k'.
Proof. unfold child. lia. Qed.

Lemma child_gt (k c : Z) : 0 <= k -> child k c -> k < c.
Proof. unfold child. lia. Qed.

Lemma so_le_trans (x y z : A) : x ≼ y -> y ≼ z -> x ≼ z.
Proof. apply so_trans. Qed.

Lemma so_lt_le (x y : A) : cmp x y < 0 -> x ≼ y.
Proof. lia. Qed.

Lemma so_ge_le (x y : A) : 0 <= cmp x y -> y ≼ x.
Proof. intros H. apply (so_nlt cmp). lia. Qed.

Lemma frame_refl (a : list A) (top : Z) : frame a a top.
Proof.
  split; [reflexivity | split; [reflexivity | split; [reflexivity|]]].
  intros j Hj. exists j. split; [exact Hj | reflexivity].
Qed.

Lemma frame_trans (r s a : list A) (top : Z) : frame r s top -> frame s a top -> frame r a top.
Proof.
  intros (L1 & P1 & O1 & I1) (L2 & P2 & O2 & I2). split; [lia | split; [etransitivity; eassumption|split]].
  - intros k Hk. rewrite O1, O2 by exact Hk. reflexivity.
  - intros j Hj. destruct (I1 j Hj) as (j1 & Hj1 & E1). destruct (I2 j1 Hj1) as (j2 & Hj2 & E2).
    exists j2. split; [exact Hj2 | congruence].
Qed.

Lemma frame_zswap (a : list A) (i j top : Z) :
  0 <= i <= top -> 0 <= j <= top -> top < zlen a -> frame (zswap d a i j) a top.
Proof.
  intros Hi Hj Ht. destruct (zswap_perm d a a i j) as (P & L); [lia | lia |].
  split; [exact L | split; [exact P | split]].
  - intros k Hk. rewrite (znth_zswap d a) by lia.
    destruct (Z.eqb_spec k j), (Z.eqb_spec k i); try lia; reflexivity.
  - intros k Hk. rewrite (znth_zswap d a) by lia.
    destruct (Z.eqb_spec k j); [exists i; split; [lia | reflexivity]|].
    destruct (Z.eqb_spec k i); [exists j; split; [lia | reflexivity]|].
    exists k. split; [lia | reflexivity].
Qed.

(** The exchange through [swap] seen at one slot. *)
Ltac zsw d a :=
  rewrite ?(znth_zswap d a) by lia;
  repeat match goal with |- context [?x =? ?y] => destruct (Z.eqb_spec x y); try lia end;
  try reflexivity.

(** [hchild] picks a child slot of [m] within [top], not below any child
    of [m]. *)
Lemma hchild_spec (a : list A) (top m : Z) :
  0 <= m -> 2 * m <= top ->
  (hchild d cmp top a m = 2 * m \/ hchild d cmp top a m = 2 * m + 1) /\ hchild d cmp top a m <= top /\
  (forall c, child m c -> c <= top -> a @ c ≼ a @ (hchild d cmp top a m)).
Proof.
  intros Hm Ht. unfold hchild.
  destruct (Z.ltb_spec (2 * m) top) as [Hlt|Hge]; cbn [andb];
    [destruct (Z.ltb_spec 0 (cmp (a @ (2 * m + 1)) (a @ (2 * m)))) as [G|G]|];
    (split; [lia | split; [lia|]]); intros c ([-> | ->] & Hne) Hct; try apply (so_refl cmp); try lia.
  apply so_lt_le, so_antisym, G.
Qed.

(** A sift that reaches a slot without children within [top] is done. *)
Lemma hpx_done (a : list A) (b top m : Z) : 0 <= m -> top < 2 * m -> hpx a b top m -> heap a b top.
Proof.
  intros Hm Ht (H1 & _) k c Hk Hc Hct. destruct (Z.eq_dec k m) as [->|Hne].
  - destruct Hc as (Hc & _). lia.
  - apply H1; assumption.
Qed.

(** A sift whose slot is not below its greater child is done. *)
Lemma hpx_stop (a : list A) (b top m i : Z) :
  (forall c, child m c -> c <= top -> a @ c ≼ a @ i) -> a @ i ≼ a @ m -> hpx a b top m -> heap a b top.
Proof.
  intros Hdom Him (H1 & _) k c Hk Hc Hct. destruct (Z.eq_dec k m) as [->|Hne].
  - eapply so_le_trans; [apply Hdom|]; eassumption.
  - apply H1; assumption.
Qed.

(** Exchanging a slot with its greater child, when that is above it,
    moves the one slot out of order down to the child. *)
Lemma hpx_swap (a : list A) (b top m i : Z) :
  0 <= b <= m -> top < zlen a -> (i = 2 * m \/ i = 2 * m + 1) -> i <= top ->
  (forall c, child m c -> c <= top -> a @ c ≼ a @ i) -> cmp (a @ m) (a @ i) < 0 ->
  hpx a b top m -> hpx (zswap d a m i) b top i /\ m < i.
Proof.
  intros Hb Hl Hi Hit Hdom Hlt (H1 & H2).
  assert (Hne : i <> m) by (intros ->; pose proof (proj1 (so_antisym _ _) Hlt); lia).
  assert (Hci : child m i) by (split; assumption).
  split; [split|lia].
  - intros k c Hk Hki Hc Hct. pose proof (child_gt k c ltac:(lia) Hc).
    destruct (Z.eq_dec c i) as [->|Hni].
    + assert (k = m) as -> by (apply (child_unique k m i); lia || assumption). zsw d a.
    + destruct (Z.eq_dec c m) as [->|Hnm]; [zsw d a; apply H2; assumption|].
      destruct (Z.eq_dec k m) as [->|Hkm]; zsw d a; [apply Hdom | apply H1]; assumption.
  - intros p c Hp Hpi Hic Hct. assert (p = m) as -> by (apply (child_unique p m i); lia || assumption).
    pose proof (child_gt i c ltac:(lia) Hic). zsw d a. apply H1; [lia | exact Hne | exact Hic | exact Hct].
Qed.

(** The sift loop ends within [top - m + 1] rounds and restores the heap
    order, moving only the slots up to [top]. *)
Lemma hsift_spec (fuel : nat) : forall a b top m,
  top < zlen a -> 0 <= b <= m -> hpx a b top m -> (Z.to_nat (top - m) < fuel)%nat ->
  exists r, hsift d cmp top a m fuel = Some r /\ heap r b top /\ frame r a top.
Proof.
  induction fuel as [|f IH]; intros a b top m Hl Hb Hx Hf; [lia|]. cbn [hsift].
  destruct (Z.leb_spec (2 * m) top) as [Ht|Ht].
  2: { exists a. split; [reflexivity | split; [eapply hpx_done; [| |exact Hx]; lia | apply frame_refl]]. }
  destruct (hchild_spec a top m ltac:(lia) Ht) as (Hi & Hit & Hdom).
  set (i := hchild d cmp top a m) in *.
  destruct (Z.leb_spec 0 (cmp (a @ m) (a @ i))) as [Hge|Hlt].
  - exists a. split; [reflexivity | split; [eapply hpx_stop; [exact Hdom | apply so_ge_le, Hge | exact Hx] | apply frame_refl]].
  - destruct (hpx_swap a b top m i Hb Hl Hi Hit Hdom Hlt Hx) as (Hx' & Hmi).
    pose proof (frame_zswap a m i top ltac:(lia) ltac:(lia) Hl) as Fs.
    destruct (IH (zswap d a m i) b top i) as (r & E & Hh & Fr); [destruct Fs; lia | lia | exact Hx' | lia |].
    exists r. split; [exact E | split; [exact Hh | eapply frame_trans; eassumption]].
Qed.

(** Before each round of the build loop the slots from [bottom] up are a
    heap; the sift at [bottom - 1] starts with only that slot out of
    order. *)
Lemma heap_hpx_below (a : list A) (b top : Z) : 0 < b -> heap a b top -> hpx a (b - 1) top (b - 1).
Proof.
  intros Hb H. split.
  - intros k c Hk Hne Hc Hct. apply H; [lia | exact Hc | exact Hct].
  - intros p c Hp Hpm. pose proof (child_gt p (b - 1) ltac:(lia) Hpm). lia.
Qed.

(** The build loop ends within [bottom + 1] rounds with [bottom = 0] and
    the whole array a heap. *)
Lemma hbuild_spec (top : Z) (fuel : nat) : forall b a,
  0 <= b -> top < zlen a -> heap a b top -> (Z.to_nat b < fuel)%nat ->
  exists r, hbuild d cmp top b fuel a = Some (r, 0) /\ heap r 0 top /\ Permutation r a /\ zlen r = zlen a.
Proof.
  induction fuel as [|f IH]; intros b a Hb Hl Hh Hf; [lia|]. cbn [hbuild].
  destruct (Z.ltb_spec 0 b) as [Hp|Hz].
  - destruct (hsift_spec (S (length a)) a (b - 1) top (b - 1)) as (r & E & Hr & (L & P & _));
      [exact Hl | lia | apply heap_hpx_below; assumption | unfold zlen in Hl; lia |].
    rewrite E. destruct (IH (b - 1) r) as (r' & E' & H' & P' & L'); [lia | lia | exact Hr | lia |].
    exists r'. split; [exact E' | split; [exact H' | split; [etransitivity; eassumption | lia]]].
  - replace b with 0 in * by lia. exists a. split; [reflexivity | split; [exact Hh | split; reflexivity]].
Qed.

(** Every slot but 0 is a child of the slot [j / 2]. *)
Lemma child_half (j : Z) : 0 < j -> 0 <= j / 2 < j /\ child (j / 2) j.
Proof.
  intros Hj. pose proof (Z.div_mod j 2 ltac:(lia)). pose proof (Z.mod_pos_bound j 2 ltac:(lia)).
  unfold child. lia.
Qed.

(** The first slot of a heap holds its greatest element. *)
Lemma heap_root_max (a : list A) (top : Z) (n : nat) :
  heap a 0 top -> forall j, 0 <= j <= top -> (Z.to_nat j <= n)%nat -> a @ j ≼ a @ 0.
Proof.
  intros H. induction n as [|n IH]; intros j Hj Hn.
  - replace j with 0 by lia. apply (so_refl cmp).
  - destruct (Z.eq_dec j 0) as [->|Hne]; [apply (so_refl cmp)|].
    destruct (child_half j ltac:(lia)) as (Hh & Hc).
    eapply so_le_trans; [apply (H (j / 2) j) | apply IH]; [lia | exact Hc | lia | lia | lia].
Qed.

(** The state of the loop that takes the heap apart: the slots up to
    [top] are a heap, none of them above a slot after [top], and the
    slots after [top] are in order. *)
Definition drained (a : list A) (top : Z) : Prop :=
  heap a 0 top /\
  (forall j k, 0 <= j <= top -> top < k < zlen a -> a @ j ≼ a @ k) /\
  (forall j k, top < j /\ j < k < zlen a -> a @ j ≼ a @ k).

(** Moving the top of the heap to slot [top] leaves slot 0 the only one
    out of order in the heap of the slots before it. *)
Lemma drain_hpx (a : list A) (top : Z) :
  0 < top < zlen a -> heap a 0 top -> hpx (zswap d a 0 top) 0 (top - 1) 0.
Proof.
  intros Ht H. split.
  - intros k c Hk Hne Hc Hct. pose proof (child_gt k c Hk Hc). zsw d a. apply H; [lia | exact Hc | lia].
  - intros p c Hp Hp0. pose proof (child_gt p 0 Hp Hp0). lia.
Qed.

(** One round of the loop keeps [drained] one slot down. *)
Lemma drain_step (a r : list A) (top : Z) :
  0 < top < zlen a -> drained a top -> frame r (zswap d a 0 top) (top - 1) -> heap r 0 (top - 1) ->
  drained r (top - 1).
Proof.
  intros Ht (H & X & S) (L & _ & O & I) Hr. pose proof (frame_zswap a 0 top top ltac:(lia) ltac:(lia) ltac:(lia)) as (L1 & _).
  split; [exact Hr | split].
  - intros j k Hj Hk. destruct (I j Hj) as (j' & Hj' & ->). rewrite O by lia.
    assert (Hin : exists j'', 0 <= j'' <= top /\ znth d (zswap d a 0 top) j' = a @ j'')
      by (destruct (Z.eq_dec j' 0) as [->|]; [exists top | exists j']; split; [lia | zsw d a | lia | zsw d a]).
    destruct Hin as (j'' & Hj'' & ->). destruct (Z.eq_dec k top) as [->|Hkt].
    + zsw d a. apply (heap_root_max a top (Z.to_nat j'') H); lia.
    + zsw d a. apply X; lia.
  - intros j k Hjk. rewrite !O by lia. zsw d a; [apply X | apply S]; lia.
Qed.

(** The loop that takes the heap apart ends within [top + 1] rounds with
    the array in order. *)
Lemma hdrain_spec (fuel : nat) : forall a top,
  -1 <= top < zlen a -> drained a top -> (Z.to_nat top < fuel)%nat ->
  exists r, hdrain d cmp top 0 fuel a = Some r /\ Permutation r a /\ zlen r = zlen a /\
            (forall j k, 0 <= j /\ j < k < zlen r -> r @ j ≼ r @ k).
Proof.
  induction fuel as [|f IH]; intros a top Ht Hd Hf; [lia|]. cbn [hdrain].
  destruct (Z.ltb_spec 0 top) as [Hp|Hz].
  - pose proof (frame_zswap a 0 top top ltac:(lia) ltac:(lia) ltac:(lia)) as Fs.
    destruct (hsift_spec (S (length (zswap d a 0 top))) (zswap d a 0 top) 0 (top - 1) 0)
      as (r & E & Hr & Fr); [destruct Fs; lia | lia | apply drain_hpx; [lia | apply Hd] | destruct Fs; unfold zlen in *; lia |].
    rewrite E. destruct Fr as (L & P & Fr').
    destruct (IH r (top - 1)) as (r' & E' & P' & L' & S');
      [destruct Fs; lia | apply (drain_step a r top); [lia | exact Hd | split; [exact L | split; assumption] | exact Hr] | lia |].
    destruct Fs as (L0 & P0 & _).
    exists r'. split; [exact E' | split; [rewrite P', P; exact P0 | split; [lia | exact S']]].
  - destruct Hd as (_ & X & S). exists a. split; [reflexivity | split; [reflexivity | split; [reflexivity|]]].
    intros j k Hjk. destruct (Z.leb_spec j top); [apply X | apply S]; lia.
Qed.

End HeapFacts.

(** A list whose elements are in order slot by slot is sorted. *)
Lemma sorted_of_znth {A : Type} (d : A) (R : A -> A -> Prop) (l : list A) :
  (forall j k, 0 <= j /\ j < k < zlen l -> R (znth d l j) (znth d l k)) -> StronglySorted R l.
Proof.
  unfold znth, zlen. induction l as [|x l IH]; intros H; constructor.
  - apply IH. intros j k Hjk. specialize (H (j + 1) (k + 1)).
    rewrite !Z2Nat.inj_add, !Nat.add_1_r in H by lia. apply H. cbn [length]. lia.
  - apply Forall_forall. intros y Hy. destruct (In_nth l y d Hy) as (k & Hk & <-).
    specialize (H 0 (Z.of_nat k + 1)). rewrite Z2Nat.inj_add, Nat2Z.id, Nat.add_1_r in H by lia.
    apply H. cbn [length]. lia.
Qed.

(** [bottom = nmemb / 2 + 1] after [nmemb--]: no slot from [bottom] on
    has a child within [top = nmemb]. *)
Lemma hsort_bottom (n : Z) : 0 <= n -> 1 <= (n - 1) ÷ 2 + 1 /\ n - 1 < 2 * ((n - 1) ÷ 2 + 1) /\ (n - 1) ÷ 2 + 1 <= n + 1.
Proof.
  intros Hn. destruct (Z.eq_dec n 0) as [->|Hne]; [cbv; repeat split; discriminate|].
  rewrite Z.quot_div_nonneg by lia. pose proof (Z.div_mod (n - 1) 2 ltac:(lia)).
  pose proof (Z.mod_pos_bound (n - 1) 2 ltac:(lia)). lia.
Qed.

(** ** Theorem *)

(** C31: For a comparison with the laws of [SortOrder], [cbhsort] ends:
    both sift loops, the loop that builds the heap and the loop that
    takes it apart end within their fuel, and it returns a permutation
    of the array, sorted for [compar]. *)
Theorem cbhsort_spec {A : Type} (d : A) (cmp : A -> A -> Z) `{!SortOrder cmp} (a : list A) :
  exists s, cbhsort d cmp a = Some s /\ Sorted (fun x y => cmp x y <= 0) s /\ Permutation s a.
Proof.
  unfold cbhsort. cbv zeta. pose proof (hsort_bottom (zlen a) ltac:(unfold zlen; lia)) as Q.
  destruct (hbuild_spec d cmp (zlen a - 1) (S (S (length a))) ((zlen a - 1) ÷ 2 + 1) a) as (r & E & H & P & L);
    [lia | lia | intros k c Hk ([-> | ->] & _) Hct; lia | unfold zlen in *; lia |].
  rewrite E. destruct (hdrain_spec d cmp (S (length a)) r (zlen a - 1)) as (s & E2 & P2 & L2 & S2);
    [lia | split; [exact H | split; intros; lia] | unfold zlen in *; lia |].
  rewrite E2. exists s. split; [reflexivity | split; [apply StronglySorted_Sorted, (sorted_of_znth d), S2 |]].
  rewrite P2. exact P.
Qed.

(** ** Witness *)

Definition hsort_sample : list key :=
  [[12]; [3]; [9]; [1]; [11]; [5]; [2]; [8]; [10]; [4]; [7]; [6]].

Lemma cbhsort_spec_witness :
  cbhsort [] vllexcompare hsort_sample = Some (map (fun n => [n]) (map Z.of_nat (seq 1 12))) /\
  exists s, cbhsort [] vllexcompare hsort_sample = Some s /\ Sorted (fun x y => vllexcompare x y <= 0) s /\
            Permutation s hsort_sample.
Proof.
  split; [vm_compute; reflexivity | apply (cbhsort_spec [] vllexcompare hsort_sample)].
Defined.
