(* ===== verification/CbMapSer.v ===== *)
(** * CbMapSer: the list views and the serialization of a [CBMAP]

    [cbmapkeys] and [cbmapvals] (cabin.c 1054-1081) copy the keys and the
    values of a map, in iteration order, into a new [CBLIST];
    [cbmapdump] (cabin.c 1085-1113) writes the number of entries and,
    for each entry in iteration order, the size and bytes of its key and
    of its value; [cbmapload] (cabin.c 1117-1146) reads them back with
    [cbmapput].  The maps are those of [Cache] with byte-string keys
    ([KeyEq_bytes]), the lists those of [CbList]; [cbmapload] reads a
    region as [cblistload] does, [COob] for a read outside it.  The
    theorems show that the list views hold the keys and values in
    iteration order, that loading a dump gives the map back, and that
    [cbmapload], like [cblistload], does not take the bytes of a key or
    a value off the size it checks against, and reads past its region. *)

From Stdlib Require Import ZArith Lia List Bool.
From S2P Require Import Prelude Varint Codec Cache CbList.
Import ListNotations.
Open Scope Z_scope.
Open Scope vl_scope.

(** A map whose keys and values are byte strings. *)
Abbreviation bmap := (kmap (list Z) (list Z)).

(** [cbmapkeys] (cabin.c 1054-1065): [cblistpush(list, kbuf, ksiz)] for
    each key [cbmapiternext] returns. *)
Definition cbmapkeys {V : Type} (m : kmap (list Z) V) : CBLIST :=
  fold_left (fun l k => cblistpush l k (zlen k)) (cbmap_iter m) cblistopen.

(** [cbmapvals] (cabin.c 1069-1081): the value [cbmapget] finds for each
    key [cbmapiternext] returns. *)
Definition cbmapvals (m : bmap) : CBLIST :=
  fold_left (fun l k => match cbmapget m k with
                        | Some v => cblistpush l v (zlen v)
                        | None => l
                        end) (cbmap_iter m) cblistopen.

(** [cbmapdump] (cabin.c 1085-1113). *)
Definition cbmapdump (m : bmap) : list Z :=
  cbsetvnumbuf (cbmaprnum m) ++
  flat_map (fun k => match cbmapget m k with
                     | Some v => cbsetvnumbuf (zlen k) ++ k ++ cbsetvnumbuf (zlen v) ++ v
                     | None => []
                     end) (cbmap_iter m).

(** The loop of [cbmapload] (cabin.c 1128-1144): like the loop of
    [cblistload], [size] drops by the size of each number read, not by
    the size of a key or a value; [cbmapput] copies [ksiz] bytes at
    [kbuf] and [vsiz] at [vbuf], [COob] when they leave the region.  It
    runs at most [rn] times. *)
Fixpoint mload_loop (m : list Z) (n : nat) (pos size : Z) (map : bmap) : cres bmap :=
  match n with
  | O => CDone map
  | S n' =>
      if size <? 1 then CDone map
      else
        match readv_in m pos size with
        | None => COob
        | Some (ksiz, step) =>
            let pos := pos + step in
            let size := size - step in
            if size <? ksiz then CDone map
            else
              let kpos := pos in
              let pos := pos + ksiz in
              if size <? 1 then CDone map
              else
                match readv_in m pos size with
                | None => COob
                | Some (vsiz, step) =>
                    let pos := pos + step in
                    let size := size - step in
                    if size <? vsiz then CDone map
                    else if negb (copy_in m kpos ksiz && copy_in m pos vsiz) then COob
                    else mload_loop m n' (pos + vsiz) size
                           (fst (cbmapput map (datum_at m kpos ksiz) (datum_at m pos vsiz) true))
                end
        end
  end.

(** [cbmapload] (cabin.c 1117-1146) of the region [buf]; [cbreadvnumbuf]
    asserts [size > 0]. *)
Definition cbmapload (buf : list Z) : cres bmap :=
  if zlen buf <? 1 then CAbort
  else
    match readv_in buf 0 (zlen buf) with
    | None => COob
    | Some (rn, step) =>
        let size := zlen buf - step in
        if size <? rn then CDone []
        else mload_loop buf (Z.to_nat rn) step size []
    end.

(** ** Lemmas *)

Section MapSerFacts.

(** Pushing byte strings one by one appends them to the view. *)
Lemma push_all (vs : list (list Z)) : forall l,
  cl_ok l ->
  cl_ok (fold_left (fun l k => cblistpush l k (zlen k)) vs l) /\
  cl_view (fold_left (fun l k => cblistpush l k (zlen k)) vs l) = cl_view l ++ vs.
Proof.
  induction vs as [|v vs IH]; intros l H; cbn [fold_left]; [rewrite app_nil_r; split; [exact H | reflexivity]|].
  replace (cblistpush l v (zlen v)) with (cblistpushbuf l v)
    by (unfold cblistpush; rewrite region_self; reflexivity). destruct (pushbuf_sim l v H) as (A & B).
  destruct (IH _ A) as (C & D). split; [exact C|]. rewrite D, B, <- app_assoc. reflexivity.
Qed.

(** In a map with one entry per key, [cbmapget] finds every entry. *)
Lemma get_entries {V : Type} (m : kmap (list Z) V) :
  cbmap_ok m -> Forall (fun e => cbmapget m (fst e) = Some (snd e)) m.
Proof.
  unfold cbmap_ok. induction m as [|[k v] m IH]; intros Hnd; [constructor|].
  apply NoDup_cons_iff in Hnd as (Hn & Hnd). constructor.
  - cbn [fst snd cbmapget]. destruct (keqb_spec k k); [reflexivity | contradiction].
  - apply Forall_forall. intros [k' v'] He. cbn [fst snd cbmapget].
    destruct (keqb_spec k k') as [<-|_].
    + exfalso. apply Hn. apply (in_map fst) in He. exact He.
    + exact (proj1 (Forall_forall _ _) (IH Hnd) (k', v') He).
Qed.

Lemma flat_map_iter {V B : Type} (m : kmap (list Z) V) (f : list Z -> list B) :
  flat_map f (cbmap_iter m) = flat_map (fun e => f (fst e)) m.
Proof. unfold cbmap_iter. induction m as [|e m IH]; [reflexivity|]. cbn. rewrite IH. reflexivity. Qed.

Lemma flat_map_ext_in {A B : Type} (f g : A -> list B) (l : list A) :
  (forall x, In x l -> f x = g x) -> flat_map f l = flat_map g l.
Proof.
  induction l as [|x l IH]; intros H; [reflexivity|]. cbn. rewrite H by (left; reflexivity).
  rewrite IH by (intros y Hy; apply H; right; exact Hy). reflexivity.
Qed.

(** The bytes [cbmapdump] writes for one entry. *)
Definition ent_buf (e : list Z * list Z) : list Z := vnum_chunk (fst e) ++ vnum_chunk (snd e).

Lemma cbmapdump_eq (m : bmap) :
  cbmap_ok m -> cbmapdump m = vlsetvnumbuf (zlen m) ++ flat_map ent_buf m.
Proof.
  intros Hok. unfold cbmapdump, cbmaprnum. f_equal. rewrite flat_map_iter.
  apply flat_map_ext_in. intros e He. rewrite (proj1 (Forall_forall _ _) (get_entries m Hok) e He).
  unfold ent_buf, vnum_chunk. rewrite <- app_assoc. reflexivity.
Qed.

Lemma fold_get (m es : bmap) (l0 : CBLIST) :
  Forall (fun e => cbmapget m (fst e) = Some (snd e)) es ->
  fold_left (fun l k => match cbmapget m k with Some v => cblistpush l v (zlen v) | None => l end)
    (map fst es) l0 = fold_left (fun l v => cblistpush l v (zlen v)) (map snd es) l0.
Proof.
  intros G. revert l0. induction G as [|e es Ge G IH]; intros l0; [reflexivity|].
  cbn [map fold_left]. rewrite Ge. apply IH.
Qed.

Lemma cbmapvals_eq (m : bmap) :
  cbmap_ok m -> cbmapvals m = fold_left (fun l v => cblistpush l v (zlen v)) (map snd m) cblistopen.
Proof.
  intros Hok. unfold cbmapvals, cbmap_iter. apply fold_get, get_entries, Hok.
Qed.

(** The loop of [cbmapload] reads back the entries the dump wrote, each
    one appended as its key is new; like [cblistload] it takes only the
    headers off [size], so [size] may exceed the bytes left. *)
Lemma mload_loop_enc (m : list Z) (es : bmap) : forall p t size mp,
  m = p ++ flat_map ent_buf es ++ t -> zlen (flat_map ent_buf es) <= size ->
  Forall (fun e => chunk_ok (fst e) /\ chunk_ok (snd e)) es ->
  NoDup (cbmap_iter (mp ++ es)) ->
  mload_loop m (length es) (zlen p) size mp = CDone (mp ++ es).
Proof.
  induction es as [|[k v] es IH]; intros p t size mp Hm Hs Hok Hnd; [rewrite app_nil_r; reflexivity|].
  apply Forall_cons_iff in Hok as ((Hk & Hv) & Hok). unfold ent_buf in *.
  cbn [flat_map length fst snd] in *. rewrite !vnum_chunk_eq in *. unfold chunk_ok in Hk, Hv.
  pose proof (vset_len (zlen k) ltac:(zlen_facts; lia)) as Lk.
  pose proof (vset_len (zlen v) ltac:(zlen_facts; lia)) as Lv.
  set (rest := flat_map ent_buf es) in *. set (sk := vlsetvnumbuf (zlen k)) in *.
  set (sv := vlsetvnumbuf (zlen v)) in *. autorewrite with vl_rw in Hs. zlen_facts.
  cbn [mload_loop]. vl_test.
  rewrite (readv_in_at m p (k ++ sv ++ v ++ rest ++ t) (zlen k) size)
    by first [rewrite Hm, <- !app_assoc; reflexivity | fold sk sv; zlen_facts; lia]. fold sk. vl_test. vl_test.
  assert (Hm2 : m = (p ++ sk ++ k) ++ sv ++ v ++ rest ++ t) by (rewrite Hm, <- !app_assoc; reflexivity).
  replace (zlen p + zlen sk + zlen k) with (zlen (p ++ sk ++ k)) by (autorewrite with vl_rw; lia).
  rewrite (readv_in_at m (p ++ sk ++ k) (v ++ rest ++ t) (zlen v) (size - zlen sk))
    by first [exact Hm2 | fold sk sv; zlen_facts; lia]. fold sv. vl_test.
  assert (Hm1 : m = (p ++ sk) ++ k ++ (sv ++ v ++ rest ++ t)) by (rewrite Hm, <- !app_assoc; reflexivity).
  assert (Hm3 : m = (p ++ sk ++ k ++ sv) ++ v ++ rest ++ t) by (rewrite Hm, <- !app_assoc; reflexivity).
  replace (zlen p + zlen sk) with (zlen (p ++ sk)) by (autorewrite with vl_rw; lia).
  replace (zlen (p ++ sk ++ k) + zlen sv) with (zlen (p ++ sk ++ k ++ sv)) by (autorewrite with vl_rw; lia).
  rewrite (copy_in_at _ _ _ _ Hm1), (copy_in_at _ _ _ _ Hm3). cbn [andb negb].
  rewrite (datum_at_at _ _ _ _ _ _ Hm1 eq_refl eq_refl), (datum_at_at _ _ _ _ _ _ Hm3 eq_refl eq_refl).
  unfold cbmapput. rewrite cbmapget_notin.
  2: { unfold cbmap_iter in *. rewrite map_app in Hnd. apply NoDup_remove_2 in Hnd.
       intros Hin. apply Hnd, in_or_app. left. exact Hin. }
  cbn [fst]. replace (mp ++ (k, v) :: es) with ((mp ++ [(k, v)]) ++ es) by (rewrite <- app_assoc; reflexivity).
  replace (zlen (p ++ sk ++ k ++ sv) + zlen v) with (zlen (p ++ sk ++ k ++ sv ++ v)) by (autorewrite with vl_rw; lia).
  apply (IH _ t).
  - rewrite Hm, <- !app_assoc. reflexivity.
  - lia.
  - exact Hok.
  - rewrite <- app_assoc. exact Hnd.
Qed.

Lemma ent_buf_len (es : bmap) :
  Forall (fun e => chunk_ok (fst e) /\ chunk_ok (snd e)) es -> 2 * zlen es <= zlen (flat_map ent_buf es).
Proof.
  induction 1 as [|e es (Hk & Hv) _ IH]; [reflexivity|]. cbn [flat_map].
  pose proof (vnum_chunk_len _ Hk). pose proof (vnum_chunk_len _ Hv).
  rewrite zlen_app, zlen_cons. unfold ent_buf at 1. rewrite zlen_app. lia.
Qed.

Lemma put_ok (mp : bmap) (k v : list Z) : cbmap_ok mp -> cbmap_ok (fst (cbmapput mp k v true)).
Proof.
  intros Hok. unfold cbmapput. destruct (cbmapget mp k) eqn:E; cbn [fst]; unfold cbmap_ok.
  - rewrite cbmap_replace_keys. exact Hok.
  - rewrite cbmap_iter_app. apply NoDup_snoc_K; [exact Hok | exact (cbmapget_None_notin mp k E)].
Qed.

(** Every map the loop yields keeps one entry per key. *)
Lemma mload_loop_ok (m : list Z) (n : nat) : forall pos size mp r,
  cbmap_ok mp -> mload_loop m n pos size mp = CDone r -> cbmap_ok r.
Proof.
  induction n as [|n IH]; intros pos size mp r Hok E; cbn [mload_loop] in E; [congruence|].
  repeat match type of E with
  | context [if ?c then _ else _] => destruct c
  | context [match readv_in ?a ?b ?c with _ => _ end] => destruct (readv_in a b c) as [[? ?]|]
  end; try congruence; eauto using put_ok.
Qed.

End MapSerFacts.

(** ** Theorems *)

(** C11: [cbmapload] reads back what [cbmapdump] wrote: a map with one
    entry per key, whose keys and values fit the [int] sizes, comes back
    with its entries in iteration order. *)
Theorem cbmapload_cbmapdump (m : bmap) :
  cbmap_ok m -> Forall (fun e => chunk_ok (fst e) /\ chunk_ok (snd e)) m -> zlen m <= INT_MAX ->
  cbmapload (cbmapdump m) = CDone m.
Proof.
  intros Hok Hc Hn. rewrite (cbmapdump_eq m Hok). pose proof (ent_buf_len m Hc) as Hl.
  pose proof (vset_len (zlen m) ltac:(zlen_facts; lia)). unfold cbmapload.
  autorewrite with vl_rw. zlen_facts. vl_test.
  rewrite (readv_in_at0 _ (flat_map ent_buf m) (zlen m)) by (reflexivity || lia || (autorewrite with vl_rw; lia)).
  vl_test. replace (Z.to_nat (zlen m)) with (length m) by (unfold zlen; lia).
  apply (mload_loop_enc _ m (vlsetvnumbuf (zlen m)) [] _ []); [rewrite app_nil_r; reflexivity | lia | exact Hc | exact Hok].
Qed.

(** whatever the buffer, a map [cbmapload] yields keeps one entry per
    key, as every entry goes through [cbmapput]. *)
Theorem cbmapload_ok (buf : list Z) (r : bmap) : cbmapload buf = CDone r -> cbmap_ok r.
Proof.
  unfold cbmapload. intros E.
  destruct (zlen buf <? 1); [discriminate|]. destruct (readv_in buf 0 (zlen buf)) as [[rn step]|]; [|discriminate].
  destruct (zlen buf - step <? rn); [injection E as <-; constructor|].
  exact (mload_loop_ok _ _ _ _ [] r (NoDup_nil _) E).
Qed.

(** [cbmapload] does not take the key and value bytes off [size]: on
    the 4-byte buffer [1; 1; x; 1] (one record, a one-byte key [x] and a
    one-byte value) the value lies past the end, and the C code reads it. *)
Theorem cbmapload_reads_past_region (x : Z) : 0 <= x < 256 -> cbmapload [1; 1; x; 1] = COob.
Proof. intros _. reflexivity. Qed.

(** [cbmapkeys] lists the keys in iteration order. *)
Theorem cbmapkeys_view {V : Type} (m : kmap (list Z) V) :
  cl_ok (cbmapkeys m) /\ cl_view (cbmapkeys m) = cbmap_iter m.
Proof. exact (push_all (cbmap_iter m) cblistopen cblistopen_ok). Qed.

(** [cbmapvals] lists the values in iteration order. *)
Theorem cbmapvals_view (m : bmap) :
  cbmap_ok m -> cl_ok (cbmapvals m) /\ cl_view (cbmapvals m) = map snd m.
Proof. intros Hok. rewrite cbmapvals_eq by exact Hok. exact (push_all _ cblistopen cblistopen_ok). Qed.

(** ** Witnesses *)

Definition map_sample : bmap := [([107; 49], [118; 49]); ([107; 50], []); ([200], [0; 255; 7])].

Lemma map_sample_ok : cbmap_ok map_sample.
Proof. unfold cbmap_ok, map_sample. cbn. repeat constructor; cbn; intuition congruence. Qed.

Lemma cbmapload_cbmapdump_witness :
  cbmapload (cbmapdump map_sample) = CDone map_sample.
Proof.
  apply cbmapload_cbmapdump; [exact map_sample_ok | | vm_compute; congruence].
  repeat constructor; unfold chunk_ok; vm_compute; congruence.
Defined.

Lemma cbmapload_ok_witness : cbmap_ok map_sample.
Proof. apply (cbmapload_ok (cbmapdump map_sample)). vm_compute. reflexivity. Defined.

Lemma cbmapload_reads_past_region_witness : cbmapload [1; 1; 120; 1] = COob.
Proof. apply cbmapload_reads_past_region. lia. Defined.

Lemma cbmapvals_view_witness : cl_view (cbmapvals map_sample) = [[118; 49]; []; [0; 255; 7]].
Proof. apply (cbmapvals_view map_sample map_sample_ok). Defined.
