(* ===== verification/CbMapOps.v ===== *)
(** * CbMapOps: the other updates of a [CBMAP] with byte-string keys

    [cbmapputcat] (cabin.c 806-862) appends bytes to the value of a key,
    or adds the key with those bytes; its buffer grows in units of
    [CB_MAPCSUNIT] or [CB_MAPCBUNIT] bytes.  [cbmapputvbuf] (cabin.c
    2618-2664) stores a value region the caller allocated.  [cbmapdup]
    (cabin.c 714-727) copies a map by putting each entry, in iteration
    order, into a new one without overwriting.  The maps are those of
    [Cache] (the entry list in iteration order) with the keys of
    [KeyEq_bytes]; the regions are read as [cblistpush] reads them.  The
    theorems give the effect of [cbmapputcat] on every key and on the
    iteration order, the bounds of the size it allocates (and its [int]
    overflow next to [INT_MAX]), and that [cbmapdup] returns the map. *)

From Stdlib Require Import ZArith Lia List Bool.
From S2P Require Import Prelude Varint Codec Cache CbList CbMapSer.
Import ListNotations.
Open Scope Z_scope.
Open Scope vl_scope.

(** ** Definitions *)

Definition CB_MAPCSUNIT : Z := 64.
Definition CB_MAPCBUNIT : Z := 256.

(** [unit = asiz <= CB_MAPCSUNIT ? CB_MAPCSUNIT : CB_MAPCBUNIT]. *)
Definition cat_unit (asiz : Z) : Z := if asiz <=? CB_MAPCSUNIT then CB_MAPCSUNIT else CB_MAPCBUNIT.

(** [asiz = (asiz - 1) + unit - (asiz - 1) % unit]: the size of the value
    buffer, one byte less than the allocation (the terminator). *)
Definition cat_alloc (asiz : Z) : Z :=
  let unit := cat_unit asiz in (asiz - 1) + unit - Z.rem (asiz - 1) unit.

(** [cbmapputcat]: a negative size is the [strlen] of the region; an
    existing value gets the bytes appended, in place in the iteration
    order; a new key is linked last. *)
Definition cbmapputcat (m : bmap) (kbuf : list Z) (ksiz : Z) (vbuf : list Z) (vsiz : Z) : bmap :=
  let k := region kbuf ksiz in
  let v := region vbuf vsiz in
  match cbmapget m k with
  | Some old => cbmap_replace m k (old ++ v)
  | None => m ++ [(k, v)]
  end.

(** The size of the buffer [cbmapputcat] allocates for the value it
    stores: [datum->vsiz + vsiz] for an existing key, [vsiz] for a new one. *)
Definition cbmapputcat_alloc (m : bmap) (kbuf : list Z) (ksiz : Z) (vbuf : list Z) (vsiz : Z) : Z :=
  let k := region kbuf ksiz in
  let v := region vbuf vsiz in
  match cbmapget m k with
  | Some old => cat_alloc (zlen old + zlen v)
  | None => cat_alloc (zlen v)
  end.

(** [cbmapputvbuf]: both sizes must be non-negative; the region becomes
    the value, overwriting. *)
Definition cbmapputvbuf (m : bmap) (kbuf : list Z) (ksiz : Z) (vbuf : list Z) (vsiz : Z) : cres bmap :=
  if (ksiz <? 0) || (vsiz <? 0) then CAbort
  else CDone (fst (cbmapput m (region kbuf ksiz) (region vbuf vsiz) true)).

(** [cbmapdup]: the loop over the iterator with [cbmapput(..., FALSE)]. *)
Definition cbmapdup (m : bmap) : bmap :=
  fold_left (fun acc k => match cbmapget m k with
                          | Some v => fst (cbmapput acc k v false)
                          | None => acc
                          end) (cbmap_iter m) [].

(** ** Lemmas *)

(** The allocation rounds [asiz] up to the next multiple of the unit, and
    a whole unit for an empty value. *)
Lemma cat_alloc_div (asiz : Z) :
  1 <= asiz -> cat_alloc asiz = cat_unit asiz * ((asiz - 1) / cat_unit asiz) + cat_unit asiz.
Proof.
  intros H. unfold cat_alloc. assert (Hu : 0 < cat_unit asiz) by (unfold cat_unit; destruct (asiz <=? CB_MAPCSUNIT); reflexivity).
  rewrite Z.rem_mod_nonneg by lia. pose proof (Z.div_mod (asiz - 1) (cat_unit asiz) ltac:(lia)). lia.
Qed.

Lemma cat_alloc_qr (asiz : Z) :
  1 <= asiz -> exists q r, asiz - 1 = cat_unit asiz * q + r /\ 0 <= r < cat_unit asiz /\
                           cat_alloc asiz = cat_unit asiz * q + cat_unit asiz.
Proof.
  intros H. assert (Hu : 0 < cat_unit asiz) by (unfold cat_unit; destruct (asiz <=? CB_MAPCSUNIT); reflexivity).
  exists ((asiz - 1) / cat_unit asiz), ((asiz - 1) mod cat_unit asiz).
  split; [apply Z.div_mod; lia | split; [apply Z.mod_pos_bound, Hu | apply cat_alloc_div, H]].
Qed.

(** [cbmapput] without overwriting appends a new key. *)
Lemma put_keep_new (pre : bmap) (k v : list Z) :
  ~ In k (cbmap_iter pre) -> fst (cbmapput pre k v false) = pre ++ [(k, v)].
Proof. intros Hn. unfold cbmapput. rewrite cbmapget_notin by exact Hn. reflexivity. Qed.

Lemma dup_loop (m : bmap) (es : bmap) : forall pre,
  NoDup (cbmap_iter (pre ++ es)) -> Forall (fun e => cbmapget m (fst e) = Some (snd e)) es ->
  fold_left (fun acc k => match cbmapget m k with
                          | Some v => fst (cbmapput acc k v false)
                          | None => acc
                          end) (cbmap_iter es) pre = pre ++ es.
Proof.
  induction es as [|[k v] es IH]; intros pre Hnd G; [rewrite app_nil_r; reflexivity|].
  apply Forall_cons_iff in G as (Ge & G). cbn [cbmap_iter map fold_left fst snd] in *. rewrite Ge.
  unfold cbmap_iter in Hnd. rewrite map_app in Hnd. cbn [map fst] in Hnd.
  rewrite put_keep_new by (intros Hin; apply (NoDup_remove_2 _ _ _ Hnd), in_or_app; left; exact Hin).
  replace (pre ++ (k, v) :: es) with ((pre ++ [(k, v)]) ++ es) by (rewrite <- app_assoc; reflexivity).
  apply IH; [unfold cbmap_iter; rewrite !map_app, <- app_assoc; exact Hnd | exact G].
Qed.

(** ** Theorems *)

(** [cbmapputcat] keeps one entry per key, makes the key map to its old
    value followed by the new bytes (the bytes alone for a new key),
    leaves the other keys alone, and links a new key last in iteration
    order while an existing one keeps its place. *)
Theorem cbmapputcat_spec (m : bmap) (kbuf : list Z) (ksiz : Z) (vbuf : list Z) (vsiz : Z) :
  cbmap_ok m ->
  let k := region kbuf ksiz in
  let v := region vbuf vsiz in
  let r := cbmapputcat m kbuf ksiz vbuf vsiz in
  cbmap_ok r /\
  (forall k', cbmapget r k' =
              if keqb k k' then Some (match cbmapget m k with Some old => old ++ v | None => v end)
              else cbmapget m k') /\
  cbmap_iter r = match cbmapget m k with Some _ => cbmap_iter m | None => cbmap_iter m ++ [k] end.
Proof.
  intros Hok k v r. unfold r, cbmapputcat. fold k v. destruct (cbmapget m k) as [old|] eqn:E.
  - pose proof (cbmapget_In m k old E) as Hin. unfold cbmap_ok. rewrite cbmap_replace_keys.
    split; [exact Hok | split; [intros k'; apply cbmap_replace_get, Hin | reflexivity]].
  - pose proof (cbmapget_None_notin m k E) as Hn. unfold cbmap_ok. rewrite cbmap_iter_app.
    split; [apply NoDup_snoc_K; assumption | split; [|reflexivity]].
    intros k'. rewrite cbmapget_app. cbn [cbmapget].
    destruct (keqb_spec k k') as [<-|Hk]; [rewrite E; reflexivity|].
    destruct (cbmapget m k'); reflexivity.
Qed.

(** The buffer of [cbmapputcat] holds the value it stores and its
    terminator: [asiz + 1] bytes for a value of at most [asiz] bytes, with
    less than one unit more than the value needs, a whole one for an
    empty value. *)
Theorem cbmapputcat_alloc_fits (m : bmap) (kbuf : list Z) (ksiz : Z) (vbuf : list Z) (vsiz : Z) :
  match cbmapget (cbmapputcat m kbuf ksiz vbuf vsiz) (region kbuf ksiz) with
  | Some w => zlen w <= cbmapputcat_alloc m kbuf ksiz vbuf vsiz <= zlen w + CB_MAPCBUNIT
  | None => False
  end.
Proof.
  assert (B : forall a, 0 <= a -> a <= cat_alloc a <= a + CB_MAPCBUNIT).
  { intros a Ha. destruct (Z.eq_dec a 0) as [->|Hz]; [cbv; split; discriminate|].
    destruct (cat_alloc_qr a ltac:(lia)) as (q & r & E1 & E2 & ->). unfold cat_unit, CB_MAPCBUNIT in *.
    destruct (a <=? CB_MAPCSUNIT); unfold CB_MAPCSUNIT in *; lia. }
  unfold cbmapputcat, cbmapputcat_alloc. set (k := region kbuf ksiz). set (v := region vbuf vsiz).
  destruct (cbmapget m k) as [old|] eqn:E.
  - rewrite cbmap_replace_get by exact (cbmapget_In m k old E).
    destruct (keqb_spec k k); [|contradiction]. rewrite zlen_app. zlen_facts. apply B. lia.
  - rewrite cbmapget_app, E. cbn [cbmapget]. destruct (keqb_spec k k); [|contradiction]. zlen_facts. apply B. lia.
Qed.

(** The allocation size is computed in [int]: it exceeds [INT_MAX],
    which C leaves undefined, exactly when the value reaches [INT_MAX -
    254] bytes. *)
Theorem cat_alloc_overflow (asiz : Z) :
  1 <= asiz <= INT_MAX -> (INT_MAX < cat_alloc asiz <-> INT_MAX - 254 <= asiz).
Proof.
  intros H. destruct (cat_alloc_qr asiz ltac:(lia)) as (q & r & E1 & E2 & ->).
  unfold cat_unit, INT_MAX, CB_MAPCSUNIT, CB_MAPCBUNIT in *. destruct (Z.leb_spec asiz 64); lia.
Qed.

(** [cbmapdup] of a map with one entry per key is the same map: the same
    entries in the same iteration order. *)
Theorem cbmapdup_id (m : bmap) : cbmap_ok m -> cbmapdup m = m.
Proof. intros Hok. unfold cbmapdup. apply (dup_loop m m []); [exact Hok | exact (get_entries m Hok)]. Qed.

(** ** Witnesses *)

Lemma cat_alloc_overflow_witness : INT_MAX < cat_alloc INT_MAX.
Proof. apply (cat_alloc_overflow INT_MAX); unfold INT_MAX; lia. Defined.

Lemma cbmapdup_id_witness : cbmapdup map_sample = map_sample.
Proof. apply cbmapdup_id, map_sample_ok. Defined.

Lemma cbmapputcat_spec_witness :
  cbmap_iter (cbmapputcat map_sample [107; 50; 0] (-1) [120] 1) = cbmap_iter map_sample.
Proof.
  destruct (cbmapputcat_spec map_sample [107; 50; 0] (-1) [120] 1 map_sample_ok) as (_ & _ & E).
  rewrite E. reflexivity.
Defined.
