(* ===== verification/CbSplit.v ===== *)
(** * CbSplit: splitting a region into a list, and pattern replacement

    [cbsplit] (cabin.c 1263-1291) pushes onto a new [CBLIST] the pieces
    of the region [ptr], [size] between delimiting bytes, and an empty
    piece after a delimiter that ends the region; [cbreplace] (cabin.c
    1219-1259) copies a C string, replacing at each position the first
    key of a map, in iteration order, that starts there by its value.
    The region and the string are read over the memory from the pointer
    ([zread], [c_str] of [CbStr]), so that a read beyond it is [COob].
    The theorems show that [cbsplit] returns the pieces of the region
    between delimiters as a plain split does; that [strchr] also takes
    the zero byte for a delimiter, which the header does not say; and
    that [cbreplace] returns what a leftmost, first-key-wins rewriting
    of the string gives. *)

From Stdlib Require Import ZArith Lia List Bool.
From S2P Require Import Prelude Varint Codec Cache CbList CbStr CbMapSer.
Import ListNotations.
Open Scope Z_scope.
Open Scope vl_scope.

(** ** [cbsplit] *)

(** [strchr(delim, c)] for a [delim] string, true also for the zero
    byte that ends it; [ptr[i] == 0] when [delim] is [NULL]. *)
Definition sp_delim (delim : option (list Z)) (c : Z) : bool :=
  match delim with
  | Some d => (c =? 0) || existsb (Z.eqb c) d
  | None => c =? 0
  end.

(** [while(bi + step < size && !delim(ptr[bi + step])) step++;] with
    [i = bi + step]: the index of the first delimiter at or after [i],
    or [size]. *)
Fixpoint sp_scan (isd : Z -> bool) (m : list Z) (size i : Z) (fuel : nat) : cres Z :=
  match fuel with
  | O => CDone i
  | S f =>
      if i <? size then
        match zread m i with
        | CDone c => if isd c then CDone i else sp_scan isd m size (i + 1) f
        | COob => COob
        | CAbort => CAbort
        end
      else CDone i
  end.

(** [for(bi = 0; bi < size; bi += step)]: push the piece from [bi] to the
    delimiter, then step over it. *)
Fixpoint sp_loop (isd : Z -> bool) (m : list Z) (size bi : Z) (l : CBLIST) (fuel : nat) : cres CBLIST :=
  match fuel with
  | O => CDone l
  | S f =>
      if bi <? size then
        match sp_scan isd m size bi (S (Z.to_nat (size - bi))) with
        | CDone j => sp_loop isd m size (j + 1) (cblistpush l (skipn (Z.to_nat bi) m) (j - bi)) f
        | COob => COob
        | CAbort => CAbort
        end
      else CDone l
  end.

(** [cbsplit]: a negative [size] is [strlen(ptr)]; after the loop, an
    empty element [cblistpush(list, "", 0)] when the last byte of the
    region is a delimiter. *)
Definition cbsplit (m : list Z) (size : Z) (delim : option (list Z)) : cres CBLIST :=
  let isd := sp_delim delim in
  match (if size <? 0 then match c_str m with
                           | CDone s => CDone (zlen s)
                           | COob => COob
                           | CAbort => CAbort
                           end
         else CDone size) with
  | CDone size =>
      match sp_loop isd m size 0 cblistopen (S (Z.to_nat size)) with
      | CDone l =>
          if 0 <? size then
            match zread m (size - 1) with
            | CDone c => CDone (if isd c then cblistpush l [0] 0 else l)
            | COob => COob
            | CAbort => CAbort
            end
          else CDone l
      | COob => COob
      | CAbort => CAbort
      end
  | COob => COob
  | CAbort => CAbort
  end.

(** ** [cbreplace] *)

(** The result of [cbreplace]: the string, a read outside the memory or a
    write outside the buffer ([ROob]), or a loop the bound runs out in
    ([RFuel]). *)
Inductive rres := RDone (out : list Z) | ROob | RFuel.

(** [for(i = 0; i < ksiz; i++){ if(str[i] == '\0' || str[i] != key[i]) break; }]
    and [i == ksiz]: whether the key starts the string [s]. *)
Fixpoint rep_match (s key : list Z) {struct key} : cres bool :=
  match key with
  | [] => CDone true
  | k :: ks =>
      match s with
      | [] => COob
      | c :: s' => if (c =? 0) || negb (c =? k) then CDone false else rep_match s' ks
      end
  end.

(** The inner [while] over the iterator: the first key, in iteration
    order, that starts the string. *)
Fixpoint rep_find (s : list Z) (keys : list (list Z)) : cres (option (list Z)) :=
  match keys with
  | [] => CDone None
  | k :: ks =>
      match rep_match s k with
      | CDone true => CDone (Some k)
      | CDone false => rep_find s ks
      | COob => COob
      | CAbort => CAbort
      end
  end.

(** The outer [while( *str != '\0')] with [out] the [wi] bytes written and
    [bsiz] the size of [buf]; a write is checked against [bsiz]. *)
Fixpoint rep_loop (pairs : bmap) (s out : list Z) (bsiz : Z) (fuel : nat) : rres :=
  match fuel with
  | O => RFuel
  | S f =>
      match s with
      | [] => ROob
      | c :: s' =>
          if c =? 0 then RDone out
          else
            let wi := zlen out in
            match rep_find s (cbmap_iter pairs) with
            | CDone (Some key) =>
                match cbmapget pairs key with
                | Some val =>
                    let vsiz := zlen val in
                    let bsiz := if bsiz <=? wi + vsiz then bsiz * 2 + vsiz else bsiz in
                    if bsiz <? wi + vsiz then ROob
                    else rep_loop pairs (skipn (length key) s) (out ++ val) bsiz f
                | None => ROob
                end
            | CDone None =>
                let bsiz := if bsiz <=? wi + 1 then bsiz * 2 + 1 else bsiz in
                if bsiz <? wi + 1 then ROob
                else rep_loop pairs s' (out ++ [c]) bsiz f
            | COob => ROob
            | CAbort => ROob
            end
      end
  end.

(** [cbreplace] over the memory [m] from [str]; each round consumes a
    byte of the string or a non-empty key, so [length m + 1] rounds
    reach the terminator unless a key is empty. *)
Definition cbreplace (m : list Z) (pairs : bmap) : rres :=
  rep_loop pairs m [] CB_DATUMUNIT (S (length m)).

(** ** Reference split *)

(** The pieces of [s] between the bytes [isd] accepts: [n] delimiters
    give [n + 1] pieces, empty ones included. *)
Fixpoint split_ref (isd : Z -> bool) (s : list Z) : list (list Z) :=
  match s with
  | [] => [[]]
  | c :: r =>
      if isd c then [] :: split_ref isd r
      else match split_ref isd r with
           | p :: ps => (c :: p) :: ps
           | [] => [[c]]
           end
  end.

(** Whether [k] starts [s]. *)
Definition prefixb (k s : list Z) : bool := bytes_eqb (firstn (length k) s) k.

(** Leftmost rewriting: at each position the first pair, in iteration
    order, whose key starts the rest of [s] is replaced by its value;
    otherwise the byte is kept.  [fuel] bounds the rounds. *)
Fixpoint replace_ref (ps : bmap) (s : list Z) (fuel : nat) : list Z :=
  match fuel with
  | O => []
  | S f =>
      match s with
      | [] => []
      | c :: s' =>
          match find (fun e => prefixb (fst e) s) ps with
          | Some (k, v) => v ++ replace_ref ps (skipn (length k) s) f
          | None => c :: replace_ref ps s' f
          end
      end
  end.

(** The bytes from [i] to [size]. *)
Definition sub (m : list Z) (i size : Z) : list Z := firstn (Z.to_nat (size - i)) (skipn (Z.to_nat i) m).

(** The bytes before the first delimiter. *)
Fixpoint piece (isd : Z -> bool) (r : list Z) : list Z :=
  match r with
  | [] => []
  | c :: r' => if isd c then [] else c :: piece isd r'
  end.

(** The empty element pushed after a region that ends with a delimiter. *)
Definition trail (isd : Z -> bool) (r : list Z) : list (list Z) :=
  match r with [] => [] | _ => if isd (last r 0) then [[]] else [] end.

(** ** Lemmas *)

Section SplitFacts.
Context (isd : Z -> bool).

Lemma split_nodelim (p : list Z) : Forall (fun c => isd c = false) p -> split_ref isd p = [p].
Proof. induction 1 as [|c p Hc _ IH]; [reflexivity|]. cbn. rewrite Hc, IH. reflexivity. Qed.

Lemma split_app_delim (p r : list Z) (d : Z) :
  Forall (fun c => isd c = false) p -> isd d = true -> split_ref isd (p ++ d :: r) = p :: split_ref isd r.
Proof. intros Hp Hd. induction Hp as [|c p Hc _ IH]; cbn; [rewrite Hd; reflexivity|]. rewrite Hc, IH. reflexivity. Qed.

(** A region is its first piece, alone or followed by a delimiter. *)
Lemma piece_split (r : list Z) :
  Forall (fun c => isd c = false) (piece isd r) /\
  (r = piece isd r \/ exists d r', r = piece isd r ++ d :: r' /\ isd d = true).
Proof.
  induction r as [|c r (IHf & IH)]; cbn; [split; [constructor | left; reflexivity]|].
  destruct (isd c) eqn:E.
  - split; [constructor | right; exists c, r; split; [reflexivity | exact E]].
  - split; [constructor; assumption|]. destruct IH as [IH|(d & r' & IH & Hd)].
    + left. rewrite <- IH. reflexivity.
    + right. exists d, r'. split; [rewrite IH at 1; reflexivity | exact Hd].
Qed.

Lemma sub_nil (m : list Z) (i size : Z) : size <= i -> sub m i size = [].
Proof. intros H. unfold sub. replace (Z.to_nat (size - i)) with O by lia. reflexivity. Qed.

Lemma sub_cons (m : list Z) (i size : Z) :
  0 <= i < size -> size <= zlen m ->
  zread m i = CDone (nth (Z.to_nat i) m 0) /\ sub m i size = nth (Z.to_nat i) m 0 :: sub m (i + 1) size.
Proof.
  intros Hi Hs. unfold zlen in Hs. unfold zread, sub. vl_test.
  rewrite (nth_error_nth' m 0) by lia. split; [reflexivity|].
  replace (Z.to_nat (size - i)) with (S (Z.to_nat (size - (i + 1)))) by lia.
  replace (Z.to_nat (i + 1)) with (S (Z.to_nat i)) by lia.
  rewrite (skipn_nth_cons m (Z.to_nat i) 0) by lia. reflexivity.
Qed.

Lemma sub_skip (m : list Z) (i size : Z) (k : nat) :
  0 <= i -> skipn k (sub m i size) = sub m (i + Z.of_nat k) size.
Proof.
  intros Hi. unfold sub. rewrite skipn_firstn_comm, skipn_skipn. f_equal; [lia|]. f_equal. lia.
Qed.

Lemma sub_len (m : list Z) (i size : Z) : 0 <= i <= size -> size <= zlen m -> zlen (sub m i size) = size - i.
Proof.
  intros Hi Hs. unfold zlen in *. unfold sub. rewrite length_firstn, length_skipn. lia.
Qed.

Lemma last_app_cons (p r : list Z) (d : Z) : last (p ++ d :: r) 0 = last (d :: r) 0.
Proof. induction p as [|c p IH]; [reflexivity|]. rewrite <- app_comm_cons. cbn [last]. rewrite IH. destruct p; reflexivity. Qed.

Lemma trail_app_cons (p r : list Z) (d : Z) : trail isd (p ++ d :: r) = trail isd (d :: r).
Proof.
  unfold trail at 1. destruct (p ++ d :: r) as [|c0 r0] eqn:E; [destruct p; discriminate|].
  rewrite <- E, last_app_cons. reflexivity.
Qed.

Lemma last_nodelim (p : list Z) : Forall (fun c => isd c = false) p -> p <> [] -> isd (last p 0) = false.
Proof.
  intros H Hn. apply (proj1 (Forall_forall _ _) H). rewrite (app_removelast_last 0 Hn) at 2.
  apply in_or_app. right. left. reflexivity.
Qed.

Lemma region_prefix (x p t : list Z) : x = p ++ t -> region x (zlen p) = p.
Proof. intros ->. exact (region_at [] p t). Qed.

Lemma last_sub (m : list Z) (size : Z) (n : nat) : forall i,
  n = Z.to_nat (size - i) -> 0 <= i < size -> size <= zlen m ->
  last (sub m i size) 0 = nth (Z.to_nat (size - 1)) m 0.
Proof.
  induction n as [|n IH]; intros i En Hi Hs; [lia|].
  destruct (sub_cons m i size Hi Hs) as (_ & ->). destruct (Z.eq_dec (i + 1) size) as [E|E].
  - rewrite sub_nil by lia. cbn. f_equal. lia.
  - rewrite <- (IH (i + 1)) by lia. destruct (sub_cons m (i + 1) size ltac:(lia) Hs) as (_ & ->). reflexivity.
Qed.

Lemma zread_at (m p r : list Z) (c : Z) : m = p ++ c :: r -> zread m (zlen p) = CDone c.
Proof.
  intros ->. replace (p ++ c :: r) with ((p ++ [c]) ++ r) by (rewrite <- app_assoc; reflexivity).
  rewrite zread_app by (rewrite zlen_app, zlen_cons; zlen_facts; lia).
  unfold zlen. rewrite Nat2Z.id, app_nth2, Nat.sub_diag by lia. reflexivity.
Qed.

Section Loops.
Context (m : list Z) (size : Z) (Hsize : size <= zlen m).

Lemma sp_scan_spec (fuel : nat) : forall i,
  0 <= i <= size -> (Z.to_nat (size - i) < fuel)%nat ->
  sp_scan isd m size i fuel = CDone (i + zlen (piece isd (sub m i size))).
Proof.
  induction fuel as [|f IH]; intros i Hi Hf; [lia|]. cbn [sp_scan]. destruct (Z.ltb_spec i size).
  - destruct (sub_cons m i size) as (R & S); [lia | exact Hsize|]. rewrite R, S. cbn [piece].
    destruct (isd _); [rewrite zlen_nil; f_equal; lia|]. rewrite IH by lia. rewrite zlen_cons. f_equal. lia.
  - rewrite sub_nil by lia. cbn [piece]. rewrite zlen_nil. f_equal. lia.
Qed.

Lemma sp_loop_spec (fuel : nat) : forall bi l,
  cl_ok l -> 0 <= bi -> (Z.to_nat (size - bi) < fuel)%nat ->
  exists l', sp_loop isd m size bi l fuel = CDone l' /\ cl_ok l' /\
    cl_view l' ++ trail isd (sub m bi size) =
    cl_view l ++ (if bi <? size then split_ref isd (sub m bi size) else []).
Proof.
  induction fuel as [|f IH]; intros bi l Hl Hbi Hf; [lia|]. cbn [sp_loop].
  destruct (Z.ltb_spec bi size) as [Hlt|Hge];
    [|exists l; rewrite sub_nil by lia; cbn; rewrite !app_nil_r; split; [reflexivity | split; [exact Hl | reflexivity]]].
  rewrite sp_scan_spec by lia. set (r := sub m bi size) in *.
  pose proof (sub_len m bi size ltac:(lia) Hsize) as Hrl. fold r in Hrl.
  destruct (piece_split r) as (Hp & Hr). set (p := piece isd r) in *.
  assert (Hx : skipn (Z.to_nat bi) m = p ++ skipn (length p) r ++ skipn (Z.to_nat (size - bi)) (skipn (Z.to_nat bi) m)).
  { assert (Hpr : r = p ++ skipn (length p) r).
    { destruct Hr as [Hr|(d & r' & Hr & _)]; rewrite Hr at 1 2.
      - rewrite skipn_all, app_nil_r. reflexivity.
      - rewrite skipn_app, skipn_all, Nat.sub_diag. reflexivity. }
    rewrite app_assoc, <- Hpr. exact (eq_sym (firstn_skipn _ _)). }
  replace (bi + zlen p - bi) with (zlen p) by lia. unfold cblistpush. rewrite (region_prefix _ _ _ Hx).
  destruct (pushbuf_sim l p Hl) as (Hl1 & Hv1).
  destruct Hr as [Hr|(d & r' & Hr & Hd)].
  - destruct (IH (bi + zlen p + 1) (cblistpushbuf l p) Hl1 ltac:(zlen_facts; lia) ltac:(zlen_facts; lia)) as (l' & E & Hok & Hv).
    exists l'. rewrite E. split; [reflexivity | split; [exact Hok|]].
    assert (Hpl : zlen p = size - bi) by (rewrite <- Hrl, Hr at 1; reflexivity).
    rewrite sub_nil in Hv by lia. replace (bi + zlen p + 1 <? size) with false in Hv by (symmetry; apply Z.ltb_ge; lia). cbn [trail] in Hv. rewrite !app_nil_r in Hv. rewrite Hv, Hv1.
    clearbody r p. subst r. rewrite split_nodelim by exact Hp. unfold trail.
    destruct p as [|c0 p0]; [cbn in Hrl; lia|]. rewrite (last_nodelim _ Hp) by discriminate.
    rewrite app_nil_r. reflexivity.
  - assert (Hs : sub m (bi + zlen p + 1) size = r').
    { replace (bi + zlen p + 1) with (bi + Z.of_nat (S (length p))) by (unfold zlen; lia).
      rewrite <- sub_skip by lia. fold r. rewrite Hr. rewrite skipn_app, skipn_all2, Nat.sub_succ_l, Nat.sub_diag by lia.
      reflexivity. }
    assert (Hpl : zlen p + 1 + zlen r' = size - bi) by (rewrite <- Hrl, Hr, zlen_app, zlen_cons; lia).
    destruct (IH (bi + zlen p + 1) (cblistpushbuf l p) Hl1 ltac:(zlen_facts; lia) ltac:(zlen_facts; lia)) as (l' & E & Hok & Hv).
    exists l'. rewrite E. split; [reflexivity | split; [exact Hok|]]. rewrite Hs in Hv. rewrite Hv1 in Hv.
    rewrite Hr, (split_app_delim p r' d Hp Hd), trail_app_cons.
    destruct r' as [|c' r''].
    + replace (bi + zlen p + 1 <? size) with false in Hv by (symmetry; apply Z.ltb_ge; rewrite zlen_nil in Hpl; lia).
      cbn [trail last] in Hv |- *. rewrite !app_nil_r in Hv. rewrite Hd, Hv, <- app_assoc. reflexivity.
    + replace (bi + zlen p + 1 <? size) with true in Hv by (symmetry; apply Z.ltb_lt; rewrite zlen_cons in Hpl; zlen_facts; lia).
      rewrite <- app_assoc in Hv. exact Hv.
Qed.

End Loops.

End SplitFacts.

Section ReplaceFacts.

Lemma rep_match_prefix (k s t : list Z) :
  Forall (fun b => b <> 0) s -> rep_match (s ++ 0 :: t) k = CDone (prefixb k s).
Proof.
  revert s. induction k as [|x k IH]; intros s Hs; unfold prefixb;
    [cbn; destruct (bytes_eqb_spec [] []); [reflexivity | congruence]|].
  destruct s as [|c s'].
  - cbn. destruct (bytes_eqb_spec [] (x :: k)); [discriminate | reflexivity].
  - apply Forall_cons_iff in Hs as (Hc & Hs). cbn [app rep_match length firstn].
    destruct (Z.eqb_spec c 0); [contradiction|]. destruct (Z.eqb_spec c x) as [<-|Hx]; cbn [orb negb].
    + rewrite IH by exact Hs. unfold prefixb.
      destruct (bytes_eqb_spec (firstn (length k) s') k), (bytes_eqb_spec (c :: firstn (length k) s') (c :: k));
        congruence.
    + destruct (bytes_eqb_spec (c :: firstn (length k) s') (x :: k)); [congruence | reflexivity].
Qed.

Lemma rep_find_spec (s t : list Z) (keys : list (list Z)) :
  Forall (fun b => b <> 0) s -> rep_find (s ++ 0 :: t) keys = CDone (find (fun k => prefixb k s) keys).
Proof.
  intros Hs. induction keys as [|k keys IH]; [reflexivity|]. cbn [rep_find find].
  rewrite rep_match_prefix by exact Hs. destruct (prefixb k s); [reflexivity | exact IH].
Qed.

Lemma find_iter (p : list Z -> bool) (ps : bmap) :
  find p (cbmap_iter ps) = option_map fst (find (fun e => p (fst e)) ps).
Proof. induction ps as [|[k v] ps IH]; [reflexivity|]. cbn. destruct (p k); [reflexivity | exact IH]. Qed.

Lemma prefixb_split (k s : list Z) :
  prefixb k s = true -> (length k <= length s)%nat /\ s = k ++ skipn (length k) s.
Proof.
  unfold prefixb. destruct (bytes_eqb_spec (firstn (length k) s) k) as [E|]; [intros _|discriminate].
  split; [rewrite <- E, length_firstn; lia|].
  rewrite <- (firstn_skipn (length k) s) at 1. rewrite E. reflexivity.
Qed.

Lemma Forall_skipn_nz (n : nat) (s : list Z) :
  Forall (fun b => b <> 0) s -> Forall (fun b => b <> 0) (skipn n s).
Proof. revert s. induction n as [|n IH]; intros [|c s] H; cbn; auto. apply IH. inversion H; assumption. Qed.

(** The buffer growth of [cbreplace] keeps room for the next write. *)
Lemma grow_room (bsiz wi n : Z) :
  0 <= wi < bsiz -> 0 <= n -> wi + n < (if bsiz <=? wi + n then bsiz * 2 + n else bsiz).
Proof. intros H Hn. destruct (Z.leb_spec bsiz (wi + n)); lia. Qed.

Context (pairs : bmap) (Hok : cbmap_ok pairs) (Hne : Forall (fun k => k <> []) (cbmap_iter pairs)).

Lemma found_entry (s : list Z) (k v : list Z) :
  find (fun e => prefixb (fst e) s) pairs = Some (k, v) ->
  cbmapget pairs k = Some v /\ k <> [] /\ (length k <= length s)%nat /\ s = k ++ skipn (length k) s.
Proof.
  intros E. apply find_some in E as (Hin & Hp). cbn [fst] in Hp.
  split; [exact (proj1 (Forall_forall _ _) (get_entries pairs Hok) (k, v) Hin)|].
  split; [exact (proj1 (Forall_forall _ _) Hne k (in_map fst _ _ Hin))|]. apply prefixb_split, Hp.
Qed.

Lemma replace_ref_fuel (f1 : nat) : forall f2 s,
  (length s <= f1)%nat -> (length s <= f2)%nat -> replace_ref pairs s f1 = replace_ref pairs s f2.
Proof.
  induction f1 as [|f1 IH]; intros [|f2] [|c s'] H1 H2; cbn [length] in *; try lia; try reflexivity.
  cbn [replace_ref]. destruct (find _ pairs) as [[k v]|] eqn:E.
  - destruct (found_entry _ k v E) as (_ & Hk & Hl & _). f_equal. apply IH; rewrite length_skipn; (destruct k; [congruence | cbn in *; lia]).
  - f_equal. apply IH; lia.
Qed.

Lemma rep_loop_spec (f : nat) : forall s t out bsiz,
  Forall (fun b => b <> 0) s -> 0 <= zlen out < bsiz -> (length s <= f)%nat ->
  rep_loop pairs (s ++ 0 :: t) out bsiz (S f) = RDone (out ++ replace_ref pairs s f).
Proof.
  induction f as [|f IH]; intros [|c s'] t out bsiz Hs Hb Hf; cbn [length] in Hf; try lia;
    try (cbn; rewrite app_nil_r; reflexivity).
  pose proof Hs as Hs0. apply Forall_cons_iff in Hs as (Hc & Hs). remember (S f) as g eqn:Eg.
  cbn [rep_loop app]. subst g.
  destruct (Z.eqb_spec c 0); [contradiction|].
  change (c :: s' ++ 0 :: t) with ((c :: s') ++ 0 :: t). rewrite rep_find_spec, find_iter by exact Hs0.
  cbn [replace_ref]. destruct (find _ pairs) as [[k v]|] eqn:E; cbn [option_map fst].
  - destruct (found_entry _ k v E) as (Hg & Hk & Hl & Hsp). rewrite Hg.
    pose proof (grow_room bsiz (zlen out) (zlen v) Hb (zlen_nonneg v)). vl_test.
    rewrite skipn_app, (proj2 (Nat.sub_0_le _ _) Hl). cbn [skipn].
    rewrite IH; [rewrite <- app_assoc; reflexivity | apply Forall_skipn_nz, Hs0 | rewrite zlen_app; zlen_facts; lia|].
    rewrite length_skipn. destruct k; [congruence | cbn in *; lia].
  - pose proof (grow_room bsiz (zlen out) 1 Hb ltac:(lia)). vl_test.
    rewrite IH; [rewrite <- app_assoc; reflexivity | exact Hs | | lia].
    autorewrite with vl_rw. zlen_facts. lia.
Qed.

End ReplaceFacts.

(** ** Theorems *)

(** [cbsplit] of a region inside the memory returns a well-formed list
    of the pieces of the region between delimiting bytes, as [split_ref]
    cuts them (successive delimiters give an empty element between
    them), and the empty list for an empty region. *)
Theorem cbsplit_spec (m : list Z) (size : Z) (delim : option (list Z)) :
  0 <= size <= zlen m ->
  exists l, cbsplit m size delim = CDone l /\ cl_ok l /\
    cl_view l = if size =? 0 then [] else split_ref (sp_delim delim) (firstn (Z.to_nat size) m).
Proof.
  intros Hs. unfold cbsplit. vl_test.
  destruct (sp_loop_spec (sp_delim delim) m size ltac:(lia) (S (Z.to_nat size)) 0 cblistopen cblistopen_ok
              ltac:(lia) ltac:(lia)) as (l & E & Hok & Hv).
  rewrite E. rewrite cblistopen_view in Hv. cbn [app] in Hv.
  assert (Hsub : sub m 0 size = firstn (Z.to_nat size) m) by (unfold sub; f_equal; lia).
  destruct (Z.ltb_spec 0 size).
  - destruct (sub_cons m (size - 1) size ltac:(lia) ltac:(lia)) as (R & _). rewrite R. vl_test.
    rewrite <- (last_sub m size (Z.to_nat (size - 0)) 0 eq_refl ltac:(lia) ltac:(lia)).
    destruct (sub m 0 size) eqn:Es; [rewrite <- Hsub in *; unfold sub in Es; apply (f_equal (@length Z)) in Es;
      rewrite length_firstn in Es; unfold zlen in Hs; cbn in Es; lia|].
    cbn [trail] in Hv. rewrite <- Es in *. rewrite Hsub in Hv |- *.
    destruct (sp_delim delim _); eexists; (split; [reflexivity|]).
    + unfold cblistpush. destruct (pushbuf_sim l (region [0] 0) Hok) as (A & B). split; [exact A|]. rewrite B.
      exact Hv.
    + split; [exact Hok|]. rewrite app_nil_r in Hv. exact Hv.
  - exists l. split; [reflexivity | split; [exact Hok|]]. replace size with 0 in * by lia.
    rewrite sub_nil in Hv by lia. cbn in Hv. rewrite app_nil_r in Hv. exact Hv.
Qed.

(** [cbsplit] takes the zero byte for a delimiter whatever [delim] holds,
    as [strchr] finds the terminator of [delim]: the region "a\0b" split
    at commas gives two pieces, though the header speaks only of the
    delimiting characters of the string. *)
Theorem cbsplit_zero_delimits (delim : list Z) (a b : Z) :
  sp_delim (Some delim) a = false -> sp_delim (Some delim) b = false ->
  exists l, cbsplit [a; 0; b] 3 (Some delim) = CDone l /\ cl_view l = [[a]; [b]].
Proof.
  intros Da Db. destruct (cbsplit_spec [a; 0; b] 3 (Some delim) ltac:(cbn; lia)) as (l & E & _ & Hv).
  exists l. split; [exact E|]. rewrite Hv. change (firstn (Z.to_nat 3) [a; 0; b]) with [a; 0; b].
  cbn [split_ref]. rewrite Da, Db. reflexivity.
Qed.

(** [cbreplace] of a C string, with a map that has one entry per key and
    no empty key, ends and returns the leftmost, first-key-wins rewriting
    of the string; no write leaves the buffer it grows. *)
Theorem cbreplace_spec (pairs : bmap) (s t : list Z) :
  cbmap_ok pairs -> Forall (fun k => k <> []) (cbmap_iter pairs) -> Forall (fun b => b <> 0) s ->
  cbreplace (s ++ 0 :: t) pairs = RDone (replace_ref pairs s (length s)).
Proof.
  intros Hok Hne Hs. unfold cbreplace. rewrite length_app. cbn [length].
  replace (S (length s + S (length t))) with (S (length s + S (length t))) by reflexivity.
  rewrite (rep_loop_spec pairs Hok Hne (length s + S (length t)) s t [] CB_DATUMUNIT Hs ltac:(unfold CB_DATUMUNIT; cbn; lia) ltac:(lia)).
  f_equal. apply (replace_ref_fuel pairs Hok Hne); lia.
Qed.

(** An empty key makes [cbreplace] loop forever: when it comes first in
    iteration order it matches at every position and [str] advances by
    its length, zero, while the buffer grows; the model runs out of any
    bound. *)
Theorem cbreplace_empty_key_loops (v : list Z) (ps : bmap) (c : Z) (s out : list Z) (bsiz : Z) (fuel : nat) :
  c <> 0 -> 0 <= zlen out < bsiz -> rep_loop (([], v) :: ps) (c :: s) out bsiz fuel = RFuel.
Proof.
  revert out bsiz. induction fuel as [|f IH]; intros out bsiz Hc Hb; [reflexivity|].
  cbn [rep_loop]. destruct (Z.eqb_spec c 0); [contradiction|]. cbn [cbmap_iter map fst rep_find rep_match cbmapget].
  destruct (keqb_spec (@nil Z) []); [|contradiction].
  pose proof (grow_room bsiz (zlen out) (zlen v) Hb (zlen_nonneg v)). vl_test.
  apply IH; [exact Hc|]. rewrite zlen_app. zlen_facts. lia.
Qed.

(** ** Witnesses *)

Lemma cbsplit_spec_witness :
  exists l, cbsplit [97; 44; 44; 98; 44; 0] 5 (Some [44]) = CDone l /\ cl_ok l /\
            cl_view l = [[97]; []; [98]; []].
Proof.
  destruct (cbsplit_spec [97; 44; 44; 98; 44; 0] 5 (Some [44]) ltac:(cbn; lia)) as (l & E & Hok & Hv).
  exists l. split; [exact E | split; [exact Hok | rewrite Hv; reflexivity]].
Defined.

Lemma cbsplit_zero_delimits_witness :
  exists l, cbsplit [97; 0; 98] 3 (Some [44]) = CDone l /\ cl_view l = [[97]; [98]].
Proof. apply cbsplit_zero_delimits; reflexivity. Defined.

Definition rep_pairs : bmap := [([97; 98], [120]); ([97], [121; 121]); ([98], [])].

Lemma cbreplace_spec_witness :
  cbreplace [97; 98; 97; 99; 98; 0; 7] rep_pairs = RDone [120; 121; 121; 99].
Proof.
  change [97; 98; 97; 99; 98; 0; 7] with ([97; 98; 97; 99; 98] ++ 0 :: [7]).
  rewrite (cbreplace_spec rep_pairs [97; 98; 97; 99; 98] [7]).
  - reflexivity.
  - unfold cbmap_ok, rep_pairs. cbn. repeat constructor; cbn; intuition discriminate.
  - repeat constructor; discriminate.
  - repeat constructor; discriminate.
Defined.

Lemma cbreplace_empty_key_loops_witness : cbreplace [97; 0] [([], [120])] = RFuel.
Proof. apply cbreplace_empty_key_loops; [discriminate | unfold CB_DATUMUNIT; cbn; lia]. Defined.
