(* ===== verification/CbCsv.v ===== *)
(** * CbCsv: breaking CSV text into rows and a row into cells

    [cbcsvrows] (cabin.c 1938-1961) pushes onto a new [CBLIST] the rows of
    a C string, cut at each carriage return, line feed or CR LF outside
    double quotes, with a last row when bytes follow the last break;
    [cbcsvcells] (cabin.c 1965-1995) cuts a row at each comma outside
    double quotes and pushes the cells, each unescaped by
    [cbcsvunescape] of [CbCodec], onto a second list.  The string is read
    over the memory from the pointer ([zread] of [CbStr]), so that a read
    past it is [COob]; a cell of the first list is the element
    [cblistval] returns, followed by the zero [cblistpush] wrote after
    it.  The theorems show that rows ending with a line break, their
    quotes paired, come back one by one; that the cells [cbcsvescape]
    writes, joined with commas, come back one by one; and that a row
    whose last cell is a lone double quote makes [cbcsvcells] write past
    a buffer, as the [cbcsvunescape] it calls does. *)

From Stdlib Require Import ZArith Lia List Bool.
From S2P Require Import Prelude Varint Codec Cache CbList CbCodec CbStr CbMapSer CbSplit.
Import ListNotations.
Open Scope Z_scope.
Open Scope vl_scope.

(** ** Definitions *)

(** A double quote (34) flips [quoted], as the first test of each round does. *)
Definition toggle (c : Z) (quoted : bool) : bool := if c =? 34 then negb quoted else quoted.

(** The [while(TRUE)] loop of [cbcsvrows] with [pv] and [str] as offsets
    [pv] and [i] into the memory [m]; each round moves [str] on. *)
Fixpoint rows_loop (m : list Z) (pv i : Z) (quoted : bool) (l : CBLIST) (fuel : nat) : cres CBLIST :=
  match fuel with
  | O => CDone l
  | S f =>
      match zread m i with
      | CDone c =>
          let quoted := toggle c quoted in
          if negb quoted && ((c =? 13) || (c =? 10)) then
            let l := cblistpush l (skipn (Z.to_nat pv) m) (i - pv) in
            match (if c =? 13 then zread m (i + 1) else CDone 0) with
            | CDone c1 =>
                let i := if (c =? 13) && (c1 =? 10) then i + 1 else i in
                rows_loop m (i + 1) (i + 1) quoted l f
            | COob => COob
            | CAbort => CAbort
            end
          else if c =? 0 then CDone (if pv <? i then cblistpush l (skipn (Z.to_nat pv) m) (i - pv) else l)
          else rows_loop m pv (i + 1) quoted l f
      | COob => COob
      | CAbort => CAbort
      end
  end.

(** [cbcsvrows] over the memory from [str]. *)
Definition cbcsvrows (m : list Z) : cres CBLIST := rows_loop m 0 0 false cblistopen (S (length m)).

(** The [while(TRUE)] loop of [cbcsvcells]. *)
Fixpoint cells_loop (m : list Z) (pv i : Z) (quoted : bool) (l : CBLIST) (fuel : nat) : cres CBLIST :=
  match fuel with
  | O => CDone l
  | S f =>
      match zread m i with
      | CDone c =>
          let quoted := toggle c quoted in
          if negb quoted && (c =? 44) then
            cells_loop m (i + 1) (i + 1) quoted (cblistpush l (skipn (Z.to_nat pv) m) (i - pv)) f
          else if c =? 0 then CDone (cblistpush l (skipn (Z.to_nat pv) m) (i - pv))
          else cells_loop m pv (i + 1) quoted l f
      | COob => COob
      | CAbort => CAbort
      end
  end.

(** The [for] loop of [cbcsvcells] over the cells: [cbcsvunescape] of the
    element with its terminating zero, pushed with [strlen]. *)
Fixpoint unescape_loop (lst : CBLIST) (n i : nat) (ue : CBLIST) : cres CBLIST :=
  match n with
  | O => CDone ue
  | S n' =>
      match cblistval lst i with
      | Some v =>
          match cbcsvunescape (v ++ [0]) with
          | CDone tmp => unescape_loop lst n' (S i) (cblistpush ue (tmp ++ [0]) (-1))
          | COob => COob
          | CAbort => CAbort
          end
      | None => CAbort
      end
  end.

(** [cbcsvcells] over the memory from [str]. *)
Definition cbcsvcells (m : list Z) : cres CBLIST :=
  match cells_loop m 0 0 false cblistopen (S (length m)) with
  | CDone lst => unescape_loop lst (cblistnum lst) 0 cblistopen
  | COob => COob
  | CAbort => CAbort
  end.

(** ** Rows and cells as the writer lays them out *)

(** The quotes of a row pair up. *)
Definition quotes_paired (r : list Z) : bool := Nat.even (length (filter (Z.eqb 34) r)).

(** A row the theorems write: no zero, carriage return or line feed, its
    quotes paired, ended by a line feed or CR LF. *)
Definition row_ok (e : list Z * list Z) : Prop :=
  Forall (fun c => c <> 0 /\ c <> 10 /\ c <> 13) (fst e) /\ quotes_paired (fst e) = true /\
  (snd e = [10] \/ snd e = [13; 10]).

(** Whether the bytes of [r], read from the state [q], hold no zero and
    no comma outside quotes, so that the cell loop goes through them. *)
Fixpoint cell_bytes_ok (q : bool) (r : list Z) : bool :=
  match r with
  | [] => true
  | c :: r' => let q' := toggle c q in (q' || negb (c =? 44)) && negb (c =? 0) && cell_bytes_ok q' r'
  end.

(** A row of cells as [cbcsvescape] writes each, joined by commas. *)
Definition csv_row (c0 : list Z) (cs : list (list Z)) : list Z :=
  cbcsvescape c0 ++ flat_map (fun c => 44 :: cbcsvescape c) cs.

(** ** Lemmas *)

Section CsvFacts.

Lemma toggle_fold (r : list Z) : forall q,
  fold_left (fun q c => toggle c q) r q = if quotes_paired r then q else negb q.
Proof.
  unfold quotes_paired. induction r as [|c r IH]; intros q; [reflexivity|]. cbn [fold_left filter].
  rewrite IH. unfold toggle. destruct (Z.eqb_spec c 34) as [->|Hc].
  - rewrite Z.eqb_refl. cbn [length]. rewrite Nat.even_succ, <- Nat.negb_even.
    destruct (Nat.even _), q; reflexivity.
  - rewrite (proj2 (Z.eqb_neq 34 c)) by congruence. reflexivity.
Qed.

Lemma rows_scan (m p r rest : list Z) (pv : Z) (q : bool) (l : CBLIST) (f : nat) :
  m = p ++ r ++ rest -> Forall (fun c => c <> 0 /\ c <> 10 /\ c <> 13) r ->
  rows_loop m pv (zlen p) q l (length r + f) =
  rows_loop m pv (zlen p + zlen r) (fold_left (fun q c => toggle c q) r q) l f.
Proof.
  revert p q. induction r as [|c r IH]; intros p q Hm Hr; [rewrite zlen_nil, Z.add_0_r; reflexivity|].
  apply Forall_cons_iff in Hr as ((H0 & H10 & H13) & Hr). cbn [length Nat.add rows_loop fold_left].
  rewrite (zread_at m p (r ++ rest) c Hm).
  destruct (Z.eqb_spec c 13); [contradiction|]. destruct (Z.eqb_spec c 10); [contradiction|].
  destruct (Z.eqb_spec c 0); [contradiction|]. rewrite andb_false_r. cbn [negb].
  replace (zlen p + 1) with (zlen (p ++ [c])) by (rewrite zlen_app, zlen_cons, zlen_nil; lia).
  rewrite IH by (try rewrite Hm, <- app_assoc; auto). autorewrite with vl_rw. f_equal. lia.
Qed.

Lemma rows_one (m p rest : list Z) (e : list Z * list Z) (l : CBLIST) (f : nat) :
  m = p ++ (fst e ++ snd e) ++ rest -> row_ok e -> cl_ok l ->
  rows_loop m (zlen p) (zlen p) false l (length (fst e) + S f) =
  rows_loop m (zlen (p ++ fst e ++ snd e)) (zlen (p ++ fst e ++ snd e)) false (cblistpushbuf l (fst e)) f.
Proof.
  destruct e as [r sep]. intros Hm (Hr & Hq & Hs) Hl. cbn [fst snd] in *.
  rewrite (rows_scan m p r (sep ++ rest)) by (try rewrite Hm, <- app_assoc; auto).
  rewrite toggle_fold, Hq. cbn [rows_loop].
  assert (Hm' : m = (p ++ r) ++ sep ++ rest) by (rewrite Hm, <- !app_assoc; reflexivity).
  unfold cblistpush. replace (zlen p + zlen r - zlen p) with (zlen r) by lia.
  replace (skipn (Z.to_nat (zlen p)) m) with (r ++ sep ++ rest)
    by (rewrite Hm, <- app_assoc; unfold zlen; rewrite Nat2Z.id, skipn_app, skipn_all, Nat.sub_diag; reflexivity).
  rewrite (region_prefix _ r (sep ++ rest) eq_refl).
  rewrite <- zlen_app. destruct Hs as [->| ->].
  - rewrite (zread_at m (p ++ r) rest 10 Hm'). unfold toggle. cbn [Z.eqb Pos.eqb negb andb orb].
    f_equal; autorewrite with vl_rw; lia.
  - rewrite (zread_at m (p ++ r) (10 :: rest) 13 Hm'). unfold toggle. cbn [Z.eqb Pos.eqb negb andb orb].
    replace (zlen (p ++ r) + 1) with (zlen ((p ++ r) ++ [13])) by (autorewrite with vl_rw; lia).
    rewrite (zread_at m ((p ++ r) ++ [13]) rest 10) by (rewrite Hm', <- !app_assoc; reflexivity).
    cbn [Z.eqb Pos.eqb andb]. f_equal; autorewrite with vl_rw; lia.
Qed.

Lemma rows_all (m t lastr : list Z) (rows : list (list Z * list Z)) : forall p l F,
  m = p ++ flat_map (fun e => fst e ++ snd e) rows ++ lastr ++ 0 :: t ->
  Forall row_ok rows -> Forall (fun c => c <> 0 /\ c <> 10 /\ c <> 13) lastr -> cl_ok l ->
  (length (flat_map (fun e => fst e ++ snd e) rows) + length lastr < F)%nat ->
  exists l', rows_loop m (zlen p) (zlen p) false l F = CDone l' /\ cl_ok l' /\
    cl_view l' = cl_view l ++ map fst rows ++ match lastr with [] => [] | _ => [lastr] end.
Proof.
  induction rows as [|e rows IH]; intros p l F Hm Hrows Hlast Hl HF; cbn [flat_map map length] in *.
  - replace F with (length lastr + S (F - length lastr - 1))%nat by lia.
    rewrite (rows_scan m p lastr (0 :: t)) by (try rewrite Hm; auto). cbn [rows_loop].
    rewrite <- zlen_app, (zread_at m (p ++ lastr) t 0) by (rewrite Hm, <- app_assoc; reflexivity).
    unfold toggle. cbn [Z.eqb negb andb orb]. rewrite andb_false_r. rewrite zlen_app.
    destruct lastr as [|c r].
    + exists l. rewrite zlen_nil, Z.add_0_r, Z.ltb_irrefl, !app_nil_r. split; [reflexivity | split; [exact Hl | reflexivity]].
    + rewrite zlen_cons. zlen_facts. vl_test. replace (zlen p + (1 + zlen r) - zlen p) with (zlen (c :: r)) by (rewrite zlen_cons; lia).
      unfold cblistpush.
      rewrite (region_prefix _ (c :: r) (0 :: t))
        by (rewrite Hm; unfold zlen; rewrite Nat2Z.id, skipn_app, skipn_all, Nat.sub_diag; reflexivity).
      destruct (pushbuf_sim l (c :: r) Hl) as (A & B). eexists; split; [reflexivity|]. split; [exact A | rewrite B; reflexivity].
  - apply Forall_cons_iff in Hrows as (He & Hrows). rewrite !length_app in HF.
    assert (Hs1 : (1 <= length (snd e))%nat) by (destruct He as (_ & _ & [-> | ->]); cbn; lia).
    replace F with (length (fst e) + S (F - length (fst e) - 1))%nat by lia.
    rewrite (rows_one m p (flat_map (fun e => fst e ++ snd e) rows ++ lastr ++ 0 :: t) e l)
      by (try rewrite Hm, <- app_assoc; auto).
    destruct (pushbuf_sim l (fst e) Hl) as (A & B).
    destruct (IH (p ++ fst e ++ snd e) (cblistpushbuf l (fst e)) ((F - length (fst e) - 1)%nat)) as (l' & E & Hok & Hv);
      [rewrite Hm, <- !app_assoc; reflexivity | exact Hrows | exact Hlast | exact A | lia |].
    exists l'. rewrite E. split; [reflexivity | split; [exact Hok | rewrite Hv, B, <- app_assoc; reflexivity]].
Qed.

Lemma cblistval_view (l : CBLIST) (i : nat) : cblistval l i = nth_error (cl_view l) i.
Proof.
  unfold cblistval. rewrite nth_error_view.
  destruct (Nat.leb_spec (cl_num l) i), (Nat.ltb_spec i (cl_num l)); try lia; reflexivity.
Qed.

Lemma take_cstr_all (c : list Z) : Forall (fun b => b <> 0) c -> take_cstr c = c.
Proof. induction 1 as [|b c Hb _ IH]; [reflexivity|]. cbn. destruct (Z.eqb_spec b 0); [contradiction|]. rewrite IH. reflexivity. Qed.

Lemma cells_scan (m p r rest : list Z) (pv : Z) (q : bool) (l : CBLIST) (f : nat) :
  m = p ++ r ++ rest -> cell_bytes_ok q r = true ->
  cells_loop m pv (zlen p) q l (length r + f) =
  cells_loop m pv (zlen p + zlen r) (fold_left (fun q c => toggle c q) r q) l f.
Proof.
  revert p q. induction r as [|c r IH]; intros p q Hm Hr; [rewrite zlen_nil, Z.add_0_r; reflexivity|].
  cbn [cell_bytes_ok] in Hr. apply andb_prop in Hr as (Hr1 & Hr). apply andb_prop in Hr1 as (Hc & H0).
  cbn [length Nat.add cells_loop fold_left]. rewrite (zread_at m p (r ++ rest) c Hm).
  destruct (toggle c q); cbn [negb andb orb] in Hc |- *; [|destruct (c =? 44); [discriminate|]; cbn [andb]];
    destruct (c =? 0); try discriminate;
    replace (zlen p + 1) with (zlen (p ++ [c])) by (autorewrite with vl_rw; lia);
    (rewrite IH by (try rewrite Hm, <- app_assoc; auto)); autorewrite with vl_rw; f_equal; lia.
Qed.

(** The cell loop goes through an escaped field, quotes paired. *)
Lemma escape_bytes_ok (c : list Z) :
  Forall (fun b => b <> 0) c ->
  cell_bytes_ok false (cbcsvescape c) = true /\ fold_left (fun q b => toggle b q) (cbcsvescape c) false = false.
Proof.
  intros Hc. unfold cbcsvescape. rewrite take_cstr_all by exact Hc.
  assert (K : forall q, q = true -> forall d, Forall (fun b => b <> 0) d ->
            cell_bytes_ok q (flat_map (fun c => if c =? 34 then [34; 34] else [c]) d ++ [34]) = true /\
            fold_left (fun q b => toggle b q) (flat_map (fun c => if c =? 34 then [34; 34] else [c]) d ++ [34]) q = false).
  { intros q -> d Hd. induction Hd as [|b d Hb _ IH]; [split; reflexivity|].
    cbn [flat_map]. destruct (Z.eqb_spec b 34) as [->|Hb34]; rewrite <- app_assoc; [exact IH|].
    cbn [app cell_bytes_ok fold_left].
    assert (T : toggle b true = true) by (unfold toggle; rewrite (proj2 (Z.eqb_neq b 34) Hb34); reflexivity).
    rewrite T. destruct (Z.eqb_spec b 0); [contradiction|]. cbn [orb andb negb]. exact IH. }
  destruct (K true eq_refl c Hc) as (A & B). split; [exact A | exact B].
Qed.

Lemma unescape_all (lst : CBLIST) (cells : list (list Z)) : forall i ue,
  cl_ok ue -> (forall k, nth_error (cl_view lst) (i + k) = nth_error (map cbcsvescape cells) k) ->
  Forall (Forall (fun b => b <> 0)) cells ->
  exists ue', unescape_loop lst (length cells) i ue = CDone ue' /\ cl_ok ue' /\ cl_view ue' = cl_view ue ++ cells.
Proof.
  induction cells as [|c cells IH]; intros i ue Hue Hv Hc.
  - exists ue. rewrite app_nil_r. split; [reflexivity | split; [exact Hue | reflexivity]].
  - apply Forall_cons_iff in Hc as (Hc & Hcs). cbn [length unescape_loop].
    rewrite cblistval_view. specialize (Hv 0%nat) as Hv0. rewrite Nat.add_0_r in Hv0. rewrite Hv0. cbn [map nth_error].
    rewrite csv_unescape_escape, take_cstr_all by exact Hc.
    unfold cblistpush. replace (region (c ++ [0]) (-1)) with c
      by (unfold region, datum_at; cbn; rewrite take_cstr_app; [reflexivity | exact Hc]).
    destruct (pushbuf_sim ue c Hue) as (A & B).
    destruct (IH (S i) (cblistpushbuf ue c) A) as (ue' & E & Hok & Hw); [|exact Hcs|].
    + intros k. replace (S i + k)%nat with (i + S k)%nat by lia. rewrite Hv. reflexivity.
    + exists ue'. rewrite E, Hw, B, <- app_assoc. split; [reflexivity | split; [exact Hok | reflexivity]].
Qed.

Lemma cells_one (m p rest : list Z) (c0 : list Z) (l : CBLIST) (f : nat) :
  m = p ++ cbcsvescape c0 ++ rest -> Forall (fun b => b <> 0) c0 ->
  cells_loop m (zlen p) (zlen p) false l (length (cbcsvescape c0) + f) =
  cells_loop m (zlen p) (zlen (p ++ cbcsvescape c0)) false l f.
Proof.
  intros Hm Hc. destruct (escape_bytes_ok c0 Hc) as (Ok & Fq).
  rewrite (cells_scan m p (cbcsvescape c0) rest) by assumption. rewrite Fq, zlen_app. reflexivity.
Qed.

Lemma push_escaped (m p rest : list Z) (c0 : list Z) (l : CBLIST) :
  m = p ++ cbcsvescape c0 ++ rest ->
  cblistpush l (skipn (Z.to_nat (zlen p)) m) (zlen (p ++ cbcsvescape c0) - zlen p) = cblistpushbuf l (cbcsvescape c0).
Proof.
  intros Hm. unfold cblistpush. rewrite zlen_app. replace (zlen p + _ - zlen p) with (zlen (cbcsvescape c0)) by lia.
  rewrite (region_prefix _ (cbcsvescape c0) rest); [reflexivity|].
  rewrite Hm. unfold zlen. rewrite Nat2Z.id, skipn_app, skipn_all, Nat.sub_diag. reflexivity.
Qed.

Lemma cells_all (m t : list Z) (cs : list (list Z)) : forall p c0 l F,
  m = p ++ csv_row c0 cs ++ 0 :: t -> Forall (Forall (fun b => b <> 0)) (c0 :: cs) -> cl_ok l ->
  (length (csv_row c0 cs) < F)%nat ->
  exists l', cells_loop m (zlen p) (zlen p) false l F = CDone l' /\ cl_ok l' /\
             cl_view l' = cl_view l ++ map cbcsvescape (c0 :: cs).
Proof.
  induction cs as [|c1 cs IH]; intros p c0 l F Hm Hc Hl HF; apply Forall_cons_iff in Hc as (Hc0 & Hcs);
    unfold csv_row in *; cbn [flat_map] in *; rewrite ?app_nil_r in *; rewrite ?length_app in HF.
  - replace F with (length (cbcsvescape c0) + S (F - length (cbcsvescape c0) - 1))%nat by lia.
    rewrite (cells_one m p (0 :: t)) by assumption. cbn [cells_loop].
    rewrite (zread_at m (p ++ cbcsvescape c0) t 0) by (rewrite Hm, <- app_assoc; reflexivity). cbn.
    rewrite (push_escaped m p (0 :: t)) by exact Hm.
    destruct (pushbuf_sim l (cbcsvescape c0) Hl) as (A & B). eexists; split; [reflexivity | split; [exact A | exact B]].
  - cbn [length] in HF. apply Forall_cons_iff in Hcs as (Hc1 & Hcs).
    replace F with (length (cbcsvescape c0) + S (F - length (cbcsvescape c0) - 1))%nat by lia.
    set (rest := flat_map (fun c => 44 :: cbcsvescape c) cs) in *.
    rewrite (cells_one m p (44 :: cbcsvescape c1 ++ rest ++ 0 :: t)) by (try rewrite Hm, <- !app_assoc; auto).
    cbn [cells_loop].
    rewrite (zread_at m (p ++ cbcsvescape c0) (cbcsvescape c1 ++ rest ++ 0 :: t) 44)
      by (rewrite Hm, <- !app_assoc; reflexivity). cbn [toggle Z.eqb Pos.eqb negb andb].
    rewrite (push_escaped m p (44 :: cbcsvescape c1 ++ rest ++ 0 :: t)) by (rewrite Hm, <- !app_assoc; reflexivity).
    destruct (pushbuf_sim l (cbcsvescape c0) Hl) as (A & B).
    replace (zlen (p ++ cbcsvescape c0) + 1) with (zlen (p ++ cbcsvescape c0 ++ [44])) by (autorewrite with vl_rw; lia).
    destruct (IH (p ++ cbcsvescape c0 ++ [44]) c1 (cblistpushbuf l (cbcsvescape c0)) (F - length (cbcsvescape c0) - 1)%nat) as (l' & E & Hok & Hv);
      [rewrite Hm, <- !app_assoc; reflexivity | constructor; assumption | exact A | rewrite length_app; lia |].
    exists l'. rewrite E, Hv, B, <- app_assoc. split; [reflexivity | split; [exact Hok | reflexivity]].
Qed.

Lemma csv_loop_plain (s : list Z) : Forall (fun b => b <> 34) s -> csv_loop s (length s) = s.
Proof.
  induction 1 as [|c s Hc _ IH]; [reflexivity|]. cbn [length csv_loop].
  destruct (Z.eqb_spec c 34); [contradiction|]. rewrite IH. reflexivity.
Qed.

(** [cbcsvunescape] leaves a cell without quotes as it is. *)
Lemma csv_plain (s : list Z) : Forall (fun b => b <> 0 /\ b <> 34) s -> cbcsvunescape (s ++ [0]) = CDone s.
Proof.
  intros Hs. assert (Hnz : Forall (fun b => b <> 0) s) by (eapply Forall_impl; [|exact Hs]; intros b []; assumption).
  assert (Hnq : Forall (fun b => b <> 34) s) by (eapply Forall_impl; [|exact Hs]; intros b []; assumption).
  unfold cbcsvunescape. rewrite take_cstr_app by exact Hnz.
  assert (K : (let '(body, len) := match s with
                                   | 34 :: t => (t, zlen t - (if last s 0 =? 34 then 1 else 0))
                                   | _ => (s, zlen s)
                                   end in (body, len)) = (s, zlen s)).
  { destruct s as [|c s']; [reflexivity|]. apply Forall_cons_iff in Hnq as (Hc & _).
    destruct c as [|p|p]; try reflexivity. do 7 (try destruct p as [p|p|]); try reflexivity. contradiction. }
  destruct (match s with 34 :: t => _ | _ => _ end) as [body len]. injection K as -> ->.
  unfold zlen. rewrite Nat2Z.id, csv_loop_plain by exact Hnq. rewrite Z.ltb_irrefl. reflexivity.
Qed.

Lemma plain_bytes_ok (s : list Z) (q : bool) :
  Forall (fun b => b <> 0 /\ b <> 34 /\ b <> 44) s ->
  cell_bytes_ok q s = true /\ fold_left (fun q c => toggle c q) s q = q.
Proof.
  induction 1 as [|c s (H0 & H34 & H44) _ IH]; [split; reflexivity|]. cbn [cell_bytes_ok fold_left].
  assert (T : toggle c q = q) by (unfold toggle; rewrite (proj2 (Z.eqb_neq c 34) H34); reflexivity).
  rewrite T, (proj2 (Z.eqb_neq c 44) H44), (proj2 (Z.eqb_neq c 0) H0), orb_true_r. exact IH.
Qed.

End CsvFacts.

(** ** Theorems *)

(** [cbcsvrows] of a text of rows, each ended by a line feed or CR LF,
    without zero, CR or LF bytes and with their quotes paired, followed
    by a last row without a break, returns the rows in order, the last
    one when it is not empty. *)
Theorem cbcsvrows_rows (rows : list (list Z * list Z)) (lastr t : list Z) :
  Forall row_ok rows -> Forall (fun c => c <> 0 /\ c <> 10 /\ c <> 13) lastr ->
  exists l, cbcsvrows (flat_map (fun e => fst e ++ snd e) rows ++ lastr ++ 0 :: t) = CDone l /\ cl_ok l /\
    cl_view l = map fst rows ++ match lastr with [] => [] | _ => [lastr] end.
Proof.
  intros Hr Hl. unfold cbcsvrows.
  destruct (rows_all (flat_map (fun e => fst e ++ snd e) rows ++ lastr ++ 0 :: t) t lastr rows [] cblistopen (S (length (flat_map (fun e => fst e ++ snd e) rows ++ lastr ++ 0 :: t))))
    as (l & E & Hok & Hv); [reflexivity | exact Hr | exact Hl | exact cblistopen_ok | rewrite !length_app; lia |].
  exists l. split; [exact E | split; [exact Hok | rewrite Hv, cblistopen_view; reflexivity]].
Qed.

(** [cbcsvcells] of a row of cells as [cbcsvescape] writes them, joined by
    commas, returns the cells: commas and doubled quotes inside a field
    stay in it, and each field is unescaped back. *)
Theorem cbcsvcells_row (c0 : list Z) (cs : list (list Z)) (t : list Z) :
  Forall (Forall (fun b => b <> 0)) (c0 :: cs) ->
  exists l, cbcsvcells (csv_row c0 cs ++ 0 :: t) = CDone l /\ cl_ok l /\ cl_view l = c0 :: cs.
Proof.
  intros Hc. unfold cbcsvcells.
  destruct (cells_all (csv_row c0 cs ++ 0 :: t) t cs [] c0 cblistopen (S (length (csv_row c0 cs ++ 0 :: t))))
    as (lst & E & Hok & Hv); [reflexivity | exact Hc | exact cblistopen_ok | rewrite length_app; lia |].
  change (zlen (@nil Z)) with 0 in E. rewrite E. rewrite cblistopen_view in Hv. cbn [app] in Hv.
  unfold cblistnum. rewrite <- (length_view lst Hok), Hv, length_map.
  destruct (unescape_all lst (c0 :: cs) 0 cblistopen cblistopen_ok) as (ue & E2 & Hue & Hw);
    [intros k; rewrite Hv; reflexivity | exact Hc |].
  exists ue. rewrite E2, Hw, cblistopen_view. split; [reflexivity | split; [exact Hue | reflexivity]].
Qed.

(** [cbcsvcells] inherits the overflow of [cbcsvunescape]: when the last
    cell of a row is a lone double quote, the cell loop hands it over, as
    the quote leaves [quoted] set up to the end of the string, and its
    unescaping writes past the buffer it allocates. *)
Theorem cbcsvcells_lone_quote (s t : list Z) :
  Forall (fun b => b <> 0 /\ b <> 34 /\ b <> 44) s -> cbcsvcells (s ++ 44 :: 34 :: 0 :: t) = COob.
Proof.
  intros Hs. destruct (plain_bytes_ok s false Hs) as (Ok & Fq). unfold cbcsvcells.
  set (m := s ++ 44 :: 34 :: 0 :: t).
  replace (S (length m)) with (length s + S (S (S (S (length t)))))%nat by (unfold m; rewrite length_app; cbn; lia).
  rewrite (cells_scan m [] s (44 :: 34 :: 0 :: t) 0 false cblistopen) by (reflexivity || exact Ok).
  rewrite Fq. change (zlen (@nil Z)) with 0. rewrite Z.add_0_l. cbn [cells_loop].
  rewrite (zread_at m s (34 :: 0 :: t) 44 eq_refl). cbn [toggle Z.eqb Pos.eqb negb andb].
  assert (Z1 : zread m (zlen s + 1) = CDone 34)
    by (rewrite <- (zread_at m (s ++ [44]) (0 :: t) 34) by (unfold m; rewrite <- app_assoc; reflexivity);
        autorewrite with vl_rw; f_equal; lia).
  assert (Z2 : zread m (zlen s + 1 + 1) = CDone 0)
    by (rewrite <- (zread_at m (s ++ [44; 34]) t 0) by (unfold m; rewrite <- app_assoc; reflexivity);
        autorewrite with vl_rw; f_equal; lia).
  rewrite Z1. cbn [toggle Z.eqb Pos.eqb negb andb]. rewrite Z2. cbn [toggle Z.eqb Pos.eqb negb andb].
  assert (P1 : cblistpush cblistopen (skipn (Z.to_nat 0) m) (zlen s - 0) = cblistpushbuf cblistopen s)
    by (unfold cblistpush; rewrite Z.sub_0_r; f_equal; apply (region_prefix _ s (44 :: 34 :: 0 :: t)); reflexivity).
  rewrite P1. destruct (pushbuf_sim cblistopen s cblistopen_ok) as (A1 & B1).
  assert (P2 : cblistpush (cblistpushbuf cblistopen s) (skipn (Z.to_nat (zlen s + 1)) m) (zlen s + 1 + 1 - (zlen s + 1))
               = cblistpushbuf (cblistpushbuf cblistopen s) [34]).
  { unfold cblistpush. f_equal. replace (zlen s + 1 + 1 - (zlen s + 1)) with (zlen [34]) by (unfold zlen; cbn; lia).
    apply (region_prefix _ [34] (0 :: t)). unfold m. replace (Z.to_nat (zlen s + 1)) with (length (s ++ [44]))
      by (rewrite length_app; unfold zlen; cbn; lia).
    replace (s ++ 44 :: 34 :: 0 :: t) with ((s ++ [44]) ++ 34 :: 0 :: t) by (rewrite <- app_assoc; reflexivity).
    rewrite skipn_app, skipn_all, Nat.sub_diag. reflexivity. }
  rewrite P2. destruct (pushbuf_sim _ [34] A1) as (A2 & B2). rewrite B1 in B2.
  unfold cblistnum. rewrite <- (length_view _ A2), B2, cblistopen_view. cbn [app length unescape_loop].
  rewrite cblistval_view, B2, cblistopen_view. cbn [app nth_error].
  rewrite csv_plain by (eapply Forall_impl; [|exact Hs]; intros b (? & ? & ?); split; assumption).
  cbn [unescape_loop]. rewrite cblistval_view. destruct (pushbuf_sim _ (s ++ [0]) cblistopen_ok) as (_ & B3).
  rewrite B2, cblistopen_view. reflexivity.
Qed.

(** ** Witnesses *)

Lemma cbcsvrows_rows_witness :
  exists l, cbcsvrows [97; 34; 44; 34; 13; 10; 10; 98; 0] = CDone l /\ cl_ok l /\
            cl_view l = [[97; 34; 44; 34]; []; [98]].
Proof.
  assert (R : Forall row_ok [([97; 34; 44; 34], [13; 10]); ([], [10])])
    by (apply Forall_cons; [|apply Forall_cons; [|apply Forall_nil]]; unfold row_ok; cbn;
        (split; [repeat constructor; lia | split; [reflexivity | auto]])).
  destruct (cbcsvrows_rows _ [98] [] R ltac:(repeat constructor; lia)) as (l & E & Hok & Hv).
  exists l. split; [exact E | split; [exact Hok | rewrite Hv; reflexivity]].
Defined.

Lemma cbcsvcells_row_witness :
  exists l, cbcsvcells [34; 97; 44; 34; 34; 34; 44; 34; 98; 34; 0] = CDone l /\ cl_ok l /\
            cl_view l = [[97; 44; 34]; [98]].
Proof.
  destruct (cbcsvcells_row [97; 44; 34] [[98]] [] ltac:(repeat constructor; lia)) as (l & E & Hok & Hv).
  exists l. split; [exact E | split; [exact Hok | exact Hv]].
Defined.

Lemma cbcsvcells_lone_quote_witness : cbcsvcells [97; 44; 34; 0] = COob.
Proof. apply (cbcsvcells_lone_quote [97] []). repeat constructor; lia. Defined.
