(* ===== verification/CbXml.v ===== *)
(** * CbXml: breaking XML text into tokens

    [cbxmlbreak] (cabin.c 2042-2099) pushes onto a new [CBLIST] the text
    runs, tags, comments (unless [cr]) and CDATA sections (escaped again)
    of a C string, read over the memory from the pointer ([zread] of
    [CbStr], [COob] past it).  [strstr] is modelled by its contract: the
    first occurrence of the needle in the C string from the pointer.  The
    theorems show that a text of well-formed tokens comes back token by
    token, comments dropped under [cr], and that a comment with no end
    makes [cbxmlbreak] push the text before it twice.  [cbxmlattrs]
    (cabin.c 2103-2162) is modelled loop by loop ([span] of each test);
    its theorems show that attributes written with [cbxmlescape] come
    back through [cbxmlunescape], and that on any C string it returns
    without reading past the terminator. *)

From Stdlib Require Import ZArith Lia List Bool.
From S2P Require Import Prelude Varint Codec Cache CbList CbCodec CbStr CbMapSer CbMapOps CbSplit.
Import ListNotations.
Open Scope Z_scope.
Open Scope vl_scope.

Open Scope cres_scope.

(** ** Definitions *)

(** The first index [j] at or after [i0] where [pat] starts [s]. *)
Fixpoint strstr_from (s pat : list Z) (j : Z) : option Z :=
  match s with
  | [] => None
  | _ :: s' => if prefixb pat s then Some j else strstr_from s' pat (j + 1)
  end.

(** [strstr(str + i, pat)] as an offset into the memory. *)
Definition strstr_at (m : list Z) (i : Z) (pat : list Z) : cres (option Z) :=
  let? s := c_str (skipn (Z.to_nat i) m) in CDone (option_map (fun j => i + j) (strstr_from s pat 0)).

Definition COMMENT_END : list Z := [45; 45; 62].
Definition CDATA_END : list Z := [93; 93; 62].
(** ["<![CDATA["] with its terminating zero, the key [cbstrfwimatch] reads. *)
Definition CDATA_BEGIN : list Z := [60; 33; 91; 67; 68; 65; 84; 65; 91; 0].
Definition AMP : list Z := [38; 97; 109; 112; 59].
Definition LT : list Z := [38; 108; 116; 59].
Definition GT : list Z := [38; 103; 116; 59].

(** The [while(str + i < ep)] loop that escapes a CDATA section. *)
Fixpoint cdata_loop (m : list Z) (i e : Z) (d : CBDATUM) (fuel : nat) : cres CBDATUM :=
  match fuel with
  | O => CDone d
  | S f =>
      if i <? e then
        let? c := zread m i in
        let d := if c =? 38 then cbdatumcat d AMP 5
                 else if c =? 60 then cbdatumcat d LT 4
                 else if c =? 62 then cbdatumcat d GT 4
                 else cbdatumcat d (skipn (Z.to_nat i) m) 1 in
        cdata_loop m (i + 1) e d f
      else CDone d
  end.

(** [if(i > pv) cblistpush(list, str + pv, i - pv);] *)
Definition push_run (m : list Z) (pv i : Z) (l : CBLIST) : CBLIST :=
  if pv <? i then cblistpush l (skipn (Z.to_nat pv) m) (i - pv) else l.

(** The [while(TRUE)] loop of [cbxmlbreak]; each round ends with [i++]. *)
Fixpoint xb_loop (m : list Z) (cr : bool) (i pv : Z) (tag : bool) (l : CBLIST) (fuel : nat) : cres CBLIST :=
  match fuel with
  | O => CDone l
  | S f =>
      let? c := zread m i in
      if c =? 0 then CDone (push_run m pv i l)
      else if negb tag && (c =? 60) then
        let? c1 := zread m (i + 1) in
        let? is_com := if c1 =? 33 then
                         let? c2 := zread m (i + 2) in
                         if c2 =? 45 then let? c3 := zread m (i + 3) in CDone (c3 =? 45) else CDone false
                       else CDone false in
        if is_com then
          let l := push_run m pv i l in
          let? ep := strstr_at m i COMMENT_END in
          match ep with
          | Some e =>
              let l := if cr then l else cblistpush l (skipn (Z.to_nat i) m) (e - i + 3) in
              xb_loop m cr (e + 3) (e + 3) tag l f
          | None => xb_loop m cr (i + 1) pv tag l f
          end
        else
          let? is_cd := if c1 =? 33 then
                          let? c2 := zread m (i + 2) in
                          if c2 =? 91 then cbstrfwimatch (skipn (Z.to_nat i) m) CDATA_BEGIN else CDone false
                        else CDone false in
          if is_cd then
            let l := push_run m pv i l in
            let? ep := strstr_at m i CDATA_END in
            match ep with
            | Some e =>
                let? d := cdata_loop m (i + 9) e (cbdatumopen None 0) (S (length m)) in
                let l := if 0 <? cbdatumsize d then cblistpush l (cbdatumptr d) (cbdatumsize d) else l in
                xb_loop m cr (e + 3) (e + 3) tag l f
            | None => xb_loop m cr (i + 1) pv tag l f
            end
          else xb_loop m cr (i + 1) i true (push_run m pv i l) f
      else if tag && (c =? 62) then
        xb_loop m cr (i + 1) (i + 1) false (if pv <? i then cblistpush l (skipn (Z.to_nat pv) m) (i - pv + 1) else l) f
      else xb_loop m cr (i + 1) pv tag l f
  end.

(** [cbxmlbreak] over the memory from [str]. *)
Definition cbxmlbreak (m : list Z) (cr : bool) : cres CBLIST :=
  xb_loop m cr 0 0 false cblistopen (S (length m)).

(** *** [cbxmlattrs] *)

(** [while(p( *rp)) rp++;] over the memory from [rp]: the number of
    bytes passed; [COob] when the loop runs off the memory. *)
Fixpoint span (p : Z -> bool) (s : list Z) : cres nat :=
  match s with
  | [] => COob
  | c :: s' => if p c then let? n := span p s' in CDone (S n) else CDone O
  end.

(** The tests of the loops of [cbxmlattrs], on [unsigned char]s. *)
Definition xa_lead (c : Z) : bool := (c =? 60) || (c =? 47) || (c =? 63) || (c =? 33) || (c =? 32).
Definition xa_name (c : Z) : bool := (32 <? c) && negb (c =? 47) && negb (c =? 62).
Definition xa_gap (c : Z) : bool := negb (c =? 0) && ((c <=? 32) || (c =? 47) || (c =? 63) || (c =? 62)).
Definition xa_key (c : Z) : bool := (32 <? c) && negb (c =? 47) && negb (c =? 62) && negb (c =? 61).
Definition xa_eq (c : Z) : bool := negb (c =? 0) && ((c =? 61) || (c <=? 32)).
Definition xa_quoted (q c : Z) : bool := negb (c =? 0) && negb (c =? q).
Definition xa_bare (c : Z) : bool :=
  (32 <? c) && negb (c =? 34) && negb (c =? 39) && negb (c =? 47) && negb (c =? 62).

(** The value of an attribute: between double or single quotes, or bare; its bytes
    and the memory from where [rp] stops. *)
Definition xa_value (s : list Z) : cres (list Z * list Z) :=
  let? c := zread s 0 in
  if c =? 34 then let? n := span (xa_quoted 34) (tl s) in CDone (firstn n (tl s), skipn n (tl s))
  else if c =? 39 then let? n := span (xa_quoted 39) (tl s) in CDone (firstn n (tl s), skipn n (tl s))
  else let? n := span xa_bare s in CDone (firstn n s, skipn n s).

(** One round of the [while( *rp != '\0')] loop: skip to a key, read it,
    skip the [=], read the value, step over its closing byte, and put the
    unescaped value under a non-empty key without overwriting. *)
Definition xa_round (s : list Z) (map : bmap) : cres (list Z * bmap) :=
  let? n1 := span xa_gap s in
  let s1 := skipn n1 s in
  let? ksiz := span xa_key s1 in
  let s2 := skipn ksiz s1 in
  let? n3 := span xa_eq s2 in
  let? vr := xa_value (skipn n3 s2) in
  let? c := zread (snd vr) 0 in
  let s5 := if c =? 0 then snd vr else skipn 1 (snd vr) in
  if Nat.ltb 0 ksiz then
    match cbxmlunescape (fst vr ++ [0]) with
    | Some raw => CDone (s5, fst (cbmapput map (firstn ksiz s1) (region (raw ++ [0]) (-1)) false))
    | None => COob
    end
  else CDone (s5, map).

Fixpoint xa_loop (s : list Z) (map : bmap) (fuel : nat) : cres bmap :=
  match fuel with
  | O => CDone map
  | S f =>
      let? c := zread s 0 in
      if c =? 0 then CDone map
      else let? r := xa_round s map in xa_loop (fst r) (snd r) f
  end.

(** [cbxmlattrs] over the memory from [str]: the name of the tag under
    the empty key, then the attributes. *)
Definition cbxmlattrs (m : list Z) : cres bmap :=
  let? n := span xa_lead m in
  let s := skipn n m in
  let? k := span xa_name s in
  xa_loop (skipn k s) (fst (cbmapput [] [] (firstn k s) false)) (S (length m)).

(** ** Texts of tokens *)

(** A token of an XML text: a run of text, a tag [<b>] or a comment
    [<!--b-->]. *)
Inductive xtok := XText (s : list Z) | XTag (b : list Z) | XCom (b : list Z).

Definition tok_bytes (x : xtok) : list Z :=
  match x with
  | XText s => s
  | XTag b => 60 :: b ++ [62]
  | XCom b => [60; 33; 45; 45] ++ b ++ [45; 45; 62]
  end.

(** A token the theorem writes: no zero byte; a text without [<]; a tag
    or comment body without [>], a tag body not starting with [!]. *)
Definition tok_ok (x : xtok) : Prop :=
  match x with
  | XText s => s <> [] /\ Forall (fun c => c <> 0 /\ c <> 60) s
  | XTag b => Forall (fun c => c <> 0 /\ c <> 62) b /\ hd 0 b <> 33
  | XCom b => Forall (fun c => c <> 0 /\ c <> 62) b
  end.

Definition is_text (x : xtok) : bool := match x with XText _ => true | _ => false end.
Definition head_text (ts : list xtok) : bool := match ts with x :: _ => is_text x | [] => false end.

(** No two text runs follow each other (they would be one run). *)
Fixpoint texts_apart (ts : list xtok) : Prop :=
  match ts with
  | [] => True
  | x :: ts' => (is_text x = true -> head_text ts' = false) /\ texts_apart ts'
  end.

(** What [cbxmlbreak] pushes for a token: comments only without [cr]. *)
Definition tok_out (cr : bool) (x : xtok) : list (list Z) :=
  match x with XCom _ => if cr then [] else [tok_bytes x] | _ => [tok_bytes x] end.

(** A pending text run. *)
Definition pend_out (s : list Z) : list (list Z) := match s with [] => [] | _ => [s] end.

(** ** Attributes of a tag *)

(** An attribute as a writer of XML puts it: a space, the key, [=] and
    the value escaped by [cbxmlescape] between double quotes. *)
Definition attr_bytes (a : list Z * list Z) : list Z := 32 :: fst a ++ 61 :: 34 :: cbxmlescape (snd a) ++ [34].

(** A key the theorem writes: bytes of a key, not starting with [?]. *)
Definition attr_ok (a : list Z * list Z) : Prop :=
  fst a <> [] /\ Forall (fun c => xa_key c = true) (fst a) /\ hd 0 (fst a) <> 63.

(** A tag name: bytes of a name, not starting with one [cbxmlattrs] skips. *)
Definition tag_name_ok (name : list Z) : Prop :=
  name <> [] /\ Forall (fun c => xa_name c = true) name /\ xa_lead (hd 0 name) = false.

(** The entries [cbxmlattrs] puts for the attributes. *)
Definition attr_entries (attrs : list (list Z * list Z)) : bmap :=
  map (fun a => (fst a, take_cstr (snd a))) attrs.

(** ** Lemmas *)

Section XmlFacts.

Lemma prefixb_nth (pat s : list Z) (k : nat) : prefixb pat s = true -> (k < length pat)%nat -> nth k s 0 = nth k pat 0.
Proof.
  unfold prefixb. destruct (bytes_eqb_spec (firstn (length pat) s) pat) as [E|]; [intros _ Hk|discriminate].
  rewrite <- E, nth_firstn. destruct (Nat.ltb_spec k (length pat)); [reflexivity | lia].
Qed.

(** The end of a comment whose body has no [>] is the first [-->]. *)
Lemma strstr_comment (x y : list Z) (j : Z) :
  Forall (fun c => c <> 62) x -> strstr_from (x ++ COMMENT_END ++ y) COMMENT_END j = Some (j + zlen x).
Proof.
  revert j. induction x as [|c x IH]; intros j Hx.
  - cbn. unfold prefixb. cbn. destruct (bytes_eqb_spec [45; 45; 62] [45; 45; 62]); [f_equal; lia | congruence].
  - apply Forall_cons_iff in Hx as (Hc & Hx). cbn [app strstr_from].
    destruct (prefixb COMMENT_END (c :: x ++ COMMENT_END ++ y)) eqn:P.
    + exfalso. pose proof (prefixb_nth _ _ 2 P ltac:(cbn; lia)) as N. cbn in N.
      destruct x as [|c1 [|c2 x]]; cbn in N; [discriminate | discriminate|].
      apply Forall_cons_iff in Hx as (_ & Hx). apply Forall_cons_iff in Hx as (Hc2 & _). contradiction.
    + rewrite IH by exact Hx. rewrite zlen_cons. f_equal. lia.
Qed.

Lemma xb_scan (m p r rest : list Z) (cr tag : bool) (pv : Z) (l : CBLIST) (f : nat) :
  m = p ++ r ++ rest -> Forall (fun c => c <> 0 /\ (if tag then c <> 62 else c <> 60)) r ->
  xb_loop m cr (zlen p) pv tag l (length r + f) = xb_loop m cr (zlen p + zlen r) pv tag l f.
Proof.
  revert p. induction r as [|c r IH]; intros p Hm Hr; [rewrite zlen_nil, Z.add_0_r; reflexivity|].
  apply Forall_cons_iff in Hr as ((H0 & Ht) & Hr). cbn [length Nat.add xb_loop].
  rewrite (zread_at m p (r ++ rest) c Hm). cbn [cbind]. destruct (Z.eqb_spec c 0); [contradiction|].
  destruct tag; cbn [negb andb];
    [destruct (Z.eqb_spec c 62); [contradiction|] | destruct (Z.eqb_spec c 60); [contradiction|]];
    replace (zlen p + 1) with (zlen (p ++ [c])) by (autorewrite with vl_rw; lia);
    (rewrite IH by (try rewrite Hm, <- app_assoc; auto)); autorewrite with vl_rw; f_equal; lia.
Qed.

Lemma tok_bytes_nz (x : xtok) : tok_ok x -> Forall (fun c => c <> 0) (tok_bytes x).
Proof.
  assert (W : forall (P : Z -> Prop) b, Forall (fun c => c <> 0 /\ P c) b -> Forall (fun c => c <> 0) b)
    by (intros P b; apply Forall_impl; intros c []; assumption).
  destruct x as [s|b|b]; cbn; intros H.
  - destruct H as (_ & H). exact (W _ _ H).
  - destruct H as (H & _). constructor; [lia|]. apply Forall_app. split; [exact (W _ _ H) | repeat constructor; lia].
  - repeat constructor; try lia. apply Forall_app. split; [exact (W _ _ H) | repeat constructor; lia].
Qed.

(** [cblistpush] of a region at a known offset pushes the block there. *)
Lemma push_at (m q x r : list Z) (l : CBLIST) (n : Z) :
  m = q ++ x ++ r -> n = zlen x -> cblistpush l (skipn (Z.to_nat (zlen q)) m) n = cblistpushbuf l x.
Proof. intros Hm ->. unfold cblistpush. rewrite (region_prefix _ x r); [reflexivity | rewrite Hm; apply skipn_zlen_app]. Qed.

(** The pending run is pushed when it is not empty. *)
Lemma push_run_pend (m p pend rest : list Z) (l : CBLIST) :
  m = p ++ pend ++ rest -> cl_ok l ->
  cl_ok (push_run m (zlen p) (zlen p + zlen pend) l) /\
  cl_view (push_run m (zlen p) (zlen p + zlen pend) l) = cl_view l ++ pend_out pend.
Proof.
  intros Hm Hl. unfold push_run. destruct pend as [|c r].
  - rewrite zlen_nil, Z.add_0_r, Z.ltb_irrefl, app_nil_r. split; [exact Hl | reflexivity].
  - rewrite zlen_cons. zlen_facts. vl_test. replace (zlen p + (1 + zlen r) - zlen p) with (zlen (c :: r)) by (rewrite zlen_cons; lia).
    unfold cblistpush. rewrite (region_prefix _ (c :: r) rest) by (rewrite Hm; apply skipn_zlen_app).
    exact (pushbuf_sim l (c :: r) Hl).
Qed.

Lemma xb_tag (m p pend b rest : list Z) (cr : bool) (l : CBLIST) (f : nat) :
  m = p ++ pend ++ tok_bytes (XTag b) ++ rest -> tok_ok (XTag b) ->
  xb_loop m cr (zlen p + zlen pend) (zlen p) false l (length (tok_bytes (XTag b)) + f) =
  xb_loop m cr (zlen (p ++ pend ++ tok_bytes (XTag b))) (zlen (p ++ pend ++ tok_bytes (XTag b))) false
    (cblistpushbuf (push_run m (zlen p) (zlen p + zlen pend) l) (tok_bytes (XTag b))) f.
Proof.
  intros Hm (Hb & Hh). cbn [tok_bytes] in *. set (q := p ++ pend).
  assert (Hq : m = q ++ 60 :: b ++ [62] ++ rest) by (rewrite Hm; unfold q; rewrite <- !app_assoc; cbn [app]; rewrite <- !app_assoc; reflexivity).
  replace (zlen p + zlen pend) with (zlen q) by (unfold q; rewrite zlen_app; reflexivity).
  assert (H1 : exists c1, zread m (zlen q + 1) = CDone c1 /\ c1 <> 33).
  { replace (zlen q + 1) with (zlen (q ++ [60])) by (autorewrite with vl_rw; lia). destruct b as [|c0 b0].
    - exists 62. split; [|lia]. apply (zread_at m _ rest). rewrite Hq, <- app_assoc. reflexivity.
    - exists c0. split; [|exact Hh]. apply (zread_at m _ (b0 ++ [62] ++ rest)).
      rewrite Hq, <- app_assoc. reflexivity. }
  destruct H1 as (c1 & H1 & Hc1).
  cbn [length Nat.add xb_loop]. rewrite (zread_at m q _ 60 Hq). cbn [cbind Z.eqb Pos.eqb negb andb].
  rewrite H1. cbn [cbind]. destruct (Z.eqb_spec c1 33); [contradiction|]. cbn [cbind].
  rewrite length_app, <- Nat.add_assoc. cbn [length].
  replace (zlen q + 1) with (zlen (q ++ [60])) by (autorewrite with vl_rw; lia).
  rewrite (xb_scan m (q ++ [60]) b ([62] ++ rest) cr true (zlen q) _ _) by
    (try (rewrite Hq, <- app_assoc; reflexivity); exact Hb).
  cbn [Nat.add xb_loop]. rewrite <- zlen_app. rewrite (zread_at m ((q ++ [60]) ++ b) rest 62) by (rewrite Hq, <- !app_assoc; reflexivity).
  cbn [cbind Z.eqb Pos.eqb negb andb]. autorewrite with vl_rw in *. zlen_facts. vl_test.
  rewrite (push_at m q (60 :: b ++ [62]) rest) by
    (first [rewrite Hq; cbn [app]; rewrite <- app_assoc; reflexivity | autorewrite with vl_rw; lia]).
  unfold q in *; f_equal; autorewrite with vl_rw; lia.
Qed.


(** A read inside a block at a known offset of the memory. *)
Lemma zread_block (m q x r : list Z) (k : nat) :
  m = q ++ x ++ r -> (k < length x)%nat -> zread m (zlen q + Z.of_nat k) = CDone (nth k x 0).
Proof.
  intros Hm Hk. replace (zlen q + Z.of_nat k) with (zlen (q ++ firstn k x))
    by (rewrite zlen_app; unfold zlen at 2; rewrite length_firstn; f_equal; lia).
  apply (zread_at m (q ++ firstn k x) (skipn (S k) x ++ r)).
  rewrite Hm, (firstn_skipn_nth x k 0 Hk) at 1. rewrite <- !app_assoc. reflexivity.
Qed.

(** The round at a [<!--]: the pending run is pushed and the end of the
    comment looked up. *)
Lemma xb_com_open (m q r : list Z) (cr : bool) (pv : Z) (l : CBLIST) (f : nat) :
  m = q ++ [60; 33; 45; 45] ++ r ->
  xb_loop m cr (zlen q) pv false l (S f) =
  let? ep := strstr_at m (zlen q) COMMENT_END in
  match ep with
  | Some e => xb_loop m cr (e + 3) (e + 3) false
                (if cr then push_run m pv (zlen q) l
                 else cblistpush (push_run m pv (zlen q) l) (skipn (Z.to_nat (zlen q)) m) (e - zlen q + 3)) f
  | None => xb_loop m cr (zlen q + 1) pv false (push_run m pv (zlen q) l) f
  end.
Proof.
  intros Hq.
  assert (R0 : zread m (zlen q) = CDone 60) by (rewrite <- (Z.add_0_r (zlen q)); exact (zread_block _ _ _ _ 0 Hq ltac:(cbn; lia))).
  assert (R1 : zread m (zlen q + 1) = CDone 33) by exact (zread_block _ _ _ _ 1 Hq ltac:(cbn; lia)).
  assert (R2 : zread m (zlen q + 2) = CDone 45) by exact (zread_block _ _ _ _ 2 Hq ltac:(cbn; lia)).
  assert (R3 : zread m (zlen q + 3) = CDone 45) by exact (zread_block _ _ _ _ 3 Hq ltac:(cbn; lia)).
  cbn [xb_loop]. rewrite R0. cbn [cbind Z.eqb Pos.eqb negb andb]. rewrite R1. cbn [cbind Z.eqb Pos.eqb].
  rewrite R2. cbn [cbind Z.eqb Pos.eqb]. rewrite R3. reflexivity.
Qed.

Lemma xb_com (m p pend b w t : list Z) (cr : bool) (l : CBLIST) (f : nat) :
  m = p ++ pend ++ tok_bytes (XCom b) ++ w ++ 0 :: t -> tok_ok (XCom b) -> Forall (fun c => c <> 0) w ->
  xb_loop m cr (zlen p + zlen pend) (zlen p) false l (S f) =
  xb_loop m cr (zlen (p ++ pend ++ tok_bytes (XCom b))) (zlen (p ++ pend ++ tok_bytes (XCom b))) false
    (if cr then push_run m (zlen p) (zlen p + zlen pend) l
     else cblistpushbuf (push_run m (zlen p) (zlen p + zlen pend) l) (tok_bytes (XCom b))) f.
Proof.
  intros Hm Hb Hw. pose proof (tok_bytes_nz _ Hb) as Hnz. cbn [tok_bytes tok_ok] in *. set (q := p ++ pend).
  assert (Hq : m = q ++ [60; 33; 45; 45] ++ b ++ COMMENT_END ++ w ++ 0 :: t)
    by (rewrite Hm; unfold q; rewrite <- !app_assoc; reflexivity).
  replace (zlen p + zlen pend) with (zlen q) by (unfold q; rewrite zlen_app; reflexivity).
  rewrite (xb_com_open m q (b ++ COMMENT_END ++ w ++ 0 :: t) cr (zlen p) l f Hq).
  set (x := [60; 33; 45; 45] ++ b).
  assert (S1 : strstr_at m (zlen q) COMMENT_END = CDone (Some (zlen q + zlen x))).
  { unfold strstr_at. rewrite Hq, skipn_zlen_app.
    replace ([60; 33; 45; 45] ++ b ++ COMMENT_END ++ w ++ 0 :: t) with ((x ++ COMMENT_END ++ w) ++ 0 :: t)
      by (unfold x; rewrite <- !app_assoc; reflexivity).
    rewrite c_str_app by (unfold x, COMMENT_END; rewrite !Forall_app in *; tauto).
    cbn [cbind]. rewrite strstr_comment.
    - cbn [option_map]. rewrite Z.add_0_l. reflexivity.
    - unfold x. apply Forall_app. split; [repeat constructor; lia | exact (Forall_impl _ (fun c H => proj2 H) Hb)]. }
  rewrite S1. cbn [cbind].
  replace (zlen q + zlen x + 3) with (zlen (p ++ pend ++ [60; 33; 45; 45] ++ b ++ [45; 45; 62]))
    by (unfold q, x; autorewrite with vl_rw; lia).
  destruct cr; [reflexivity|]. f_equal.
  apply (push_at m q _ (w ++ 0 :: t)).
  - rewrite Hq. unfold COMMENT_END. rewrite <- !app_assoc. reflexivity.
  - unfold q, x. autorewrite with vl_rw. lia.
Qed.


Lemma flat_tok_nz (ts : list xtok) : Forall tok_ok ts -> Forall (fun c => c <> 0) (flat_map tok_bytes ts).
Proof. induction 1; [constructor | cbn [flat_map]; apply Forall_app; split; [apply tok_bytes_nz|]; assumption]. Qed.

(** The loop over the text of a token list, with a pending text run
    before it: one [xb_loop] round per byte of texts and tags, one per
    comment, one for the terminator. *)
Lemma xb_tokens (m t : list Z) (cr : bool) (toks : list xtok) : forall p pend l F,
  m = p ++ pend ++ flat_map tok_bytes toks ++ 0 :: t ->
  (pend = [] \/ head_text toks = false) -> Forall tok_ok toks -> texts_apart toks -> cl_ok l ->
  (length (flat_map tok_bytes toks) < F)%nat ->
  exists l', xb_loop m cr (zlen p + zlen pend) (zlen p) false l F = CDone l' /\ cl_ok l' /\
             cl_view l' = cl_view l ++ pend_out pend ++ flat_map (tok_out cr) toks.
Proof.
  induction toks as [|x ts IH]; intros p pend l F Hm Hp Hok Hap Hl HF.
  - destruct F as [|F]; [cbn in HF; lia|]. cbn [xb_loop]. rewrite <- zlen_app.
    rewrite (zread_at m (p ++ pend) t 0) by (rewrite Hm, <- app_assoc; reflexivity). cbn [cbind Z.eqb].
    rewrite zlen_app. destruct (push_run_pend m p pend (0 :: t) l) as (H1 & H2); [exact Hm | exact Hl |].
    eexists. split; [reflexivity|]. rewrite H2. split; [exact H1 | cbn [flat_map]; rewrite app_nil_r; reflexivity].
  - apply Forall_cons_iff in Hok as (Hx & Hok). destruct Hap as (Ht & Hap).
    destruct (push_run_pend m p pend (flat_map tok_bytes (x :: ts) ++ 0 :: t) l Hm Hl) as (P1 & P2).
    cbn [flat_map] in Hm, HF. rewrite length_app in HF. rewrite <- app_assoc in Hm.
    destruct x as [s|b|b]; cbn [tok_out flat_map].
    + destruct Hp as [->|Hp]; [|discriminate]. destruct Hx as (Hs & Hsb).
      replace F with (length s + (F - length s))%nat by (cbn [tok_bytes] in HF; lia).
      rewrite zlen_nil, Z.add_0_r, (xb_scan m p s _ cr false (zlen p) l _ Hm Hsb).
      destruct (IH p s l (F - length s)%nat) as (l' & E & L1 & L2); auto; [cbn [tok_bytes] in HF; lia|].
      exists l'. rewrite L2. destruct s; [contradiction|]. auto.
    + replace F with (length (tok_bytes (XTag b)) + (F - length (tok_bytes (XTag b))))%nat by lia.
      rewrite (xb_tag m p pend b _ cr l _ Hm Hx).
      destruct (IH (p ++ pend ++ tok_bytes (XTag b)) [] (cblistpushbuf (push_run m (zlen p) (zlen p + zlen pend) l)
                  (tok_bytes (XTag b))) (F - length (tok_bytes (XTag b)))%nat) as (l' & E & L1 & L2);
        [rewrite Hm, <- !app_assoc; reflexivity | left; reflexivity | exact Hok | exact Hap
        | apply pushbuf_sim, P1 | lia |].
      rewrite zlen_nil, Z.add_0_r in E. exists l'. rewrite L2, (proj2 (pushbuf_sim _ _ P1)), P2, <- !app_assoc. auto.
    + destruct F as [|F]; [lia|].
      rewrite (xb_com m p pend b (flat_map tok_bytes ts) t cr l F Hm Hx (flat_tok_nz ts Hok)).
      set (l1 := if cr then _ else _).
      assert (Q : cl_ok l1 /\ cl_view l1 = cl_view l ++ pend_out pend ++ (if cr then [] else [tok_bytes (XCom b)])).
      { unfold l1. destruct cr; [rewrite P2, app_nil_r; auto|].
        rewrite (proj2 (pushbuf_sim _ _ P1)), P2, <- app_assoc. split; [apply pushbuf_sim, P1 | reflexivity]. }
      destruct (IH (p ++ pend ++ tok_bytes (XCom b)) [] l1 F) as (l' & E & L1 & L2);
        [rewrite Hm, <- !app_assoc; reflexivity | left; reflexivity | exact Hok | exact Hap | apply Q
        | cbn [tok_bytes] in HF; rewrite !length_app in HF; cbn [length] in HF; lia |].
      rewrite zlen_nil, Z.add_0_r in E. exists l'. rewrite L2, (proj2 Q), <- !app_assoc. auto.
Qed.

(** No [-->] in bytes without [>]. *)
Lemma strstr_no_end (s : list Z) (j : Z) : Forall (fun c => c <> 62) s -> strstr_from s COMMENT_END j = None.
Proof.
  revert j. induction s as [|c s IH]; intros j Hs; [reflexivity|]. cbn [strstr_from].
  destruct (prefixb COMMENT_END (c :: s)) eqn:P; [exfalso|apply IH; inversion Hs; assumption].
  pose proof (prefixb_nth _ _ 2 P ltac:(cbn; lia)) as N. change (nth 2 COMMENT_END 0) with 62 in N.
  destruct (Nat.lt_ge_cases 2 (length (c :: s))) as [Hl|Hl]; [|rewrite nth_overflow in N by exact Hl; discriminate].
  rewrite Forall_forall in Hs. apply (Hs _ (nth_In _ 0 Hl)). cbn [nth]. exact N.
Qed.

End XmlFacts.

Section AttrFacts.

Lemma span_app (p : Z -> bool) (x r : list Z) (c : Z) :
  Forall (fun b => p b = true) x -> p c = false -> span p (x ++ c :: r) = CDone (length x).
Proof. intros Hx Hc. induction Hx as [|b x Hb _ IH]; cbn [app span]; [rewrite Hc; reflexivity | rewrite Hb, IH; reflexivity]. Qed.

Lemma skipn_len_app {A} (x y : list A) : skipn (length x) (x ++ y) = y.
Proof. induction x; [reflexivity | exact IHx]. Qed.

Lemma firstn_len_app {A} (x y : list A) : firstn (length x) (x ++ y) = x.
Proof. induction x; cbn; [reflexivity | rewrite IHx; reflexivity]. Qed.

(** The entity of a byte other than zero holds neither zero nor a double quote. *)
Lemma xml_ent_ok (c : Z) : c <> 0 -> Forall (fun b => xa_quoted 34 b = true) (xml_ent c).
Proof.
  intros Hc. unfold xml_ent.
  destruct (Z.eqb_spec c 38); [repeat apply Forall_cons; try apply Forall_nil; reflexivity|].
  destruct (Z.eqb_spec c 60); [repeat apply Forall_cons; try apply Forall_nil; reflexivity|].
  destruct (Z.eqb_spec c 62); [repeat apply Forall_cons; try apply Forall_nil; reflexivity|].
  destruct (Z.eqb_spec c 34); [repeat apply Forall_cons; try apply Forall_nil; reflexivity|].
  destruct (Z.eqb_spec c 39); [repeat apply Forall_cons; try apply Forall_nil; reflexivity|].
  constructor; [|constructor]. unfold xa_quoted. rewrite (proj2 (Z.eqb_neq _ _) Hc), (proj2 (Z.eqb_neq _ _) n2). reflexivity.
Qed.

Lemma xa_value_quoted (e r : list Z) :
  Forall (fun b => xa_quoted 34 b = true) e -> xa_value (34 :: e ++ 34 :: r) = CDone (e, 34 :: r).
Proof.
  intros He. unfold xa_value. cbn [zread Z.ltb Z.compare nth_error Z.to_nat cbind Z.eqb Pos.eqb tl].
  rewrite (span_app _ e r 34 He eq_refl). cbn [cbind]. rewrite firstn_len_app, skipn_len_app. reflexivity.
Qed.

Lemma escape_quoted (v : list Z) : Forall (fun b => xa_quoted 34 b = true) (cbxmlescape v).
Proof.
  rewrite xml_escape_ent. pose proof (take_cstr_nz v) as Hv. induction Hv as [|c x Hc _ IH]; [constructor|].
  cbn [flat_map]. apply Forall_app. split; [apply xml_ent_ok, Hc | exact IH].
Qed.

(** One round of the attribute loop on an attribute a writer put: the
    key gets the value given to [cbxmlescape], linked last. *)
Lemma xa_attr_round (a : list Z * list Z) (rest : list Z) (map : bmap) :
  attr_ok a -> ~ In (fst a) (cbmap_iter map) ->
  xa_round (attr_bytes a ++ rest) map = CDone (rest, map ++ [(fst a, take_cstr (snd a))]).
Proof.
  destruct a as [k v]. intros (Hk & Hkc & Hh) Hn. unfold attr_bytes, xa_round. cbn [fst snd] in *.
  assert (G : span xa_gap ((32 :: k ++ 61 :: 34 :: cbxmlescape v ++ [34]) ++ rest) = CDone 1%nat).
  { destruct k as [|c k]; [contradiction|]. apply Forall_cons_iff in Hkc as (Hc & _). cbn in Hh.
    cbn [app span]. change (xa_gap 32) with true. cbn [cbind]. unfold xa_key in Hc. unfold xa_gap.
    destruct (Z.eqb_spec c 63); [contradiction|].
    destruct (Z.ltb_spec 32 c), (Z.eqb_spec c 47), (Z.eqb_spec c 62); cbn in Hc; try discriminate.
    destruct (Z.eqb_spec c 0); [lia|]. destruct (Z.leb_spec c 32); [lia|]. reflexivity. }
  rewrite G. cbn [cbind skipn app]. rewrite <- app_assoc. cbn [app].
  rewrite (span_app xa_key k _ 61 Hkc eq_refl). cbn [cbind]. rewrite skipn_len_app, firstn_len_app.
  change (span xa_eq (61 :: 34 :: (cbxmlescape v ++ [34]) ++ rest)) with (@CDone nat 1%nat). cbn [cbind skipn].
  rewrite <- app_assoc. cbn [app]. rewrite (xa_value_quoted _ rest (escape_quoted v)). cbn [cbind fst snd].
  change (zread (34 :: rest) 0) with (CDone 34). cbn [cbind Z.eqb Pos.eqb skipn].
  destruct k as [|c k']; [contradiction|]. cbn [length Nat.ltb Nat.leb].
  rewrite xml_unescape_escape. unfold region, datum_at. cbn [Z.ltb Z.compare skipn Z.to_nat].
  rewrite take_cstr_app by apply take_cstr_nz. rewrite put_keep_new by exact Hn. reflexivity.
Qed.

(** The attribute loop over the attributes a writer put and the closing
    [>]: one round per attribute and one for the [>]. *)
Lemma xa_loop_attrs (attrs : list (list Z * list Z)) (t : list Z) : forall (map : bmap) F,
  Forall attr_ok attrs -> NoDup (cbmap_iter map ++ List.map fst attrs) -> (length attrs + 2 <= F)%nat ->
  xa_loop (flat_map attr_bytes attrs ++ 62 :: 0 :: t) map F = CDone (map ++ attr_entries attrs).
Proof.
  induction attrs as [|a attrs IH]; intros map F Hok Hnd HF.
  - destruct F as [|[|F]]; [cbn in HF; lia | cbn in HF; lia|]. rewrite app_nil_r. reflexivity.
  - apply Forall_cons_iff in Hok as (Ha & Hok). destruct F as [|F]; [cbn in HF; lia|].
    cbn [flat_map xa_loop]. rewrite <- app_assoc.
    change (zread (attr_bytes a ++ _) 0) with (CDone 32). cbn [cbind Z.eqb Pos.eqb].
    rewrite xa_attr_round by (first [exact Ha | intros Hin; cbn [List.map] in Hnd;
                                     exact (NoDup_remove_2 _ _ _ Hnd (in_or_app _ _ _ (or_introl Hin)))]).
    cbn [cbind fst snd]. rewrite IH; [| exact Hok | | cbn [length] in HF; lia].
    + unfold attr_entries. cbn [List.map]. rewrite <- app_assoc. reflexivity.
    + rewrite cbmap_iter_app, <- app_assoc. exact Hnd.
Qed.

(** An entity matched before the terminator is part of the string. *)
Lemma ent_skip (ent x t : list Z) (c : Z) (k : nat) :
  k = length ent -> cbstrfwmatch (c :: x ++ 0 :: t) ent = true ->
  exists y, skipn k (c :: x ++ 0 :: t) = y ++ 0 :: t /\ c :: x = ent ++ y.
Proof.
  intros ->. change (c :: x ++ 0 :: t) with ((c :: x) ++ 0 :: t). generalize (c :: x) as z. clear c x.
  induction ent as [|e ent IH]; intros z M; [exists z; split; reflexivity|].
  destruct z as [|c z]; cbn [app cbstrfwmatch] in M.
  - rewrite orb_true_r in M. discriminate.
  - destruct (Z.eqb_spec c e), (Z.eqb_spec c 0); cbn in M; try discriminate. subst e.
    destruct (IH z M) as (y & E & ->). exists y. split; [exact E | reflexivity].
Qed.

(** [cbxmlunescape] of a string that ends where the memory ends returns:
    each round passes a byte of the string at least. *)
Lemma xmlun_total (t : list Z) : forall n x d,
  Forall (fun b => b <> 0) x -> (length x < n)%nat -> exists d', xmlun_loop n (x ++ 0 :: t) d = Some d'.
Proof.
  induction n as [|f IH]; intros x d Hx Hn; [lia|].
  destruct x as [|c x]; [exists d; reflexivity|]. apply Forall_cons_iff in Hx as (Hc & Hx').
  assert (Step : forall ent k d1, k = length ent -> (1 <= k)%nat -> cbstrfwmatch (c :: x ++ 0 :: t) ent = true ->
                 exists d', xmlun_loop f (skipn k (c :: x ++ 0 :: t)) d1 = Some d').
  { intros ent k d1 Hk Hk1 M. destruct (ent_skip ent x t c k Hk M) as (y & -> & Hy).
    assert (Fy : Forall (fun b => b <> 0) (ent ++ y)) by (rewrite <- Hy; constructor; assumption).
    apply Forall_app in Fy as (_ & Fy).
    apply IH; [exact Fy|]. apply (f_equal (@length Z)) in Hy. rewrite length_app in Hy. cbn [length] in Hy, Hn. lia. }
  cbn [app xmlun_loop]. destruct (Z.eqb_spec c 0); [contradiction|]. cbn [negb].
  assert (Next : forall d1, exists d', xmlun_loop f (x ++ 0 :: t) d1 = Some d')
    by (intros d1; apply IH; [exact Hx' | cbn [length] in Hn; lia]).
  destruct (c =? 38); [|apply Next].
  destruct (cbstrfwmatch _ ent_amp) eqn:M1; [apply (Step ent_amp); first [reflexivity | exact M1 | cbn; lia]|].
  destruct (cbstrfwmatch _ ent_lt) eqn:M2; [apply (Step ent_lt); first [reflexivity | exact M2 | cbn; lia]|].
  destruct (cbstrfwmatch _ ent_gt) eqn:M3; [apply (Step ent_gt); first [reflexivity | exact M3 | cbn; lia]|].
  destruct (cbstrfwmatch _ ent_quot) eqn:M4; [apply (Step ent_quot); first [reflexivity | exact M4 | cbn; lia]|].
  destruct (cbstrfwmatch _ ent_apos) eqn:M5; [apply (Step ent_apos); first [reflexivity | exact M5 | cbn; lia]|].
  apply Next.
Qed.

(** A loop of [cbxmlattrs] whose test fails on the terminator stops
    inside the string, after a prefix of it. *)
Lemma span_cut (p : Z -> bool) (s : list Z) :
  p 0 = false -> exists a b, s = a ++ b /\ forall t, span p (s ++ 0 :: t) = CDone (length a).
Proof.
  intros H0. induction s as [|c s IH].
  - exists [], []. split; [reflexivity | intros t; cbn; rewrite H0; reflexivity].
  - destruct (p c) eqn:Pc.
    + destruct IH as (a & b & -> & E). exists (c :: a), b. split; [reflexivity|].
      intros t. cbn [app span]. rewrite Pc, E. reflexivity.
    + exists [], (c :: s). split; [reflexivity | intros t; cbn; rewrite Pc; reflexivity].
Qed.

Lemma cut_at {A} (a b r : list A) : firstn (length a) ((a ++ b) ++ r) = a /\ skipn (length a) ((a ++ b) ++ r) = b ++ r.
Proof. rewrite <- app_assoc. split; [apply firstn_len_app | apply skipn_len_app]. Qed.

Lemma Forall_app_nz (a b : list Z) : Forall (fun c => c <> 0) (a ++ b) -> Forall (fun c => c <> 0) a /\ Forall (fun c => c <> 0) b.
Proof. apply Forall_app. Qed.

(** The value of an attribute is read inside the string. *)
Lemma xa_value_total (b : list Z) : Forall (fun c => c <> 0) b ->
  exists val b', Forall (fun c => c <> 0) val /\ Forall (fun c => c <> 0) b' /\ (length b' <= length b)%nat /\
                 forall t, xa_value (b ++ 0 :: t) = CDone (val, b' ++ 0 :: t).
Proof.
  intros Hb. destruct b as [|c b]; [exists [], []; repeat split; try constructor; intros t; reflexivity|].
  assert (Gen : forall q (r : list Z), r = c :: b \/ r = b -> q 0 = false ->
             exists val b', Forall (fun c => c <> 0) val /\ Forall (fun c => c <> 0) b' /\ (length b' <= length (c :: b))%nat /\
               forall t, (let? n := span q (r ++ 0 :: t) in CDone (firstn n (r ++ 0 :: t), skipn n (r ++ 0 :: t)))
                         = CDone (val, b' ++ 0 :: t)).
  { intros q r Hr Hq. destruct (span_cut q r Hq) as (a & b' & Er & E). exists a, b'.
    assert (Fr : Forall (fun c => c <> 0) r) by (destruct Hr as [->| ->]; [exact Hb | inversion Hb; assumption]).
    rewrite Er in Fr. apply Forall_app_nz in Fr as (Fa & Fb).
    split; [exact Fa | split; [exact Fb | split]].
    - assert (L : (length r <= length (c :: b))%nat) by (destruct Hr as [->| ->]; cbn; lia).
      rewrite Er, length_app in L. lia.
    - intros t. rewrite E. cbn [cbind]. rewrite Er. destruct (cut_at a b' (0 :: t)) as (-> & ->). reflexivity. }
  destruct (Z.eqb_spec c 34) as [->|N34]; [|destruct (Z.eqb_spec c 39) as [->|N39]].
  - destruct (Gen (xa_quoted 34) b (or_intror eq_refl) eq_refl) as (val & b' & H1 & H2 & H3 & E).
    exists val, b'. repeat split; try assumption.
  - destruct (Gen (xa_quoted 39) b (or_intror eq_refl) eq_refl) as (val & b' & H1 & H2 & H3 & E).
    exists val, b'. repeat split; try assumption.
  - destruct (Gen xa_bare (c :: b) (or_introl eq_refl) eq_refl) as (val & b' & H1 & H2 & H3 & E).
    exists val, b'. repeat split; try assumption. intros t. unfold xa_value.
    change (zread ((c :: b) ++ 0 :: t) 0) with (CDone c). cbn [cbind].
    rewrite (proj2 (Z.eqb_neq _ _) N34), (proj2 (Z.eqb_neq _ _) N39). exact (E t).
Qed.

(** A round of the attribute loop on a string reads inside it and moves
    forward in it. *)
Lemma xa_round_total (s : list Z) (map : bmap) : Forall (fun c => c <> 0) s -> s <> [] ->
  exists s' map', (length s' < length s)%nat /\ Forall (fun c => c <> 0) s' /\
                  forall t, xa_round (s ++ 0 :: t) map = CDone (s' ++ 0 :: t, map').
Proof.
  intros Hs Hne. assert (Ls : (0 < length s)%nat) by (destruct s; [contradiction | cbn; lia]).
  destruct (span_cut xa_gap s eq_refl) as (a1 & b1 & E1 & S1).
  rewrite E1 in Hs. apply Forall_app_nz in Hs as (_ & Hb1).
  destruct (span_cut xa_key b1 eq_refl) as (a2 & b2 & E2 & S2).
  rewrite E2 in Hb1. apply Forall_app_nz in Hb1 as (_ & Hb2).
  destruct (span_cut xa_eq b2 eq_refl) as (a3 & b3 & E3 & S3).
  rewrite E3 in Hb2. apply Forall_app_nz in Hb2 as (_ & Hb3).
  destruct (xa_value_total b3 Hb3) as (val & b4 & Hv & Hb4 & L4 & V).
  destruct (xmlun_total [] (length (val ++ [0])) val (cbdatumopen (Some []) 0) Hv)
    as (d & U); [rewrite length_app; cbn; lia|].
  exists (tl b4), (if Nat.ltb 0 (length a2)
                   then fst (cbmapput map a2 (region (cbdatumtomalloc d ++ [0]) (-1)) false) else map).
  split; [|split].
  - rewrite E1, E2, E3, !length_app in Ls |- *. destruct b4; cbn [tl length] in *; lia.
  - destruct b4; cbn [tl]; [constructor | inversion Hb4; assumption].
  - intros t. unfold xa_round. rewrite S1. cbn [cbind]. rewrite E1, (proj2 (cut_at a1 b1 (0 :: t))).
    rewrite S2. cbn [cbind]. rewrite E2, (proj2 (cut_at a2 b2 (0 :: t))), (proj1 (cut_at a2 b2 (0 :: t))).
    rewrite S3. cbn [cbind]. rewrite E3, (proj2 (cut_at a3 b3 (0 :: t))), V. cbn [cbind fst snd].
    assert (Z5 : exists c, zread (b4 ++ 0 :: t) 0 = CDone c /\
                           (if c =? 0 then b4 ++ 0 :: t else skipn 1 (b4 ++ 0 :: t)) = tl b4 ++ 0 :: t).
    { destruct b4 as [|c4 b4']; [exists 0; split; reflexivity|]. exists c4. split; [reflexivity|].
      inversion Hb4. destruct (Z.eqb_spec c4 0); [contradiction | reflexivity]. }
    destruct Z5 as (c5 & -> & R5). cbn [cbind]. rewrite R5.
    destruct (Nat.ltb 0 (length a2)); [unfold cbxmlunescape; rewrite U; reflexivity | reflexivity].
Qed.

(** The attribute loop on a string reads inside it and returns within
    one round per byte and one more. *)
Lemma xa_loop_total (n : nat) : forall s map, (length s < n)%nat -> Forall (fun c => c <> 0) s ->
  exists map', forall t F, (length s < F)%nat -> xa_loop (s ++ 0 :: t) map F = CDone map'.
Proof.
  induction n as [|n IH]; intros s map Hn Hs; [lia|].
  destruct s as [|c s0].
  - exists map. intros t [|F] HF; [cbn in HF; lia | reflexivity].
  - destruct (xa_round_total (c :: s0) map Hs ltac:(discriminate)) as (s' & map' & L & Hs' & R).
    destruct (IH s' map' ltac:(lia) Hs') as (m2 & E). exists m2. intros t [|F] HF; [lia|].
    inversion Hs as [|? ? Hc _]. cbn [xa_loop]. change (zread ((c :: s0) ++ 0 :: t) 0) with (CDone c).
    cbn [cbind]. destruct (Z.eqb_spec c 0); [contradiction|]. rewrite R. cbn [cbind fst snd].
    apply E. lia.
Qed.

End AttrFacts.

(** ** Theorems *)

(** C15: [cbxmlbreak] of the text of well-formed tokens, no two text runs in a
    row, followed by the terminator: the list holds the tokens' bytes in
    order, each text run, tag and comment as one element, and the comments
    dropped when [cr] is set. *)
Theorem cbxmlbreak_tokens (toks : list xtok) (t : list Z) (cr : bool) :
  Forall tok_ok toks -> texts_apart toks ->
  exists l, cbxmlbreak (flat_map tok_bytes toks ++ 0 :: t) cr = CDone l /\ cl_ok l /\
            cl_view l = flat_map (tok_out cr) toks.
Proof.
  intros Hok Hap. unfold cbxmlbreak.
  destruct (xb_tokens (flat_map tok_bytes toks ++ 0 :: t) t cr toks [] [] cblistopen
              (S (length (flat_map tok_bytes toks ++ 0 :: t)))) as (l & E & L1 & L2);
    [reflexivity | left; reflexivity | exact Hok | exact Hap | apply cblistopen_ok | rewrite length_app; lia |].
  exists l. rewrite cblistopen_view in L2. auto.
Qed.

(** A comment that never ends: the text before it is pushed when the
    [<!--] is met, but the start of the pending run is not moved, so at
    the terminator the same text is pushed again, now followed by the
    unended comment. *)
Theorem cbxmlbreak_unterminated_comment (a b t : list Z) (cr : bool) :
  a <> [] -> Forall (fun c => c <> 0 /\ c <> 60) a -> Forall (fun c => c <> 0 /\ c <> 60 /\ c <> 62) b ->
  exists l, cbxmlbreak (a ++ [60; 33; 45; 45] ++ b ++ 0 :: t) cr = CDone l /\ cl_ok l /\
            cl_view l = [a; a ++ [60; 33; 45; 45] ++ b].
Proof.
  intros Ha Hab Hb. set (m := a ++ [60; 33; 45; 45] ++ b ++ 0 :: t). unfold cbxmlbreak.
  replace (S (length m)) with (Nat.add (length a) (S (Nat.add (length ([33; 45; 45] ++ b)) (S (S (length t))))))
    by (unfold m; rewrite !length_app; cbn [length]; lia).
  pose proof (xb_scan m [] a _ cr false 0 cblistopen (S (Nat.add (length ([33; 45; 45] ++ b)) (S (S (length t)))))
                eq_refl Hab) as S1. cbn [zlen length Z.of_nat] in S1. rewrite S1, Z.add_0_l.
  rewrite (xb_com_open m a (b ++ 0 :: t) cr 0 cblistopen _ eq_refl).
  destruct (push_run_pend m [] a ([60; 33; 45; 45] ++ b ++ 0 :: t) cblistopen eq_refl cblistopen_ok) as (P1 & P2).
  cbn [zlen length Z.of_nat] in P1, P2. rewrite Z.add_0_l in P1, P2.
  assert (N : strstr_at m (zlen a) COMMENT_END = CDone None).
  { unfold strstr_at, m. rewrite skipn_zlen_app, app_assoc, c_str_app.
    - cbn [cbind option_map]. rewrite strstr_no_end; [reflexivity|].
      apply Forall_app. split; [repeat constructor; lia|].
      exact (Forall_impl _ (fun c H => proj2 (proj2 H)) Hb).
    - apply Forall_app. split; [repeat constructor; lia|].
      exact (Forall_impl _ (fun c H => proj1 H) Hb). }
  rewrite N. cbn [cbind].
  replace (zlen a + 1) with (zlen (a ++ [60])) by (autorewrite with vl_rw; lia).
  rewrite (xb_scan m (a ++ [60]) ([33; 45; 45] ++ b) (0 :: t) cr false 0 _ _)
    by (first [unfold m; rewrite <- !app_assoc; reflexivity
              | apply Forall_app; split; [repeat constructor; lia | exact (Forall_impl _ (fun c H => conj (proj1 H) (proj1 (proj2 H))) Hb)]]).
  cbn [xb_loop]. rewrite <- zlen_app, (zread_at m ((a ++ [60]) ++ [33; 45; 45] ++ b) t 0)
    by (unfold m; rewrite <- !app_assoc; reflexivity). cbn [cbind Z.eqb].
  destruct (push_run_pend m [] (a ++ [60; 33; 45; 45] ++ b) (0 :: t) (push_run m 0 (zlen a) cblistopen))
    as (Q1 & Q2); [unfold m; rewrite <- !app_assoc; reflexivity | exact P1 |].
  cbn [zlen length Z.of_nat] in Q1, Q2. rewrite Z.add_0_l in Q1, Q2.
  replace (zlen (a ++ [60; 33; 45; 45] ++ b)) with (zlen ((a ++ [60]) ++ [33; 45; 45] ++ b)) in Q1, Q2
    by (autorewrite with vl_rw; lia).
  eexists. split; [reflexivity|]. split; [exact Q1|]. rewrite Q2, P2, cblistopen_view.
  destruct a; [contradiction | reflexivity].
Qed.

(** C26: [cbxmlattrs] of a tag a writer put: the name, then for each
    attribute a space, the key, [=] and what [cbxmlescape] wrote for its
    value between double quotes, the keys distinct: the map holds the name under the empty key and then each
    key with the C string [vi], in the order of the tag. *)
Theorem cbxmlattrs_tag (name : list Z) (attrs : list (list Z * list Z)) (t : list Z) :
  tag_name_ok name -> Forall attr_ok attrs -> NoDup (List.map fst attrs) ->
  cbxmlattrs (60 :: name ++ flat_map attr_bytes attrs ++ 62 :: 0 :: t) = CDone (([], name) :: attr_entries attrs).
Proof.
  intros (Hn & Hnc & Hh) Hok Hnd. unfold cbxmlattrs.
  assert (L : span xa_lead (60 :: name ++ flat_map attr_bytes attrs ++ 62 :: 0 :: t) = CDone 1%nat).
  { destruct name as [|c name]; [contradiction|]. cbn in Hh |- *. rewrite Hh. reflexivity. }
  rewrite L. cbn [cbind skipn].
  assert (N : span xa_name (name ++ flat_map attr_bytes attrs ++ 62 :: 0 :: t) = CDone (length name)).
  { destruct attrs as [|a attrs]; [exact (span_app _ _ _ 62 Hnc eq_refl)|].
    cbn [flat_map]. rewrite <- app_assoc. exact (span_app _ _ _ 32 Hnc eq_refl). }
  rewrite N. cbn [cbind]. rewrite skipn_len_app, firstn_len_app.
  assert (Hl : (length attrs <= length (flat_map attr_bytes attrs))%nat).
  { clear. induction attrs as [|a attrs IH]; [cbn; lia|]. cbn [flat_map]. rewrite length_app.
    unfold attr_bytes at 1. cbn [length]. cbn [length] in IH |- *. lia. }
  apply (xa_loop_attrs attrs t [([], name)]); [exact Hok | | cbn [length]; rewrite !length_app; cbn [length]; lia].
  cbn [cbmap_iter List.map fst]. constructor; [|exact Hnd].
  intros Hin. apply in_map_iff in Hin as ([k v] & Hk & Hin). cbn in Hk. subst k.
  rewrite Forall_forall in Hok. destruct (Hok _ Hin) as (H0 & _). contradiction.
Qed.

(** [cbxmlattrs] of any C string returns a map, reads nothing past the
    terminator (the map does not depend on the bytes after it) and never
    runs out of its bound. *)
Theorem cbxmlattrs_total (s : list Z) :
  Forall (fun c => c <> 0) s -> exists map, forall t, cbxmlattrs (s ++ 0 :: t) = CDone map.
Proof.
  intros Hs. destruct (span_cut xa_lead s eq_refl) as (a & b & E & S1).
  pose proof Hs as Hb. rewrite E in Hb. apply Forall_app_nz in Hb as (_ & Hb).
  destruct (span_cut xa_name b eq_refl) as (a' & b' & E' & S2).
  pose proof Hb as Hb'. rewrite E' in Hb'. apply Forall_app_nz in Hb' as (_ & Hb').
  destruct (xa_loop_total (S (length b')) b' (fst (cbmapput [] [] a' false)) ltac:(lia) Hb') as (m & L).
  exists m. intros t. unfold cbxmlattrs. rewrite S1. cbn [cbind]. rewrite E, (proj2 (cut_at a b (0 :: t))).
  rewrite S2. cbn [cbind]. rewrite E', (proj2 (cut_at a' b' (0 :: t))), (proj1 (cut_at a' b' (0 :: t))).
  apply L. rewrite !length_app. cbn [length]. lia.
Qed.

(** ** Witnesses *)

Definition xml_sample : list xtok := [XText [97]; XTag [98; 32; 99]; XCom [100]; XText [101]; XTag [47; 98]].

Lemma cbxmlbreak_tokens_witness :
  exists l, cbxmlbreak (flat_map tok_bytes xml_sample ++ [0]) true = CDone l /\ cl_ok l /\
            cl_view l = [[97]; [60; 98; 32; 99; 62]; [101]; [60; 47; 98; 62]].
Proof.
  apply (cbxmlbreak_tokens xml_sample [] true).
  - repeat apply Forall_cons; try apply Forall_nil; cbn [tok_ok hd];
      repeat split; try discriminate; repeat apply Forall_cons; try apply Forall_nil; lia.
  - cbn. repeat split; discriminate.
Defined.

Lemma cbxmlbreak_unterminated_comment_witness :
  exists l, cbxmlbreak ([97] ++ [60; 33; 45; 45] ++ [98] ++ [0]) false = CDone l /\ cl_ok l /\
            cl_view l = [[97]; [97; 60; 33; 45; 45; 98]].
Proof.
  apply (cbxmlbreak_unterminated_comment [97] [98] [] false);
    [discriminate | repeat constructor; lia | repeat constructor; lia].
Defined.

Definition attrs_sample : list (list Z * list Z) := [([98], [120; 38; 121]); ([99], [34])].

Lemma cbxmlattrs_tag_witness :
  cbxmlattrs (60 :: [97] ++ flat_map attr_bytes attrs_sample ++ 62 :: 0 :: []) =
  CDone [([], [97]); ([98], [120; 38; 121]); ([99], [34])].
Proof.
  apply (cbxmlattrs_tag [97] attrs_sample []).
  - split; [discriminate | split; [repeat constructor | reflexivity]].
  - repeat apply Forall_cons; try apply Forall_nil;
      (split; [discriminate | split; [repeat constructor | cbn; lia]]).
  - cbn. constructor; [intros [H|[]]; discriminate | constructor; [intros [] | constructor]].
Defined.

Lemma cbxmlattrs_total_witness :
  exists map, forall t, cbxmlattrs ([60; 97; 32; 98; 61; 34; 120] ++ 0 :: t) = CDone map.
Proof. apply (cbxmlattrs_total [60; 97; 32; 98; 61; 34; 120]). repeat (apply Forall_cons; [lia|]). apply Forall_nil. Defined.
