(* ===== verification/CbUrl.v ===== *)
(** * CbUrl: breaking a URL into its elements

    [cburlbreak] (cabin.c 1403-1479) skips the white space before the
    URL, copies the rest of the string ([cbmemdup]), cuts the copy at its
    first white space, and then cuts it further in place ([*ep = '\0'])
    at the [#], the [?], the first [/] of the path, the [@] and the [:]
    of a server, putting each element into a new map with [cbmapput]
    overwriting.  The copy is modelled as a buffer [tmp] with its
    terminator and the writes into it; [rp] and [ep] are indexes into it;
    [strchr] and [strrchr] by their contracts.  The theorems show that the
    elements of an http URL come back, and that a string of white space
    only makes [cburlbreak] parse the bytes after its terminator: the
    [strchr] of the first loop finds the terminator in its set. *)

From Stdlib Require Import ZArith Lia List Bool.
From S2P Require Import Prelude Varint Codec Cache CbList CbCodec CbStr CbMapSer CbXml.
Import ListNotations.
Open Scope Z_scope.
Open Scope vl_scope.
Open Scope cres_scope.

(** ** Definitions *)

(** [" \t\r\n\v\f"]: the white space of the two loops. *)
Definition WS : list Z := [32; 9; 13; 10; 11; 12].

(** [strchr(" \t\r\n\v\f", c) != NULL]: the terminator of the set is
    found as well, so the test holds for [c = 0]. *)
Definition strchr_ws (c : Z) : bool := existsb (Z.eqb c) (WS ++ [0]).

(** The loop of line 1411 over the memory from [rp]. *)
Fixpoint ws_skip (m : list Z) : cres (list Z) :=
  match m with
  | [] => COob
  | c :: r => if strchr_ws c then ws_skip r else CDone m
  end.

(** The loop of lines 1415-1420: the index of the first white space
    before the terminator. *)
Fixpoint find_ws (l : list Z) : option nat :=
  match l with
  | [] => None
  | c :: r => if c =? 0 then None else if strchr_ws c then Some O else option_map S (find_ws r)
  end.

(** [tmp[i] = '\0']. *)
Definition ws_cut (tmp : list Z) : list Z :=
  match find_ws tmp with Some i => list_set tmp i 0 | None => tmp end.

(** [strchr(s, c)] for [c <> 0]: the offset of the first [c] before the
    terminator. *)
Fixpoint strchr_from (l : list Z) (c : Z) : option nat :=
  match l with
  | [] => None
  | x :: r => if x =? 0 then None else if x =? c then Some O else option_map S (strchr_from r c)
  end.

(** [strchr(tmp + k, c)] as an index of the buffer. *)
Definition strchr_at (tmp : list Z) (k : nat) (c : Z) : option nat :=
  option_map (fun j => (k + j)%nat) (strchr_from (skipn k tmp) c).

(** [strrchr(s, c)] on a C string held without its terminator. *)
Fixpoint strrchr_from (l : list Z) (c : Z) : option nat :=
  match l with
  | [] => None
  | x :: r => match strrchr_from r c with
              | Some j => Some (S j)
              | None => if x =? c then Some O else None
              end
  end.

(** The C string at [tmp + k]. *)
Definition cstr_at (tmp : list Z) (k : nat) : list Z := take_cstr (skipn k tmp).

(** The keys and constant values of the map. *)
Definition K_self : list Z := [115; 101; 108; 102].
Definition K_scheme : list Z := [115; 99; 104; 101; 109; 101].
Definition K_fragment : list Z := [102; 114; 97; 103; 109; 101; 110; 116].
Definition K_query : list Z := [113; 117; 101; 114; 121].
Definition K_path : list Z := [112; 97; 116; 104].
Definition K_authority : list Z := [97; 117; 116; 104; 111; 114; 105; 116; 121].
Definition K_port : list Z := [112; 111; 114; 116].
Definition K_host : list Z := [104; 111; 115; 116].
Definition K_file : list Z := [102; 105; 108; 101].
Definition V_http : list Z := [104; 116; 116; 112].
Definition V_https : list Z := [104; 116; 116; 112; 115].
Definition V_ftp : list Z := [102; 116; 112].
Definition V_file : list Z := [102; 105; 108; 101].

(** The prefixes [cbstrfwimatch] tests, with their terminators. *)
Definition P_http : list Z := [104; 116; 116; 112; 58; 47; 47; 0].
Definition P_https : list Z := [104; 116; 116; 112; 115; 58; 47; 47; 0].
Definition P_ftp : list Z := [102; 116; 112; 58; 47; 47; 0].
Definition P_file : list Z := [102; 105; 108; 101; 58; 47; 47; 0].

(** [cbmapput(map, key, -1, val, -1, TRUE)]. *)
Definition put (m : bmap) (k v : list Z) : bmap := fst (cbmapput m k v true).

(** Lines 1424-1439: the scheme, the index [rp] moves to and [serv]. *)
Definition url_scheme (tmp : list Z) (m : bmap) : cres (bmap * nat * bool) :=
  let? h := cbstrfwimatch tmp P_http in
  if h then CDone (put m K_scheme V_http, 7%nat, true) else
  let? hs := cbstrfwimatch tmp P_https in
  if hs then CDone (put m K_scheme V_https, 8%nat, true) else
  let? f := cbstrfwimatch tmp P_ftp in
  if f then CDone (put m K_scheme V_ftp, 6%nat, true) else
  let? fi := cbstrfwimatch tmp P_file in
  if fi then CDone (put m K_scheme V_file, 7%nat, false) else CDone (m, O, false).

(** Lines 1440-1447: [if((ep = strchr(rp, c)) != NULL){ cbmapput(map,
    key, -1, ep + 1, -1, TRUE); *ep = '\0'; }]. *)
Definition url_cut (tmp : list Z) (rp : nat) (c : Z) (key : list Z) (m : bmap) : list Z * bmap :=
  match strchr_at tmp rp c with
  | Some e => (list_set tmp e 0, put m key (cstr_at tmp (S e)))
  | None => (tmp, m)
  end.

(** Lines 1449-1454: the path of a server URL, from its first [/]. *)
Definition url_path (tmp : list Z) (rp : nat) (m : bmap) : list Z * bmap :=
  match strchr_at tmp rp 47 with
  | Some e => (list_set tmp e 0, put m K_path (cstr_at tmp e))
  | None => (tmp, put m K_path [47])
  end.

(** Lines 1455-1459: the authority before an [@]; [rp] moves past it. *)
Definition url_auth (tmp : list Z) (rp : nat) (m : bmap) : list Z * nat * bmap :=
  match strchr_at tmp rp 64 with
  | Some e =>
      let tmp := list_set tmp e 0 in
      (tmp, S e, if nth rp tmp 0 =? 0 then m else put m K_authority (cstr_at tmp rp))
  | None => (tmp, rp, m)
  end.

(** Lines 1460-1463: the port after a [:]. *)
Definition url_port (tmp : list Z) (rp : nat) (m : bmap) : list Z * bmap :=
  match strchr_at tmp rp 58 with
  | Some e => (list_set tmp e 0, if nth (S e) tmp 0 =? 0 then m else put m K_port (cstr_at tmp (S e)))
  | None => (tmp, m)
  end.

(** Lines 1448-1467: the server elements, or the whole rest as the path. *)
Definition url_rest (tmp : list Z) (rp : nat) (serv : bool) (m : bmap) : bmap :=
  if serv then
    let '(tmp, m) := url_path tmp rp m in
    let '(tmp, rp, m) := url_auth tmp rp m in
    let '(tmp, m) := url_port tmp rp m in
    if nth rp tmp 0 =? 0 then m else put m K_host (cstr_at tmp rp)
  else put m K_path (cstr_at tmp rp).

(** Lines 1469-1477: the file, the part of the path after its last [/],
    unless it is empty, [.] or [..]. *)
Definition url_file (m : bmap) : bmap :=
  let m := match cbmapget m K_path with
           | Some p =>
               match strrchr_from p 47 with
               | Some e => if nth (S e) p 0 =? 0 then m else put m K_file (skipn (S e) p)
               | None => put m K_file p
               end
           | None => m
           end in
  match cbmapget m K_file with
  | Some f => if bytes_eqb f [46] || bytes_eqb f [46; 46] then fst (cbmapout m K_file) else m
  | None => m
  end.

(** [cburlbreak] over the memory from [str]. *)
Definition cburlbreak (str : list Z) : cres bmap :=
  let? r := ws_skip str in
  let? s := c_str r in
  let tmp := ws_cut (s ++ [0]) in
  let m := put [] K_self (cstr_at tmp 0) in
  let? sc := url_scheme tmp m in
  let '(m, rp, serv) := sc in
  let '(tmp, m) := url_cut tmp rp 35 K_fragment m in
  let '(tmp, m) := url_cut tmp rp 63 K_query m in
  CDone (url_file (url_rest tmp rp serv m)).

(** ** Lemmas *)

(** The bytes of an element: no terminator, no white space, none of
    [stops]. *)
Definition avoids (stops x : list Z) : Prop :=
  Forall (fun c => c <> 0 /\ existsb (Z.eqb c) (WS ++ stops) = false) x.

(** An http URL from its elements: host, path after its first [/], query
    and fragment. *)
Definition http_url (host p q f : list Z) : list Z :=
  [104; 116; 116; 112; 58; 47; 47] ++ host ++ 47 :: p ++ 63 :: q ++ 35 :: f.

(** Bring a list expression to right-nested appends and conses. *)
Ltac app_norm := repeat progress (rewrite <- ?app_assoc; cbn [app]).

(** Split a [Forall] over appends and conses into its parts. *)
Ltac forall_parts :=
  repeat match goal with
  | |- Forall _ (_ ++ _) => apply Forall_app; split
  | |- Forall _ (_ :: _) => apply Forall_cons
  | |- Forall _ [] => apply Forall_nil
  end.

Section UrlFacts.

Lemma put_get (m : bmap) (k v k' : list Z) :
  cbmapget (put m k v) k' = if keqb k k' then Some v else cbmapget m k'.
Proof.
  unfold put, cbmapput. destruct (cbmapget m k) as [old|] eqn:E.
  - apply cbmap_replace_get, (cbmapget_In _ _ _ E).
  - cbn [fst]. rewrite cbmapget_app. cbn [cbmapget].
    destruct (keqb_spec k k') as [<-|Hk]; [rewrite E; reflexivity | destruct (cbmapget m k'); reflexivity].
Qed.

Lemma out_get (m : bmap) (k k' : list Z) :
  cbmap_ok m -> cbmapget (fst (cbmapout m k)) k' = if keqb k k' then None else cbmapget m k'.
Proof.
  intros Hok. unfold cbmapout. destruct (cbmapget m k) eqn:E; [apply cbmap_unlink_get, Hok|].
  cbn [fst]. destruct (keqb_spec k k') as [<-|]; [exact E | reflexivity].
Qed.

Lemma url_file_get (m : bmap) (k : list Z) :
  cbmap_ok m -> keqb K_file k = false -> cbmapget (url_file m) k = cbmapget m k.
Proof.
  intros Hok Hk. unfold url_file.
  assert (P : forall v, cbmap_ok (put m K_file v) /\ cbmapget (put m K_file v) k = cbmapget m k)
    by (intros v; split; [apply put_ok, Hok | rewrite put_get, Hk; reflexivity]).
  match goal with |- context [match ?x with Some f => _ | None => _ end] =>
    match x with cbmapget ?m1 K_file => set (m2 := m1) end end.
  assert (H1 : cbmap_ok m2 /\ cbmapget m2 k = cbmapget m k).
  { unfold m2. destruct (cbmapget m K_path) as [p|]; [|auto].
    destruct (strrchr_from p 47) as [e|]; [destruct (nth (S e) p 0 =? 0)|]; auto. }
  destruct H1 as (H1 & H2). destruct (cbmapget m2 K_file); [|exact H2].
  destruct (_ || _); [rewrite out_get, Hk by exact H1|]; exact H2.
Qed.

Lemma strchr_from_app (x y : list Z) (c : Z) :
  c <> 0 -> Forall (fun b => b <> 0 /\ b <> c) x -> strchr_from (x ++ c :: y) c = Some (length x).
Proof.
  intros Hc. induction 1 as [|b x (Hb0 & Hbc) _ IH]; cbn [app strchr_from length].
  - destruct (Z.eqb_spec c 0); [contradiction|]. rewrite Z.eqb_refl. reflexivity.
  - destruct (Z.eqb_spec b 0); [contradiction|]. destruct (Z.eqb_spec b c); [contradiction|].
    rewrite IH. reflexivity.
Qed.

Lemma strchr_from_none (x y : list Z) (c : Z) :
  Forall (fun b => b <> 0 /\ b <> c) x -> strchr_from (x ++ 0 :: y) c = None.
Proof.
  induction 1 as [|b x (Hb0 & Hbc) _ IH]; cbn [app strchr_from]; [reflexivity|].
  destruct (Z.eqb_spec b 0); [contradiction|]. destruct (Z.eqb_spec b c); [contradiction|].
  rewrite IH. reflexivity.
Qed.

Lemma ws_skip_app (s r : list Z) : Forall (fun c => In c WS) s -> ws_skip (s ++ r) = ws_skip r.
Proof.
  induction 1 as [|c s Hc _ IH]; [reflexivity|]. cbn [app ws_skip].
  replace (strchr_ws c) with true; [exact IH|].
  symmetry. apply existsb_exists. exists c. split; [apply in_or_app; left; exact Hc | apply Z.eqb_refl].
Qed.

Lemma avoids_ws (stops x : list Z) : avoids stops x -> Forall (fun b => b <> 0 /\ strchr_ws b = false) x.
Proof.
  apply Forall_impl. intros b (H0 & H). split; [exact H0|]. unfold strchr_ws.
  rewrite existsb_app in *. apply orb_false_iff in H as (H & _). rewrite H. cbn.
  destruct (Z.eqb_spec b 0); [contradiction | reflexivity].
Qed.

Lemma avoids_stop (stops x : list Z) (c : Z) : In c stops -> avoids stops x -> Forall (fun b => b <> 0 /\ b <> c) x.
Proof.
  intros Hc. apply Forall_impl. intros b (H0 & H). split; [exact H0|]. intros ->.
  assert (T : existsb (Z.eqb c) (WS ++ stops) = true)
    by (apply existsb_exists; exists c; split; [apply in_or_app; right; exact Hc | apply Z.eqb_refl]).
  congruence.
Qed.

Lemma find_ws_none (u y : list Z) : Forall (fun b => b <> 0 /\ strchr_ws b = false) u -> find_ws (u ++ 0 :: y) = None.
Proof.
  induction 1 as [|b u (H0 & Hw) _ IH]; [reflexivity|]. cbn [app find_ws].
  destruct (Z.eqb_spec b 0); [contradiction|]. rewrite Hw, IH. reflexivity.
Qed.

Lemma list_set_at (x y : list Z) (a b : Z) : list_set (x ++ a :: y) (length x) b = x ++ b :: y.
Proof. unfold list_set. rewrite firstn_len_app. f_equal. f_equal. induction x; [reflexivity | exact IHx]. Qed.

Lemma cstr_at_app (x y z : list Z) : Forall (fun b => b <> 0) y -> cstr_at (x ++ y ++ 0 :: z) (length x) = y.
Proof. intros Hy. unfold cstr_at. rewrite skipn_len_app. apply take_cstr_app, Hy. Qed.

Lemma strchr_at_app (x y : list Z) (k : nat) (c : Z) :
  c <> 0 -> (k <= length x)%nat -> Forall (fun b => b <> 0 /\ b <> c) (skipn k x) ->
  strchr_at (x ++ c :: y) k c = Some (length x).
Proof.
  intros Hc Hk Hx. unfold strchr_at. rewrite skipn_app. replace (k - length x)%nat with O by lia.
  cbn [skipn]. rewrite strchr_from_app by assumption. cbn [option_map]. rewrite length_skipn. f_equal. lia.
Qed.

Lemma strchr_at_none (x y : list Z) (k : nat) (c : Z) :
  (k <= length x)%nat -> Forall (fun b => b <> 0 /\ b <> c) (skipn k x) -> strchr_at (x ++ 0 :: y) k c = None.
Proof.
  intros Hk Hx. unfold strchr_at. rewrite skipn_app. replace (k - length x)%nat with O by lia.
  cbn [skipn]. rewrite strchr_from_none by exact Hx. reflexivity.
Qed.

(** A cut at a [c] that [strchr] finds: the element after it is put and
    the [c] overwritten by a terminator. *)
Lemma url_cut_hit (x y z : list Z) (k : nat) (c : Z) (key : list Z) (m : bmap) :
  c <> 0 -> (k <= length x)%nat -> Forall (fun b => b <> 0 /\ b <> c) (skipn k x) -> Forall (fun b => b <> 0) y ->
  url_cut (x ++ c :: y ++ 0 :: z) k c key m = (x ++ 0 :: y ++ 0 :: z, put m key y).
Proof.
  intros Hc Hk Hx Hy. unfold url_cut. rewrite strchr_at_app by assumption.
  rewrite list_set_at. f_equal. f_equal. unfold cstr_at. rewrite skipn_app.
  replace (S (length x) - length x)%nat with 1%nat by lia. rewrite skipn_all2 by lia. apply take_cstr_app, Hy.
Qed.

Lemma url_path_hit (x y z : list Z) (k : nat) (m : bmap) :
  (k <= length x)%nat -> Forall (fun b => b <> 0 /\ b <> 47) (skipn k x) -> Forall (fun b => b <> 0) y ->
  url_path (x ++ 47 :: y ++ 0 :: z) k m = (x ++ 0 :: y ++ 0 :: z, put m K_path (47 :: y)).
Proof.
  intros Hk Hx Hy. unfold url_path. rewrite strchr_at_app by (lia || assumption).
  rewrite list_set_at. f_equal. f_equal. unfold cstr_at. rewrite skipn_len_app. cbn [take_cstr Z.eqb Pos.eqb].
  f_equal. apply take_cstr_app, Hy.
Qed.

End UrlFacts.

(** ** Theorems *)

(** C27: [cburlbreak] of an http URL, after white space and before a white
    space or the terminator, whose host has none of [/ ? # @ :], whose
    path has no [?] or [#] and whose query has no [#]: the map holds the
    URL as [self], the scheme, the host, the path, the query and the
    fragment, and neither an authority nor a port. *)
Theorem cburlbreak_http (lead host p q f t : list Z) :
  Forall (fun c => In c WS) lead -> host <> [] -> avoids [47; 63; 35; 64; 58] host ->
  avoids [63; 35] p -> avoids [35] q -> avoids [] f ->
  exists m, cburlbreak (lead ++ http_url host p q f ++ 0 :: t) = CDone m /\
    cbmapget m K_self = Some (http_url host p q f) /\ cbmapget m K_scheme = Some V_http /\
    cbmapget m K_host = Some host /\ cbmapget m K_path = Some (47 :: p) /\
    cbmapget m K_query = Some q /\ cbmapget m K_fragment = Some f /\
    cbmapget m K_authority = None /\ cbmapget m K_port = None.
Proof.
  intros Hl Hh0 Hh Hp Hq Hf. set (P7 := [104; 116; 116; 112; 58; 47; 47]). set (u := http_url host p q f).
  assert (Lit : forall c, In c [104; 116; 116; 112; 58; 47; 63; 35] -> c <> 0 /\ strchr_ws c = false)
    by (intros c Hc; repeat destruct Hc as [<-|Hc]; [..|destruct Hc]; split; (lia || reflexivity)).
  assert (U : Forall (fun b => b <> 0 /\ strchr_ws b = false) u).
  { unfold u, http_url. forall_parts; try (apply Lit; cbn; tauto); eapply avoids_ws; eassumption. }
  assert (Unz : Forall (fun b => b <> 0) u) by exact (Forall_impl _ (fun b H => proj1 H) U).
  unfold cburlbreak. rewrite ws_skip_app by exact Hl.
  replace (ws_skip (u ++ 0 :: t)) with (CDone (u ++ 0 :: t)) by reflexivity. cbn [cbind].
  rewrite c_str_app by exact Unz. cbn [cbind]. unfold ws_cut. rewrite find_ws_none by exact U.
  replace (cstr_at (u ++ [0]) 0) with u by (symmetry; apply take_cstr_app, Unz).
  replace (url_scheme (u ++ [0]) _) with (CDone (put (put [] K_self u) K_scheme V_http, 7%nat, true))
    by reflexivity. cbn [cbind].
  pose proof (avoids_ws _ _ Hf) as Ff. pose proof (Forall_impl _ (fun b H => proj1 H) Ff) as Fnz.
  assert (Sk : forall Y, skipn 7 (P7 ++ Y) = Y) by reflexivity.
  assert (L7 : forall Y, (7 <= length (P7 ++ Y))%nat) by (intros Y; rewrite length_app; cbn; lia).
  (* the fragment *)
  replace (u ++ [0]) with ((P7 ++ host ++ 47 :: p ++ 63 :: q) ++ 35 :: f ++ 0 :: [])
    by (unfold u, http_url; app_norm; reflexivity).
  rewrite url_cut_hit; [cbn beta iota| lia | apply L7 | rewrite Sk | exact Fnz].
  2:{ forall_parts; try (split; lia); (eapply avoids_stop; [|eassumption]); cbn; tauto. }
  (* the query *)
  replace ((P7 ++ host ++ 47 :: p ++ 63 :: q) ++ 0 :: f ++ [0]) with ((P7 ++ host ++ 47 :: p) ++ 63 :: q ++ 0 :: f ++ [0])
    by (app_norm; reflexivity).
  rewrite url_cut_hit; [cbn beta iota| lia | apply L7 | rewrite Sk | exact (Forall_impl _ (fun b H => proj1 H) (avoids_ws _ _ Hq))].
  2:{ forall_parts; try (split; lia); (eapply avoids_stop; [|eassumption]); cbn; tauto. }
  (* the server *)
  unfold url_rest. replace ((P7 ++ host ++ 47 :: p) ++ 0 :: q ++ 0 :: f ++ [0]) with ((P7 ++ host) ++ 47 :: p ++ 0 :: q ++ 0 :: f ++ [0])
    by (app_norm; reflexivity).
  rewrite url_path_hit; [cbn beta iota | apply L7 | rewrite Sk; eapply avoids_stop; [|exact Hh]; cbn; tauto
                        | exact (Forall_impl _ (fun b H => proj1 H) (avoids_ws _ _ Hp))].
  set (Z0 := p ++ 0 :: q ++ 0 :: f ++ [0]).
  assert (Hz : Forall (fun b => b <> 0) host) by exact (Forall_impl _ (fun b H => proj1 H) (avoids_ws _ _ Hh)).
  unfold url_auth. rewrite strchr_at_none by (apply L7 || (rewrite Sk; eapply avoids_stop; [|exact Hh]; cbn; tauto)).
  cbn beta iota.
  unfold url_port. rewrite strchr_at_none by (apply L7 || (rewrite Sk; eapply avoids_stop; [|exact Hh]; cbn; tauto)).
  cbn beta iota.
  assert (N : (nth 7 ((P7 ++ host) ++ 0 :: Z0) 0 =? 0) = false).
  { destruct host as [|h0 host']; [contradiction|]. inversion Hz. apply Z.eqb_neq. assumption. }
  rewrite N, <- app_assoc.
  replace (cstr_at (P7 ++ host ++ 0 :: Z0) 7) with host by (symmetry; exact (cstr_at_app P7 host Z0 Hz)).
  eexists. split; [reflexivity|].
  assert (Ok : cbmap_ok (put (put (put (put (put (put [] K_self u) K_scheme V_http) K_fragment f) K_query q)
                                   K_path (47 :: p)) K_host host))
    by (repeat apply put_ok; constructor).
  rewrite !url_file_get by (exact Ok || reflexivity). rewrite !put_get. repeat split; reflexivity.
Qed.

(** A string of white space only, the empty string included: the first
    loop passes its terminator, which [strchr] finds in its set, and
    [cburlbreak] parses the bytes after the string as the URL. *)
Theorem cburlbreak_blank_reads_past (s t : list Z) :
  Forall (fun c => In c WS) s -> cburlbreak (s ++ 0 :: t) = cburlbreak t.
Proof. intros Hs. unfold cburlbreak. rewrite ws_skip_app by exact Hs. reflexivity. Qed.

(** ** Witnesses *)

Lemma cburlbreak_http_witness :
  exists m, cburlbreak ([32] ++ http_url [104] [97] [120] [121] ++ 0 :: []) = CDone m /\
            cbmapget m K_host = Some [104] /\ cbmapget m K_path = Some [47; 97].
Proof.
  destruct (cburlbreak_http [32] [104] [97] [120] [121] [])
    as (m & E & _ & _ & H & P & _); [repeat constructor | discriminate | ..];
    try (repeat (apply Forall_cons; [split; [lia | reflexivity]|]); apply Forall_nil).
  exists m. auto.
Defined.

Lemma cburlbreak_blank_reads_past_witness : cburlbreak ([32] ++ 0 :: [104; 0]) = cburlbreak [104; 0].
Proof. apply cburlbreak_blank_reads_past. repeat constructor. Defined.
