(* ===== verification/CbMime.v ===== *)
(** * CbMime: the MIME functions of cabin.c

    [cbmimeencode] (cabin.c 1882-1894) writes an encoded word
    [=?charset?B?...?=] or [=?charset?Q?...?=] with [cbbaseencode] or
    [cbquoteencode] into a buffer of [len * 3 + strlen(encname) + 16]
    bytes; [cbmimedecode] (cabin.c 1898-1934) copies a string, decoding
    each encoded word with [cbbasedecode] or [cbquotedecode].  Strings are
    the memory from their pointers, as in [CbStr]; a read past the memory
    is [COob], and so is a write past a buffer.  The theorems show that
    the encoder stays inside its buffer, that the decoder gives back what
    the encoder wrote in Base64, and in Q for strings without [?], and
    that a [?] in a Q-encoded string cuts the word short.  [cbmimeparts]
    (cabin.c 1844-1878) finds the first boundary ([mp_first]) and splits
    the rest at the following ones ([mp_rest]); the theorems show that
    the parts of a multipart body come back in order, and that a region
    ending in a lone [-] makes it read the byte after the region. *)

From Stdlib Require Import ZArith Lia List Bool.
From S2P Require Import Prelude Varint Codec Cache CbList CbCodec CbStr CbSplit CbXml.
Import ListNotations.
Open Scope Z_scope.
Open Scope vl_scope.
Open Scope cres_scope.

(** ** Definitions *)

Definition CB_ENCBUFSIZ : Z := 32.

(** [cbmimeencode]: the encoded word, or [COob] when it and its
    terminator do not fit the buffer. *)
Definition cbmimeencode (str encname : list Z) (base : bool) : cres (list Z) :=
  let? s := c_str str in
  let? e := c_str encname in
  let enc := if base then cbbaseencode str (zlen s) else cbquoteencode str (zlen s) in
  let out := [61; 63] ++ e ++ [63; if base then 66 else 81; 63] ++ take_cstr enc ++ [63; 61] in
  if zlen s * 3 + zlen e + 16 <? zlen out + 1 then COob else CDone out.

(** [strchr(s, c)] over the memory from [s], for [c <> 0]. *)
Fixpoint strchr_mem (m : list Z) (c : Z) : cres (option nat) :=
  match m with
  | [] => COob
  | x :: r => if x =? c then CDone (Some O) else if x =? 0 then CDone None
              else let? k := strchr_mem r c in CDone (option_map S k)
  end.

(** [if( *pv != '\0') pv++;] *)
Definition skip_nz (m : list Z) : cres (list Z) :=
  let? c := zread m 0 in CDone (if c =? 0 then m else skipn 1 m).

(** The decoder of an encoded word: [cbquotedecode] or [cbbasedecode] of
    the copy [cbmemdup] makes. *)
Definition mdec_word (quoted : bool) (tmp : list Z) : cres (list Z) :=
  if quoted then cbquotedecode tmp
  else match cbbasedecode tmp with Some r => r | None => CAbort end.

(** The [while( *str != '\0')] loop of [cbmimedecode]: the memory from
    [str], the bytes written so far and the content of [enp] when it is
    given.  A round reads a byte at least, so the length of the memory is
    enough rounds. *)
Fixpoint mdec_loop (m : list Z) (acc : list Z) (enp : option (list Z)) (fuel : nat)
  : cres (list Z * option (list Z)) :=
  match fuel with
  | O => CDone (acc, enp)
  | S f =>
      match m with
      | [] => COob
      | c :: r =>
          if c =? 0 then CDone (acc, enp)
          else if cbstrfwmatch m [61; 63] then
            let m2 := skipn 2 m in
            let? ep := strchr_mem m2 63 in
            match ep with
            | None => mdec_loop m2 acc enp f
            | Some k =>
                let enp := match enp with
                           | Some _ => if Z.of_nat k <? CB_ENCBUFSIZ then Some (firstn k m2) else enp
                           | None => None
                           end in
                let pv := skipn (S k) m2 in
                let? q := zread pv 0 in
                let quoted := (q =? 81) || (q =? 113) in
                let? pv := skip_nz pv in
                let? pv := skip_nz pv in
                let? ep2 := strchr_mem pv 63 in
                match ep2 with
                | None => mdec_loop m2 acc enp f
                | Some k2 =>
                    let? dec := mdec_word quoted (firstn k2 pv ++ [0]) in
                    let? str := skip_nz (skipn (S k2) pv) in
                    mdec_loop str (acc ++ take_cstr dec) enp f
                end
            end
          else mdec_loop r (acc ++ [c]) enp f
      end
  end.

(** [cbmimedecode]: the decoded string and what [enp] holds, [COob] when
    the string and its terminator do not fit the [strlen(str) + 1] bytes
    of the buffer.  [enp] starts as ["US-ASCII"]. *)
Definition cbmimedecode (str : list Z) (enp : bool) : cres (list Z * option (list Z)) :=
  let? s := c_str str in
  let? r := mdec_loop str [] (if enp then Some [85; 83; 45; 65; 83; 67; 73; 73] else None) (S (length str)) in
  if zlen s + 1 <? zlen (fst r) + 1 then COob else CDone r.

(** [ptr[i] == '-' && ptr[i+1] == '-' && i + 2 + blen < size &&
    cbstrfwmatch(ptr + i + 2, boundary)], read over the memory from [ptr]. *)
Definition mp_match (m : list Z) (i size : Z) (b : list Z) : cres bool :=
  let? c := zread m i in
  if c =? 45 then
    let? c1 := zread m (i + 1) in
    if c1 =? 45 then CDone ((i + 2 + zlen b <? size) && cbstrfwmatch (skipn (Z.to_nat (i + 2)) m) b)
    else CDone false
  else CDone false.

(** [if( *pv == '\r') pv++; if( *pv == '\n') pv++;] *)
Definition skip_crlf (m : list Z) (pv : Z) : cres Z :=
  let? c := zread m pv in
  let pv := if c =? 13 then pv + 1 else pv in
  let? c := zread m pv in CDone (if c =? 10 then pv + 1 else pv).

(** [if(ep > ptr && ep[-1] == c) ep--;] *)
Definition back_if (m : list Z) (ep c : Z) : cres Z :=
  if 0 <? ep then let? x := zread m (ep - 1) in CDone (if x =? c then ep - 1 else ep) else CDone ep.

(** The first loop of [cbmimeparts] (cabin.c 1853-1863): where the first
    part starts, after the first boundary and its line break. *)
Fixpoint mp_first (m : list Z) (size : Z) (b : list Z) (i : Z) (fuel : nat) : cres (option Z) :=
  match fuel with
  | O => CDone None
  | S f =>
      if i <? size then
        let? t := mp_match m i size b in
        if t then let? pv := skip_crlf m (i + 2 + zlen b) in CDone (Some pv)
        else mp_first m size b (i + 1) f
      else CDone None
  end.

(** The second loop (cabin.c 1865-1876) over the memory from the first
    part: each boundary ends the part from [pv], its line break taken
    off, and starts the next one. *)
Fixpoint mp_rest (m : list Z) (size : Z) (b : list Z) (i pv : Z) (l : CBLIST) (fuel : nat) : cres CBLIST :=
  match fuel with
  | O => CDone l
  | S f =>
      if i <? size then
        let? t := mp_match m i size b in
        if t then
          let? ep := back_if m i 10 in
          let? ep := back_if m ep 13 in
          let l := cblistpush l (skipn (Z.to_nat pv) m) (ep - pv) in
          let? pv := skip_crlf m (i + 2 + zlen b) in
          mp_rest m size b (i + 1) pv l f
        else mp_rest m size b (i + 1) pv l f
      else CDone l
  end.

(** [cbmimeparts] (cabin.c 1844-1878) over the memory from [ptr] and from
    [boundary]; a negative [size] is the [strlen] of [ptr]. *)
Definition cbmimeparts (m : list Z) (size : Z) (bnd : list Z) : cres CBLIST :=
  let? size := if size <? 0 then let? s := c_str m in CDone (zlen s) else CDone size in
  let? b := c_str bnd in
  let? pv := mp_first m size b 0 (Z.to_nat size) in
  match pv with
  | None => CDone cblistopen
  | Some pv => mp_rest (skipn (Z.to_nat pv) m) (size - pv) b 0 0 cblistopen (Z.to_nat (size - pv))
  end.

(** ** Lemmas *)

(** The encoded word [cbmimeencode] writes for a string [s]. *)
Definition encoded_word (e : list Z) (base : bool) (s : list Z) : list Z :=
  [61; 63] ++ e ++ [63; if base then 66 else 81; 63] ++
  (if base then b64enc s else flat_map (fun c => if qp_escaped c then 61 :: hex2 c else [c]) s) ++ [63; 61].

(** A multipart body: a preamble, the first boundary line, then each part
    introduced by a line break and closed by a line break and a boundary,
    and the closing [--]. *)
Fixpoint mp_units (b : list Z) (ps : list (list Z)) : list Z :=
  match ps with
  | [] => []
  | p :: ps => [13; 10] ++ p ++ [13; 10; 45; 45] ++ b ++ mp_units b ps
  end.

Definition mime_body (pre b : list Z) (ps : list (list Z)) : list Z :=
  pre ++ [45; 45] ++ b ++ mp_units b ps ++ [45; 45].

Section MimeFacts.

(** What the table gives is never a [?]: a letter, a digit, [+], [/] or
    the default zero. *)
Lemma tbl_not_q (n : Z) : tbl n <> 63.
Proof.
  unfold tbl, znth. destruct (nth_in_or_default (Z.to_nat n) b64tbl 0) as [H|H]; [|rewrite H; lia].
  intros E. rewrite E in H. assert (N : existsb (Z.eqb 63) b64tbl = false) by reflexivity.
  assert (T : existsb (Z.eqb 63) b64tbl = true) by (apply existsb_exists; exists 63; split; [exact H | apply Z.eqb_refl]).
  congruence.
Qed.

(** The Base64 text has no [?], and at most [2 n + 2] characters for [n]
    bytes. *)
Lemma b64enc_noq (s : list Z) : Forall (fun b => b <> 63) (b64enc s).
Proof.
  remember (length s) as n eqn:Hn. revert s Hn. induction n as [n IH] using lt_wf_ind. intros s ->.
  destruct s as [|a [|b [|c r]]]; cbn [b64enc];
    [constructor | repeat apply Forall_cons; try apply Forall_nil; (apply tbl_not_q || lia)
    | repeat apply Forall_cons; try apply Forall_nil; (apply tbl_not_q || lia)|].
  apply Forall_app. split; [repeat apply Forall_cons; try apply Forall_nil; apply tbl_not_q|].
  apply (IH (length r)); [cbn; lia | reflexivity].
Qed.

Lemma b64enc_len (s : list Z) : (length (b64enc s) <= 2 * length s + 2)%nat.
Proof.
  remember (length s) as n eqn:Hn. revert s Hn. induction n as [n IH] using lt_wf_ind. intros s ->.
  destruct s as [|a [|b [|c r]]]; cbn [b64enc length]; try lia.
  rewrite length_app. specialize (IH (length r) ltac:(cbn; lia) r eq_refl). cbn [length]. lia.
Qed.

(** The quoted-printable text of bytes has no zero, no [?] when the bytes
    have none, and at most three characters a byte. *)
Lemma qp_chars (s : list Z) : bytes_ok s ->
  Forall (fun b => b <> 0) (flat_map (fun c => if qp_escaped c then 61 :: hex2 c else [c]) s) /\
  (Forall (fun b => b <> 63) s ->
   Forall (fun b => b <> 63) (flat_map (fun c => if qp_escaped c then 61 :: hex2 c else [c]) s)).
Proof.
  induction 1 as [|c s Hc _ (IH1 & IH2)]; [split; [constructor | intros; constructor]|]. cbn [flat_map].
  assert (Hx : forall n, 0 <= n < 16 -> hexdig n <> 0 /\ hexdig n <> 63)
    by (intros n Hn; unfold hexdig; destruct (Z.ltb_spec n 10); lia).
  unfold byte_ok in Hc.
  assert (H16 : 0 <= c / 16 < 16 /\ 0 <= c mod 16 < 16) by (split; [split; [apply Z.div_pos | apply Z.div_lt_upper_bound] | apply Z.mod_pos_bound]; lia).
  destruct (qp_escaped c) eqn:E; split.
  - apply Forall_app. split; [|exact IH1]. unfold hex2.
    repeat apply Forall_cons; try apply Forall_nil; [lia | apply Hx; lia | apply Hx; lia].
  - intros Hq. inversion Hq. apply Forall_app. split; [|auto]. unfold hex2.
    repeat apply Forall_cons; try apply Forall_nil; [lia | apply Hx; lia | apply Hx; lia].
  - apply Forall_app. split; [|exact IH1]. constructor; [|constructor].
    intros ->. discriminate.
  - intros Hq. inversion Hq. apply Forall_app. split; [constructor; [assumption | constructor] | auto].
Qed.

Lemma take_cstr_id (x : list Z) : Forall (fun b => b <> 0) x -> take_cstr x = x.
Proof. induction 1 as [|c x Hc _ IH]; [reflexivity|]. cbn. destruct (Z.eqb_spec c 0); [contradiction|]. rewrite IH. reflexivity. Qed.

(** [cbmimeencode] of a C string writes the encoded word, inside its
    buffer. *)
Lemma mimeencode_word (s e t u : list Z) (base : bool) :
  bytes_ok s -> Forall (fun b => b <> 0) s -> Forall (fun b => b <> 0) e ->
  cbmimeencode (s ++ 0 :: t) (e ++ 0 :: u) base = CDone (encoded_word e base s).
Proof.
  intros Hb Hs He. unfold cbmimeencode. rewrite (c_str_app s t Hs), (c_str_app e u He). cbn [cbind].
  assert (R : region (s ++ 0 :: t) (zlen s) = s)
    by (unfold region, datum_at; rewrite (proj2 (Z.ltb_ge _ _) (zlen_nonneg s)); apply firstn_zlen_app).
  unfold cbbaseencode, cbquoteencode. rewrite R. destruct (qp_chars s Hb) as (Q & _).
  destruct base.
  - pose proof (b64dec_enc (length s) s [] (S (length (b64enc s))) ltac:(lia) Hb ltac:(lia)) as (_ & Hn & _).
    rewrite take_cstr_id by exact Hn. pose proof (b64enc_len s) as L.
    unfold encoded_word. autorewrite with vl_rw. unfold zlen in *. vl_test. reflexivity.
  - rewrite take_cstr_id by exact Q.
    pose proof (flat_map_length_le3 (fun c => if qp_escaped c then 61 :: hex2 c else [c]) s
                  ltac:(intros c; unfold hex2; destruct (qp_escaped c); cbn; lia)) as L.
    unfold encoded_word. autorewrite with vl_rw. unfold zlen in *. vl_test. reflexivity.
Qed.

Lemma strchr_mem_app (x y : list Z) (c : Z) :
  c <> 0 -> Forall (fun b => b <> 0 /\ b <> c) x -> strchr_mem (x ++ c :: y) c = CDone (Some (length x)).
Proof.
  intros Hc. induction 1 as [|b x (Hb0 & Hbc) _ IH]; cbn [app strchr_mem length]; [rewrite Z.eqb_refl; reflexivity|].
  destruct (Z.eqb_spec b c); [contradiction|]. destruct (Z.eqb_spec b 0); [contradiction|].
  rewrite IH. reflexivity.
Qed.

(** Bytes that start no encoded word are copied one a round. *)
Lemma mdec_copy (x y acc : list Z) (enp : option (list Z)) (f : nat) :
  Forall (fun c => c <> 0 /\ c <> 61) x -> mdec_loop (x ++ y) acc enp (length x + f) = mdec_loop y (acc ++ x) enp f.
Proof.
  intros Hx. revert acc. induction Hx as [|c x (H0 & H61) _ IH]; intros acc; [rewrite app_nil_r; reflexivity|].
  cbn [app length Nat.add mdec_loop]. destruct (Z.eqb_spec c 0); [contradiction|].
  cbn [cbstrfwmatch]. destruct (Z.eqb_spec c 61); [contradiction|]. cbn [negb orb].
  rewrite IH, <- app_assoc. reflexivity.
Qed.

(** The round at an encoded word whose charset fits [enp]: the decoded
    word is written and [str] moves past the [?] that ends it and one
    byte more. *)
Lemma mdec_word_step (e d rest acc w : list Z) (qc : Z) (enp : list Z) (f : nat) :
  Forall (fun b => b <> 0 /\ b <> 63) e -> zlen e < CB_ENCBUFSIZ -> qc <> 0 ->
  Forall (fun b => b <> 0 /\ b <> 63) d -> mdec_word ((qc =? 81) || (qc =? 113)) (d ++ [0]) = CDone w ->
  Forall (fun b => b <> 0) w ->
  mdec_loop ([61; 63] ++ e ++ [63; qc; 63] ++ d ++ [63] ++ rest) acc (Some enp) (S f) =
  let? str := skip_nz rest in mdec_loop str (acc ++ w) (Some e) f.
Proof.
  intros He Hel Hq Hd Hw Hwn. cbn [app mdec_loop Z.eqb Pos.eqb cbstrfwmatch negb orb].
  change (skipn 2 (61 :: 63 :: ?x)) with x.
  rewrite (strchr_mem_app e _ 63 ltac:(lia) He). cbn [cbind].
  unfold zlen in Hel. destruct (Z.ltb_spec (Z.of_nat (length e)) CB_ENCBUFSIZ); [|lia].
  rewrite firstn_len_app, skipn_app. replace (S (length e) - length e)%nat with 1%nat by lia.
  rewrite skipn_all2 by lia. cbn [app]. change (skipn 1 (63 :: ?x)) with x.
  change (zread (qc :: 63 :: d ++ 63 :: rest) 0) with (CDone qc). cbn [cbind].
  unfold skip_nz at 1. change (zread (qc :: 63 :: d ++ 63 :: rest) 0) with (CDone qc). cbn [cbind].
  destruct (Z.eqb_spec qc 0); [contradiction|]. change (skipn 1 (qc :: ?x)) with x.
  unfold skip_nz at 1. change (zread (63 :: d ++ 63 :: rest) 0) with (CDone 63). cbn [cbind Z.eqb Pos.eqb].
  change (skipn 1 (63 :: ?x)) with x.
  rewrite (strchr_mem_app d _ 63 ltac:(lia) Hd). cbn [cbind]. rewrite firstn_len_app, Hw. cbn [cbind].
  rewrite skipn_app. replace (S (length d) - length d)%nat with 1%nat by lia.
  rewrite skipn_all2 by lia. cbn [app skipn]. rewrite take_cstr_id by exact Hwn. reflexivity.
Qed.

(** The body of the encoded word: no zero and no [?], at least a byte a
    byte, and its decoder gives the string back. *)
Lemma word_body (base : bool) (s : list Z) : bytes_ok s -> (base = false -> Forall (fun b => b <> 63) s) ->
  let d := if base then b64enc s else flat_map (fun c => if qp_escaped c then 61 :: hex2 c else [c]) s in
  Forall (fun b => b <> 0 /\ b <> 63) d /\ (length s <= length d)%nat /\
  mdec_word (((if base then 66 else 81) =? 81) || ((if base then 66 else 81) =? 113)) (d ++ [0]) = CDone s.
Proof.
  intros Hb Hq d. unfold d. destruct base.
  - destruct (b64dec_enc (length s) s [] (S (length (b64enc s))) ltac:(lia) Hb ltac:(lia)) as (_ & Hn & Hl).
    split; [exact (Forall_impl _ (fun b H => H) (Forall_and Hn (b64enc_noq s))) | split; [exact Hl|]].
    cbn [Z.eqb Pos.eqb orb mdec_word]. rewrite base_dec_enc by exact Hb. reflexivity.
  - destruct (qp_chars s Hb) as (Q1 & Q2).
    split; [exact (Forall_and Q1 (Q2 (Hq eq_refl))) | split].
    + apply flat_map_length_ge. intros c. destruct (qp_escaped c); cbn; lia.
    + cbn [Z.eqb Pos.eqb orb mdec_word]. unfold cbquotedecode. exact (qpdec_enc s [] [] Hb).
Qed.

(** Bytes that [cbquoteencode] leaves as they are. *)
Lemma qp_plain (x : list Z) :
  Forall (fun c => qp_escaped c = false) x -> flat_map (fun c => if qp_escaped c then 61 :: hex2 c else [c]) x = x.
Proof. induction 1 as [|c x Hc _ IH]; [reflexivity|]. cbn [flat_map]. rewrite Hc, IH. reflexivity. Qed.

(** A match of [--] and the boundary at [zlen p]. *)
Lemma fwmatch_prefix (b r : list Z) : Forall (fun c => c <> 0) b -> cbstrfwmatch (b ++ r) b = true.
Proof.
  induction 1 as [|c b Hc _ IH]; [destruct r; reflexivity|]. cbn [app cbstrfwmatch].
  rewrite Z.eqb_refl. destruct (Z.eqb_spec c 0); [contradiction|]. exact IH.
Qed.

Lemma mp_match_bnd (m p b r : list Z) (size : Z) :
  m = p ++ [45; 45] ++ b ++ r -> Forall (fun c => c <> 0) b -> zlen p + 2 + zlen b < size ->
  mp_match m (zlen p) size b = CDone true.
Proof.
  intros Hm Hb Hs. unfold mp_match.
  rewrite (zread_at m p (45 :: b ++ r) 45 Hm). cbn [cbind Z.eqb Pos.eqb].
  replace (zlen p + 1) with (zlen (p ++ [45])) by (autorewrite with vl_rw; lia).
  rewrite (zread_at m (p ++ [45]) (b ++ r) 45) by (rewrite Hm, <- app_assoc; reflexivity).
  cbn [cbind Z.eqb Pos.eqb]. vl_test. cbn [andb].
  replace (Z.to_nat (zlen p + 2)) with (Z.to_nat (zlen (p ++ [45; 45]))) by (autorewrite with vl_rw; f_equal; lia).
  rewrite Hm, app_assoc, skipn_zlen_app, fwmatch_prefix by exact Hb. reflexivity.
Qed.

(** A byte other than [-] starts no boundary; it reads that byte only. *)
Lemma mp_match_no (m : list Z) (i size : Z) (b : list Z) (c : Z) :
  zread m i = CDone c -> c <> 45 -> mp_match m i size b = CDone false.
Proof. intros Hc H. unfold mp_match. rewrite Hc. cbn [cbind]. destruct (Z.eqb_spec c 45); [contradiction | reflexivity]. Qed.

Lemma mp_first_scan (m p x r b : list Z) (size : Z) (f : nat) :
  m = p ++ x ++ r -> Forall (fun c => c <> 45) x -> zlen p + zlen x <= size ->
  mp_first m size b (zlen p) (length x + f) = mp_first m size b (zlen p + zlen x) f.
Proof.
  revert p. induction x as [|c x IH]; intros p Hm Hx Hs; [rewrite zlen_nil, Z.add_0_r; reflexivity|].
  apply Forall_cons_iff in Hx as (Hc & Hx). rewrite zlen_cons in Hs. zlen_facts.
  cbn [length Nat.add mp_first]. vl_test.
  rewrite (mp_match_no m (zlen p) size b c (zread_at m p (x ++ r) c Hm) Hc). cbn [cbind].
  replace (zlen p + 1) with (zlen (p ++ [c])) by (autorewrite with vl_rw; lia).
  rewrite IH by (rewrite ?Hm, <- ?app_assoc; autorewrite with vl_rw in *; auto; lia).
  autorewrite with vl_rw. f_equal. lia.
Qed.

Lemma mp_rest_scan (m p x r b : list Z) (size pv : Z) (l : CBLIST) (f : nat) :
  m = p ++ x ++ r -> Forall (fun c => c <> 45) x -> zlen p + zlen x <= size ->
  mp_rest m size b (zlen p) pv l (length x + f) = mp_rest m size b (zlen p + zlen x) pv l f.
Proof.
  revert p. induction x as [|c x IH]; intros p Hm Hx Hs; [rewrite zlen_nil, Z.add_0_r; reflexivity|].
  apply Forall_cons_iff in Hx as (Hc & Hx). rewrite zlen_cons in Hs. zlen_facts.
  cbn [length Nat.add mp_rest]. vl_test.
  rewrite (mp_match_no m (zlen p) size b c (zread_at m p (x ++ r) c Hm) Hc). cbn [cbind].
  replace (zlen p + 1) with (zlen (p ++ [c])) by (autorewrite with vl_rw; lia).
  rewrite IH by (rewrite ?Hm, <- ?app_assoc; autorewrite with vl_rw in *; auto; lia).
  autorewrite with vl_rw. f_equal. lia.
Qed.

(** One part of a multipart body, ended by a line break and a boundary:
    it is pushed without the line break, and the loop goes on after the
    boundary. *)
Lemma mp_rest_part (m X G p b R : list Z) (size pv' : Z) (l : CBLIST) (f : nat) :
  m = X ++ G ++ p ++ [13; 10; 45; 45] ++ b ++ R ->
  Forall (fun c => c <> 45) G -> Forall (fun c => c <> 45) p ->
  Forall (fun c => c <> 0 /\ c <> 45) b -> b <> [] ->
  zlen (X ++ G ++ p ++ [13; 10; 45; 45] ++ b) < size ->
  skip_crlf m (zlen (X ++ G ++ p ++ [13; 10; 45; 45] ++ b)) = CDone pv' ->
  mp_rest m size b (zlen X) (zlen X + zlen G) l (length (G ++ p ++ [13; 10; 45; 45] ++ b) + f) =
  mp_rest m size b (zlen (X ++ G ++ p ++ [13; 10; 45; 45] ++ b)) pv' (cblistpushbuf l p) f.
Proof.
  intros Hm HG Hp Hb Hb0 Hs Hk. set (q := X ++ G ++ p ++ [13; 10]).
  assert (Hq : m = q ++ [45; 45] ++ b ++ R) by (rewrite Hm; unfold q; rewrite <- !app_assoc; reflexivity).
  assert (Eq : zlen (X ++ G ++ p ++ [13; 10; 45; 45] ++ b) = zlen q + 2 + zlen b)
    by (unfold q; autorewrite with vl_rw; lia).
  rewrite Eq in Hs, Hk |- *.
  replace (Nat.add (length (G ++ p ++ [13; 10; 45; 45] ++ b)) f)
    with (Nat.add (length (G ++ p ++ [13; 10])) (S (S (length b + f)))) by (rewrite !length_app; cbn; lia).
  assert (Fx : Forall (fun c => c <> 45) (G ++ p ++ [13; 10]))
    by (apply Forall_app; split; [|apply Forall_app; split]; auto; repeat constructor; lia).
  rewrite (mp_rest_scan m X (G ++ p ++ [13; 10]) ([45; 45] ++ b ++ R)); [| rewrite Hq; unfold q;
    rewrite <- !app_assoc; reflexivity | exact Fx | unfold q in Hs; autorewrite with vl_rw in *; pose proof (zlen_nonneg b); lia].
  replace (zlen X + zlen (G ++ p ++ [13; 10])) with (zlen q) by (unfold q; autorewrite with vl_rw; lia).
  zlen_facts. cbn [mp_rest]. vl_test.
  rewrite (mp_match_bnd m q b R size Hq (Forall_impl _ (fun c H => proj1 H) Hb) Hs). cbn [cbind].
  assert (Lq : zlen q = zlen (X ++ G ++ p) + 2) by (unfold q; autorewrite with vl_rw; lia).
  assert (B1 : back_if m (zlen q) 10 = CDone (zlen q - 1)).
  { unfold back_if. pose proof (zlen_nonneg (X ++ G ++ p)). vl_test.
    replace (zlen q - 1) with (zlen (X ++ G ++ p ++ [13])) by (autorewrite with vl_rw in *; lia).
    rewrite (zread_at m (X ++ G ++ p ++ [13]) ([45; 45] ++ b ++ R) 10)
      by (rewrite Hm; rewrite <- !app_assoc; reflexivity). reflexivity. }
  assert (B2 : back_if m (zlen q - 1) 13 = CDone (zlen (X ++ G ++ p))).
  { unfold back_if. pose proof (zlen_nonneg (X ++ G ++ p)). vl_test.
    replace (zlen q - 1 - 1) with (zlen (X ++ G ++ p)) by lia.
    rewrite (zread_at m (X ++ G ++ p) (10 :: [45; 45] ++ b ++ R) 13)
      by (rewrite Hm; rewrite <- !app_assoc; reflexivity). cbn. f_equal; lia. }
  rewrite B1; cbn [cbind]. rewrite B2; cbn [cbind].
  rewrite Hk; cbn [cbind].
  replace (zlen X + zlen G) with (zlen (X ++ G)) by (autorewrite with vl_rw; lia).
  rewrite (push_at m (X ++ G) p ([13; 10; 45; 45] ++ b ++ R) l)
    by (first [rewrite Hm, <- !app_assoc; reflexivity | autorewrite with vl_rw; lia]).
  cbn [mp_rest]. vl_test.
  destruct b as [|c b']; [congruence|]. apply Forall_cons_iff in Hb as ((Hc0 & Hc) & Hb').
  unfold mp_match.
  replace (zlen q + 1) with (zlen (q ++ [45])) by (autorewrite with vl_rw; lia).
  rewrite (zread_at m (q ++ [45]) (c :: b' ++ R) 45) by (rewrite Hq, <- !app_assoc; reflexivity).
  cbn [cbind]. rewrite Z.eqb_refl.
  replace (zlen (q ++ [45]) + 1) with (zlen (q ++ [45; 45])) by (autorewrite with vl_rw; lia).
  rewrite (zread_at m (q ++ [45; 45]) (b' ++ R) c) by (rewrite Hq, <- !app_assoc; reflexivity).
  cbn [cbind]. rewrite (proj2 (Z.eqb_neq c 45) Hc). cbn [cbind].
  replace (zlen (q ++ [45]) + 1) with (zlen (q ++ [45; 45])) by (autorewrite with vl_rw; lia).
  rewrite (mp_rest_scan m (q ++ [45; 45]) (c :: b') R); [f_equal; autorewrite with vl_rw; lia
    | rewrite Hq, <- !app_assoc; reflexivity
    | constructor; [exact Hc | exact (Forall_impl _ (fun c H => proj2 H) Hb')]
    | autorewrite with vl_rw in *; lia].
Qed.

Lemma units_forall (P : Z -> Prop) (b : list Z) (ps : list (list Z)) :
  P 13 -> P 10 -> P 45 -> Forall P b -> Forall (Forall P) ps -> Forall P (mp_units b ps).
Proof.
  intros H13 H10 H45 Hb. induction 1 as [|p ps Hp _ IH]; [constructor|]. cbn [mp_units].
  repeat (apply Forall_app; split); auto; repeat constructor; auto.
Qed.

Lemma skip_crlf_at (m q r : list Z) : m = q ++ 13 :: 10 :: r -> skip_crlf m (zlen q) = CDone (zlen q + 2).
Proof.
  intros Hm. unfold skip_crlf. rewrite (zread_at m q (10 :: r) 13 Hm). cbn [cbind Z.eqb Pos.eqb].
  replace (zlen q + 1) with (zlen (q ++ [13])) by (autorewrite with vl_rw; lia).
  rewrite (zread_at m (q ++ [13]) r 10) by (rewrite Hm, <- app_assoc; reflexivity).
  cbn [cbind Z.eqb Pos.eqb]. autorewrite with vl_rw. f_equal. lia.
Qed.

Lemma skip_crlf_dash (m q r : list Z) : m = q ++ 45 :: r -> skip_crlf m (zlen q) = CDone (zlen q).
Proof.
  intros Hm. unfold skip_crlf. rewrite (zread_at m q r 45 Hm). cbn [cbind Z.eqb Pos.eqb].
  rewrite (zread_at m q r 45 Hm). reflexivity.
Qed.

Lemma fold_pushbuf (ps : list (list Z)) : forall l, cl_ok l ->
  cl_ok (fold_left cblistpushbuf ps l) /\ cl_view (fold_left cblistpushbuf ps l) = cl_view l ++ ps.
Proof.
  induction ps as [|p ps IH]; intros l Hl; cbn [fold_left]; [rewrite app_nil_r; auto|].
  destruct (pushbuf_sim l p Hl) as (A & B). destruct (IH _ A) as (C & D).
  split; [exact C|]. rewrite D, B, <- app_assoc. reflexivity.
Qed.

(** The parts up to the last boundary are pushed in order. *)
Lemma mp_rest_units (m b R : list Z) (size : Z) (f : nat) (ps : list (list Z)) :
  Forall (fun c => c <> 0 /\ c <> 45) b -> b <> [] -> Forall (Forall (fun c => c <> 45)) ps ->
  forall X G p l, m = X ++ G ++ p ++ [13; 10; 45; 45] ++ b ++ mp_units b ps ++ 45 :: R ->
  Forall (fun c => c <> 45) G -> Forall (fun c => c <> 45) p ->
  zlen (X ++ G ++ p ++ [13; 10; 45; 45] ++ b ++ mp_units b ps) < size ->
  mp_rest m size b (zlen X) (zlen X + zlen G) l (length (G ++ p ++ [13; 10; 45; 45] ++ b ++ mp_units b ps) + f) =
  mp_rest m size b (zlen (X ++ G ++ p ++ [13; 10; 45; 45] ++ b ++ mp_units b ps))
    (zlen (X ++ G ++ p ++ [13; 10; 45; 45] ++ b ++ mp_units b ps)) (fold_left cblistpushbuf (p :: ps) l) f.
Proof.
  intros Hb Hb0 Hps. induction Hps as [|p' ps Hp' _ IH]; intros X G p l Hm HG Hp Hs.
  - change (mp_units b []) with (@nil Z) in *. rewrite app_nil_l in Hm. rewrite !app_nil_r in *.
    apply (mp_rest_part m X G p b (45 :: R)); auto.
    apply (skip_crlf_dash m _ R). rewrite Hm, <- !app_assoc. reflexivity.
  - set (X' := X ++ G ++ p ++ [13; 10; 45; 45] ++ b).
    assert (E : X' ++ [13; 10] ++ p' ++ [13; 10; 45; 45] ++ b ++ mp_units b ps =
                X ++ G ++ p ++ [13; 10; 45; 45] ++ b ++ mp_units b (p' :: ps))
      by (unfold X'; cbn [mp_units]; rewrite <- !app_assoc; reflexivity).
    assert (Hm' : m = X' ++ [13; 10] ++ p' ++ [13; 10; 45; 45] ++ b ++ mp_units b ps ++ 45 :: R)
      by (rewrite Hm; unfold X'; cbn [mp_units]; rewrite <- !app_assoc; reflexivity).
    rewrite <- E in Hs |- *.
    replace (Nat.add (length (G ++ p ++ [13; 10; 45; 45] ++ b ++ mp_units b (p' :: ps))) f)
      with (Nat.add (length (G ++ p ++ [13; 10; 45; 45] ++ b))
              (length ([13; 10] ++ p' ++ [13; 10; 45; 45] ++ b ++ mp_units b ps) + f))
      by (cbn [mp_units]; rewrite !length_app; lia).
    rewrite (mp_rest_part m X G p b (mp_units b (p' :: ps) ++ 45 :: R) size (zlen X' + 2) l); auto.
    + replace (zlen X' + 2) with (zlen X' + zlen [13; 10]) by reflexivity.
      apply IH; auto. repeat constructor; lia.
    + unfold X' in Hs. autorewrite with vl_rw in *. zlen_facts. lia.
    + apply (skip_crlf_at m X' (p' ++ [13; 10; 45; 45] ++ b ++ mp_units b ps ++ 45 :: R)).
      rewrite Hm'. reflexivity.
Qed.

(** The closing [--] at the end of the region starts no boundary. *)
Lemma mp_rest_end (m q r b : list Z) (pv : Z) (l : CBLIST) (f : nat) (c : Z) :
  m = q ++ [45; 45] ++ c :: r -> c <> 45 -> b <> [] ->
  mp_rest m (zlen q + 2) b (zlen q) pv l f = CDone l.
Proof.
  intros Hm Hc Hb. assert (Lb : 0 < zlen b) by (destruct b; [congruence | rewrite zlen_cons; zlen_facts; lia]).
  assert (L1 : zlen (q ++ [45]) = zlen q + 1) by (autorewrite with vl_rw; lia).
  assert (L2 : zlen (q ++ [45; 45]) = zlen q + 2) by (autorewrite with vl_rw; lia).
  destruct f as [|f]; [reflexivity|]. cbn [mp_rest]. vl_test. unfold mp_match.
  rewrite (zread_at m q (45 :: c :: r) 45 Hm). cbn [cbind Z.eqb Pos.eqb].
  replace (zlen q + 1) with (zlen (q ++ [45])) by (autorewrite with vl_rw; lia).
  rewrite (zread_at m (q ++ [45]) (c :: r) 45) by (rewrite Hm, <- app_assoc; reflexivity).
  cbn [cbind Z.eqb Pos.eqb]. vl_test. cbn [andb].
  destruct f as [|f]; [reflexivity|]. cbn [mp_rest]. vl_test. unfold mp_match.
  rewrite (zread_at m (q ++ [45]) (c :: r) 45) by (rewrite Hm, <- app_assoc; reflexivity).
  cbn [cbind Z.eqb Pos.eqb].
  replace (zlen (q ++ [45]) + 1) with (zlen (q ++ [45; 45])) by (autorewrite with vl_rw; lia).
  rewrite (zread_at m (q ++ [45; 45]) r c) by (rewrite Hm, <- app_assoc; reflexivity).
  cbn [cbind]. rewrite (proj2 (Z.eqb_neq c 45) Hc). cbn [cbind].
  destruct f as [|f]; [reflexivity|]. cbn [mp_rest]. vl_test. reflexivity.
Qed.

(** The first scan stops at the first boundary, after a preamble without
    [-], and returns where the line after it starts. *)
Lemma mp_first_pre (m pre b r : list Z) (size : Z) :
  m = pre ++ [45; 45] ++ b ++ r -> Forall (fun c => c <> 45) pre -> Forall (fun c => c <> 0) b ->
  zlen pre + 2 + zlen b < size ->
  mp_first m size b 0 (Z.to_nat size) = (let? pv := skip_crlf m (zlen pre + 2 + zlen b) in CDone (Some pv)).
Proof.
  intros Hm Hpre Hb Hs. zlen_facts.
  replace (Z.to_nat size) with (Nat.add (length pre) (S (Z.to_nat (size - zlen pre - 1)))) by (unfold zlen in *; lia).
  pose proof (mp_first_scan m [] pre ([45; 45] ++ b ++ r) b size (S (Z.to_nat (size - zlen pre - 1)))) as E.
  rewrite (@zlen_nil Z) in E. rewrite Z.add_0_l in E.
  rewrite E by (first [rewrite app_nil_l; exact Hm | exact Hpre | lia]). clear E.
  cbn [mp_first]. vl_test. rewrite (mp_match_bnd m pre b r size Hm Hb Hs). reflexivity.
Qed.

(** After the first boundary line: the parts, each ended by a boundary,
    then the closing [--] at the end of the region. *)
Lemma mp_rest_body (b t p : list Z) (ps : list (list Z)) :
  Forall (fun c => c <> 0 /\ c <> 45) b -> b <> [] -> Forall (fun c => c <> 45) p ->
  Forall (Forall (fun c => c <> 45)) ps ->
  let W := p ++ [13; 10; 45; 45] ++ b ++ mp_units b ps in
  mp_rest (W ++ [45; 45] ++ 0 :: t) (zlen W + 2) b 0 0 cblistopen (Z.to_nat (zlen W + 2)) =
  CDone (fold_left cblistpushbuf (p :: ps) cblistopen).
Proof.
  intros Hb Hb0 Hp Hps W.
  replace (Z.to_nat (zlen W + 2)) with (Nat.add (length W) 2) by (unfold zlen; lia).
  pose proof (mp_rest_units (W ++ [45; 45] ++ 0 :: t) b (45 :: 0 :: t) (zlen W + 2) 2 ps Hb Hb0 Hps
    [] [] p cblistopen) as E.
  rewrite !app_nil_l, (@zlen_nil Z), Z.add_0_l in E. fold W in E.
  rewrite E by (first [unfold W; rewrite <- !app_assoc; reflexivity | constructor | exact Hp | lia]).
  apply (mp_rest_end (W ++ [45; 45] ++ 0 :: t) W t b (zlen W) _ 2 0); [reflexivity | lia | exact Hb0].
Qed.

(** Bytes that are neither NUL nor [-]. *)
Lemma clean_no_dash (x : list Z) : Forall (fun c => c <> 0 /\ c <> 45) x -> Forall (fun c => c <> 45) x.
Proof. apply Forall_impl. tauto. Qed.

Lemma clean_no_nul (x : list Z) : Forall (fun c => c <> 0 /\ c <> 45) x -> Forall (fun c => c <> 0) x.
Proof. apply Forall_impl. tauto. Qed.

(** A body of parts without NUL has no NUL: [strlen] takes it whole. *)
Lemma mime_body_nz (pre b : list Z) (ps : list (list Z)) :
  Forall (fun c => c <> 0 /\ c <> 45) pre -> Forall (Forall (fun c => c <> 0 /\ c <> 45)) ps ->
  Forall (fun c => c <> 0 /\ c <> 45) b -> Forall (fun c => c <> 0) (mime_body pre b ps).
Proof.
  intros Hpre Hps Hb. unfold mime_body. repeat (apply Forall_app; split); auto using clean_no_nul;
    try (repeat constructor; lia).
  apply units_forall; try lia; auto using clean_no_nul. eapply Forall_impl; [exact clean_no_nul | exact Hps].
Qed.

End MimeFacts.

(** ** Theorems *)

(** C28: [cbmimedecode] gives back the string [cbmimeencode] encoded, with the
    charset in [enp]: in Base64 for every string, in Q for strings
    without [?]; the charset must have no [?] and fit [enp]. *)
Theorem cbmime_roundtrip (s e t u v : list Z) (base : bool) :
  bytes_ok s -> Forall (fun b => b <> 0) s -> (base = false -> Forall (fun b => b <> 63) s) ->
  Forall (fun b => b <> 0 /\ b <> 63) e -> zlen e < CB_ENCBUFSIZ ->
  exists w, cbmimeencode (s ++ 0 :: t) (e ++ 0 :: u) base = CDone w /\
            cbmimedecode (w ++ 0 :: v) true = CDone (s, Some e).
Proof.
  intros Hb Hs Hq He Hel. exists (encoded_word e base s).
  split; [apply mimeencode_word; [exact Hb | exact Hs | exact (Forall_impl _ (fun b H => proj1 H) He)]|].
  destruct (word_body base s Hb Hq) as (Hd & Hl & Hw).
  set (d := if base then b64enc s else _) in Hd, Hl, Hw. set (qc := if base then 66 else 81) in Hw.
  assert (Ew : encoded_word e base s = [61; 63] ++ e ++ [63; qc; 63] ++ d ++ [63; 61]) by reflexivity.
  assert (Nz : Forall (fun b => b <> 0) (encoded_word e base s)).
  { rewrite Ew. repeat (apply Forall_app; split); repeat apply Forall_cons; try apply Forall_nil;
      try (unfold qc; destruct base; lia); try lia;
      [exact (Forall_impl _ (fun b H => proj1 H) He) | exact (Forall_impl _ (fun b H => proj1 H) Hd)]. }
  unfold cbmimedecode. rewrite c_str_app by exact Nz. cbn [cbind].
  replace (encoded_word e base s ++ 0 :: v) with ([61; 63] ++ e ++ [63; qc; 63] ++ d ++ [63] ++ [61; 0] ++ v)
    by (rewrite Ew; rewrite <- !app_assoc; reflexivity).
  rewrite (mdec_word_step e d ([61; 0] ++ v) [] s qc) by
    (first [exact He | exact Hel | exact Hd | exact Hw | exact Hs | unfold qc; destruct base; lia]).
  change (skip_nz ([61; 0] ++ v)) with (CDone (0 :: v)). cbn [cbind].
  cbn [app length mdec_loop Z.eqb Pos.eqb cbind fst]. rewrite Ew. autorewrite with vl_rw. unfold zlen.
  zlen_facts. vl_test. reflexivity.
Qed.

(** A [?] in a string encoded in Q: [cbquoteencode] leaves it as it is,
    and [cbmimedecode] ends the encoded text at it, decodes the part
    before it, steps over the byte after it and copies the rest of the
    word as text, so the string it returns is not the one encoded. *)
Theorem cbmime_q_question (a b e t u v : list Z) :
  Forall (fun c => byte_ok c /\ c <> 63 /\ qp_escaped c = false) a ->
  Forall (fun c => byte_ok c /\ c <> 63 /\ qp_escaped c = false) b ->
  Forall (fun c => c <> 0 /\ c <> 63) e -> zlen e < CB_ENCBUFSIZ ->
  exists w, cbmimeencode ((a ++ 63 :: b) ++ 0 :: t) (e ++ 0 :: u) false = CDone w /\
            cbmimedecode (w ++ 0 :: v) true = CDone (a ++ tl (b ++ [63; 61]), Some e).
Proof.
  intros Ha Hb He Hel.
  assert (P : forall x, Forall (fun c => byte_ok c /\ c <> 63 /\ qp_escaped c = false) x ->
                Forall (fun c => c <> 0 /\ c <> 63 /\ c <> 61) x /\ Forall (fun c => qp_escaped c = false) x /\ bytes_ok x).
  { intros x Hx. split; [|split]; [| |unfold bytes_ok]; (eapply Forall_impl; [|exact Hx]); intros c (H1 & H2 & H3).
    - split; [|split; [exact H2|]]; intros ->; cbv in H3; discriminate.
    - exact H3.
    - exact H1. }
  destruct (P a Ha) as (A1 & A2 & A3). destruct (P b Hb) as (B1 & B2 & B3).
  set (s := a ++ 63 :: b).
  assert (Sq : Forall (fun c => qp_escaped c = false) s) by (apply Forall_app; split; [exact A2 | constructor; [reflexivity | exact B2]]).
  assert (Sn : Forall (fun c => c <> 0) s).
  { apply Forall_app. split; [|constructor; [lia|]];
      [exact (Forall_impl _ (fun c H => proj1 H) A1) | exact (Forall_impl _ (fun c H => proj1 H) B1)]. }
  exists (encoded_word e false s).
  split.
  { apply mimeencode_word.
    - apply Forall_app. split; [exact A3 | constructor; [unfold byte_ok; lia | exact B3]].
    - exact Sn.
    - exact (Forall_impl _ (fun b H => proj1 H) He). }
  assert (Ew : encoded_word e false s = [61; 63] ++ e ++ [63; 81; 63] ++ s ++ [63; 61])
    by (unfold encoded_word; rewrite qp_plain by exact Sq; reflexivity).
  assert (Nz : Forall (fun c => c <> 0) (encoded_word e false s)).
  { rewrite Ew. repeat (apply Forall_app; split); repeat apply Forall_cons; try apply Forall_nil; try lia;
      first [exact (Forall_impl _ (fun b H => proj1 H) He) | exact (Forall_impl _ (fun c H => proj1 H) A1)
            | exact (Forall_impl _ (fun c H => proj1 H) B1)]. }
  unfold cbmimedecode. rewrite c_str_app by exact Nz. cbn [cbind].
  set (x := tl (b ++ [63])).
  assert (Hx : Forall (fun c => c <> 0 /\ c <> 61) x).
  { unfold x. destruct b as [|b0 b']; cbn [app tl]; [repeat constructor; lia|].
    pose proof (Forall_inv_tail B1) as B1'. apply Forall_app. split; [|repeat constructor; lia].
    exact (Forall_impl _ (fun c H => conj (proj1 H) (proj2 (proj2 H))) B1'). }
  replace (encoded_word e false s ++ 0 :: v) with ([61; 63] ++ e ++ [63; 81; 63] ++ a ++ [63] ++ (b ++ [63; 61] ++ 0 :: v))
    by (rewrite Ew; unfold s; rewrite <- !app_assoc; reflexivity).
  rewrite (mdec_word_step e a (b ++ [63; 61] ++ 0 :: v) [] a 81).
  2-4: first [exact He | exact Hel | lia].
  2: exact (Forall_impl _ (fun c H => conj (proj1 H) (proj1 (proj2 H))) A1).
  2: { pose proof (qpdec_enc a [] [] A3) as Q. rewrite (qp_plain a A2) in Q. exact Q. }
  2: exact (Forall_impl _ (fun c H => proj1 H) A1).
  assert (K : skip_nz (b ++ [63; 61] ++ 0 :: v) = CDone (x ++ [61] ++ 0 :: v)).
  { unfold x. destruct b as [|b0 b']; [reflexivity|]. destruct (Forall_inv B1) as (B0 & _).
    unfold skip_nz. change (zread ((b0 :: b') ++ [63; 61] ++ 0 :: v) 0) with (CDone b0). cbn [cbind].
    destruct (Z.eqb_spec b0 0); [contradiction|]. cbn [app tl skipn]. rewrite <- app_assoc. reflexivity. }
  rewrite K. cbn [cbind].
  match goal with |- context [mdec_loop _ _ _ ?F] => set (fuel := F) end.
  assert (Ef : exists k, fuel = Nat.add (length x) (S (S k))).
  { exists (length e + length a + length v + 7)%nat. unfold fuel, x.
    destruct b as [|b0 b']; cbn [app tl length]; rewrite !length_app; cbn [length];
      rewrite ?length_app; cbn [length]; rewrite ?length_app; cbn [length]; lia. }
  destruct Ef as (k & ->). rewrite mdec_copy by exact Hx. cbn [app mdec_loop Z.eqb Pos.eqb cbstrfwmatch negb orb cbind fst].
  assert (Eo : (a ++ x) ++ [61] = a ++ tl (b ++ [63; 61]))
    by (unfold x; destruct b; cbn; rewrite <- ?app_assoc; reflexivity).
  rewrite Eo, Ew. unfold s. autorewrite with vl_rw. zlen_facts.
  destruct b as [|b0 b']; cbn [app tl] in *; autorewrite with vl_rw; vl_test; reflexivity.
Qed.

(** C25: [cbmimeparts] on a multipart body (cabin.c 1844-1878), its size
    given as [-1] so that it is taken by [strlen]: the boundary is looked
    for after [--], and the list holds the parts between the boundaries, in
    order, each without the line breaks that surround it. The preamble, the
    parts and the boundary hold no [-] and no NUL; the boundary is not
    empty. *)
Theorem cbmimeparts_parts (pre b u t : list Z) (ps : list (list Z)) :
  Forall (fun c => c <> 0 /\ c <> 45) pre -> Forall (Forall (fun c => c <> 0 /\ c <> 45)) ps ->
  Forall (fun c => c <> 0 /\ c <> 45) b -> b <> [] ->
  exists l, cbmimeparts (mime_body pre b ps ++ 0 :: t) (-1) (b ++ 0 :: u) = CDone l /\
            cl_ok l /\ cl_view l = ps.
Proof.
  intros Hpre Hps Hb Hb0. pose proof clean_no_dash as N45. pose proof clean_no_nul as N0.
  set (body := mime_body pre b ps). set (m := body ++ 0 :: t).
  pose proof (mime_body_nz pre b ps Hpre Hps Hb) as Hbody. fold body in Hbody.
  unfold cbmimeparts. vl_test. unfold m. rewrite c_str_app by exact Hbody. cbn [cbind].
  rewrite c_str_app by auto. cbn [cbind]. change (body ++ 0 :: t) with m.
  set (rest := b ++ mp_units b ps ++ [45; 45]).
  assert (Hm : m = pre ++ [45; 45] ++ rest ++ 0 :: t)
    by (unfold m, body, rest, mime_body; rewrite <- !app_assoc; reflexivity).
  assert (Lbody : zlen body = zlen pre + 2 + zlen rest)
    by (unfold body, rest, mime_body; autorewrite with vl_rw; lia).
  rewrite (mp_first_pre m pre b (mp_units b ps ++ [45; 45] ++ 0 :: t) (zlen body)); [cbn [cbind] | |
    now apply N45 | now apply N0 | unfold rest in Lbody; autorewrite with vl_rw in Lbody; zlen_facts; lia];
    [| rewrite Hm; unfold rest; rewrite <- !app_assoc; reflexivity].
  replace (zlen pre + 2 + zlen b) with (zlen (pre ++ [45; 45] ++ b)) by (autorewrite with vl_rw; lia).
  destruct Hps as [|p ps Hp Hps'].
  - (* no part: the boundary is followed by the closing [--] *)
    assert (Hm2 : m = (pre ++ [45; 45] ++ b) ++ [45; 45] ++ 0 :: t)
      by (rewrite Hm; unfold rest; cbn [mp_units]; rewrite <- !app_assoc; reflexivity).
    rewrite (skip_crlf_dash m (pre ++ [45; 45] ++ b) (45 :: 0 :: t)) by (rewrite Hm2, <- !app_assoc; reflexivity).
    cbn [cbind].
    assert (L2 : zlen body - zlen (pre ++ [45; 45] ++ b) = zlen (@nil Z) + 2)
      by (rewrite Lbody; unfold rest; cbn [mp_units]; autorewrite with vl_rw; lia).
    rewrite L2, Hm2, skipn_zlen_app.
    rewrite (mp_rest_end ([45; 45] ++ 0 :: t) [] t b 0 cblistopen _ 0) by (first [reflexivity | lia | exact Hb0]).
    exists cblistopen. split; [reflexivity | split; [apply cblistopen_ok | apply cblistopen_view]].
  - (* the parts: the boundary line ends in a line break *)
    set (W := p ++ [13; 10; 45; 45] ++ b ++ mp_units b ps).
    assert (Hm2 : m = ((pre ++ [45; 45] ++ b) ++ [13; 10]) ++ W ++ [45; 45] ++ 0 :: t)
      by (rewrite Hm; unfold rest, W; cbn [mp_units]; rewrite <- !app_assoc; reflexivity).
    rewrite (skip_crlf_at m (pre ++ [45; 45] ++ b) (W ++ [45; 45] ++ 0 :: t)) by (rewrite Hm2, <- !app_assoc; reflexivity).
    cbn [cbind].
    assert (L2 : zlen body - (zlen (pre ++ [45; 45] ++ b) + 2) = zlen W + 2)
      by (rewrite Lbody; unfold rest, W; cbn [mp_units]; autorewrite with vl_rw; lia).
    replace (zlen (pre ++ [45; 45] ++ b) + 2) with (zlen ((pre ++ [45; 45] ++ b) ++ [13; 10])) in L2 |- *
      by (autorewrite with vl_rw; lia).
    pose proof (mp_rest_body b t p ps Hb Hb0 (N45 p Hp) (Forall_impl _ N45 Hps')) as E. cbv zeta in E. fold W in E.
    rewrite L2, Hm2, skipn_zlen_app, E.
    destruct (fold_pushbuf (p :: ps) cblistopen cblistopen_ok) as (A & B).
    exists (fold_left cblistpushbuf (p :: ps) cblistopen). rewrite B, cblistopen_view. auto.
Qed.

(** a region of [size] bytes that ends in a [-] which is not part of
    a boundary: [cbmimeparts] reads [ptr[i+1]], the byte after the
    region (cabin.c 1854). *)
Theorem cbmimeparts_reads_past_region (x b u : list Z) :
  Forall (fun c => c <> 45) x -> Forall (fun c => c <> 0) b ->
  cbmimeparts (x ++ [45]) (zlen x + 1) (b ++ 0 :: u) = COob.
Proof.
  intros Hx Hb. unfold cbmimeparts. zlen_facts. vl_test. cbn [cbind].
  rewrite c_str_app by exact Hb. cbn [cbind].
  replace (Z.to_nat (zlen x + 1)) with (Nat.add (length x) 1) by (unfold zlen; lia).
  pose proof (mp_first_scan (x ++ [45]) [] x [45] b (zlen x + 1) 1) as E.
  rewrite (@zlen_nil Z), Z.add_0_l in E. rewrite E by (first [reflexivity | exact Hx | lia]).
  cbn [mp_first]. vl_test. unfold mp_match.
  rewrite (zread_at (x ++ [45]) x [] 45 eq_refl). cbn [cbind Z.eqb Pos.eqb].
  rewrite zread_past by (autorewrite with vl_rw; lia). reflexivity.
Qed.

(** ** Witnesses *)

Lemma cbmime_roundtrip_witness :
  exists w, cbmimeencode ([104; 105] ++ 0 :: []) ([117] ++ 0 :: []) true = CDone w /\
            cbmimedecode (w ++ 0 :: []) true = CDone ([104; 105], Some [117]).
Proof.
  apply (cbmime_roundtrip [104; 105] [117] [] [] [] true).
  - repeat constructor; unfold byte_ok; lia.
  - repeat constructor; lia.
  - discriminate.
  - repeat constructor; lia.
  - reflexivity.
Defined.

Lemma cbmime_q_question_witness :
  exists w, cbmimeencode (([104] ++ 63 :: [105]) ++ 0 :: []) ([117] ++ 0 :: []) false = CDone w /\
            cbmimedecode (w ++ 0 :: []) true = CDone ([104] ++ tl ([105] ++ [63; 61]), Some [117]).
Proof.
  apply (cbmime_q_question [104] [105] [117] [] [] []).
  - repeat constructor; try (unfold byte_ok; lia); lia.
  - repeat constructor; try (unfold byte_ok; lia); lia.
  - repeat constructor; lia.
  - reflexivity.
Defined.

Lemma cbmimeparts_parts_witness :
  exists l, cbmimeparts (mime_body [120] [98] [[112]; [113; 113]] ++ [0]) (-1) ([98] ++ [0]) = CDone l /\
            cl_ok l /\ cl_view l = [[112]; [113; 113]].
Proof. apply (cbmimeparts_parts [120] [98] [] []); repeat (constructor || lia || discriminate). Defined.

Lemma cbmimeparts_reads_past_region_witness :
  cbmimeparts ([97] ++ [45]) (zlen [97] + 1) ([98] ++ [0]) = COob.
Proof. apply cbmimeparts_reads_past_region; repeat constructor; lia. Defined.
