(* ===== verification/CbMimeBreak.v ===== *)
(** * CbMimeBreak: [cbmimebreak], the MIME header parser of cabin.c

    [cbmimebreak] (cabin.c 1721-1840) splits a MIME entity into its
    header and body.  It looks for the first blank line ([mb_scan]),
    unfolds the header into [hbuf] ([mb_unfold]: carriage returns are
    dropped and a line feed followed by a space or a tab becomes a
    space), splits [hbuf] at line feeds with [cbsplit], stores each
    [name: value] line under its lower-cased name ([mb_line],
    [mb_lines]), and then breaks the values of [content-type] and
    [content-disposition] into their parts ([mb_field], [mb_params]).
    The entity is the memory from [ptr], as in [CbStr]; the map [attrs]
    is a [bmap] or [NULL].  Strings kept in the map or the list are read
    as C strings: their bytes and a terminating zero.  A read past the
    memory is [COob]. *)

From Stdlib Require Import ZArith Lia List Bool.
From S2P Require Import Prelude Codec Cache CbList CbCodec CbStr CbSplit CbCsv CbMapSer CbMime.
Import ListNotations.
Open Scope Z_scope.
Open Scope vl_scope.
Open Scope cres_scope.

(** ** The end of the header *)

(** [ptr[i] == c0 && ptr[i+1] == c1 && ...], left to right, reading no
    byte after the first that differs. *)
Fixpoint match_at (m : list Z) (i : Z) (pat : list Z) : cres bool :=
  match pat with
  | [] => CDone true
  | c :: pat' => let? x := zread m i in if x =? c then match_at m (i + 1) pat' else CDone false
  end.

(** The loop over [i] (cabin.c 1730-1744), [n] its remaining rounds: the
    index of the blank line and the length of its line breaks. *)
Fixpoint mb_scan (m : list Z) (size i : Z) (n : nat) : cres (option (Z * Z)) :=
  match n with
  | O => CDone None
  | S n' =>
      if i <? size then
        let? crlf := if i <? size - 4 then match_at m i [13; 10; 13; 10] else CDone false in
        if crlf then CDone (Some (i, 4))
        else
          let? lf := if i <? size - 2 then match_at m i [10; 10] else CDone false in
          if lf then CDone (Some (i, 2)) else mb_scan m size (i + 1) n'
      else CDone None
  end.

(** ** Unfolding *)

(** The loop that copies the header into [hbuf] (cabin.c 1747-1757), [n]
    its remaining rounds; the bytes written so far are [hbuf]. *)
Fixpoint mb_unfold (head : list Z) (hlen i : Z) (n : nat) (hbuf : list Z) : cres (list Z) :=
  match n with
  | O => CDone hbuf
  | S n' =>
      if i <? hlen then
        let? c := zread head i in
        if c =? 13 then mb_unfold head hlen (i + 1) n' hbuf
        else
          let? fold := if (i <? hlen - 1) && (c =? 10)
                       then let? c' := zread head (i + 1) in CDone ((c' =? 32) || (c' =? 9))
                       else CDone false in
          if fold then mb_unfold head hlen (i + 2) n' (hbuf ++ [32])
          else mb_unfold head hlen (i + 1) n' (hbuf ++ [c])
      else CDone hbuf
  end.

(** ** Header lines *)

(** [while( *pv == ' ' || *pv == '\t') pv++;] *)
Fixpoint skip_blank (s : list Z) : list Z :=
  match s with
  | c :: r => if (c =? 32) || (c =? 9) then skip_blank r else s
  | [] => []
  end.

(** One line of the header (cabin.c 1761-1771): [strchr(line, ':')], the
    name before it copied and lower-cased in place, the value after it
    and its blanks, stored with [cbmapput(..., TRUE)]. *)
Definition mb_line (attrs : bmap) (line : list Z) : cres bmap :=
  let s := line ++ [0] in
  let? pv := strchr_mem s 58 in
  match pv with
  | None => CDone attrs
  | Some k =>
      let? name := cbstrtolower (firstn k s ++ [0]) in
      CDone (fst (cbmapput attrs (take_cstr name) (take_cstr (skip_blank (skipn (S k) s))) true))
  end.

(** The loop over the lines (cabin.c 1759-1774), [n] its remaining
    rounds. *)
Fixpoint mb_lines (l : CBLIST) (i n : nat) (attrs : bmap) : cres bmap :=
  match n with
  | O => CDone attrs
  | S n' =>
      if (i <? cblistnum l)%nat then
        match cblistval l i with
        | Some line => let? attrs := mb_line attrs line in mb_lines l (S i) n' attrs
        | None => COob
        end
      else CDone attrs
  end.

(** ** Parameters of [content-type] and [content-disposition] *)

(** [while(ep[0] == ' ') ep++;] over the string [s] from [ep]. *)
Fixpoint skip_sp (s : list Z) (ep : nat) (n : nat) : cres nat :=
  match n with
  | O => COob
  | S n' => let? c := zread s (Z.of_nat ep) in if c =? 32 then skip_sp s (S ep) n' else CDone ep
  end.

(** [while(ep[0] != '\0' && !stop(ep[0])) ep++;] *)
Fixpoint pscan (stop : Z -> bool) (s : list Z) (ep : nat) (n : nat) : cres nat :=
  match n with
  | O => COob
  | S n' =>
      let? c := zread s (Z.of_nat ep) in
      if (c =? 0) || stop c then CDone ep else pscan stop s (S ep) n'
  end.

(** One branch of a parameter (cabin.c 1786-1792, 1794-1800, 1816-1822 and
    1824-1830): [ep += strlen(p)], an opening quote skipped, the value
    up to a zero or a byte of [stop] stored under [k]. *)
Definition mb_value (stop : Z -> bool) (p k : list Z) (s : list Z) (ep : nat) (attrs : bmap)
  : cres (nat * bmap) :=
  let ep := (ep + length p)%nat in
  let? c := zread s (Z.of_nat ep) in
  let pv := if c =? 34 then S ep else ep in
  let? e := pscan stop s pv (length s) in
  CDone (e, fst (cbmapput attrs k (firstn (e - pv) (skipn pv s)) true)).

(** One parameter (cabin.c 1785-1801 and 1815-1831): [if(cbstrfwimatch(ep,
    p1)) { ... } else if(cbstrfwimatch(ep, p2)) { ... }].  It gives [ep]
    and the map. *)
Definition mb_param (stop : Z -> bool) (p1 k1 p2 k2 : list Z) (s : list Z) (ep : nat) (attrs : bmap)
  : cres (nat * bmap) :=
  let? m1 := cbstrfwimatch (skipn ep s) (p1 ++ [0]) in
  if m1 then mb_value stop p1 k1 s ep attrs
  else
    let? m2 := cbstrfwimatch (skipn ep s) (p2 ++ [0]) in
    if m2 then mb_value stop p2 k2 s ep attrs else CDone (ep, attrs).

(** The [do { ... } while((ep = strchr(ep, ';')) != NULL)] loop (cabin.c
    1780-1802 and 1810-1832), from the [;] at [ep]. *)
Fixpoint mb_params (stop : Z -> bool) (p1 k1 p2 k2 : list Z) (s : list Z) (ep : nat) (attrs : bmap)
  (fuel : nat) : cres bmap :=
  match fuel with
  | O => COob
  | S f =>
      let? ep := skip_sp s (S ep) (length s) in
      let? r := mb_param stop p1 k1 p2 k2 s ep attrs in
      let '(ep, attrs) := r in
      let? next := strchr_mem (skipn ep s) 59 in
      match next with
      | Some k => mb_params stop p1 k1 p2 k2 s (ep + k) attrs f
      | None => CDone attrs
      end
  end.

(** The block of [content-type] (cabin.c 1777-1806) or of
    [content-disposition] (cabin.c 1807-1836): the value up to the first
    [;] under [key0], then the parameters; the whole value under [key0]
    when it has no [;]. *)
Definition mb_field (hname key0 : list Z) (stop : Z -> bool) (p1 k1 p2 k2 : list Z) (attrs : bmap)
  : cres bmap :=
  match cbmapget attrs hname with
  | None => CDone attrs
  | Some v =>
      let s := v ++ [0] in
      let? sc := strchr_mem s 59 in
      match sc with
      | Some k =>
          mb_params stop p1 k1 p2 k2 s k (fst (cbmapput attrs key0 (firstn k s) true)) (length s)
      | None => CDone (fst (cbmapput attrs key0 (take_cstr s) true))
      end
  end.

(** The names and keys of the two blocks. *)
Definition s_content_type : list Z := [99; 111; 110; 116; 101; 110; 116; 45; 116; 121; 112; 101].
Definition s_content_disposition : list Z :=
  [99; 111; 110; 116; 101; 110; 116; 45; 100; 105; 115; 112; 111; 115; 105; 116; 105; 111; 110].
Definition s_charset : list Z := [99; 104; 97; 114; 115; 101; 116; 61].
Definition s_boundary : list Z := [98; 111; 117; 110; 100; 97; 114; 121; 61].
Definition s_filename : list Z := [102; 105; 108; 101; 110; 97; 109; 101; 61].
Definition s_name : list Z := [110; 97; 109; 101; 61].
Definition k_TYPE : list Z := [84; 89; 80; 69].
Definition k_CHARSET : list Z := [67; 72; 65; 82; 83; 69; 84].
Definition k_BOUNDARY : list Z := [66; 79; 85; 78; 68; 65; 82; 89].
Definition k_DISPOSITION : list Z := [68; 73; 83; 80; 79; 83; 73; 84; 73; 79; 78].
Definition k_FILENAME : list Z := [70; 73; 76; 69; 78; 65; 77; 69].
Definition k_NAME : list Z := [78; 65; 77; 69].

(** The bytes that end a value of [content-type] ([' '], ['"'], [';'])
    and of [content-disposition] (['"']). *)
Definition type_stop (c : Z) : bool := (c =? 32) || (c =? 34) || (c =? 59).
Definition disp_stop (c : Z) : bool := c =? 34.

(** [cbmemdup(ptr, size)] (cabin.c 91-99), for [size >= 0]. *)
Definition memdup (m : list Z) (size : Z) : cres (list Z) :=
  if zlen m <? size then COob else CDone (firstn (Z.to_nat size) m).

(** [cbmimebreak] (cabin.c 1721-1840): the body, its size [*sp] and the
    map. *)
Definition cbmimebreak (m : list Z) (size : Z) (attrs : option bmap) : cres (list Z * Z * option bmap) :=
  let? size := if size <? 0 then let? s := c_str m in CDone (zlen s) else CDone size in
  let? hd := mb_scan m size 0 (Z.to_nat size) in
  let '(head, ptr, size) :=
    match hd with
    | Some (i, k) => (Some i, skipn (Z.to_nat (i + k)) m, size - (i + k))
    | None => (None, m, size)
    end in
  let? attrs :=
    match head, attrs with
    | Some hlen, Some a =>
        let? hbuf := mb_unfold m hlen 0 (Z.to_nat hlen) [] in
        let? list := cbsplit hbuf (zlen hbuf) (Some [10]) in
        let? a := mb_lines list 0 (cblistnum list) a in
        let? a := mb_field s_content_type k_TYPE type_stop s_charset k_CHARSET s_boundary k_BOUNDARY a in
        let? a := mb_field s_content_disposition k_DISPOSITION disp_stop s_filename k_FILENAME s_name k_NAME a in
        CDone (Some a)
    | _, a => CDone a
    end in
  let? body := memdup ptr size in
  CDone (body, size, attrs).

(** ** The scans end *)

(** [cbstrfwimatch] with a key without zero on a string that has one
    ends, and a match covers the key. *)
Lemma fwimatch_ok (p str : list Z) :
  Forall (fun b => b <> 0) p -> In 0 str ->
  exists b, cbstrfwimatch str (p ++ [0]) = CDone b /\ (b = true -> (length p < length str)%nat).
Proof.
  intros Hp. revert str. induction Hp as [|y p Hy _ IH]; intros str H0.
  - exists true. split; [reflexivity|]. destruct str; [destruct H0 | cbn; lia].
  - destruct str as [|c str]; [destruct H0|]. cbn [app cbstrfwimatch].
    destruct (Z.eqb_spec y 0); [contradiction|]. destruct (Z.eqb_spec c 0) as [->|Hc].
    + exists false. split; [reflexivity | discriminate].
    + destruct (negb (ci_char c =? ci_char y)); [exists false; split; [reflexivity | discriminate]|].
      destruct H0 as [E|H0]; [congruence|]. destruct (IH str H0) as (b & E & L).
      exists b. split; [exact E | intros Hb; cbn [length]; specialize (L Hb); lia].
Qed.

(** [strchr] on a string that has a zero ends, on the byte it looks for. *)
Lemma strchr_ok (str : list Z) (c : Z) :
  In 0 str -> exists r, strchr_mem str c = CDone r /\ (forall k, r = Some k -> (k < length str)%nat /\ nth k str 0 = c).
Proof.
  induction str as [|x str IH]; intros H0; [destruct H0|]. cbn [strchr_mem].
  destruct (Z.eqb_spec x c) as [->|Hxc]; [exists (Some O); split; [reflexivity|]; intros k [= <-]; cbn; split; [lia | reflexivity]|].
  destruct (Z.eqb_spec x 0) as [->|Hx0]; [exists None; split; [reflexivity | discriminate]|].
  destruct H0 as [E|H0]; [congruence|]. destruct (IH H0) as (r & E & Hr). rewrite E. cbn [cbind].
  exists (option_map S r). split; [reflexivity|]. intros k Hk. destruct r as [j|]; [|discriminate].
  injection Hk as <-. destruct (Hr j eq_refl) as (L & N). cbn [length nth]. split; [lia | exact N].
Qed.

Section Scans.

(** [cbmapput(..., TRUE)] seen by [cbmapget]. *)
Lemma mb_get_put (a : bmap) (k v key : list Z) :
  cbmapget (fst (cbmapput a k v true)) key = if keqb k key then Some v else cbmapget a key.
Proof.
  unfold cbmapput. destruct (cbmapget a k) as [w|] eqn:E; cbn [fst].
  - apply cbmap_replace_get, (cbmapget_In _ _ _ E).
  - rewrite cbmapget_app. cbn [cbmapget]. destruct (keqb_spec k key) as [<-|Hne].
    + rewrite E. cbn. destruct (keqb_spec k k); [reflexivity | contradiction].
    + destruct (cbmapget a key); [reflexivity|]. cbn. destruct (keqb_spec k key); [contradiction | reflexivity].
Qed.

(** The string every scan of a parameter walks: a value and its
    terminator. *)
Variable v : list Z.
Let s := v ++ [0].

Lemma s_len : length s = S (length v).
Proof. unfold s. rewrite length_app. cbn. lia. Qed.

Lemma s_last : nth (length v) s 0 = 0.
Proof. unfold s. rewrite app_nth2 by lia. rewrite Nat.sub_diag. reflexivity. Qed.

Lemma zread_s (j : nat) : (j < length s)%nat -> zread s (Z.of_nat j) = CDone (nth j s 0).
Proof.
  intros H. unfold zread. destruct (Z.ltb_spec (Z.of_nat j) 0); [lia|]. rewrite Nat2Z.id.
  rewrite (nth_error_nth' s 0 H). reflexivity.
Qed.

Lemma skip_sp_ok (n : nat) : forall ep, (ep < length s)%nat -> (length s - ep <= n)%nat ->
  exists ep', skip_sp s ep n = CDone ep' /\ (ep <= ep' < length s)%nat.
Proof.
  induction n as [|n IH]; intros ep H Hn; [lia|]. cbn [skip_sp]. rewrite zread_s by exact H. cbn [cbind].
  destruct (Z.eqb_spec (nth ep s 0) 32) as [E|E]; [|exists ep; split; [reflexivity | lia]].
  assert (ep <> length v) by (intros ->; rewrite s_last in E; discriminate). rewrite s_len in *.
  destruct (IH (S ep)) as (e & Ee & He); [lia | lia |].
  exists e. split; [exact Ee | lia].
Qed.

Lemma pscan_ok (stop : Z -> bool) (n : nat) : forall ep, (ep < length s)%nat -> (length s - ep <= n)%nat ->
  exists e, pscan stop s ep n = CDone e /\ (ep <= e < length s)%nat.
Proof.
  induction n as [|n IH]; intros ep H Hn; [lia|]. cbn [pscan]. rewrite zread_s by exact H. cbn [cbind].
  destruct ((nth ep s 0 =? 0) || stop (nth ep s 0)) eqn:E; [exists ep; split; [reflexivity | lia]|].
  apply orb_false_iff in E as (E & _).
  assert (ep <> length v) by (intros ->; rewrite s_last in E; discriminate). rewrite s_len in *.
  destruct (IH (S ep)) as (e & Ee & He); [lia | lia |].
  exists e. split; [exact Ee | lia].
Qed.

Lemma In0_skipn (ep : nat) : (ep <= length v)%nat -> In 0 (skipn ep s).
Proof.
  intros H. replace 0 with (nth (length v - ep) (skipn ep s) 0) at 1
    by (rewrite nth_skipn; replace (ep + (length v - ep))%nat with (length v) by lia; apply s_last).
  apply nth_In. rewrite length_skipn, s_len. lia.
Qed.

(** The branch of a parameter ends within the string and changes only
    its key. *)
Lemma mb_value_ok (stop : Z -> bool) (p k : list Z) (ep : nat) (a : bmap) :
  (ep + length p < length s)%nat ->
  exists e val, mb_value stop p k s ep a = CDone (e, fst (cbmapput a k val true)) /\ (ep <= e < length s)%nat.
Proof.
  intros H. unfold mb_value. rewrite zread_s by exact H. cbn [cbind].
  set (c := nth (ep + length p) s 0).
  assert (Hpv : ((if Z.eqb c 34 then S (ep + length p) else ep + length p) < length s)%nat).
  { destruct (Z.eqb_spec c 34) as [E|E]; [|exact H].
    assert ((ep + length p)%nat <> length v) by (intros Ee; unfold c in E; rewrite Ee, s_last in E; discriminate).
    rewrite s_len in *. lia. }
  set (pv := if Z.eqb c 34 then S (ep + length p) else (ep + length p)%nat) in *.
  assert (Hep : (ep <= pv)%nat) by (unfold pv; destruct (Z.eqb c 34); lia).
  destruct (pscan_ok stop (length s) _ Hpv ltac:(lia)) as (e & Ee & He). rewrite Ee. cbn [cbind].
  exists e, (firstn (e - pv) (skipn pv s)). split; [reflexivity | lia].
Qed.

(** A parameter ends within the string and changes only its two keys. *)
Lemma mb_param_ok (stop : Z -> bool) (p1 k1 p2 k2 : list Z) (ep : nat) (a : bmap) :
  Forall (fun b => b <> 0) p1 -> Forall (fun b => b <> 0) p2 -> (ep <= length v)%nat ->
  exists ep' a', mb_param stop p1 k1 p2 k2 s ep a = CDone (ep', a') /\ (ep <= ep' < length s)%nat /\
    forall key, key <> k1 -> key <> k2 -> cbmapget a' key = cbmapget a key.
Proof.
  intros H1 H2 Hep. pose proof (In0_skipn ep Hep) as H0. pose proof s_len as L. unfold mb_param.
  destruct (fwimatch_ok p1 _ H1 H0) as ([|] & E1 & L1); rewrite E1; cbn [cbind].
  - rewrite length_skipn in L1. destruct (mb_value_ok stop p1 k1 ep a ltac:(specialize (L1 eq_refl); lia)) as (e & val & E & He).
    exists e, (fst (cbmapput a k1 val true)). split; [exact E | split; [exact He|]]. intros key Hk1 _. rewrite mb_get_put.
    destruct (keqb_spec k1 key); [congruence | reflexivity].
  - destruct (fwimatch_ok p2 _ H2 H0) as ([|] & E2 & L2); rewrite E2; cbn [cbind].
    + rewrite length_skipn in L2. destruct (mb_value_ok stop p2 k2 ep a ltac:(specialize (L2 eq_refl); lia)) as (e & val & E & He).
      exists e, (fst (cbmapput a k2 val true)). split; [exact E | split; [exact He|]]. intros key _ Hk2. rewrite mb_get_put.
      destruct (keqb_spec k2 key); [congruence | reflexivity].
    + exists ep, a. split; [reflexivity | split; [lia | reflexivity]].
Qed.

(** The parameter loop ends: [ep] is at a [;] of the value and moves on
    each round. *)
Lemma mb_params_ok (stop : Z -> bool) (p1 k1 p2 k2 : list Z) (fuel : nat) : forall ep a,
  Forall (fun b => b <> 0) p1 -> Forall (fun b => b <> 0) p2 -> (ep < length v)%nat -> (length v - ep <= fuel)%nat ->
  exists a', mb_params stop p1 k1 p2 k2 s ep a fuel = CDone a' /\
    forall key, key <> k1 -> key <> k2 -> cbmapget a' key = cbmapget a key.
Proof.
  induction fuel as [|f IH]; intros ep a H1 H2 Hep Hf; [lia|]. pose proof s_len as L. cbn [mb_params].
  destruct (skip_sp_ok (length s) (S ep)) as (e1 & E1 & He1); [lia | lia |]. rewrite E1. cbn [cbind].
  assert (He1' : (e1 <= length v)%nat) by lia.
  destruct (mb_param_ok stop p1 k1 p2 k2 e1 a H1 H2 He1') as (e2 & a2 & E2 & He2 & F2). rewrite E2. cbn [cbind].
  assert (He2' : (e2 <= length v)%nat) by lia.
  destruct (strchr_ok (skipn e2 s) 59 (In0_skipn e2 He2')) as ([k|] & E3 & H3); rewrite E3; cbn [cbind].
  - destruct (H3 k eq_refl) as (Lk & Nk). rewrite length_skipn in Lk. rewrite nth_skipn in Nk.
    assert ((e2 + k)%nat <> length v) by (intros Ee; rewrite Ee, s_last in Nk; discriminate).
    destruct (IH (e2 + k)%nat a2 H1 H2 ltac:(lia) ltac:(lia)) as (a3 & E4 & F4).
    exists a3. split; [exact E4|]. intros key K1 K2. rewrite F4, F2 by assumption. reflexivity.
  - exists a2. split; [reflexivity | exact F2].
Qed.

End Scans.

(** The block of [content-type] or [content-disposition] ends, whatever
    the value, and changes only its three keys. *)
Lemma mb_field_ok (hname key0 : list Z) (stop : Z -> bool) (p1 k1 p2 k2 : list Z) (a : bmap) :
  Forall (fun b => b <> 0) p1 -> Forall (fun b => b <> 0) p2 ->
  exists a', mb_field hname key0 stop p1 k1 p2 k2 a = CDone a' /\
    forall key, key <> key0 -> key <> k1 -> key <> k2 -> cbmapget a' key = cbmapget a key.
Proof.
  intros H1 H2. unfold mb_field. destruct (cbmapget a hname) as [v|]; [|exists a; split; reflexivity].
  assert (H0 : In 0 (v ++ [0])) by (apply in_or_app; right; left; reflexivity).
  destruct (strchr_ok (v ++ [0]) 59 H0) as ([k|] & E & Hk); rewrite E; cbn [cbind].
  - destruct (Hk k eq_refl) as (Lk & Nk). rewrite length_app in Lk. cbn [length] in Lk.
    assert (k <> length v) by (intros ->; rewrite (s_last v) in Nk; discriminate).
    destruct (mb_params_ok v stop p1 k1 p2 k2 (length (v ++ [0])) k (fst (cbmapput a key0 (firstn k (v ++ [0])) true)) H1 H2)
      as (a' & E' & F'); [lia | rewrite length_app; cbn [length]; lia |].
    exists a'. split; [exact E'|]. intros key K0 K1 K2. rewrite F', mb_get_put by assumption.
    destruct (keqb_spec key0 key); [congruence | reflexivity].
  - exists (fst (cbmapput a key0 (take_cstr (v ++ [0])) true)). split; [reflexivity|].
    intros key K0 _ _. rewrite mb_get_put. destruct (keqb_spec key0 key); [congruence | reflexivity].
Qed.

(** ** A well-formed header *)

(** A header line [name: value]. *)
Definition hline (hf : list Z * list Z) : list Z := fst hf ++ 58 :: 32 :: snd hf.

(** Lines joined by [sep]. *)
Fixpoint hjoin (sep : list Z) (ls : list (list Z)) : list Z :=
  match ls with
  | [] => []
  | [l] => l
  | l :: ls => l ++ sep ++ hjoin sep ls
  end.

(** A line of a header, as the scans see it: no zero and no line break,
    and a first byte that does not continue the line before. *)
Definition line_ok (l : list Z) : Prop :=
  Forall (fun c => c <> 0 /\ c <> 13 /\ c <> 10) l /\ exists c r, l = c :: r /\ c <> 32 /\ c <> 9.

(** A field [name: value]: a name of bytes without zero, [:] or line
    break, not starting with a blank; a value without zero or line
    break, not starting with a blank. *)
Definition field_ok (hf : list Z * list Z) : Prop :=
  bytes_ok (fst hf) /\ Forall (fun c => c <> 0 /\ c <> 58 /\ c <> 13 /\ c <> 10) (fst hf) /\
  (forall c r, fst hf = c :: r -> c <> 32 /\ c <> 9) /\
  Forall (fun c => c <> 0 /\ c <> 13 /\ c <> 10) (snd hf) /\ (forall c r, snd hf = c :: r -> c <> 32 /\ c <> 9).

(** The map after the fields, each put under its lower-cased name. *)
Definition hfold (hs : list (list Z * list Z)) (a : bmap) : bmap :=
  fold_left (fun a hf => fst (cbmapput a (map tolower_char (fst hf)) (snd hf) true)) hs a.

Lemma zread_shift (pre w : list Z) (j : Z) : 0 <= j -> zread (pre ++ w) (zlen pre + j) = zread w j.
Proof.
  intros Hj. unfold zread. destruct (Z.ltb_spec (zlen pre + j) 0), (Z.ltb_spec j 0); try (zlen_facts; lia).
  unfold zlen. rewrite Z2Nat.inj_add, Nat2Z.id, nth_error_app2 by lia.
  replace (length pre + Z.to_nat j - length pre)%nat with (Z.to_nat j) by lia. reflexivity.
Qed.

Lemma match_at_shift (pre w pat : list Z) : forall j, 0 <= j ->
  match_at (pre ++ w) (zlen pre + j) pat = match_at w j pat.
Proof.
  induction pat as [|p pat IH]; intros j Hj; [reflexivity|]. cbn [match_at].
  rewrite zread_shift by exact Hj. destruct (zread w j) as [c| |]; cbn [cbind]; try reflexivity.
  destruct (c =? p); [|reflexivity]. rewrite <- Z.add_assoc. apply IH. lia.
Qed.

Lemma match_at_at (pre w pat : list Z) : match_at (pre ++ w) (zlen pre) pat = match_at w 0 pat.
Proof. rewrite <- (Z.add_0_r (zlen pre)) at 1. apply match_at_shift. lia. Qed.

Lemma match_at_cons (c : Z) (w : list Z) (p : Z) (pat : list Z) :
  match_at (c :: w) 0 (p :: pat) = if c =? p then match_at w 0 pat else CDone false.
Proof.
  cbn [match_at]. change (zread (c :: w) 0) with (CDone c). cbn [cbind].
  destruct (c =? p); [|reflexivity]. apply (match_at_at [c] w pat).
Qed.

Lemma hjoin_cons (sep l : list Z) (ls : list (list Z)) :
  ls <> [] -> hjoin sep (l :: ls) = l ++ sep ++ hjoin sep ls.
Proof. destruct ls; [contradiction | reflexivity]. Qed.

Lemma hjoin_head (sep : list Z) (c : Z) (r : list Z) (ls : list (list Z)) :
  exists t, hjoin sep ((c :: r) :: ls) = c :: t.
Proof. destruct ls; eexists; reflexivity. Qed.

Lemma line_ok_bytes (l : list Z) : line_ok l -> Forall (fun c => c <> 13 /\ c <> 10) l.
Proof. intros (H & _). eapply Forall_impl; [|exact H]. cbn. tauto. Qed.

Section Scan.
Variables (m : list Z) (size : Z).

Lemma mb_scan_next (i : Z) (n : nat) :
  i < size -> (i < size - 4 -> match_at m i [13; 10; 13; 10] = CDone false) ->
  (i < size - 2 -> match_at m i [10; 10] = CDone false) -> mb_scan m size i (S n) = mb_scan m size (i + 1) n.
Proof.
  intros Hi H4 H2. cbn [mb_scan]. destruct (Z.ltb_spec i size); [|lia].
  destruct (Z.ltb_spec i (size - 4)); [rewrite H4 by lia|]; cbn [cbind];
    (destruct (Z.ltb_spec i (size - 2)); [rewrite H2 by lia|]); reflexivity.
Qed.

(** The scan passes over the bytes of a line. *)
Lemma mb_scan_line (rest : list Z) : forall l pre n,
  m = pre ++ l ++ rest -> Forall (fun c => c <> 13 /\ c <> 10) l -> zlen pre + zlen l <= size ->
  mb_scan m size (zlen pre) (length l + n) = mb_scan m size (zlen pre + zlen l) n.
Proof.
  induction l as [|c l IH]; intros pre n Em Hl Hs; [rewrite zlen_nil, Z.add_0_r; reflexivity|].
  apply Forall_cons_iff in Hl as ((H13 & H10) & Hl). rewrite zlen_cons in *. cbn [length Nat.add].
  rewrite mb_scan_next by (zlen_facts; lia || (intros _; rewrite Em, match_at_at; cbn [app];
    rewrite match_at_cons; destruct (Z.eqb_spec c 13), (Z.eqb_spec c 10); congruence)).
  replace (zlen pre + 1) with (zlen (pre ++ [c])) by (rewrite zlen_app; reflexivity).
  rewrite (IH (pre ++ [c]) n) by (rewrite ?Em, ?zlen_app, <- ?app_assoc; reflexivity || assumption || (rewrite ?zlen_app, ?zlen_cons, ?zlen_nil; lia)).
  rewrite zlen_app. f_equal. rewrite ?zlen_cons, ?zlen_nil. lia.
Qed.

(** The scan passes over the line break between two lines. *)
Lemma mb_scan_sep (pre rest : list Z) (x : Z) (n : nat) :
  m = pre ++ 13 :: 10 :: x :: rest -> x <> 13 -> x <> 10 -> zlen pre + 2 <= size ->
  mb_scan m size (zlen pre) (2 + n) = mb_scan m size (zlen pre + 2) n.
Proof.
  intros Em H13 H10 Hs. cbn [Nat.add].
  rewrite mb_scan_next by (lia || (intros _; rewrite Em, match_at_at; rewrite !match_at_cons;
    destruct (Z.eqb_spec x 13); [contradiction | reflexivity])).
  replace (zlen pre + 1) with (zlen (pre ++ [13])) by (rewrite zlen_app; reflexivity).
  assert (Em' : m = (pre ++ [13]) ++ 10 :: x :: rest) by (rewrite Em, <- app_assoc; reflexivity).
  rewrite mb_scan_next by ((rewrite zlen_app, ?zlen_cons, ?zlen_nil; lia) || (intros _; rewrite Em', match_at_at; rewrite !match_at_cons;
    destruct (Z.eqb_spec x 10); [contradiction | reflexivity])).
  rewrite zlen_app. f_equal. rewrite ?zlen_cons, ?zlen_nil. lia.
Qed.

(** The scan stops at the blank line that ends the header, when a byte
    follows it. *)
Lemma mb_scan_hit (pre rest : list Z) (b : Z) (n : nat) :
  m = pre ++ 13 :: 10 :: 13 :: 10 :: b :: rest -> zlen pre + 5 <= size ->
  mb_scan m size (zlen pre) (S n) = CDone (Some (zlen pre, 4)).
Proof.
  intros Em Hs. cbn [mb_scan]. destruct (Z.ltb_spec (zlen pre) size), (Z.ltb_spec (zlen pre) (size - 4)); try lia.
  rewrite Em, match_at_at, !match_at_cons. reflexivity.
Qed.

(** The scan passes over a header of lines joined by [\r\n]. *)
Lemma mb_scan_join (rest : list Z) : forall lines pre n,
  lines <> [] -> Forall line_ok lines -> m = pre ++ hjoin [13; 10] lines ++ rest ->
  zlen pre + zlen (hjoin [13; 10] lines) <= size ->
  mb_scan m size (zlen pre) (length (hjoin [13; 10] lines) + n) = mb_scan m size (zlen pre + zlen (hjoin [13; 10] lines)) n.
Proof.
  induction lines as [|l ls IH]; intros pre n Hne Hok Em Hs; [contradiction|].
  apply Forall_cons_iff in Hok as (Hl & Hls). destruct ls as [|l' ls].
  - apply (mb_scan_line rest); [exact Em | apply line_ok_bytes, Hl | exact Hs].
  - rewrite hjoin_cons in * by discriminate. set (J := hjoin [13; 10] (l' :: ls)) in *.
    destruct (Forall_inv Hls) as (Hl' & (x & r & -> & _ & _)).
    destruct (hjoin_head [13; 10] x r ls) as (t & Et). fold J in Et.
    assert (Hx : x <> 13 /\ x <> 10) by (apply Forall_inv in Hls; destruct Hls as (Hf & _); apply Forall_inv in Hf; tauto).
    rewrite !zlen_app in *. rewrite !length_app, <- !Nat.add_assoc.
    rewrite (mb_scan_line ([13; 10] ++ J ++ rest) l pre) by (rewrite ?Em, <- ?app_assoc; reflexivity || apply line_ok_bytes, Hl || (rewrite ?zlen_app, ?zlen_cons, ?zlen_nil in *; zlen_facts; lia)).
    change (length [13; 10]) with 2%nat.
    replace (zlen pre + zlen l) with (zlen (pre ++ l)) by (rewrite zlen_app; reflexivity).
    rewrite (mb_scan_sep (pre ++ l) (t ++ rest) x) by ((rewrite Em, Et, <- ?app_assoc; reflexivity) || tauto || (rewrite ?zlen_app, ?zlen_cons, ?zlen_nil in *; zlen_facts; lia)).
    replace (zlen (pre ++ l) + 2) with (zlen (pre ++ l ++ [13; 10])) by (rewrite !zlen_app, ?zlen_cons, ?zlen_nil; lia).
    rewrite IH by (discriminate || exact Hls || (rewrite Em, <- !app_assoc; reflexivity) || (rewrite ?zlen_app, ?zlen_cons, ?zlen_nil in *; lia)).
    f_equal. rewrite !zlen_app, ?zlen_cons, ?zlen_nil. lia.
Qed.

End Scan.

Lemma zread_in (m : list Z) (k : Z) : 0 <= k < zlen m -> exists c, zread m k = CDone c.
Proof.
  intros H. unfold zread. destruct (Z.ltb_spec k 0); [lia|].
  destruct (nth_error m (Z.to_nat k)) eqn:E; [eexists; reflexivity|].
  apply nth_error_None in E. unfold zlen in H. lia.
Qed.

Section Unfold.
Variables (m : list Z) (hlen : Z).

(** The copy passes over the bytes of a line. *)
Lemma mb_unfold_line (rest : list Z) : forall l pre n acc,
  m = pre ++ l ++ rest -> Forall (fun c => c <> 13 /\ c <> 10) l -> zlen pre + zlen l <= hlen ->
  mb_unfold m hlen (zlen pre) (length l + n) acc = mb_unfold m hlen (zlen pre + zlen l) n (acc ++ l).
Proof.
  induction l as [|c l IH]; intros pre n acc Em Hl Hs; [rewrite zlen_nil, Z.add_0_r, app_nil_r; reflexivity|].
  apply Forall_cons_iff in Hl as ((H13 & H10) & Hl). rewrite zlen_cons in *. cbn [length Nat.add mb_unfold].
  destruct (Z.ltb_spec (zlen pre) hlen); [|zlen_facts; lia].
  rewrite (zread_at m pre (l ++ rest) c Em). cbn [cbind]. destruct (Z.eqb_spec c 13); [contradiction|].
  rewrite (proj2 (Z.eqb_neq c 10) H10), andb_false_r. cbn [cbind].
  replace (zlen pre + 1) with (zlen (pre ++ [c])) by (rewrite zlen_app; reflexivity).
  rewrite (IH (pre ++ [c]) n (acc ++ [c])) by ((rewrite Em, <- app_assoc; reflexivity) || assumption || (rewrite zlen_app, zlen_cons, zlen_nil; lia)).
  rewrite <- app_assoc, zlen_app, zlen_cons, zlen_nil. cbn [app]. f_equal. lia.
Qed.

(** The copy turns the line break between two lines into [\n]. *)
Lemma mb_unfold_sep (pre rest : list Z) (x : Z) (n : nat) (acc : list Z) :
  m = pre ++ 13 :: 10 :: x :: rest -> x <> 32 -> x <> 9 -> zlen pre + 2 < hlen ->
  mb_unfold m hlen (zlen pre) (2 + n) acc = mb_unfold m hlen (zlen pre + 2) n (acc ++ [10]).
Proof.
  intros Em H32 H9 Hs. cbn [Nat.add mb_unfold].
  destruct (Z.ltb_spec (zlen pre) hlen); [|lia]. rewrite (zread_at m pre _ 13 Em). cbn [cbind Z.eqb Pos.eqb].
  assert (E1 : m = (pre ++ [13]) ++ 10 :: x :: rest) by (rewrite Em, <- app_assoc; reflexivity).
  assert (E2 : m = (pre ++ [13; 10]) ++ x :: rest) by (rewrite Em, <- app_assoc; reflexivity).
  replace (zlen pre + 1) with (zlen (pre ++ [13])) by (rewrite zlen_app; reflexivity).
  destruct (Z.ltb_spec (zlen (pre ++ [13])) hlen); [|rewrite zlen_app, zlen_cons, zlen_nil in *; lia].
  rewrite (zread_at m _ _ 10 E1). cbn [cbind Z.eqb Pos.eqb].
  destruct (Z.ltb_spec (zlen (pre ++ [13])) (hlen - 1)); [|rewrite zlen_app, zlen_cons, zlen_nil in *; lia].
  cbn [andb]. replace (zlen (pre ++ [13]) + 1) with (zlen (pre ++ [13; 10])) by (rewrite !zlen_app, !zlen_cons, zlen_nil; lia).
  rewrite (zread_at m _ _ x E2). cbn [cbind].
  destruct (Z.eqb_spec x 32), (Z.eqb_spec x 9); try contradiction. cbn [orb].
  f_equal. rewrite !zlen_app, !zlen_cons, zlen_nil. lia.
Qed.

Lemma mb_unfold_end (n : nat) (acc : list Z) : mb_unfold m hlen hlen n acc = CDone acc.
Proof. destruct n; cbn [mb_unfold]; [reflexivity|]. rewrite Z.ltb_irrefl. reflexivity. Qed.

(** The copy of a header of lines joined by [\r\n] is the lines joined
    by [\n]. *)
Lemma mb_unfold_join (rest : list Z) : forall lines pre n acc,
  lines <> [] -> Forall line_ok lines -> m = pre ++ hjoin [13; 10] lines ++ rest ->
  zlen pre + zlen (hjoin [13; 10] lines) <= hlen ->
  mb_unfold m hlen (zlen pre) (length (hjoin [13; 10] lines) + n) acc =
  mb_unfold m hlen (zlen pre + zlen (hjoin [13; 10] lines)) n (acc ++ hjoin [10] lines).
Proof.
  induction lines as [|l ls IH]; intros pre n acc Hne Hok Em Hs; [contradiction|].
  apply Forall_cons_iff in Hok as (Hl & Hls). destruct ls as [|l' ls].
  - apply (mb_unfold_line rest); [exact Em | apply line_ok_bytes, Hl | exact Hs].
  - rewrite !hjoin_cons in * by discriminate. set (J := hjoin [13; 10] (l' :: ls)) in *.
    destruct (Forall_inv Hls) as (Hl' & (x & r & -> & Hx32 & Hx9)).
    destruct (hjoin_head [13; 10] x r ls) as (t & Et). fold J in Et.
    assert (HJ : 1 <= zlen J) by (rewrite Et, zlen_cons; zlen_facts; lia).
    rewrite !zlen_app in *. rewrite !length_app, <- !Nat.add_assoc.
    rewrite (mb_unfold_line ([13; 10] ++ J ++ rest) l pre) by ((rewrite Em, <- ?app_assoc; reflexivity) || apply line_ok_bytes, Hl || (zlen_facts; lia)).
    change (length [13; 10]) with 2%nat.
    replace (zlen pre + zlen l) with (zlen (pre ++ l)) by (rewrite zlen_app; reflexivity).
    rewrite (mb_unfold_sep (pre ++ l) (t ++ rest) x) by ((rewrite Em, Et, <- ?app_assoc; reflexivity) || assumption || (rewrite ?zlen_app, ?zlen_cons, ?zlen_nil in *; zlen_facts; lia)).
    replace (zlen (pre ++ l) + 2) with (zlen (pre ++ l ++ [13; 10])) by (rewrite !zlen_app, ?zlen_cons, ?zlen_nil; lia).
    rewrite IH by (discriminate || exact Hls || (rewrite Em, <- !app_assoc; reflexivity) || (rewrite ?zlen_app, ?zlen_cons, ?zlen_nil in *; lia)).
    rewrite <- !app_assoc. f_equal. rewrite !zlen_app, ?zlen_cons, ?zlen_nil. lia.
Qed.

(** The copy ends and writes at most [hlen] bytes into [hbuf], which has
    [hlen + 1]. *)
Lemma mb_unfold_bound (n : nat) : forall i acc,
  0 <= i -> hlen <= zlen m -> (Z.to_nat (hlen - i) <= n)%nat ->
  exists r, mb_unfold m hlen i n acc = CDone r /\ zlen r <= zlen acc + Z.max 0 (hlen - i).
Proof.
  induction n as [|n IH]; intros i acc Hi Hm Hn; cbn [mb_unfold].
  - exists acc. split; [reflexivity | lia].
  - destruct (Z.ltb_spec i hlen) as [Hlt|Hge]; [|exists acc; split; [reflexivity | lia]].
    destruct (zread_in m i ltac:(lia)) as (c & Ec). rewrite Ec. cbn [cbind].
    destruct (Z.eqb_spec c 13).
    + destruct (IH (i + 1) acc) as (r & E & L); [lia | lia | lia |]. exists r. split; [exact E | lia].
    + destruct ((i <? hlen - 1) && (c =? 10)) eqn:F; cbn [cbind].
      * apply andb_true_iff in F as (F & _). apply Z.ltb_lt in F.
        destruct (zread_in m (i + 1) ltac:(lia)) as (c' & Ec'). rewrite Ec'. cbn [cbind].
        destruct ((c' =? 32) || (c' =? 9)).
        -- destruct (IH (i + 2) (acc ++ [32])) as (r & E & L); [lia | lia | lia |].
           exists r. split; [exact E | rewrite zlen_app, zlen_cons, zlen_nil in L; lia].
        -- destruct (IH (i + 1) (acc ++ [c])) as (r & E & L); [lia | lia | lia |].
           exists r. split; [exact E | rewrite zlen_app, zlen_cons, zlen_nil in L; lia].
      * destruct (IH (i + 1) (acc ++ [c])) as (r & E & L); [lia | lia | lia |].
        exists r. split; [exact E | rewrite zlen_app, zlen_cons, zlen_nil in L; lia].
Qed.

End Unfold.

(** ** The lines of a well-formed header *)

Lemma field_line_ok (hf : list Z * list Z) : field_ok hf -> line_ok (hline hf).
Proof.
  intros (_ & Hn & Hh & Hv & _). unfold hline, line_ok. split.
  - apply Forall_app. split; [eapply Forall_impl; [|exact Hn]; cbn; tauto|].
    constructor; [lia|]. constructor; [lia|]. exact Hv.
  - destruct (fst hf) as [|c r] eqn:E.
    + exists 58, (32 :: snd hf). split; [reflexivity | lia].
    + exists c, (r ++ 58 :: 32 :: snd hf). split; [reflexivity | apply (Hh c r eq_refl)].
Qed.

Lemma skip_blank_value (v : list Z) : (forall c r, v = c :: r -> c <> 32 /\ c <> 9) ->
  skip_blank (32 :: v ++ [0]) = v ++ [0].
Proof.
  intros H. cbn [skip_blank Z.eqb Pos.eqb orb]. destruct v as [|c r]; [reflexivity|].
  destruct (H c r eq_refl) as (H32 & H9). cbn [app skip_blank].
  destruct (Z.eqb_spec c 32), (Z.eqb_spec c 9); try contradiction. reflexivity.
Qed.

(** A line [name: value] puts the value under the lower-cased name. *)
Lemma mb_line_field (a : bmap) (hf : list Z * list Z) :
  field_ok hf -> mb_line a (hline hf) = CDone (fst (cbmapput a (map tolower_char (fst hf)) (snd hf) true)).
Proof.
  intros (Hb & Hn & Hh & Hv & Hvh). destruct hf as (n & v). cbn [fst snd hline] in *. unfold mb_line.
  assert (Nn : Forall (fun b => b <> 0) n) by (eapply Forall_impl; [|exact Hn]; cbn; tauto).
  assert (Nv : Forall (fun b => b <> 0) v) by (eapply Forall_impl; [|exact Hv]; cbn; tauto).
  cbv zeta. unfold hline. cbn [fst snd]. rewrite <- app_assoc. cbn [app]. rewrite strchr_mem_app by (lia || (eapply Forall_impl; [|exact Hn]; cbn; tauto)).
  cbn [cbind]. rewrite firstn_app, Nat.sub_diag, firstn_all, firstn_O, app_nil_r.
  unfold cbstrtolower. rewrite case_loop_app by exact Nn. cbn [cbind].
  rewrite take_cstr_app by (apply map_tolower_nz; assumption).
  rewrite skipn_app, skipn_all2, Nat.sub_succ_l, Nat.sub_diag by lia. cbn [app skipn].
  rewrite skip_blank_value by exact Hvh. rewrite take_cstr_app by exact Nv. reflexivity.
Qed.

(** The loop over the lines of the list [cbsplit] made from the fields
    puts each field in turn. *)
Lemma mb_lines_fold (l : CBLIST) (hs : list (list Z * list Z)) :
  cl_ok l -> cl_view l = map hline hs -> Forall field_ok hs ->
  forall n i a, (length hs <= i + n)%nat -> mb_lines l i n a = CDone (hfold (skipn i hs) a).
Proof.
  intros Hok Hv Hf. assert (Hnum : cblistnum l = length hs) by (unfold cblistnum; rewrite <- length_view by exact Hok; rewrite Hv, length_map; reflexivity).
  induction n as [|n IH]; intros i a Hi; cbn [mb_lines].
  - rewrite skipn_all2 by lia. reflexivity.
  - rewrite Hnum. destruct (Nat.ltb_spec i (length hs)) as [Hlt|Hge]; [|rewrite skipn_all2 by lia; reflexivity].
    rewrite cblistval_view, Hv, nth_error_map.
    destruct (nth_error hs i) as [hf|] eqn:E; [|apply nth_error_None in E; lia]. cbn [option_map].
    rewrite mb_line_field by (eapply Forall_forall; [exact Hf | eapply nth_error_In; exact E]). cbn [cbind].
    rewrite IH by lia. rewrite (skipn_nth_cons hs i hf Hlt), (nth_error_nth hs i hf E). reflexivity.
Qed.

(** [cbsplit] at [\n] gives back lines joined by [\n]. *)
Lemma split_hjoin (lines : list (list Z)) :
  lines <> [] -> Forall (Forall (fun c => c <> 0 /\ c <> 10)) lines ->
  split_ref (sp_delim (Some [10])) (hjoin [10] lines) = lines.
Proof.
  assert (Hd : forall l, Forall (fun c => c <> 0 /\ c <> 10) l -> Forall (fun c => sp_delim (Some [10]) c = false) l).
  { intros l. apply Forall_impl. intros c (H0 & H10). unfold sp_delim. cbn [existsb].
    destruct (Z.eqb_spec c 0), (Z.eqb_spec c 10); [contradiction..|reflexivity]. }
  induction lines as [|l ls IH]; intros Hne H; [contradiction|]. apply Forall_cons_iff in H as (Hl & Hls).
  destruct ls as [|l' ls]; [apply split_nodelim, Hd, Hl|].
  rewrite hjoin_cons by discriminate. cbn [app]. rewrite split_app_delim by (apply Hd, Hl || reflexivity).
  rewrite IH by (discriminate || exact Hls). reflexivity.
Qed.

(** ** Executable well-formedness *)

Definition not_blank_head (l : list Z) : bool :=
  match l with c :: _ => negb (c =? 32) && negb (c =? 9) | [] => true end.

(** [field_ok] as a test. *)
Definition name_byteb (c : Z) : bool :=
  (0 <=? c) && (c <? 256) && negb (c =? 0) && negb (c =? 58) && negb (c =? 13) && negb (c =? 10).
Definition value_byteb (c : Z) : bool := negb (c =? 0) && negb (c =? 13) && negb (c =? 10).

Definition field_okb (hf : list Z * list Z) : bool :=
  forallb name_byteb (fst hf) && not_blank_head (fst hf) &&
  forallb value_byteb (snd hf) && not_blank_head (snd hf).

Lemma not_blank_head_ok (l : list Z) : not_blank_head l = true -> forall c r, l = c :: r -> c <> 32 /\ c <> 9.
Proof.
  intros H c r ->. cbn in H. apply andb_true_iff in H as (H1 & H2). apply negb_true_iff, Z.eqb_neq in H1, H2. tauto.
Qed.

Lemma name_byteb_ok (c : Z) : name_byteb c = true -> byte_ok c /\ c <> 0 /\ c <> 58 /\ c <> 13 /\ c <> 10.
Proof.
  unfold name_byteb, byte_ok. intros H. repeat rewrite andb_true_iff in H. rewrite !negb_true_iff, !Z.eqb_neq in H.
  destruct H as (((((H1 & H2) & H3) & H4) & H5) & H6). apply Z.leb_le in H1. apply Z.ltb_lt in H2. tauto.
Qed.

Lemma value_byteb_ok (c : Z) : value_byteb c = true -> c <> 0 /\ c <> 13 /\ c <> 10.
Proof. unfold value_byteb. intros H. repeat rewrite andb_true_iff in H. rewrite !negb_true_iff, !Z.eqb_neq in H. tauto. Qed.

Lemma forallb_Forall_impl {A : Type} (f : A -> bool) (P : A -> Prop) (l : list A) :
  (forall x, f x = true -> P x) -> forallb f l = true -> Forall P l.
Proof. intros H Hl. apply Forall_forall. intros x Hx. apply H. eapply forallb_forall; eassumption. Qed.

Lemma field_okb_ok (hf : list Z * list Z) : field_okb hf = true -> field_ok hf.
Proof.
  unfold field_okb. intros H. repeat rewrite andb_true_iff in H. destruct H as (((Hn & Hnh) & Hv) & Hvh).
  pose proof (forallb_Forall_impl _ _ _ name_byteb_ok Hn) as Fn.
  split; [eapply Forall_impl; [|exact Fn]; cbn; tauto|].
  split; [eapply Forall_impl; [|exact Fn]; cbn; tauto|].
  split; [apply not_blank_head_ok, Hnh|].
  split; [exact (forallb_Forall_impl _ _ _ value_byteb_ok Hv) | apply not_blank_head_ok, Hvh].
Qed.

(** ** An entity with a header of fields *)

(** The fields joined by [\r\n], a blank line, the body. *)
Definition hmsg (hs : list (list Z * list Z)) (body : list Z) : list Z :=
  hjoin [13; 10] (map hline hs) ++ [13; 10; 13; 10] ++ body.

Section Entity.
Variables (hs : list (list Z * list Z)) (body : list Z).
Hypotheses (Hne : hs <> []) (Hok : Forall field_ok hs) (Hb : body <> []).
Let h := hjoin [13; 10] (map hline hs).

Lemma lines_ne : map hline hs <> [].
Proof. destruct hs; [contradiction | discriminate]. Qed.

Lemma lines_ok : Forall line_ok (map hline hs).
Proof. apply Forall_map. eapply Forall_impl; [|exact Hok]. exact field_line_ok. Qed.

Lemma hmsg_len : zlen (hmsg hs body) = zlen h + 4 + zlen body.
Proof. unfold hmsg. fold h. rewrite !zlen_app, !zlen_cons, zlen_nil. lia. Qed.

(** The scan stops at the blank line after the fields. *)
Lemma mb_scan_hmsg :
  mb_scan (hmsg hs body) (zlen (hmsg hs body)) 0 (Z.to_nat (zlen (hmsg hs body))) = CDone (Some (zlen h, 4)).
Proof.
  assert (Eb : exists b r, body = b :: r) by (destruct body; [contradiction | eauto]). destruct Eb as (b & r & Eb).
  pose proof hmsg_len as L.
  replace (Z.to_nat (zlen (hmsg hs body))) with (length h + S (3 + length body))%nat
    by (rewrite L; unfold zlen; lia).
  pose proof (mb_scan_join (hmsg hs body) (zlen (hmsg hs body)) ([13; 10; 13; 10] ++ body) (map hline hs) []
                (S (3 + length body)) lines_ne lines_ok) as S1.
  change (zlen (@nil Z)) with 0 in S1. rewrite Z.add_0_l in S1. fold h in S1.
  rewrite S1 by (reflexivity || (zlen_facts; lia)).
  apply (mb_scan_hit _ _ h r b); [unfold hmsg; fold h; rewrite Eb; reflexivity | rewrite L, Eb, zlen_cons; zlen_facts; lia].
Qed.

(** The copy of the fields joins them by [\n]. *)
Lemma mb_unfold_hmsg : mb_unfold (hmsg hs body) (zlen h) 0 (Z.to_nat (zlen h)) [] = CDone (hjoin [10] (map hline hs)).
Proof.
  replace (Z.to_nat (zlen h)) with (length h + 0)%nat by (unfold zlen; lia).
  pose proof (mb_unfold_join (hmsg hs body) (zlen h) ([13; 10; 13; 10] ++ body) (map hline hs) [] 0 []
                lines_ne lines_ok) as U. change (zlen (@nil Z)) with 0 in U. rewrite Z.add_0_l in U. fold h in U.
  rewrite U by (reflexivity || lia). apply mb_unfold_end.
Qed.

(** [cbsplit] gives the lines back. *)
Lemma mb_split_hmsg :
  exists l, cbsplit (hjoin [10] (map hline hs)) (zlen (hjoin [10] (map hline hs))) (Some [10]) = CDone l /\
            cl_ok l /\ cl_view l = map hline hs.
Proof.
  set (u := hjoin [10] (map hline hs)). destruct (cbsplit_spec u (zlen u) (Some [10])) as (l & E & Ok & V); [zlen_facts; lia|].
  exists l. split; [exact E | split; [exact Ok|]]. rewrite V.
  assert (Hu : zlen u <> 0).
  { destruct hs as [|hf hs'] eqn:Ehs; [contradiction|]. destruct (proj2 (field_line_ok hf (Forall_inv Hok))) as (c & r & Ec & _).
    unfold u. cbn [map]. destruct (hjoin_head [10] c r (map hline hs')) as (t & Et). rewrite <- Ec in Et.
    rewrite Et, zlen_cons. zlen_facts. lia. }
  destruct (Z.eqb_spec (zlen u) 0); [contradiction|]. unfold zlen. rewrite Nat2Z.id, firstn_all.
  apply split_hjoin; [exact lines_ne|]. eapply Forall_impl; [|exact lines_ok]. intros l' (H' & _).
  eapply Forall_impl; [|exact H']. cbn. tauto.
Qed.

(** The body follows the blank line. *)
Lemma skipn_hmsg : skipn (Z.to_nat (zlen h + 4)) (hmsg hs body) = body.
Proof.
  unfold hmsg. fold h. replace (Z.to_nat (zlen h + 4)) with (length h + 4)%nat by (unfold zlen; lia).
  rewrite skipn_app, skipn_all2 by lia. replace (length h + 4 - length h)%nat with 4%nat by lia. reflexivity.
Qed.

(** With nothing after the blank line, the scan finds no end of header. *)
Lemma mb_scan_hmsg_empty :
  mb_scan (hmsg hs []) (zlen (hmsg hs [])) 0 (Z.to_nat (zlen (hmsg hs []))) = CDone None.
Proof.
  set (m := hmsg hs []). assert (L : zlen m = zlen h + 4) by (unfold m, hmsg; fold h; rewrite !zlen_app, !zlen_cons, zlen_nil; lia).
  replace (Z.to_nat (zlen m)) with (length h + 4)%nat by (rewrite L; unfold zlen; lia).
  pose proof (mb_scan_join m (zlen m) [13; 10; 13; 10] (map hline hs) [] 4 lines_ne lines_ok) as S1.
  change (zlen (@nil Z)) with 0 in S1. rewrite Z.add_0_l in S1. fold h in S1.
  rewrite S1 by ((unfold m, hmsg; rewrite app_nil_r; reflexivity) || lia).
  assert (Em : forall k, (k <= 4)%nat -> m = (h ++ firstn k [13; 10; 13; 10]) ++ skipn k [13; 10; 13; 10])
    by (intros k _; rewrite <- app_assoc, firstn_skipn; unfold m, hmsg; rewrite app_nil_r; reflexivity).
  rewrite mb_scan_next by (lia || (intros _; rewrite (Em 0%nat), app_nil_r, match_at_at by lia; reflexivity)).
  rewrite mb_scan_next by (lia || (intros _; rewrite (Em 1%nat) by lia;
    replace (zlen h + 1) with (zlen (h ++ [13])) by (rewrite zlen_app; reflexivity); rewrite match_at_at; reflexivity)).
  rewrite mb_scan_next by lia. rewrite mb_scan_next by lia.
  cbn [mb_scan]. reflexivity.
Qed.

End Entity.

Lemma Forall_nz_lit (l : list Z) : forallb (fun c => negb (c =? 0)) l = true -> Forall (fun b => b <> 0) l.
Proof. apply forallb_Forall_impl. intros c H. apply negb_true_iff, Z.eqb_neq in H. exact H. Qed.

(** ** Theorems *)

(** C29: [cbmimebreak] parses a header of well-formed [name: value] fields
    joined by [\r\n] and ended by a blank line before a non-empty body:
    it returns the body and its size, and the map holds, under every key
    but the six upper-case ones it derives from [content-type] and
    [content-disposition], what putting each field in turn under its
    lower-cased name gives. *)
Theorem cbmimebreak_fields (hs : list (list Z * list Z)) (body : list Z) (a : bmap) :
  hs <> [] -> forallb field_okb hs = true -> body <> [] ->
  exists a', cbmimebreak (hmsg hs body) (zlen (hmsg hs body)) (Some a) = CDone (body, zlen body, Some a') /\
    forall key, ~ In key [k_TYPE; k_CHARSET; k_BOUNDARY; k_DISPOSITION; k_FILENAME; k_NAME] ->
      cbmapget a' key = cbmapget (hfold hs a) key.
Proof.
  intros Hne Hb Hbody. assert (Hok : Forall field_ok hs) by exact (forallb_Forall_impl _ _ _ field_okb_ok Hb).
  unfold cbmimebreak. destruct (Z.ltb_spec (zlen (hmsg hs body)) 0); [zlen_facts; lia|]. cbn [cbind].
  rewrite (mb_scan_hmsg hs body Hne Hok Hbody). cbn [cbind].
  rewrite (mb_unfold_hmsg hs body Hne Hok). cbn [cbind].
  destruct (mb_split_hmsg hs Hne Hok) as (l & El & Okl & Vl). rewrite El. cbn [cbind].
  rewrite (mb_lines_fold l hs Okl Vl Hok (cblistnum l) 0 a)
    by (unfold cblistnum; rewrite <- length_view, Vl, length_map by exact Okl; lia). cbn [cbind skipn].
  destruct (mb_field_ok s_content_type k_TYPE type_stop s_charset k_CHARSET s_boundary k_BOUNDARY (hfold hs a))
    as (a1 & E1 & F1); [apply Forall_nz_lit; reflexivity.. |]. rewrite E1. cbn [cbind].
  destruct (mb_field_ok s_content_disposition k_DISPOSITION disp_stop s_filename k_FILENAME s_name k_NAME a1)
    as (a2 & E2 & F2); [apply Forall_nz_lit; reflexivity.. |]. rewrite E2. cbn [cbind].
  unfold memdup. rewrite skipn_hmsg, hmsg_len by assumption.
  destruct (Z.ltb_spec (zlen body) (zlen (hjoin [13; 10] (map hline hs)) + 4 + zlen body - (zlen (hjoin [13; 10] (map hline hs)) + 4))); [lia|].
  cbn [cbind]. exists a2. split.
  - replace (zlen (hjoin [13; 10] (map hline hs)) + 4 + zlen body - (zlen (hjoin [13; 10] (map hline hs)) + 4))
      with (zlen body) by lia. unfold zlen at 1. rewrite Nat2Z.id, firstn_all. reflexivity.
  - intros key Hk. rewrite F2, F1; [reflexivity | intros ->; apply Hk; cbn; tauto ..].
Qed.

(** C38: The end of the header is looked for only at [i < size - 4] (and
    [i < size - 2] for [\n\n]): when the blank line after well-formed
    fields is the end of the entity, [cbmimebreak] finds no header, reads
    no field into the map and returns the whole entity as the body. *)
Theorem cbmimebreak_empty_body (hs : list (list Z * list Z)) (a : bmap) :
  hs <> [] -> forallb field_okb hs = true ->
  cbmimebreak (hmsg hs []) (zlen (hmsg hs [])) (Some a) = CDone (hmsg hs [], zlen (hmsg hs []), Some a).
Proof.
  intros Hne Hb. assert (Hok : Forall field_ok hs) by exact (forallb_Forall_impl _ _ _ field_okb_ok Hb).
  unfold cbmimebreak. destruct (Z.ltb_spec (zlen (hmsg hs [])) 0); [zlen_facts; lia|]. cbn [cbind].
  rewrite (mb_scan_hmsg_empty hs Hne Hok). cbn [cbind]. unfold memdup.
  destruct (Z.ltb_spec (zlen (hmsg hs [])) (zlen (hmsg hs []))); [lia|]. cbn [cbind].
  rewrite firstn_all2 by (unfold zlen; lia). reflexivity.
Qed.

(** The copy of the header into [hbuf], a buffer of [hlen + 1] bytes,
    ends and writes at most [hlen] bytes, whatever the header holds. *)
Theorem mb_unfold_fits (head : list Z) (hlen : Z) :
  0 <= hlen <= zlen head ->
  exists hbuf, mb_unfold head hlen 0 (Z.to_nat hlen) [] = CDone hbuf /\ zlen hbuf <= hlen.
Proof.
  intros H. destruct (mb_unfold_bound head hlen (Z.to_nat hlen) 0 [] ltac:(lia) ltac:(lia) ltac:(lia)) as (r & E & L).
  exists r. split; [exact E | rewrite zlen_nil in L; lia].
Qed.

(** The entity [Content-Type: multipart/mixed; boundary="a b"], a blank
    line and [x]. *)
Definition quoted_boundary_msg : list Z :=
  [67; 111; 110; 116; 101; 110; 116; 45; 84; 121; 112; 101; 58; 32;
   109; 117; 108; 116; 105; 112; 97; 114; 116; 47; 109; 105; 120; 101; 100; 59; 32;
   98; 111; 117; 110; 100; 97; 114; 121; 61; 34; 97; 32; 98; 34; 13; 10; 13; 10; 120].

(** A quoted boundary is cut at its first space: for
    [boundary="a b"], which RFC 2046 allows, [BOUNDARY] is [a]. *)
Theorem cbmimebreak_quoted_boundary_cut :
  exists a, cbmimebreak quoted_boundary_msg (zlen quoted_boundary_msg) (Some []) = CDone ([120], 1, Some a) /\
            cbmapget a k_BOUNDARY = Some [97].
Proof. eexists. split; [vm_compute; reflexivity | vm_compute; reflexivity]. Qed.

(** ** Witnesses *)

(** [Content-Type: text/plain; charset=utf-8] and [X-A: b], body [hi]. *)
Definition sample_fields : list (list Z * list Z) :=
  [([67; 111; 110; 116; 101; 110; 116; 45; 84; 121; 112; 101],
    [116; 101; 120; 116; 47; 112; 108; 97; 105; 110; 59; 32; 99; 104; 97; 114; 115; 101; 116; 61; 117; 116; 102; 45; 56]);
   ([88; 45; 65], [98])].

Lemma cbmimebreak_fields_witness :
  sample_fields <> [] /\ forallb field_okb sample_fields = true /\ [104; 105] <> [] /\
  exists a', cbmimebreak (hmsg sample_fields [104; 105]) (zlen (hmsg sample_fields [104; 105])) (Some []) =
               CDone ([104; 105], zlen [104; 105], Some a') /\
    forall key, ~ In key [k_TYPE; k_CHARSET; k_BOUNDARY; k_DISPOSITION; k_FILENAME; k_NAME] ->
      cbmapget a' key = cbmapget (hfold sample_fields []) key.
Proof.
  split; [discriminate | split; [reflexivity | split; [discriminate|]]].
  apply (cbmimebreak_fields sample_fields [104; 105] []); [discriminate | reflexivity | discriminate].
Defined.

Lemma cbmimebreak_empty_body_witness :
  sample_fields <> [] /\ forallb field_okb sample_fields = true /\
  cbmimebreak (hmsg sample_fields []) (zlen (hmsg sample_fields [])) (Some []) =
    CDone (hmsg sample_fields [], zlen (hmsg sample_fields []), Some []).
Proof.
  split; [discriminate | split; [reflexivity|]].
  apply (cbmimebreak_empty_body sample_fields []); [discriminate | reflexivity].
Defined.

Lemma mb_unfold_fits_witness :
  0 <= 4 <= zlen [65; 13; 10; 32] /\
  exists hbuf, mb_unfold [65; 13; 10; 32] 4 0 (Z.to_nat 4) [] = CDone hbuf /\ zlen hbuf <= 4.
Proof. split; [vm_compute; split; discriminate | apply mb_unfold_fits; vm_compute; split; discriminate]. Defined.
