(* ===== verification/SuffixArray.v ===== *)
(** * SuffixArray: the suffix array extension of src/ext/sarray/suffix_array.c

    A [SuffixArray] object holds the Ruby string [@source] of [n] bytes, its
    suffix array [suffix_index] ([n + 1] C ints: the start of every suffix
    of the source, the empty one included, in sorted order) and two tables
    [starts] and [ends] of 256 unsigned ints, the first and the last slot
    of the suffix array whose suffix begins with a given byte.

    Memory is modelled as in [CbStr]: a Ruby string is its bytes followed
    by the NUL Ruby keeps after them ([rstr]), the suffix array and the
    tables are lists, a read outside any of them is [COob].  [size_t]
    arithmetic wraps modulo [2^64] and [unsigned int] arithmetic modulo
    [2^32], written out where the code subtracts or converts.  A method
    either returns its Ruby value ([Ret]) or raises [SAError] ([Raise]).

    The suffix array itself is built by [bsarray], which is not part of
    this repository: [SuffixArray_initialize] takes the builder as an
    argument and the theorems use the path of the code that restores a
    suffix array from [raw_array]. *)

From Stdlib Require Import ZArith Lia List Bool.
From S2P Require Import Prelude CbList CbStr.
Import ListNotations.
Open Scope Z_scope.
Open Scope vl_scope.
Open Scope cres_scope.

(** ** Machine integers and Ruby values *)

(** [size_t] and [unsigned int] arithmetic. *)
Definition size_t (z : Z) : Z := z mod 2 ^ 64.
Definition uint (z : Z) : Z := z mod 2 ^ 32.

(** A Ruby string in memory: its bytes and the NUL after them. *)
Definition rstr (s : list Z) : list Z := s ++ [0].

(** [a[k]]: [zread] with the bound tested first, so that a wrapped
    [size_t] index is out of bounds at once ([aread_zread]). *)
Definition aread (m : list Z) (k : Z) : cres Z := if zlen m <=? k then COob else zread m k.

(** [t[i] = x] on a table of the struct. *)
Definition zset (t : list Z) (i x : Z) : list Z := list_set t (Z.to_nat i) x.

(** The errors [SuffixArray] raises (suffix_array.c 12-15, 182). *)
Inductive sa_error :=
  | ERR_NO_ZERO_LENGTH_INPUT
  | ERR_NOT_INITIALIZED
  | ERR_START_IF_ARRAY
  | ERR_MISMATCH_LENGTH
  | ERR_BUILDING.

Inductive outcome (A : Type) : Type :=
  | Ret (a : A)
  | Raise (e : sa_error).
Arguments Ret {A} a.
Arguments Raise {A} e.

(** The C struct (suffix_array.c 5-9): [suffix_index] is [None] while it
    is [NULL]. *)
Record sa_struct := mkstruct {
  suffix_index : option (list Z);
  ends : list Z;
  starts : list Z
}.

(** The Ruby object: the struct and the instance variables [@source] and
    [@suffix_start], [None] while unset. *)
Record sa_obj := mkobj {
  sa : sa_struct;
  iv_source : option (list Z);
  iv_suffix_start : option Z
}.

(** [SuffixArray_alloc] (suffix_array.c 113-119): [Data_Make_Struct]
    gives a zeroed struct. *)
Definition SuffixArray_alloc : sa_obj :=
  mkobj (mkstruct None (repeat 0 256) (repeat 0 256)) None None.

(** ** scan_string (suffix_array.c 19-43)

    [target_i], [source_i] and [length] start at zero and move together:
    they are the one counter [k].  [source] is the memory [s] from [so],
    [target] the memory [t] from [to]. *)
Fixpoint scan_loop (s : list Z) (so slen : Z) (t : list Z) (to tlen k : Z) (fuel : nat) : cres Z :=
  match fuel with
  | O => CDone k
  | S f =>
      if (k <? tlen) && (k <? slen) then
        let? a := aread t (to + k) in
        let? c := aread s (so + k) in
        if a =? c then scan_loop s so slen t to tlen (k + 1) f else CDone k
      else CDone k
  end.

(** The difference of the bytes where they part, and the length found. *)
Definition scan_string (s : list Z) (so slen : Z) (t : list Z) (to tlen : Z) : cres (Z * Z) :=
  let? k := scan_loop s so slen t to tlen 0 (Z.to_nat tlen) in
  if k =? tlen then CDone (0, k)
  else
    let? a := aread t (to + k) in
    let? c := aread s (so + k) in
    CDone (a - c, k).

(** ** find_longest_match (suffix_array.c 50-91)

    The binary search over the slots [low .. high] of the suffix array
    [sa]: the state is [(low, high, middle, length, last_match)].  The
    [while] loop gets [fuel] rounds; running out of them is [CAbort], the
    loop not ending, which [find_longest_match_terminates] shows the
    fuel [find_longest_match] gives never reaches. *)
Fixpoint flm_loop (s : list Z) (slen : Z) (t : list Z) (to tlen : Z) (sa : list Z)
    (low high middle length last : Z) (fuel : nat) : cres (Z * Z) :=
  match fuel with
  | O => CAbort
  | S f =>
      if (low <=? high) && (high <=? slen) && (middle <=? slen) && negb (length =? tlen) then
        let? v := aread sa middle in
        let src_i := uint v in
        let? r := scan_string s src_i (size_t (slen - src_i)) t to tlen in
        let '(result, scan_len) := r in
        let '(length, last) := if length <? scan_len then (scan_len, middle) else (length, last) in
        if result =? 0 then CDone (last, length)
        else if result <? 0 then
          let high := size_t (middle - 1) in
          flm_loop s slen t to tlen sa low high (size_t (low + high) / 2) length last f
        else
          let low := middle + 1 in
          flm_loop s slen t to tlen sa low high (size_t (low + high) / 2) length last f
      else CDone (last, length)
  end.

(** The search starts on the slots of the first byte of the target; the
    result is [(last_match, length)], the slot and the length of the
    longest match seen.  [starts] and [ends] are [unsigned int] tables:
    [ends[c] + 1] wraps at [2^32] before it widens to [size_t].  The loop
    runs at most [slen + 2] rounds ([flm_loop_ends]). *)
Definition find_longest_match (s : list Z) (slen : Z) (t : list Z) (to tlen : Z)
    (starts ends sa : list Z) : cres (Z * Z) :=
  let? c := aread t to in
  let? e := aread ends c in
  let? l := aread starts c in
  let low := uint l in
  let high := uint (e + 1) in
  flm_loop s slen t to tlen sa low high (size_t (low + high) / 2) 0 0 (Z.to_nat (slen + 2)).

(** ** SuffixArray_initialize (suffix_array.c 139-207) *)

(** A C [int] in memory: four bytes, little-endian, two's complement
    (the layout [raw_array] copies out and [initialize] copies back). *)
Definition int_bytes (v : Z) : list Z :=
  let u := uint v in [u mod 256; (u / 256) mod 256; (u / 65536) mod 256; u / 16777216].

Definition int_of_bytes (b0 b1 b2 b3 : Z) : Z :=
  let u := b0 + 256 * b1 + 65536 * b2 + 16777216 * b3 in
  if u <? 2 ^ 31 then u else u - 2 ^ 32.

Fixpoint raw_ints (bs : list Z) : list Z :=
  match bs with
  | b0 :: b1 :: b2 :: b3 :: r => int_of_bytes b0 b1 b2 b3 :: raw_ints r
  | _ => []
  end.

(** The loop of lines 194-201 over the slots [0 .. n-1]: where the first
    byte of the suffix changes from [c] to [d], [ends[c]] becomes [i-1]
    and [starts[d]] becomes [i]. *)
Fixpoint range_loop (src idx : list Z) (n i c : Z) (st en : list Z) (fuel : nat)
    : cres (Z * list Z * list Z) :=
  match fuel with
  | O => CDone (c, st, en)
  | S f =>
      if i <? n then
        let? k := aread idx i in
        let? d := aread (rstr src) k in
        if negb (d =? c) then range_loop src idx n (i + 1) d (zset st d i) (zset en c (uint (i - 1))) f
        else range_loop src idx n (i + 1) c st en f
      else CDone (c, st, en)
  end.

(** Lines 192-204: the tables [starts] and [ends] of a source and its
    suffix array. *)
Definition sa_ranges (src idx st en : list Z) : cres (list Z * list Z) :=
  let n := zlen src in
  let? k0 := aread idx 0 in
  let? c := aread (rstr src) k0 in
  let? r := range_loop src idx n 0 c (zset st c 0) en (Z.to_nat n) in
  let '(_, st, en) := r in
  let? kl := aread idx (n - 1) in
  let? c := aread (rstr src) kl in
  CDone (st, zset en c (uint (n - 1))).

(** The object once the suffix array [idx] is in place: the tables are
    filled and [initialize] returns the length of the source. *)
Definition init_tables (o : sa_obj) (src idx : list Z) (start : option Z) : sa_obj * cres (outcome Z) :=
  let o := mkobj (mkstruct (Some idx) (ends (sa o)) (starts (sa o))) (iv_source o) start in
  match sa_ranges src idx (starts (sa o)) (ends (sa o)) with
  | CDone (st, en) => (mkobj (mkstruct (Some idx) en st) (iv_source o) start, CDone (Ret (zlen src)))
  | COob => (o, COob)
  | CAbort => (o, CAbort)
  end.

(** [SuffixArray.new(source, [raw_array], [start])]: [build] is
    [bsarray], which returns the start slot of the source (or [-1]) and
    the [n + 1] ints it writes.  [@source] is set before the checks. *)
Definition SuffixArray_initialize (build : list Z -> Z * list Z) (o : sa_obj)
    (source : list Z) (array : option (list Z)) (start : option Z) : sa_obj * cres (outcome Z) :=
  let o := mkobj (sa o) (Some source) (iv_suffix_start o) in
  let len := zlen source in
  if len =? 0 then (o, CDone (Raise ERR_NO_ZERO_LENGTH_INPUT))
  else match array, start with
  | Some _, None => (o, CDone (Raise ERR_START_IF_ARRAY))
  | Some a, Some _ =>
      if negb (zlen a / 4 =? len + 1) then (o, CDone (Raise ERR_MISMATCH_LENGTH))
      else init_tables o source (raw_ints (firstn (Z.to_nat (4 * (len + 1))) a)) start
  | None, _ =>
      let '(st, idx) := build source in
      if st =? -1 then (mkobj (mkstruct (Some idx) (ends (sa o)) (starts (sa o))) (Some source)
                         (iv_suffix_start o), CDone (Raise ERR_BUILDING))
      else init_tables o source idx (Some st)
  end.

(** ** The methods *)

(** A method body that may raise: [let! x := r in k]. *)
Definition obind {A B : Type} (r : cres (outcome A)) (k : A -> cres (outcome B)) : cres (outcome B) :=
  let? o := r in match o with Ret a => k a | Raise e => CDone (Raise e) end.

Notation "'let!' x ':=' r 'in' k" := (obind r (fun x => k))
  (at level 10, x name, r at level 100, k at level 200) : cres_scope.

(** The guard every search method starts with (e.g. lines 230-232):
    [suffix_index] is not [NULL] and [@source] is not empty; [RSTRING] of
    an unset [@source] is a crash. *)
Definition sa_check (o : sa_obj) : cres (outcome (list Z * list Z)) :=
  match suffix_index (sa o) with
  | None => CDone (Raise ERR_NOT_INITIALIZED)
  | Some idx =>
      match iv_source o with
      | None => COob
      | Some src => if zlen src =? 0 then CDone (Raise ERR_NOT_INITIALIZED) else CDone (Ret (src, idx))
      end
  end.

(** [sarray.longest_match(target, from_index)] (lines 223-268): [nil]
    when [from] is past the target, else [[start, length]]. *)
Definition SuffixArray_longest_match (o : sa_obj) (target : list Z) (from_index : Z)
    : cres (outcome (option (Z * Z))) :=
  let! p := sa_check o in
  let '(src, idx) := p in
  let from := uint from_index in
  let tlen := zlen target in
  if tlen <? from then CDone (Ret None)
  else
    let? r := find_longest_match (rstr src) (zlen src) (rstr target) from (tlen - from)
                (starts (sa o)) (ends (sa o)) idx in
    let '(start, len) := r in
    let? v := aread idx start in
    CDone (Ret (Some (v, len))).

(** The first loop of [match] (lines 311-319): [while(start-- >= 0)] on a
    [size_t], which is always true; the slots before [start] whose suffix
    has the last byte of the target at its place are put in front. *)
Fixpoint match_back (s idx t : list Z) (tlen start : Z) (acc : list Z) (fuel : nat) : cres (list Z) :=
  match fuel with
  | O => CDone acc
  | S f =>
      let start := size_t (start - 1) in
      let? v := aread idx start in
      let src_i := size_t v in
      let? a := aread s (size_t (src_i + tlen - 1)) in
      let? b := aread t (size_t (tlen - 1)) in
      if negb (a =? b) then CDone acc
      else match_back s idx t tlen start (v :: acc) f
  end.

(** The second loop (lines 325-335): [while(middle++ <= source_len)]. *)
Fixpoint match_fwd (s idx t : list Z) (slen tlen middle : Z) (acc : list Z) (fuel : nat) : cres (list Z) :=
  match fuel with
  | O => CDone acc
  | S f =>
      if middle <=? slen then
        let middle := middle + 1 in
        let? v := aread idx middle in
        let src_i := size_t v in
        if slen <? size_t (src_i + tlen) then CDone acc
        else
          let? a := aread s (size_t (src_i + tlen - 1)) in
          let? b := aread t (size_t (tlen - 1)) in
          if negb (a =? b) then CDone acc
          else match_fwd s idx t slen tlen middle (acc ++ [v]) f
      else CDone acc
  end.

(** [sarray.match(target)] (lines 279-340). *)
Definition SuffixArray_match (o : sa_obj) (target : list Z) : cres (outcome (list Z)) :=
  let! p := sa_check o in
  let '(src, idx) := p in
  let tlen := zlen target in
  let s := rstr src in
  let t := rstr target in
  let? r := find_longest_match s (zlen src) t 0 tlen (starts (sa o)) (ends (sa o)) idx in
  let '(start, len) := r in
  if len =? tlen then
    let? back := match_back s idx t len start [] (S (Z.to_nat start)) in
    let? v := aread idx start in
    let? fwd := match_fwd s idx t (zlen src) len start [] (Z.to_nat (zlen src - start + 1)) in
    CDone (Ret (back ++ [v] ++ fwd))
  else CDone (Ret []).

(** The loop of [longest_nonmatch] (lines 399-421): [scan] moves over the
    target until a match longer than [min] starts there. *)
Fixpoint nonmatch_loop (s : list Z) (slen : Z) (t : list Z) (tend : Z) (st en idx : list Z)
    (min scan mlen mstart : Z) (fuel : nat) : cres (Z * Z * Z) :=
  match fuel with
  | O => CDone (scan, mstart, mlen)
  | S f =>
      if scan <? tend then
        let? ch := aread t scan in
        let? k0 := aread st ch in
        let? k := aread idx k0 in
        let? d := aread s k in
        if negb (ch =? d) then nonmatch_loop s slen t tend st en idx min (scan + 1) mlen mstart f
        else
          let? r := find_longest_match s slen t scan (tend - scan) st en idx in
          let '(mstart, mlen) := r in
          if mlen =? 0 then CDone (scan, mstart, mlen)
          else if min <? mlen then CDone (scan, mstart, mlen)
          else nonmatch_loop s slen t tend st en idx min (scan + mlen) 0 0 f
      else CDone (scan, mstart, mlen)
  end.

(** [sarray.longest_nonmatch(target, from_index, min_match)] (lines
    362-431): [[non_match_length, match_start, match_length]]. *)
Definition SuffixArray_longest_nonmatch (o : sa_obj) (target : list Z) (from_index min_match : Z)
    : cres (outcome (option (Z * Z * Z))) :=
  let! p := sa_check o in
  let '(src, idx) := p in
  let from := uint from_index in
  let min := size_t min_match in
  let tlen := zlen target in
  if tlen <? from then CDone (Ret None)
  else
    let? r := nonmatch_loop (rstr src) (zlen src) (rstr target) tlen (starts (sa o)) (ends (sa o)) idx
                min from 0 0 (Z.to_nat (tlen - from)) in
    let '(scan, mstart, mlen) := r in
    let? v := aread idx mstart in
    CDone (Ret (Some (scan - from, v, mlen))).

(** [for(i = 0; i < n; i++) push(suffix_index[i])]. *)
Fixpoint read_slots (idx : list Z) (i n : Z) (fuel : nat) : cres (list Z) :=
  match fuel with
  | O => CDone []
  | S f =>
      if i <? n then
        let? v := aread idx i in
        let? r := read_slots idx (i + 1) n f in
        CDone (v :: r)
      else CDone []
  end.

(** [sarray.array] (lines 444-466). *)
Definition SuffixArray_array (o : sa_obj) : cres (outcome (list Z)) :=
  let! p := sa_check o in
  let '(src, idx) := p in
  let? l := read_slots idx 0 (zlen src + 1) (Z.to_nat (zlen src + 1)) in
  CDone (Ret l).

(** [sarray.raw_array] (lines 483-498): the length of [@source] is taken
    before the guard. *)
Definition SuffixArray_raw_array (o : sa_obj) : cres (outcome (list Z)) :=
  match iv_source o with
  | None => COob
  | Some _ =>
      let! p := sa_check o in
      let '(src, idx) := p in
      let? l := read_slots idx 0 (zlen src + 1) (Z.to_nat (zlen src + 1)) in
      CDone (Ret (flat_map int_bytes l))
  end.

(** [sarray.source] and [sarray.suffix_start] (lines 100-103, 515-518). *)
Definition SuffixArray_source (o : sa_obj) : option (list Z) := iv_source o.
Definition SuffixArray_suffix_start (o : sa_obj) : option Z := iv_suffix_start o.

(** A [char] of a Ruby string: signed. *)
Definition schar (b : Z) : Z := if b <? 128 then b else b - 256.

(** The loop of [all_starts] (lines 548-550); [suffix_index] may be
    [NULL] here, as [all_starts] has no guard. *)
Fixpoint starts_loop (idx : option (list Z)) (start e : Z) (fuel : nat) : cres (list Z) :=
  match fuel with
  | O => CDone []
  | S f =>
      if start <=? e then
        let? v := match idx with None => COob | Some l => aread l start end in
        let? r := starts_loop idx (start + 1) e f in
        CDone (v :: r)
      else CDone []
  end.

(** [sarray.all_starts(character)] (lines 533-554): the slots
    [starts[ch] .. ends[ch]], [ch] the first [char] of the string taken
    as a [size_t]. *)
Definition SuffixArray_all_starts (o : sa_obj) (character : list Z) : cres (list Z) :=
  if 0 <? zlen character then
    let ch := size_t (schar (nth 0 character 0)) in
    let? st := aread (starts (sa o)) ch in
    let? e := aread (ends (sa o)) ch in
    starts_loop (suffix_index (sa o)) st e (Z.to_nat (e - st + 1))
  else CDone [].

(** ** Lemmas *)

(** The bytes [m[o] .. m[o+n-1]]. *)
Definition sub (m : list Z) (o n : Z) : list Z := firstn (Z.to_nat n) (skipn (Z.to_nat o) m).

(** The length of the longest common prefix of two byte strings. *)
Fixpoint lcp (a b : list Z) : nat :=
  match a, b with
  | x :: a, y :: b => if x =? y then S (lcp a b) else O
  | _, _ => O
  end.

(** The order of suffixes: [a] sorts strictly before [b]. *)
Fixpoint lex_lt (a b : list Z) : bool :=
  match a, b with
  | [], [] => false
  | [], _ :: _ => true
  | _ :: _, [] => false
  | x :: a, y :: b => if x <? y then true else if y <? x then false else lex_lt a b
  end.

Fixpoint lex_sorted (l : list (list Z)) : bool :=
  match l with
  | a :: (b :: _) as r => lex_lt a b && lex_sorted r
  | _ => true
  end.

(** [idx] is the suffix array of [src]: the [n + 1] starts of its
    suffixes, the empty one included, in strictly increasing order. *)
Definition is_sarray (src idx : list Z) : bool :=
  (length idx =? S (length src))%nat &&
  forallb (fun v => (0 <=? v) && (v <=? zlen src)) idx &&
  lex_sorted (map (fun v => skipn (Z.to_nat v) src) idx).

(** The object [SuffixArray.new(src, raw, 0)] restores from the raw
    bytes of the suffix array [idx]. *)
Definition restore (src idx : list Z) : sa_obj * cres (outcome Z) :=
  SuffixArray_initialize (fun _ => (-1, [])) SuffixArray_alloc src (Some (flat_map int_bytes idx)) (Some 0).

(** The powers of two of the machine integers, as literals for [lia]. *)
Ltac sa_pow :=
  change (2 ^ 31) with 2147483648 in *; change (2 ^ 32) with 4294967296 in *;
  change (2 ^ 64) with 18446744073709551616 in *.

Section ScanFacts.

Lemma aread_zread (m : list Z) (k : Z) : aread m k = zread m k.
Proof. unfold aread. destruct (Z.leb_spec (zlen m) k); [|reflexivity]. symmetry. now apply zread_past. Qed.

Lemma aread_in (m : list Z) (k : Z) : 0 <= k < zlen m -> aread m k = CDone (nth (Z.to_nat k) m 0).
Proof.
  intros H. rewrite aread_zread. rewrite <- (app_nil_r m) at 1. rewrite zread_app by lia. reflexivity.
Qed.

Lemma sub_step (m : list Z) (o n : Z) :
  0 <= o < zlen m -> 0 < n -> sub m o n = nth (Z.to_nat o) m 0 :: sub m (o + 1) (n - 1).
Proof.
  intros Ho Hn. unfold sub. unfold zlen in Ho.
  replace (Z.to_nat n) with (S (Z.to_nat (n - 1))) by lia.
  replace (Z.to_nat (o + 1)) with (S (Z.to_nat o)) by lia.
  remember (Z.to_nat o) as j. assert (Hj : (j < length m)%nat) by lia. clear Heqj Ho.
  revert m Hj. induction j as [|j IH]; intros [|x m] Hj; cbn [length] in Hj; try lia; [reflexivity|].
  cbn [skipn nth]. apply IH. lia.
Qed.

Lemma sub_zero (m : list Z) (o : Z) : sub m o 0 = [].
Proof. reflexivity. Qed.

(** The scan loop from [k] adds the common prefix of what is left. *)
Lemma scan_loop_lcp (s t : list Z) (so slen to tlen : Z) (f : nat) : forall k,
  0 <= so -> 0 <= to -> 0 <= k <= tlen -> k <= slen -> so + slen <= zlen s -> to + tlen <= zlen t ->
  tlen - k <= Z.of_nat f ->
  scan_loop s so slen t to tlen k f =
  CDone (k + Z.of_nat (lcp (sub s (so + k) (slen - k)) (sub t (to + k) (tlen - k)))).
Proof.
  induction f as [|f IH]; intros k Hso Hto Hk Hks Hs Ht Hf.
  - cbn [scan_loop]. replace (tlen - k) with 0 by lia. rewrite sub_zero. cbn. destruct (sub s _ _); cbn; f_equal; lia.
  - cbn [scan_loop]. destruct (Z.ltb_spec k tlen); destruct (Z.ltb_spec k slen); cbn [andb].
    + rewrite aread_in by lia. cbn [cbind]. rewrite aread_in by lia. cbn [cbind].
      rewrite (sub_step s) by lia. rewrite (sub_step t) by lia. cbn [lcp].
      destruct (Z.eqb_spec (nth (Z.to_nat (to + k)) t 0) (nth (Z.to_nat (so + k)) s 0)) as [E|E].
      * rewrite E, Z.eqb_refl. rewrite IH by lia.
        replace (so + k + 1) with (so + (k + 1)) by lia. replace (to + k + 1) with (to + (k + 1)) by lia.
        replace (slen - k - 1) with (slen - (k + 1)) by lia. replace (tlen - k - 1) with (tlen - (k + 1)) by lia.
        f_equal. lia.
      * rewrite (proj2 (Z.eqb_neq _ _) (not_eq_sym E)). f_equal. lia.
    + replace (slen - k) with 0 by lia. unfold sub at 1. replace (Z.to_nat 0) with O by lia. cbn. f_equal. lia.
    + replace (tlen - k) with 0 by lia. rewrite sub_zero. destruct (sub s _ _); cbn; f_equal; lia.
    + replace (tlen - k) with 0 by lia. rewrite sub_zero. destruct (sub s _ _); cbn; f_equal; lia.
Qed.

Lemma lcp_le (a b : list Z) : (lcp a b <= length a)%nat /\ (lcp a b <= length b)%nat.
Proof.
  revert b. induction a as [|x a IH]; intros [|y b]; cbn [lcp length]; try lia.
  destruct (x =? y); [destruct (IH b); lia | lia].
Qed.

Lemma lcp_prefix (a b : list Z) : firstn (lcp a b) a = firstn (lcp a b) b.
Proof.
  revert b. induction a as [|x a IH]; intros [|y b]; cbn [lcp]; try reflexivity.
  destruct (Z.eqb_spec x y) as [->|]; [cbn [firstn]; f_equal; apply IH | reflexivity].
Qed.

Lemma length_sub (m : list Z) (o n : Z) : 0 <= o -> 0 <= n -> o + n <= zlen m -> zlen (sub m o n) = n.
Proof. intros. unfold sub, zlen in *. rewrite length_firstn, length_skipn. lia. Qed.

Lemma scan_string_spec (s t : list Z) (so slen to tlen : Z) :
  0 <= so -> 0 <= to -> 0 <= slen -> 0 <= tlen -> so + slen < zlen s -> to + tlen <= zlen t ->
  scan_string s so slen t to tlen =
  let k := Z.of_nat (lcp (sub s so slen) (sub t to tlen)) in
  CDone (if k =? tlen then 0 else nth (Z.to_nat (to + k)) t 0 - nth (Z.to_nat (so + k)) s 0, k).
Proof.
  intros Hso Hto Hsl Htl Hs Ht. cbv zeta. unfold scan_string.
  rewrite scan_loop_lcp by lia. rewrite !Z.add_0_l, !Z.add_0_r, !Z.sub_0_r. cbn [cbind].
  set (k := Z.of_nat (lcp (sub s so slen) (sub t to tlen))).
  destruct (lcp_le (sub s so slen) (sub t to tlen)) as (L1 & L2).
  pose proof (length_sub s so slen Hso Hsl ltac:(lia)) as E1.
  pose proof (length_sub t to tlen Hto Htl Ht) as E2. unfold zlen in E1, E2.
  destruct (Z.eqb_spec k tlen); [reflexivity|].
  rewrite !aread_in by (unfold k; lia). reflexivity.
Qed.

End ScanFacts.

(** [len] bytes of the source from [v] are the target from [to]. *)
Definition match_at (src t : list Z) (v to len : Z) : Prop :=
  0 <= len /\ v + len <= zlen src /\ sub src v len = sub t to len.

(** The reads of the search are in bounds or out of them: none is a
    loop that does not end. *)
Lemma aread_abort (m : list Z) (k : Z) : aread m k <> CAbort.
Proof. unfold aread, zread. destruct (zlen m <=? k), (k <? 0), (nth_error m (Z.to_nat k)); discriminate. Qed.

Lemma scan_string_abort (s : list Z) (so slen : Z) (t : list Z) (to tlen : Z) :
  scan_string s so slen t to tlen <> CAbort.
Proof.
  assert (L : forall f k, scan_loop s so slen t to tlen k f <> CAbort).
  { induction f as [|f IH]; intros k; cbn [scan_loop]; [discriminate|].
    destruct (_ && _); [|discriminate].
    destruct (aread t (to + k)) eqn:A; cbn [cbind]; [|discriminate|destruct (aread_abort _ _ A)].
    destruct (aread s (so + k)) eqn:C; cbn [cbind]; [|discriminate|destruct (aread_abort _ _ C)].
    destruct (_ =? _); [apply IH|discriminate]. }
  unfold scan_string. destruct (scan_loop _ _ _ _ _ _ _ _) eqn:E; cbn [cbind]; [|discriminate|destruct (L _ _ E)].
  destruct (_ =? _); [discriminate|].
  destruct (aread t _) eqn:A; cbn [cbind]; [|discriminate|destruct (aread_abort _ _ A)].
  destruct (aread s _) eqn:C; cbn [cbind]; [discriminate|discriminate|destruct (aread_abort _ _ C)].
Qed.

(** The fuel the search needs from [(low, high)]: one round to see
    the guard fail, and [high - low + 2] while the interval is a real one
    inside the source. *)
Definition flm_fuel (slen low high : Z) (f : nat) : Prop :=
  1 <= Z.of_nat f /\ (low <= high -> high <= slen -> high - low + 2 <= Z.of_nat f).

Lemma flm_mid (slen low high : Z) : 0 <= low -> low <= high -> high <= slen -> slen < 2 ^ 63 ->
  low <= size_t (low + high) / 2 <= high.
Proof.
  intros. unfold size_t. rewrite Z.mod_small by lia.
  split; [apply Z.div_le_lower_bound | apply Z.div_le_upper_bound]; lia.
Qed.

(** The unsigned [low] of the tables and [slen + 2] rounds are enough. *)
Lemma flm_fuel_init (slen l high : Z) : 0 <= slen -> flm_fuel slen (uint l) high (Z.to_nat (slen + 2)).
Proof.
  intros H. assert (0 <= uint l) by (unfold uint; apply Z.mod_pos_bound; lia).
  unfold flm_fuel. lia.
Qed.

(** Both moves of a round, [high = middle - 1] (wrapping past [slen] at
    [middle = 0]) and [low = middle + 1], leave an interval the remaining
    fuel covers. *)
Lemma flm_fuel_step (slen low high : Z) (f : nat) :
  0 <= slen < 2 ^ 63 -> 0 <= low -> low <= high -> high <= slen -> flm_fuel slen low high (S f) ->
  flm_fuel slen low (size_t (size_t (low + high) / 2 - 1)) f /\
  flm_fuel slen (size_t (low + high) / 2 + 1) high f.
Proof.
  intros Hs Hl H1 H2 [_ Hf]. specialize (Hf H1 H2).
  pose proof (flm_mid slen low high Hl H1 H2 ltac:(lia)) as M.
  set (m := size_t (low + high) / 2) in *. unfold flm_fuel. split; [|lia].
  split; [lia|]. intros H3 H4. unfold size_t in H3, H4 |- *. sa_pow.
  destruct (Z.eq_dec m 0) as [E|].
  - rewrite E in H4. change ((0 - 1) mod 18446744073709551616) with 18446744073709551615 in H4. lia.
  - rewrite Z.mod_small in * by lia. lia.
Qed.

Section Search.

Variables (src t idx : list Z) (to tlen : Z).
Hypothesis Hidx_len : length idx = S (length src).
Hypothesis Hidx : Forall (fun v => 0 <= v <= zlen src) idx.
Hypothesis Hto : 0 <= to.
Hypothesis Htl : 0 <= tlen.
Hypothesis Ht : to + tlen <= zlen t.
Hypothesis Hsrc : zlen src < 2 ^ 31.

Lemma sub_firstn (m : list Z) (o n k : Z) : 0 <= k <= n -> firstn (Z.to_nat k) (sub m o n) = sub m o k.
Proof. intros H. unfold sub. rewrite firstn_firstn. f_equal. lia. Qed.

Lemma sub_app (m r : list Z) (o n : Z) : 0 <= o -> 0 <= n -> o + n <= zlen m -> sub (m ++ r) o n = sub m o n.
Proof.
  intros Ho Hn H. unfold sub, zlen in *. rewrite skipn_app.
  replace (Z.to_nat o - length m)%nat with O by lia. rewrite firstn_app, length_skipn.
  replace (Z.to_nat n - (length m - Z.to_nat o))%nat with O by lia. rewrite firstn_O, app_nil_r. reflexivity.
Qed.

Lemma zlen_rstr (m : list Z) : zlen (rstr m) = zlen m + 1.
Proof. unfold rstr. autorewrite with vl_rw. reflexivity. Qed.

Lemma slot_in (i : Z) : 0 <= i <= zlen src -> 0 <= nth (Z.to_nat i) idx 0 <= zlen src.
Proof.
  intros H. pose proof (proj1 (Forall_nth _ idx) Hidx (Z.to_nat i) 0) as X. cbv beta in X.
  apply X. unfold zlen in H. lia.
Qed.

Lemma slot_read (i : Z) : 0 <= i <= zlen src -> aread idx i = CDone (nth (Z.to_nat i) idx 0).
Proof. intros H. apply aread_in. unfold zlen in *. lia. Qed.

Lemma lcp_sub (A B : list Z) (oa ob na nb : Z) :
  0 <= oa -> 0 <= ob -> 0 <= na -> 0 <= nb -> oa + na <= zlen A -> ob + nb <= zlen B ->
  let k := Z.of_nat (lcp (sub A oa na) (sub B ob nb)) in sub A oa k = sub B ob k /\ k <= na /\ k <= nb.
Proof.
  intros. cbv zeta. destruct (lcp_le (sub A oa na) (sub B ob nb)) as (L1 & L2).
  pose proof (length_sub A oa na) as La. pose proof (length_sub B ob nb) as Lb. unfold zlen in *.
  pose proof (lcp_prefix (sub A oa na) (sub B ob nb)) as E.
  rewrite <- (Nat2Z.id (lcp _ _)) in E. rewrite !sub_firstn in E by lia. split; [exact E | lia].
Qed.

(** Scanning the suffix from [v] finds a match of the length it reports. *)
Lemma scan_suffix (v : Z) : 0 <= v <= zlen src ->
  exists r k, scan_string (rstr src) v (zlen src - v) (rstr t) to tlen = CDone (r, k) /\
              0 <= k <= tlen /\ match_at src t v to k.
Proof.
  intros Hv. rewrite scan_string_spec by (rewrite ?zlen_rstr; lia). cbv zeta.
  destruct (lcp_sub (rstr src) (rstr t) v to (zlen src - v) tlen) as (E & K1 & K2); rewrite ?zlen_rstr; try lia.
  set (k := Z.of_nat (lcp _ _)) in *. do 2 eexists. split; [reflexivity|]. unfold match_at. split; [lia|]. split; [lia|]. split; [lia|].
  unfold rstr in E. rewrite !sub_app in E by lia. exact E.
Qed.

Lemma flm_loop_sound (f : nat) : forall low high middle len last,
  0 <= low -> middle = size_t (low + high) / 2 -> flm_fuel (zlen src) low high f ->
  0 <= last <= zlen src -> 0 <= len <= tlen -> match_at src t (nth (Z.to_nat last) idx 0) to len ->
  exists last' len', flm_loop (rstr src) (zlen src) (rstr t) to tlen idx low high middle len last f = CDone (last', len') /\
    0 <= last' <= zlen src /\ 0 <= len' <= tlen /\ match_at src t (nth (Z.to_nat last') idx 0) to len'.
Proof.
  induction f as [|f IH]; intros low high middle len last Hlo Hm Hf Hl Hn Hok; [destruct Hf; lia|].
  cbn [flm_loop].
  destruct ((low <=? high) && (high <=? zlen src) && (middle <=? zlen src) && negb (len =? tlen)) eqn:G;
    [|eauto 8].
  apply andb_prop in G as (G & _). apply andb_prop in G as (G & G3). apply andb_prop in G as (G1 & G2).
  apply Z.leb_le in G1, G2, G3.
  assert (Hz : 0 <= zlen src) by (unfold zlen; lia).
  destruct (flm_fuel_step (zlen src) low high f ltac:(lia) Hlo G1 G2 Hf) as [F1 F2].
  pose proof (flm_mid (zlen src) low high Hlo G1 G2 ltac:(lia)) as Mid. rewrite <- Hm in F1, F2, Mid.
  rewrite slot_read by lia. cbn [cbind].
  pose proof (slot_in middle ltac:(lia)) as Hv. set (v := nth (Z.to_nat middle) idx 0) in *.
  replace (uint v) with v by (unfold uint; rewrite Z.mod_small; sa_pow; lia).
  replace (size_t (zlen src - v)) with (zlen src - v) by (unfold size_t; rewrite Z.mod_small; sa_pow; lia).
  destruct (scan_suffix v Hv) as (r & k & -> & Hk & Hmk). cbn [cbind].
  assert (Hnew : exists len1 last1, (if len <? k then (k, middle) else (len, last)) = (len1, last1) /\
     0 <= last1 <= zlen src /\ 0 <= len1 <= tlen /\ match_at src t (nth (Z.to_nat last1) idx 0) to len1)
    by (destruct (len <? k); do 2 eexists; (split; [reflexivity|]); (split; [lia | split; [lia | assumption]])).
  destruct Hnew as (len1 & last1 & -> & H1 & H2 & H3).
  destruct (r =? 0); [eauto 8|]. destruct (r <? 0); apply IH; auto; lia.
Qed.

End Search.

Section SearchFuel.

Variables (s t sa : list Z) (slen to tlen : Z).
Hypothesis Hslen : 0 <= slen < 2 ^ 63.

(** Every round shrinks [low .. high] or ends the loop, so the search
    given [flm_fuel] rounds never runs out of them. *)
Lemma flm_loop_ends (f : nat) : forall low high middle len last,
  0 <= low -> middle = size_t (low + high) / 2 -> flm_fuel slen low high f ->
  flm_loop s slen t to tlen sa low high middle len last f <> CAbort.
Proof.
  induction f as [|f IH]; intros low high middle len last Hl Hm Hf; [destruct Hf; lia|].
  cbn [flm_loop].
  destruct ((low <=? high) && (high <=? slen) && (middle <=? slen) && negb (len =? tlen)) eqn:G; [|discriminate].
  apply andb_prop in G as (G & _). apply andb_prop in G as (G & _). apply andb_prop in G as (G1 & G2).
  apply Z.leb_le in G1, G2.
  destruct (flm_fuel_step slen low high f Hslen Hl G1 G2 Hf) as [F1 F2].
  pose proof (flm_mid slen low high Hl G1 G2 ltac:(lia)) as Mid. rewrite <- Hm in F1, F2, Mid.
  destruct (aread sa middle) as [v| |] eqn:A; cbn [cbind]; [|discriminate|destruct (aread_abort _ _ A)].
  destruct (scan_string s (uint v) (size_t (slen - uint v)) t to tlen) as [[r sl]| |] eqn:S;
    cbn [cbind]; [|discriminate|destruct (scan_string_abort _ _ _ _ _ _ S)].
  destruct (len <? sl); cbn beta iota; (destruct (r =? 0); [discriminate|]);
    destruct (r <? 0); apply IH; auto; lia.
Qed.

End SearchFuel.

(** A table entry [t[e]]. *)
Definition tget (t : list Z) (e : Z) : Z := nth (Z.to_nat e) t 0.

Lemma tget_zset (t : list Z) (i x e : Z) :
  0 <= i < zlen t -> 0 <= e -> tget (zset t i x) e = if e =? i then x else tget t e.
Proof.
  intros Hi He. unfold tget, zset, zlen in *.
  destruct (Z.eqb_spec e i) as [->|Ne].
  - apply nth_error_nth. rewrite nth_error_list_set by lia. rewrite Nat.eqb_refl. reflexivity.
  - destruct (Nat.lt_ge_cases (Z.to_nat e) (length t)) as [L|L].
    + apply nth_error_nth. rewrite nth_error_list_set by lia.
      replace (Z.to_nat e =? Z.to_nat i)%nat with false by (symmetry; apply Nat.eqb_neq; lia).
      apply nth_error_nth' . exact L.
    + rewrite !nth_overflow; try lia. rewrite length_list_set; lia.
Qed.

Lemma zlen_zset (t : list Z) (i x : Z) : 0 <= i < zlen t -> zlen (zset t i x) = zlen t.
Proof. intros H. unfold zset, zlen in *. rewrite length_list_set by lia. reflexivity. Qed.

(** [skey src idx j]: the first byte of the suffix in slot [j], the NUL
    after the source for the empty suffix. *)
Definition skey (src idx : list Z) (j : Z) : Z := nth (Z.to_nat (nth (Z.to_nat j) idx 0)) (rstr src) 0.

Section Tables.

Variables (src idx st0 en0 : list Z).
Let n := zlen src.
Let key := skey src idx.
Hypothesis Hidx_len : length idx = S (length src).
Hypothesis Hidx : Forall (fun v => 0 <= v <= zlen src) idx.
Hypothesis Hkey : forall j, 0 <= j < n -> 0 <= key j < 256.
Hypothesis Hsorted : forall i j, 0 <= i -> i <= j -> j < n -> key i <= key j.
Hypothesis Hst0 : zlen st0 = 256.
Hypothesis Hen0 : zlen en0 = 256.

Definition occurs (i e : Z) : Prop := exists j, 0 <= j < i /\ key j = e.

(** What the loop knows after the slots [0 .. i-1]: the blocks of the
    bytes before [c] are found, the block of [c] starts at [starts[c]],
    the other entries are untouched. *)
Definition tables_inv (i c : Z) (st en : list Z) : Prop :=
  1 <= i <= n /\ c = key (i - 1) /\ zlen st = 256 /\ zlen en = 256 /\
  (forall e, 0 <= e < 256 -> e <> c -> occurs i e -> 0 <= tget st e /\ tget en e < n /\
     forall j, 0 <= j < n -> (key j = e <-> tget st e <= j <= tget en e)) /\
  (0 <= tget st c <= i - 1 /\ forall j, 0 <= j < i -> (key j = c <-> tget st c <= j)) /\
  (forall e, 0 <= e < 256 -> ~ occurs i e -> tget st e = tget st0 e /\ tget en e = tget en0 e).

Hypothesis Hn : n < 2 ^ 31.

Lemma slot_key {B : Type} (j : Z) (g : Z -> cres B) : 0 <= j < n ->
  (let? k := aread idx j in let? d := aread (rstr src) k in g d) = g (key j).
Proof.
  intros Hj. unfold n in Hj. rewrite aread_in by (unfold zlen in *; lia). cbn [cbind].
  rewrite aread_in; [reflexivity|]. rewrite zlen_rstr.
  pose proof (proj1 (Forall_nth _ idx) Hidx (Z.to_nat j) 0) as X. cbv beta in X.
  specialize (X ltac:(unfold zlen in *; lia)). lia.
Qed.

Lemma occurs_S (i e : Z) : 0 <= i -> occurs (i + 1) e <-> occurs i e \/ key i = e.
Proof.
  intros Hi. unfold occurs. split.
  - intros (j & Hj & E). destruct (Z.eq_dec j i) as [->|]; [right; exact E | left; exists j; split; [lia | exact E]].
  - intros [(j & Hj & E)|E]; [exists j; split; [lia | exact E] | exists i; split; [lia | exact E]].
Qed.

Lemma inv_same (i c : Z) (st en : list Z) :
  tables_inv i c st en -> i < n -> key i = c -> tables_inv (i + 1) c st en.
Proof.
  intros (Hi & Hc & Ls & Le & Ha & (Hb1 & Hb2) & Hz) Hin Hk.
  split; [lia|]. split; [replace (i + 1 - 1) with i by lia; auto|]. do 2 (split; [assumption|]).
  split; [|split; [split; [lia|] | ]].
  - intros e He Ne Oc. apply Ha; auto. apply occurs_S in Oc as [Oc|Oc]; [exact Oc | congruence | lia].
  - intros j Hj. destruct (Z.eq_dec j i) as [->|]; [split; [lia | auto] | apply Hb2; lia].
  - intros e He No. apply Hz; auto. intros Oc. apply No, occurs_S; [lia | left; exact Oc].
Qed.

Lemma inv_change (i c : Z) (st en : list Z) :
  tables_inv i c st en -> i < n -> key i <> c ->
  tables_inv (i + 1) (key i) (zset st (key i) i) (zset en c (uint (i - 1))).
Proof.
  intros (Hi & Hc & Ls & Le & Ha & (Hb1 & Hb2) & Hz) Hin Hk.
  pose proof (Hkey i ltac:(lia)) as Ki. pose proof (Hkey (i - 1) ltac:(lia)) as Kc. rewrite <- Hc in Kc.
  assert (Lt : c < key i) by (pose proof (Hsorted (i - 1) i ltac:(lia) ltac:(lia) Hin); lia).
  assert (U : uint (i - 1) = i - 1) by (unfold uint; apply Z.mod_small; unfold n in *; sa_pow; lia).
  rewrite U. set (d := key i) in *.
  assert (Gs : forall e, 0 <= e -> tget (zset st d i) e = if e =? d then i else tget st e)
    by (intros; apply tget_zset; lia).
  assert (Ge : forall e, 0 <= e -> tget (zset en c (i - 1)) e = if e =? c then i - 1 else tget en e)
    by (intros; apply tget_zset; lia).
  split; [lia|]. split; [replace (i + 1 - 1) with i by lia; reflexivity|].
  split; [rewrite zlen_zset; lia|]. split; [rewrite zlen_zset; lia|].
  split; [|split; [rewrite Gs, Z.eqb_refl by lia; split; [lia|] | ]].
  - intros e He Ne Oc. rewrite !Gs, !Ge by lia. rewrite (proj2 (Z.eqb_neq e d) Ne).
    destruct (Z.eqb_spec e c) as [->|Nc].
    + split; [lia|]. split; [lia|]. intros j Hj. split.
      * intros Kj. destruct (Z.lt_ge_cases j i); [split; [apply Hb2; lia | lia]|].
        pose proof (Hsorted i j ltac:(lia) ltac:(lia) ltac:(lia)). lia.
      * intros Hj'. apply Hb2; lia.
    + apply Ha; auto. apply occurs_S in Oc as [Oc|Oc]; [exact Oc | exfalso; apply Ne; rewrite <- Oc; reflexivity | lia].
  - intros j Hj. destruct (Z.eq_dec j i) as [->|]; [split; [lia | reflexivity]|].
    pose proof (Hsorted j (i - 1) ltac:(lia) ltac:(lia) ltac:(lia)). rewrite <- Hc in *. split; lia.
  - intros e He No. rewrite Gs, Ge by lia.
    assert (e <> d) by (intros ->; apply No, occurs_S; [lia | right; reflexivity]).
    assert (e <> c) by (intros ->; apply No; exists (i - 1); split; [lia | auto]).
    rewrite (proj2 (Z.eqb_neq e d)), (proj2 (Z.eqb_neq e c)) by assumption.
    apply Hz; auto. intros Oc. apply No, occurs_S; [lia | left; exact Oc].
Qed.

Lemma range_loop_inv (f : nat) : forall i c st en, tables_inv i c st en -> n - i <= Z.of_nat f ->
  exists st' en', range_loop src idx n i c st en f = CDone (key (n - 1), st', en') /\
                  tables_inv n (key (n - 1)) st' en'.
Proof.
  induction f as [|f IH]; intros i c st en Hinv Hf; pose proof Hinv as (Hi & Hc & _).
  - assert (i = n) by lia. subst i. cbn [range_loop]. exists st, en. rewrite <- Hc. auto.
  - cbn [range_loop]. destruct (Z.ltb_spec i n).
    + rewrite (slot_key i) by lia. destruct (Z.eqb_spec (key i) c) as [E|E]; cbn [negb].
      * apply IH; [apply inv_same | lia]; auto.
      * apply IH; [apply inv_change | lia]; auto.
    + assert (i = n) by lia. subst i. exists st, en. rewrite <- Hc. auto.
Qed.

Lemma inv_base : 0 < n -> tables_inv 1 (key 0) (zset st0 (key 0) 0) en0.
Proof.
  intros Hn0. pose proof (Hkey 0 ltac:(lia)) as K0.
  assert (G : forall e, 0 <= e -> tget (zset st0 (key 0) 0) e = if e =? key 0 then 0 else tget st0 e)
    by (intros; apply tget_zset; lia).
  split; [lia|]. split; [reflexivity|]. split; [rewrite zlen_zset; lia|]. split; [exact Hen0|].
  split; [|split; [rewrite G, Z.eqb_refl by lia; split; [lia|] |]].
  - intros e He Ne (j & Hj & E). replace j with 0 in E by lia. congruence.
  - intros j Hj. replace j with 0 by lia. split; [lia | reflexivity].
  - intros e He No. rewrite G by lia.
    assert (e <> key 0) by (intros ->; apply No; exists 0; split; [lia | reflexivity]).
    rewrite (proj2 (Z.eqb_neq _ _)) by assumption. auto.
Qed.

(** The tables [initialize] computes: the block of every byte that starts
    a suffix in the slots [0 .. n-1]; the other entries are untouched. *)
Lemma sa_ranges_spec : 0 < n ->
  exists st en, sa_ranges src idx st0 en0 = CDone (st, en) /\ zlen st = 256 /\ zlen en = 256 /\
  forall e, 0 <= e < 256 ->
    (occurs n e -> 0 <= tget st e /\ tget en e < n /\
       forall j, 0 <= j < n -> (key j = e <-> tget st e <= j <= tget en e)) /\
    (~ occurs n e -> tget st e = tget st0 e /\ tget en e = tget en0 e).
Proof.
  intros Hn0. unfold sa_ranges. fold n. rewrite (slot_key 0) by lia.
  replace (Z.to_nat n) with (S (Z.to_nat (n - 1))) by lia. cbn [range_loop]. vl_test.
  rewrite (slot_key 0) by lia. rewrite Z.eqb_refl. cbn [negb].
  destruct (range_loop_inv (Z.to_nat (n - 1)) 1 (key 0) (zset st0 (key 0) 0) en0) as (st & en & E & Hinv);
    [apply inv_base; lia | lia |].
  replace (0 + 1) with 1 by lia. rewrite E. cbn [cbind].
  rewrite (slot_key (n - 1)) by lia.
  destruct Hinv as (_ & _ & Ls & Le & Ha & (Hb1 & Hb2) & Hz). set (cl := key (n - 1)) in *.
  pose proof (Hkey (n - 1) ltac:(lia)) as Kl.
  assert (U : uint (n - 1) = n - 1) by (unfold uint; apply Z.mod_small; unfold n in *; sa_pow; lia).
  rewrite U. exists st, (zset en cl (n - 1)). split; [reflexivity|]. split; [exact Ls|].
  split; [rewrite zlen_zset; lia|]. intros e He. rewrite tget_zset by lia.
  destruct (Z.eqb_spec e cl) as [->|Ne]; split.
  - intros _. split; [lia|]. split; [lia|]. intros j Hj. rewrite Hb2 by lia. lia.
  - intros No. exfalso. apply No. exists (n - 1). split; [lia | reflexivity].
  - apply Ha; auto.
  - apply Hz; auto.
Qed.

End Tables.

Lemma nth_rstr_hd (l : list Z) (v : nat) : (v <= length l)%nat -> nth v (rstr l) 0 = hd 0 (skipn v l).
Proof.
  unfold rstr. revert l. induction v as [|v IH]; intros [|x r] Hv; cbn in Hv |- *; try lia; try reflexivity.
  apply IH. lia.
Qed.

Section Valid.

Variables (src idx : list Z).
Hypothesis Hsa : is_sarray src idx = true.
Hypothesis Hbytes : bytes_ok src.

Lemma sarray_len : length idx = S (length src).
Proof.
  pose proof Hsa as H. unfold is_sarray in H. apply andb_prop in H as (H & _). apply andb_prop in H as (H & _).
  now apply Nat.eqb_eq.
Qed.

Lemma sarray_range : Forall (fun v => 0 <= v <= zlen src) idx.
Proof.
  pose proof Hsa as H. unfold is_sarray in H. apply andb_prop in H as (H & _). apply andb_prop in H as (_ & H).
  apply Forall_forall. intros v Hv. apply (proj1 (forallb_forall _ _) H) in Hv.
  apply andb_prop in Hv as (A & B). apply Z.leb_le in A, B. lia.
Qed.

Lemma slot_suffix (j : Z) : 0 <= j <= zlen src ->
  skey src idx j = hd 0 (skipn (Z.to_nat (nth (Z.to_nat j) idx 0)) src).
Proof.
  intros Hj. pose proof (proj1 (Forall_nth _ idx) sarray_range (Z.to_nat j) 0) as X. cbv beta in X.
  pose proof sarray_len. specialize (X ltac:(unfold zlen in *; lia)). unfold skey.
  apply nth_rstr_hd. unfold zlen in *. lia.
Qed.

Lemma hd_byte (l : list Z) : bytes_ok l -> 0 <= hd 0 l < 256.
Proof. intros H. destruct H as [|x l Hx _]; cbn; [lia | exact Hx]. Qed.

Lemma skipn_bytes (k : nat) (l : list Z) : bytes_ok l -> bytes_ok (skipn k l).
Proof.
  unfold bytes_ok. intros H. revert k. induction H as [|x l Hx Hl IH]; intros [|k]; cbn [skipn];
    try constructor; auto.
Qed.

Lemma lex_lt_hd (a b : list Z) : bytes_ok b -> lex_lt a b = true -> hd 0 a <= hd 0 b.
Proof.
  intros Hb H. destruct a as [|x a], b as [|y b]; cbn in H |- *; try discriminate.
  - pose proof (hd_byte (y :: b) Hb). cbn in *. lia.
  - destruct (Z.ltb_spec x y); [lia|]. destruct (Z.ltb_spec y x); [discriminate | lia].
Qed.

Lemma lex_sorted_nth (l : list (list Z)) (i : nat) :
  lex_sorted l = true -> (S i < length l)%nat -> lex_lt (nth i l []) (nth (S i) l []) = true.
Proof.
  revert i. induction l as [|a l IH]; intros i H Hi; [cbn in Hi; lia|].
  destruct l as [|b l]; [cbn in Hi; lia|]. cbn [lex_sorted] in H. apply andb_prop in H as (H1 & H2).
  destruct i as [|i]; [exact H1|]. apply (IH i H2). cbn in *. lia.
Qed.

Lemma sarray_key_step (i : Z) : 0 <= i -> i + 1 <= zlen src -> skey src idx i <= skey src idx (i + 1).
Proof.
  intros H0 H1. rewrite !slot_suffix by lia.
  pose proof Hsa as Hs. unfold is_sarray in Hs. apply andb_prop in Hs as (_ & Hs).
  pose proof (lex_sorted_nth _ (Z.to_nat i) Hs) as L. rewrite length_map, sarray_len in L.
  specialize (L ltac:(unfold zlen in *; lia)).
  rewrite (nth_indep _ [] (skipn (Z.to_nat 0) src)) in L by (rewrite length_map, sarray_len; unfold zlen in *; lia).
  rewrite (nth_indep (map _ idx) [] (skipn (Z.to_nat 0) src)) in L by (rewrite length_map, sarray_len; unfold zlen in *; lia).
  rewrite !(map_nth (fun v => skipn (Z.to_nat v) src)) in L.
  replace (Z.to_nat (i + 1)) with (S (Z.to_nat i)) by lia.
  apply lex_lt_hd; [apply skipn_bytes, Hbytes | exact L].
Qed.

Lemma sarray_sorted (i j : Z) : 0 <= i -> i <= j -> j <= zlen src -> skey src idx i <= skey src idx j.
Proof.
  intros Hi Hij Hj.
  assert (K : forall k, i + Z.of_nat k <= zlen src -> skey src idx i <= skey src idx (i + Z.of_nat k)).
  { induction k as [|k IH]; intros Hk; [rewrite Z.add_0_r; lia|].
    rewrite Nat2Z.inj_succ, <- Z.add_1_r, Z.add_assoc in *. specialize (IH ltac:(lia)).
    pose proof (sarray_key_step (i + Z.of_nat k) ltac:(lia) ltac:(lia)). lia. }
  replace j with (i + Z.of_nat (Z.to_nat (j - i))) by lia. apply K. lia.
Qed.

Lemma sarray_key (j : Z) : 0 <= j <= zlen src -> 0 <= skey src idx j < 256.
Proof. intros Hj. rewrite slot_suffix by exact Hj. apply hd_byte, skipn_bytes, Hbytes. Qed.

End Valid.

Lemma int_bytes_bytes (v : Z) : -2 ^ 31 <= v < 2 ^ 31 -> raw_ints (int_bytes v) = [v].
Proof.
  intros Hv. unfold int_bytes. cbn [raw_ints]. f_equal. unfold int_of_bytes, uint.
  set (u := v mod 2 ^ 32). assert (Hu : 0 <= u < 2 ^ 32) by (apply Z.mod_pos_bound; lia).
  assert (E : u = u mod 256 + 256 * ((u / 256) mod 256) + 65536 * ((u / 65536) mod 256) + 16777216 * (u / 16777216)).
  { pose proof (Z.div_mod u 256 ltac:(lia)) as A. pose proof (Z.div_mod (u / 256) 256 ltac:(lia)) as B.
    pose proof (Z.div_mod (u / 65536) 256 ltac:(lia)) as C.
    rewrite Z.div_div in B, C by lia. change (256 * 256) with 65536 in B. change (65536 * 256) with 16777216 in C.
    lia. }
  rewrite <- E. unfold u in *. sa_pow. destruct (Z.ltb_spec v 0).
  - rewrite <- (Z.mod_unique v 4294967296 (-1) (v + 4294967296)) by lia.
    destruct (Z.ltb_spec (v + 4294967296) 2147483648); lia.
  - rewrite Z.mod_small by lia. destruct (Z.ltb_spec v 2147483648); lia.
Qed.

(** What [raw_array] writes, [initialize] reads back. *)
Lemma raw_ints_bytes (l : list Z) : Forall (fun v => -2 ^ 31 <= v < 2 ^ 31) l -> raw_ints (flat_map int_bytes l) = l.
Proof.
  induction 1 as [|v l Hv _ IH]; [reflexivity|]. cbn [flat_map].
  unfold int_bytes at 1. cbn [app raw_ints]. rewrite IH. f_equal.
  pose proof (int_bytes_bytes v Hv) as E. unfold int_bytes in E. cbn [raw_ints] in E. injection E as E. exact E.
Qed.

Lemma length_int_bytes (l : list Z) : length (flat_map int_bytes l) = (4 * length l)%nat.
Proof. induction l as [|v l IH]; [reflexivity|]. cbn [flat_map length]. rewrite length_app, IH. cbn. lia. Qed.

(** The slots [lo], [lo + 1], ..., [k] of them. *)
Fixpoint zrange (lo : Z) (k : nat) : list Z :=
  match k with O => [] | S k => lo :: zrange (lo + 1) k end.

Lemma filter_none (p : Z -> bool) (k : nat) : forall lo,
  (forall j, lo <= j < lo + Z.of_nat k -> p j = false) -> filter p (zrange lo k) = [].
Proof.
  induction k as [|k IH]; intros lo H; [reflexivity|]. cbn [zrange filter].
  rewrite H by lia. apply IH. intros j Hj. apply H. lia.
Qed.

(** On a block [a .. b] of the slots, [filter] keeps the block. *)
Lemma filter_block (p : Z -> bool) (b : Z) (k : nat) : forall lo a,
  (forall j, lo <= j < lo + Z.of_nat k -> (p j = true <-> a <= j <= b)) ->
  lo <= a <= b -> b < lo + Z.of_nat k -> filter p (zrange lo k) = zrange a (Z.to_nat (b - a + 1)).
Proof.
  induction k as [|k IH]; intros lo a H Ha Hb; [lia|]. cbn [zrange filter].
  destruct (Z.eq_dec lo a) as [<-|Ne].
  - rewrite (proj2 (H lo ltac:(lia)) ltac:(lia)).
    replace (Z.to_nat (b - lo + 1)) with (S (Z.to_nat (b - lo))) by lia. cbn [zrange]. f_equal.
    destruct (Z.eq_dec lo b) as [<-|Nb].
    + rewrite Z.sub_diag. cbn [Z.to_nat zrange].
      rewrite filter_none; [reflexivity|]. intros j Hj. destruct (p j) eqn:P; [|reflexivity].
      apply H in P; lia.
    + replace (Z.to_nat (b - lo)) with (Z.to_nat (b - (lo + 1) + 1)) by lia.
      apply IH; [|lia|lia]. intros j Hj. rewrite H by lia. lia.
  - destruct (p lo) eqn:P; [apply H in P; lia|]. apply IH; [|lia|lia]. intros j Hj. apply H. lia.
Qed.

Lemma starts_loop_spec (l : list Z) (f : nat) : forall a b, 0 <= a -> b < zlen l -> b - a + 1 <= Z.of_nat f ->
  starts_loop (Some l) a b f = CDone (map (fun j => nth (Z.to_nat j) l 0) (zrange a (Z.to_nat (b - a + 1)))).
Proof.
  induction f as [|f IH]; intros a b Ha Hb Hf; cbn [starts_loop].
  - replace (Z.to_nat (b - a + 1)) with O by lia. reflexivity.
  - destruct (Z.leb_spec a b).
    + rewrite aread_in by lia. cbn [cbind]. rewrite IH by lia. cbn [cbind].
      replace (Z.to_nat (b - a + 1)) with (S (Z.to_nat (b - (a + 1) + 1))) by lia. reflexivity.
    + replace (Z.to_nat (b - a + 1)) with O by lia. reflexivity.
Qed.

(** [SuffixArray.new(src, raw, 0)] with the raw bytes of a suffix array
    keeps that suffix array and fills the tables by [sa_ranges]. *)
Lemma restore_spec (src idx : list Z) :
  is_sarray src idx = true -> bytes_ok src -> 0 < zlen src < 2 ^ 31 ->
  exists st en, sa_ranges src idx (repeat 0 256) (repeat 0 256) = CDone (st, en) /\
    restore src idx = (mkobj (mkstruct (Some idx) en st) (Some src) (Some 0), CDone (Ret (zlen src))).
Proof.
  intros Hsa Hb Hn. pose proof (sarray_len src idx Hsa) as L. pose proof (sarray_range src idx Hsa) as R.
  unfold restore, SuffixArray_initialize. cbn [sa iv_suffix_start]. vl_test.
  assert (Lr : zlen (flat_map int_bytes idx) / 4 = zlen src + 1)
    by (unfold zlen; rewrite length_int_bytes, L; rewrite Nat2Z.inj_mul, Nat2Z.inj_succ, Z.mul_comm, Z.div_mul; lia).
  rewrite Lr, Z.eqb_refl. cbn [negb].
  rewrite firstn_all2 by (rewrite length_int_bytes, L; unfold zlen; lia).
  rewrite raw_ints_bytes by (eapply Forall_impl; [|exact R]; cbv beta; intros; sa_pow; lia).
  unfold init_tables, SuffixArray_alloc. cbn [sa starts ends iv_source].
  destruct (sa_ranges_spec src idx (repeat 0 256) (repeat 0 256)) as (st & en & E & _);
    try (unfold zlen; rewrite repeat_length; reflexivity); auto; try lia.
  - intros j Hj. apply sarray_key; auto. lia.
  - intros i j Hi Hij Hj. apply sarray_sorted; auto. lia.
  - exists st, en. rewrite E. auto.
Qed.

Lemma aread_forall (P : Z -> Prop) (l : list Z) (k x : Z) : Forall P l -> aread l k = CDone x -> P x.
Proof.
  intros H E. rewrite aread_zread in E. unfold zread in E. destruct (k <? 0); [discriminate|].
  destruct (nth_error l (Z.to_nat k)) eqn:N; [|discriminate]. injection E as <-.
  apply nth_error_In in N. exact (proj1 (Forall_forall P l) H _ N).
Qed.

Lemma rstr_byte (t : list Z) (k : Z) : bytes_ok t -> 0 <= k <= zlen t -> 0 <= nth (Z.to_nat k) (rstr t) 0 < 256.
Proof. intros Ht Hk. rewrite nth_rstr_hd by (unfold zlen in *; lia). apply hd_byte, skipn_bytes, Ht. Qed.

Lemma in_zrange (k : nat) : forall lo j, In j (zrange lo k) <-> lo <= j < lo + Z.of_nat k.
Proof.
  induction k as [|k IH]; intros lo j; cbn [zrange In]; [lia|]. rewrite IH. lia.
Qed.

Lemma skipn_cons_nth (l : list Z) (k : nat) : (k < length l)%nat -> skipn k l = nth k l 0 :: skipn (S k) l.
Proof. revert l. induction k as [|k IH]; intros [|x l] H; cbn in *; try lia; [reflexivity | apply IH; lia]. Qed.

Lemma read_slots_all (l : list Z) (f : nat) : forall i, 0 <= i -> zlen l - i <= Z.of_nat f ->
  read_slots l i (zlen l) f = CDone (skipn (Z.to_nat i) l).
Proof.
  induction f as [|f IH]; intros i Hi Hf; cbn [read_slots].
  - rewrite skipn_all2 by (unfold zlen in *; lia). reflexivity.
  - destruct (Z.ltb_spec i (zlen l)).
    + rewrite aread_in by lia. cbn [cbind]. rewrite IH by lia. cbn [cbind]. f_equal.
      unfold zlen in *. rewrite (skipn_cons_nth l (Z.to_nat i)) by lia. f_equal. f_equal. lia.
    + rewrite skipn_all2 by (unfold zlen in *; lia). reflexivity.
Qed.

(** ** Theorems *)

(** C19: [find_longest_match] (suffix_array.c 50-91) on a suffix index
    whose [n + 1] slots hold starts in the source, a target region inside
    the target, and tables of 256 entries (whatever they hold): it reads
    nothing out of bounds, and the slot and length it returns are a real
    match, the [length] bytes of the source from [sa[last_match]] are the
    first [length] bytes of the target. *)
Theorem find_longest_match_sound (src t idx starts ends : list Z) (to tlen : Z) :
  length idx = S (length src) -> Forall (fun v => 0 <= v <= zlen src) idx -> zlen src < 2 ^ 31 ->
  bytes_ok t -> 0 <= to -> 0 <= tlen -> to + tlen <= zlen t -> zlen starts = 256 -> zlen ends = 256 ->
  exists last len, find_longest_match (rstr src) (zlen src) (rstr t) to tlen starts ends idx = CDone (last, len) /\
    0 <= last <= zlen src /\ 0 <= len <= tlen /\ match_at src t (nth (Z.to_nat last) idx 0) to len.
Proof.
  intros L R Hn Hb Hto Htl Ht Ls Le. unfold find_longest_match.
  rewrite aread_in by (rewrite zlen_rstr; lia). cbn [cbind].
  pose proof (rstr_byte t to Hb ltac:(lia)) as Hc.
  rewrite !aread_in by lia. cbn [cbind].
  pose proof (slot_in src idx L R 0 ltac:(zlen_facts; lia)).
  apply flm_loop_sound; auto; try lia.
  - unfold uint. apply Z.mod_pos_bound. lia.
  - apply flm_fuel_init. unfold zlen. lia.
  - unfold match_at. split; [lia | split; [lia | reflexivity]].
Qed.

(** C22: the binary search of [find_longest_match] terminates: every
    round shrinks the interval [low .. high] or ends the loop, so on any
    input (tables, suffix array and target included) it ends within the
    [slen + 2] rounds the model gives it, with a result or an out-of-bounds
    read, and never runs out of rounds. *)
Theorem find_longest_match_terminates (s t starts ends idx : list Z) (slen to tlen : Z) :
  0 <= slen < 2 ^ 63 -> find_longest_match s slen t to tlen starts ends idx <> CAbort.
Proof.
  intros Hs. unfold find_longest_match.
  destruct (aread t to) as [c| |] eqn:A; cbn [cbind]; [|discriminate|destruct (aread_abort _ _ A)].
  destruct (aread ends c) as [e| |] eqn:B; cbn [cbind]; [|discriminate|destruct (aread_abort _ _ B)].
  destruct (aread starts c) as [l| |] eqn:C; cbn [cbind]; [|discriminate|destruct (aread_abort _ _ C)].
  apply flm_loop_ends; [lia | unfold uint; apply Z.mod_pos_bound; lia | reflexivity | apply flm_fuel_init; lia].
Qed.

Lemma tget_repeat (e : Z) : tget (repeat 0 256) e = 0.
Proof. unfold tget. destruct (Nat.lt_ge_cases (Z.to_nat e) 256); [apply nth_repeat | apply nth_overflow; rewrite repeat_length; lia]. Qed.

(** The tables of an object restored from a suffix array, with the facts
    [sa_ranges_spec] gives about them. *)
Lemma restore_ranges (src idx : list Z) :
  is_sarray src idx = true -> bytes_ok src -> 0 < zlen src < 2 ^ 31 ->
  exists st en, restore src idx = (mkobj (mkstruct (Some idx) en st) (Some src) (Some 0), CDone (Ret (zlen src))) /\
  zlen st = 256 /\ zlen en = 256 /\
  forall e, 0 <= e < 256 ->
    (occurs src idx (zlen src) e -> 0 <= tget st e /\ tget en e < zlen src /\
       forall j, 0 <= j < zlen src -> (skey src idx j = e <-> tget st e <= j <= tget en e)) /\
    (~ occurs src idx (zlen src) e -> tget st e = 0 /\ tget en e = 0).
Proof.
  intros Hsa Hb Hn. destruct (restore_spec src idx Hsa Hb Hn) as (st & en & E & ->).
  destruct (sa_ranges_spec src idx (repeat 0 256) (repeat 0 256)) as (st' & en' & E' & Ls & Le & P);
    try (unfold zlen; rewrite repeat_length; reflexivity); auto; try lia.
  - apply sarray_len, Hsa.
  - apply sarray_range, Hsa.
  - intros j Hj. apply sarray_key; auto. lia.
  - intros i j Hi Hij Hj. apply sarray_sorted; auto. lia.
  - rewrite E in E'. injection E' as <- <-. exists st, en. split; [reflexivity|]. do 2 (split; [assumption|]).
    intros e He. destruct (P e He) as (P1 & P2). rewrite !tget_repeat in P2. auto.
Qed.

(** C20: [all_starts] (suffix_array.c 533-554) on an object restored from
    the suffix array of a source, for a byte [e] below 128: when [e]
    starts a suffix in one of the slots [0 .. n-1], it returns the starts
    of those suffixes, in suffix order; slot [n], the greatest suffix, is
    never among them.  When it does not, the tables still hold zero and it
    returns [sa[0]], the start [n] of the empty suffix, instead of an
    empty list. *)
Theorem all_starts_slots (src idx : list Z) (e : Z) :
  is_sarray src idx = true -> bytes_ok src -> 0 < zlen src < 2 ^ 31 -> 0 <= e < 128 ->
  SuffixArray_all_starts (fst (restore src idx)) [e] =
  CDone (if existsb (fun j => skey src idx j =? e) (zrange 0 (length src))
         then map (fun j => nth (Z.to_nat j) idx 0) (filter (fun j => skey src idx j =? e) (zrange 0 (length src)))
         else [nth 0 idx 0]).
Proof.
  intros Hsa Hb Hn He. pose proof (sarray_len src idx Hsa) as L.
  destruct (restore_ranges src idx Hsa Hb Hn) as (st & en & -> & Ls & Le & P).
  unfold SuffixArray_all_starts. cbn [fst sa starts ends suffix_index nth]. change (zlen [e]) with 1. vl_test.
  replace (size_t (schar e)) with e by (unfold schar, size_t; vl_test; rewrite Z.mod_small; sa_pow; lia).
  rewrite !aread_in by lia. cbn [cbind]. fold (tget st e) (tget en e).
  destruct (P e ltac:(lia)) as (P1 & P2).
  destruct (existsb (fun j => skey src idx j =? e) (zrange 0 (length src))) eqn:X.
  - apply existsb_exists in X as (j & Hj & Kj). apply in_zrange in Hj. apply Z.eqb_eq in Kj.
    destruct P1 as (S0 & En & B); [exists j; split; [unfold zlen; lia | exact Kj]|].
    pose proof (proj1 (B j ltac:(unfold zlen; lia)) Kj).
    rewrite starts_loop_spec by (unfold zlen in *; lia). f_equal. f_equal. symmetry.
    apply filter_block; [|lia|unfold zlen in *; lia]. intros i Hi. rewrite Z.eqb_eq. apply B. unfold zlen. lia.
  - destruct P2 as (-> & ->).
    + intros (j & Hj & Kj). assert (Y : existsb (fun j => skey src idx j =? e) (zrange 0 (length src)) = true)
        by (apply existsb_exists; exists j; split; [apply in_zrange; unfold zlen in *; lia | apply Z.eqb_eq; exact Kj]).
      congruence.
    + rewrite starts_loop_spec by (unfold zlen; lia). reflexivity.
Qed.

(** C21: [raw_array] and [suffix_start] (lines 483-498, 515-518) save an
    object restored from a suffix array; [SuffixArray.new] on the same
    source with what they return, whatever [bsarray] would do, gives back
    the same object and the same result. *)
Theorem raw_array_roundtrip (build : list Z -> Z * list Z) (src idx : list Z) :
  is_sarray src idx = true -> bytes_ok src -> 0 < zlen src < 2 ^ 31 ->
  exists raw, SuffixArray_raw_array (fst (restore src idx)) = CDone (Ret raw) /\
    SuffixArray_initialize build SuffixArray_alloc src (Some raw) (SuffixArray_suffix_start (fst (restore src idx))) =
    restore src idx.
Proof.
  intros Hsa Hb Hn. pose proof (sarray_len src idx Hsa) as L.
  destruct (restore_spec src idx Hsa Hb Hn) as (st & en & _ & R). rewrite R. cbn [fst].
  unfold SuffixArray_raw_array, sa_check. cbn [iv_source sa suffix_index]. vl_test. cbn [obind cbind].
  replace (zlen src + 1) with (zlen idx) by (unfold zlen; rewrite L; lia).
  rewrite read_slots_all by lia. cbn [cbind skipn Z.to_nat]. eexists. split; [reflexivity|].
  rewrite <- R. reflexivity.
Qed.

(** [all_starts] takes the first [char] of its argument, signed, as a
    [size_t]: a byte from 128 up indexes the tables far past their 256
    entries (line 543). *)
Theorem all_starts_high_byte (o : sa_obj) (c : Z) (r : list Z) :
  128 <= c < 256 -> zlen (starts (sa o)) = 256 -> SuffixArray_all_starts o (c :: r) = COob.
Proof.
  intros Hc Ls. unfold SuffixArray_all_starts. rewrite zlen_cons. zlen_facts. vl_test. cbn [nth].
  unfold schar. vl_test. unfold size_t. rewrite <- (Z.mod_unique (c - 256) (2 ^ 64) (-1) (c - 256 + 2 ^ 64)) by (sa_pow; lia).
  unfold aread. rewrite Ls. vl_test. reflexivity.
Qed.

(** [match] (lines 307-319) checks only the last byte of the target
    when it walks back from the slot the search found: on the source
    [" x!bab"] and its suffix array it reports [2] for ["ab"], where the
    source holds ["!b"]. *)
Theorem match_reports_non_occurrence :
  is_sarray [32; 120; 33; 98; 97; 98] [6; 0; 2; 4; 5; 3; 1] = true /\
  SuffixArray_match (fst (restore [32; 120; 33; 98; 97; 98] [6; 0; 2; 4; 5; 3; 1])) [97; 98] = CDone (Ret [2; 4]) /\
  sub [32; 120; 33; 98; 97; 98] 2 2 <> [97; 98].
Proof. split; [vm_compute; reflexivity | split; [vm_compute; reflexivity | vm_compute; discriminate]]. Qed.

(** the walk back of [match] reaches slot [0], the empty suffix at
    [n], and reads [source[n + target_len - 1]] past the NUL of the
    source: [match("ab")] on ["abcab"]. *)
Theorem match_reads_past_source :
  is_sarray [97; 98; 99; 97; 98] [5; 3; 0; 4; 1; 2] = true /\
  SuffixArray_match (fst (restore [97; 98; 99; 97; 98] [5; 3; 0; 4; 1; 2])) [97; 98] = COob.
Proof. split; vm_compute; reflexivity. Qed.

(** the tables miss the byte of the greatest suffix when no other
    suffix begins with it (lines 194-204 stop at slot [n-1]):
    [longest_match("b", 0)] on ["ab"] finds no match, though ["b"] is at 1. *)
Theorem longest_match_misses_last_slot :
  is_sarray [97; 98] [2; 0; 1] = true /\
  SuffixArray_longest_match (fst (restore [97; 98] [2; 0; 1])) [98] 0 = CDone (Ret (Some (2, 0))) /\
  sub [97; 98] 1 1 = [98].
Proof. split; [|split]; vm_compute; reflexivity. Qed.

(** The forward walk of [match] (lines 325-335) tests [middle++ <=
    source_len] before the increment and reads [suffix_index[n + 1]], one
    past the array, when the greatest suffix matches: [match("b")] on
    ["bb"]. *)
Theorem match_reads_past_index :
  is_sarray [98; 98] [2; 1; 0] = true /\
  SuffixArray_match (fst (restore [98; 98] [2; 1; 0])) [98] = COob.
Proof. split; vm_compute; reflexivity. Qed.

(** [all_starts] has no guard: on an object whose [initialize] has not
    run, the zeroed tables give the slots [0 .. 0] and it reads the
    [NULL] suffix index. *)
Theorem all_starts_uninitialized (c : Z) : 0 <= c < 128 -> SuffixArray_all_starts SuffixArray_alloc [c] = COob.
Proof.
  intros Hc. unfold SuffixArray_all_starts, SuffixArray_alloc. cbn [sa starts ends suffix_index nth].
  change (zlen [c]) with 1. vl_test.
  replace (size_t (schar c)) with c by (unfold schar, size_t; vl_test; rewrite Z.mod_small; sa_pow; lia).
  rewrite !aread_in by (unfold zlen; rewrite repeat_length; lia). cbn [cbind].
  rewrite nth_repeat. reflexivity.
Qed.

(** ** Witnesses *)

Lemma find_longest_match_sound_witness :
  exists last len, find_longest_match (rstr [97; 98]) (zlen [97; 98]) (rstr [98]) 0 1 (repeat 0 256) (repeat 0 256)
                     [2; 0; 1] = CDone (last, len) /\
    0 <= last <= zlen [97; 98] /\ 0 <= len <= 1 /\ match_at [97; 98] [98] (nth (Z.to_nat last) [2; 0; 1] 0) 0 len.
Proof.
  apply find_longest_match_sound; try reflexivity; try lia; unfold zlen, bytes_ok, byte_ok; cbn;
    repeat constructor; lia.
Defined.

Lemma find_longest_match_terminates_witness :
  0 <= 2 < 2 ^ 63 /\
  find_longest_match (rstr [97; 98]) 2 (rstr [97]) 0 1 (repeat 0 256) (repeat 0 256) [2; 0; 1] <> CAbort.
Proof. split; [lia | apply find_longest_match_terminates; lia]. Defined.

Lemma all_starts_slots_witness :
  SuffixArray_all_starts (fst (restore [97; 98] [2; 0; 1])) [97] =
  CDone (if existsb (fun j => skey [97; 98] [2; 0; 1] j =? 97) (zrange 0 (length [97; 98]))
         then map (fun j => nth (Z.to_nat j) [2; 0; 1] 0)
                (filter (fun j => skey [97; 98] [2; 0; 1] j =? 97) (zrange 0 (length [97; 98])))
         else [nth 0 [2; 0; 1] 0]).
Proof.
  apply all_starts_slots; [vm_compute; reflexivity | repeat constructor; unfold byte_ok; lia | | lia].
  unfold zlen; cbn; lia.
Defined.

Lemma raw_array_roundtrip_witness :
  exists raw, SuffixArray_raw_array (fst (restore [97; 98] [2; 0; 1])) = CDone (Ret raw) /\
    SuffixArray_initialize (fun _ => (0, [])) SuffixArray_alloc [97; 98] (Some raw)
      (SuffixArray_suffix_start (fst (restore [97; 98] [2; 0; 1]))) = restore [97; 98] [2; 0; 1].
Proof.
  apply raw_array_roundtrip; [vm_compute; reflexivity | repeat constructor; unfold byte_ok; lia |].
  unfold zlen; cbn; lia.
Defined.

Lemma all_starts_high_byte_witness : SuffixArray_all_starts (fst (restore [97; 98] [2; 0; 1])) [200] = COob.
Proof. apply all_starts_high_byte; [lia | vm_compute; reflexivity]. Defined.

Lemma all_starts_uninitialized_witness : SuffixArray_all_starts SuffixArray_alloc [97] = COob.
Proof. apply all_starts_uninitialized. lia. Defined.
