(* ===== verification/RubyRt.v ===== *)
(** * RubyRt: the part of the Ruby 1.8 C API the Odeum binding uses

    The binding ([src/ext/odeum_index/odeum_index.c]) is written against
    [ruby.h] of Ruby 1.8 ([RSTRING(s)->ptr]) on an LP64 machine.  The
    interpreter is not part of the repository; what the binding relies on
    is modelled here from the interpreter's documented behaviour:
    - [value]: [nil], [false], [true], Integers, Floats, Strings (their
      bytes), Arrays, Hashes with String keys, and [T_DATA] objects by
      their slot in the object heap ([RData]); [TYPE] tells a Fixnum from
      a Bignum by its size;
    - [FIX2INT] is [rb_fix2int] of LP64: a numeric conversion followed by
      the [int] range check, a [TypeError] for what is not numeric;
    - [rexc]: the exceptions [rb_raise] and the conversions raise;
    - [rb S A]: a state and exception monad over a [cres], whose [COob] is
      a read of memory the C code does not own (undefined behaviour) and
      whose [CAbort] is a failed [assert];
    - a heap of [T_DATA] objects with [Data_Get_Struct]'s [T_DATA] check;
    - method dispatch with the arity [rb_define_method] registers. *)
From Stdlib Require Import String ZArith Lia List Bool.
From S2P Require Import Prelude Cache CbList CbStr.
Import ListNotations.
Open Scope list_scope.
Open Scope Z_scope.

(** ** Values *)

Inductive rtype := T_NIL | T_FALSE | T_TRUE | T_FIXNUM | T_BIGNUM | T_FLOAT
                 | T_STRING | T_ARRAY | T_HASH | T_DATA.

Definition rtype_eqb (a b : rtype) : bool :=
  match a, b with
  | T_NIL, T_NIL | T_FALSE, T_FALSE | T_TRUE, T_TRUE | T_FIXNUM, T_FIXNUM
  | T_BIGNUM, T_BIGNUM | T_FLOAT, T_FLOAT | T_STRING, T_STRING
  | T_ARRAY, T_ARRAY | T_HASH, T_HASH | T_DATA, T_DATA => true
  | _, _ => false
  end.

Inductive value :=
| Qnil | Qfalse | Qtrue
| RInt (n : Z)
| RFloat (x : Z)
| RString (s : list Z)
| RArray (l : list value)
| RHash (kv : list (list Z * value))
| RData (a : nat).

(** A Fixnum is 63 bits wide on LP64. *)
Definition fixable (n : Z) : bool := (- 2 ^ 62 <=? n) && (n <? 2 ^ 62).

Definition TYPE (v : value) : rtype :=
  match v with
  | Qnil => T_NIL | Qfalse => T_FALSE | Qtrue => T_TRUE
  | RInt n => if fixable n then T_FIXNUM else T_BIGNUM
  | RFloat _ => T_FLOAT | RString _ => T_STRING | RArray _ => T_ARRAY
  | RHash _ => T_HASH | RData _ => T_DATA
  end.

Definition rtype_name (t : rtype) : string :=
  match t with
  | T_NIL => "T_NIL" | T_FALSE => "T_FALSE" | T_TRUE => "T_TRUE"
  | T_FIXNUM => "T_FIXNUM" | T_BIGNUM => "T_BIGNUM" | T_FLOAT => "T_FLOAT"
  | T_STRING => "T_STRING" | T_ARRAY => "T_ARRAY" | T_HASH => "T_HASH"
  | T_DATA => "T_DATA"
  end.

(** [RTEST]: everything but [nil] and [false] is true. *)
Definition RTEST (v : value) : bool :=
  match v with Qnil | Qfalse => false | _ => true end.

(** [rb_ary_entry(ary, i)]: a negative offset counts from the end;
    [nil] past either end. *)
Definition rb_ary_entry (l : list value) (i : Z) : value :=
  let i := if i <? 0 then i + zlen l else i in
  if i <? 0 then Qnil else nth (Z.to_nat i) l Qnil.

(** [RSTRING(s)->ptr] read as a C string: the bytes before the first
    zero ([rb_str_new2] and every [char *] argument of the library). *)
Fixpoint cstr (s : list Z) : list Z :=
  match s with
  | [] => []
  | c :: r => if c =? 0 then [] else c :: cstr r
  end.

(** ** Exceptions and the monad *)

(** [ArgumentError] is the interpreter's check of the number of
    arguments; [NullPointerGiven] is the [ArgumentError] of
    [rb_str_new2(NULL)]. *)
Inductive rexc :=
| StandardError (msg : string)
| TypeError (msg : string)
| RangeError
| ArgumentError (given expected : Z)
| NullPointerGiven
| NoMethodError (name : string).

Inductive rout (A : Type) := ROk (a : A) | RExc (e : rexc).
Arguments ROk {A} a.
Arguments RExc {A} e.

Definition rb (S A : Type) : Type := S -> cres (S * rout A).

Definition rret {S A} (a : A) : rb S A := fun s => CDone (s, ROk a).

Definition rbind {S A B} (m : rb S A) (k : A -> rb S B) : rb S B :=
  fun s => match m s with
           | CDone (s', ROk a) => k a s'
           | CDone (s', RExc e) => CDone (s', RExc e)
           | COob => COob
           | CAbort => CAbort
           end.

Definition rraise {S A} (e : rexc) : rb S A := fun s => CDone (s, RExc e).

(** A C operation with no defined result: a read out of bounds, a
    pointer to the wrong struct, an argument the caller never passed. *)
Definition rub {S A} : rb S A := fun _ => COob.

Definition rabort {S A} : rb S A := fun _ => CAbort.

Definition rget {S} : rb S S := fun s => CDone (s, ROk s).
Definition rput {S} (s : S) : rb S unit := fun _ => CDone (s, ROk tt).

(** A reading function of the C code run inside the monad. *)
Definition rlift {S A} (r : cres A) : rb S A :=
  fun s => match r with CDone a => CDone (s, ROk a) | COob => COob | CAbort => CAbort end.

Declare Scope rb_scope.
Notation "'let*' x ':=' m 'in' k" := (rbind m (fun x => k))
  (at level 10, x name, m at level 100, k at level 200) : rb_scope.
Notation "'let*' ' p ':=' m 'in' k" := (rbind m (fun x => match x with p => k end))
  (at level 10, p pattern, m at level 100, k at level 200) : rb_scope.
Open Scope rb_scope.

(** ** Macros of the binding and conversions of [ruby.h] *)

(** [REQUIRE_TYPE(V, T)] (odeum_index.c 49): the message is built from the
    names of the C variable and of the type. *)
Definition REQUIRE_TYPE {S} (v : value) (t : rtype) (vname : string) : rb S unit :=
  if rtype_eqb (TYPE v) t then rret tt
  else rraise (TypeError ("Wrong argument type for " ++ vname ++ " required " ++ rtype_name t)%string).

(** [RAISE_NOT_NULL(T)] (odeum_index.c 47). *)
Definition RAISE_NOT_NULL {S A} (p : option A) (pname : string) : rb S A :=
  match p with
  | Some a => rret a
  | None => rraise (StandardError ("NULL found for " ++ pname ++ " when shouldn't be.")%string)
  end.

(** [check_int]: a C [int] holds [-2^31 .. 2^31-1]. *)
Definition check_int {S} (n : Z) : rb S Z :=
  if (n <? - 2 ^ 31) || (2 ^ 31 - 1 <? n) then rraise RangeError else rret n.

(** [FIX2INT] = [rb_fix2int] on LP64: [rb_num2long] converts Integers
    and Floats and raises [TypeError] for the rest (none of them has
    [to_int]), then the range check. *)
Definition FIX2INT {S} (v : value) : rb S Z :=
  match v with
  | RInt n | RFloat n => check_int n
  | Qnil => rraise (TypeError "no implicit conversion from nil to integer")
  | Qfalse | Qtrue => rraise (TypeError "no implicit conversion from boolean to integer")
  | _ => rraise (TypeError "can't convert into Integer")
  end.

(** A C [int] stored from a wider integer ([time_t] to [int]). *)
Definition to_int32 (n : Z) : Z :=
  let u := n mod 2 ^ 32 in if u <? 2 ^ 31 then u else u - 2 ^ 32.

(** [rb_str_new2(ptr)] of a [char *] result that may be [NULL]. *)
Definition rb_str_new2 {S} (p : option (list Z)) : rb S value :=
  match p with Some s => rret (RString (cstr s)) | None => rraise NullPointerGiven end.

(** [res == FALSE ? Qfalse : Qtrue]. *)
Definition bool_value (b : bool) : value := if b then Qtrue else Qfalse.

(** [rb_str_new(ptr, len)]: the first [len] bytes. *)
Definition rb_str_new (ptr : list Z) (len : Z) : value := RString (firstn (Z.to_nat len) ptr).

(** [rb_hash_aset] with a String key: replace the value of an equal key,
    or add the pair at the end. *)
Fixpoint rb_hash_aset (h : list (list Z * value)) (k : list Z) (v : value) : list (list Z * value) :=
  match h with
  | [] => [(k, v)]
  | (k', v') :: h' => if bytes_eqb k' k then (k', v) :: h' else (k', v') :: rb_hash_aset h' k v
  end.

(** ** The heap of [T_DATA] objects and the state of a library *)

Record rworld (O L : Type) := mkworld { r_heap : list O; r_lib : L }.
Arguments mkworld {O L} r_heap r_lib.
Arguments r_heap {O L} r.
Arguments r_lib {O L} r.

Section Heap.
Context {O L : Type}.
Local Abbreviation W := (rworld O L).

Definition heap_get (a : nat) : rb W O :=
  fun w => match nth_error (r_heap w) a with Some o => CDone (w, ROk o) | None => COob end.

(** [DATA_PTR(obj) = p] and the like: the struct of the object changes. *)
Definition heap_set (a : nat) (o : O) : rb W unit :=
  fun w => CDone (mkworld (list_set (r_heap w) a o) (r_lib w), ROk tt).

(** [Data_Make_Struct] / [Data_Wrap_Struct]: a new object. *)
Definition heap_new (o : O) : rb W nat :=
  fun w => CDone (mkworld (r_heap w ++ [o]) (r_lib w), ROk (List.length (r_heap w))).

(** A call into the library. *)
Definition lib_call {A} (f : L -> L * A) : rb W A :=
  fun w => let '(l, a) := f (r_lib w) in CDone (mkworld (r_heap w) l, ROk a).

(** A call into the library that only reads its state. *)
Definition lib_read {A} (f : L -> A) : rb W A := fun w => CDone (w, ROk (f (r_lib w))).

(** A call into the library that returns nothing. *)
Definition lib_do (f : L -> L) : rb W unit := fun w => CDone (mkworld (r_heap w) (f (r_lib w)), ROk tt).

(** [Data_Get_Struct(v, T, p)]: [Check_Type(v, T_DATA)], then the struct
    of the object, whatever its class, with the object's slot. *)
Definition Data_Get_Struct (v : value) : rb W (nat * O) :=
  match v with
  | RData a => let* o := heap_get a in rret (a, o)
  | _ => rraise (TypeError "wrong argument type (expected Data)")
  end.
End Heap.

(** ** Methods *)

(** A C function of the binding with its number of parameters after
    [self]. *)
Inductive cfunc (S : Type) :=
| CF0 (f : value -> rb S value)
| CF1 (f : value -> value -> rb S value)
| CF2 (f : value -> value -> value -> rb S value)
| CF3 (f : value -> value -> value -> value -> rb S value)
| CF4 (f : value -> value -> value -> value -> value -> rb S value).
Arguments CF0 {S} f.
Arguments CF1 {S} f.
Arguments CF2 {S} f.
Arguments CF3 {S} f.
Arguments CF4 {S} f.

(** A C function called with [self] and a list of arguments: a function
    with more parameters than the list reads the ones never passed. *)
Definition cfunc_apply {S} (f : cfunc S) (self : value) (args : list value) : rb S value :=
  match f, args with
  | CF0 g, [] => g self
  | CF1 g, [a] => g self a
  | CF2 g, [a; b] => g self a b
  | CF3 g, [a; b; c] => g self a b c
  | CF4 g, [a; b; c; d] => g self a b c d
  | _, _ => rub
  end.

(** A call [recv.name(args)] of a method [rb_define_method] registered
    with [argc]: the interpreter checks the number of arguments against
    [argc] and calls the function with [self] and those arguments. *)
Definition rb_call {S} (argc : Z) (f : cfunc S) (self : value) (args : list value) : rb S value :=
  if negb (Z.of_nat (List.length args) =? argc)
  then rraise (ArgumentError (Z.of_nat (List.length args)) argc)
  else cfunc_apply f self args.

(** ** Lemmas *)

Lemma rbind_ret {S A B} (a : A) (k : A -> rb S B) (s : S) :
  rbind (rret a) k s = k a s.
Proof. reflexivity. Qed.

Lemma rbind_raise {S A B} (e : rexc) (k : A -> rb S B) (s : S) :
  rbind (rraise e) k s = CDone (s, RExc e).
Proof. reflexivity. Qed.

Lemma rbind_assoc {S A B C} (m : rb S A) (k : A -> rb S B) (h : B -> rb S C) (s : S) :
  rbind (rbind m k) h s = rbind m (fun a => rbind (k a) h) s.
Proof.
  unfold rbind. destruct (m s) as [[s' [a|e]]| |]; reflexivity.
Qed.

Lemma cstr_c_str (s : list Z) : c_str (s ++ [0]) = CDone (cstr s).
Proof. induction s as [|c s IH]; simpl; [reflexivity|]. destruct (c =? 0); [reflexivity|]. now rewrite IH. Qed.

Lemma rb_ary_entry_nth (l : list value) (i : nat) :
  rb_ary_entry l (Z.of_nat i) = nth i l Qnil.
Proof.
  unfold rb_ary_entry. destruct (Z.ltb_spec (Z.of_nat i) 0); [lia|].
  destruct (Z.ltb_spec (Z.of_nat i) 0); [lia|]. now rewrite Nat2Z.id.
Qed.

Lemma rtype_eqb_spec (a b : rtype) : rtype_eqb a b = true <-> a = b.
Proof. destruct a, b; simpl; split; congruence. Qed.

Lemma rbind_ok {S A B} (m : rb S A) (k : A -> rb S B) (s s' : S) (x : A) :
  m s = CDone (s', ROk x) -> rbind m k s = k x s'.
Proof. intros E. unfold rbind. now rewrite E. Qed.

Lemma rbind_exc {S A B} (m : rb S A) (k : A -> rb S B) (s s' : S) (e : rexc) :
  m s = CDone (s', RExc e) -> rbind m k s = CDone (s', RExc e).
Proof. intros E. unfold rbind. now rewrite E. Qed.

(** [FIX2INT] raises, or gives the [int] the Integer or Float holds. *)
Lemma FIX2INT_cases {S} (c : value) (s : S) :
  (exists e, FIX2INT c s = CDone (s, RExc e)) \/
  (exists k, FIX2INT c s = CDone (s, ROk k) /\ - 2 ^ 31 <= k <= 2 ^ 31 - 1 /\ (c = RInt k \/ c = RFloat k)).
Proof.
  destruct c as [| | |n|n| | | |]; try (left; eexists; reflexivity);
    unfold FIX2INT, check_int;
    (destruct (Z.ltb_spec n (- 2 ^ 31)), (Z.ltb_spec (2 ^ 31 - 1) n); cbn [orb];
     [left; eexists; reflexivity .. | right; exists n; repeat split; auto; lia]).
Qed.

Lemma REQUIRE_TYPE_ok {S} (v : value) (t : rtype) (n : string) :
  rtype_eqb (TYPE v) t = true -> @REQUIRE_TYPE S v t n = rret tt.
Proof. intros E. unfold REQUIRE_TYPE. now rewrite E. Qed.

Lemma check_int_ok {S} (n : Z) : - 2 ^ 31 <= n <= 2 ^ 31 - 1 -> @check_int S n = rret n.
Proof.
  intros Hn. unfold check_int.
  destruct (Z.ltb_spec n (- 2 ^ 31)), (Z.ltb_spec (2 ^ 31 - 1) n); try lia. reflexivity.
Qed.

Lemma check_int_range {S} (n : Z) : n < - 2 ^ 31 \/ 2 ^ 31 - 1 < n -> @check_int S n = rraise RangeError.
Proof.
  intros Hn. unfold check_int.
  destruct (Z.ltb_spec n (- 2 ^ 31)), (Z.ltb_spec (2 ^ 31 - 1) n); try lia; reflexivity.
Qed.

Lemma rb_call_argc {S} (argc : Z) (f : cfunc S) (self : value) (args : list value) :
  Z.of_nat (List.length args) = argc -> rb_call argc f self args = cfunc_apply f self args.
Proof. intros <-. unfold rb_call. now rewrite Z.eqb_refl. Qed.
