(* ===== verification/OdeumApi.v ===== *)
(** * OdeumApi: what the Ruby binding of Odeum calls, and its conversions

    The binding ([src/ext/odeum_index/odeum_index.c]) wraps three C
    structs in Ruby objects: [ODEUM *] in [Odeum::Index], [ODDOC *] in
    [Odeum::Document] and [ResultSetData] in [Odeum::ResultSet].  The
    Odeum library ([odeum.h], [odeum.c]) is not part of the repository;
    [OdeumLib] states the functions the binding calls, over an abstract
    library state [L] and abstract handles [OD] and [DOC], as the
    binding's theorems need no more of it.  This file holds:
    - [ODPAIR] and its bytes in memory;
    - [robj]: the struct of each kind of object, and [dptr], the pointer
      [DATA_GET] yields, which is the object's own struct or the struct of
      an object of another class ([Data_Get_Struct] checks [T_DATA], not
      the class);
    - [CBLIST_2_array], [array_2_CBLIST] and [CBMAP_2_hash] (lines 56-107)
      over the Cabin models [CBLIST] and [bmap];
    - [Document_initialize] and [Document_create] (lines 1158-1210), which
      the result sets and the index call. *)
From Stdlib Require Import String ZArith Lia List Bool.
From S2P Require Import Prelude Cache CbList CbStr CbCsv CbMapSer SuffixArray RubyRt.
Import ListNotations.
Open Scope list_scope.
Open Scope Z_scope.
Open Scope cres_scope.
Open Scope rb_scope.

(** ** The library *)

(** [ODPAIR] ([odeum.h]): [int id; int score;], eight bytes. *)
Record ODPAIR := mkpair { pair_id : Z; pair_score : Z }.

Definition pair_bytes (p : ODPAIR) : list Z := int_bytes (pair_id p) ++ int_bytes (pair_score p).

(** The array of pairs [odsearch] and [odquery] return, in memory. *)
Definition pairs_mem (ps : list ODPAIR) : list Z := flat_map pair_bytes ps.

(** The functions of [odeum.h] the binding calls.  A [char *] result the
    caller frees is [option (list Z)] where it can be [NULL]; [odsearch]
    and [odquery] return the array with its length in [*np]. *)
Class OdeumLib (L OD DOC : Type) := {
  odopen : list Z -> Z -> L -> L * option OD;
  odclose : OD -> L -> L * bool;
  odput : OD -> DOC -> Z -> bool -> L -> L * bool;
  odout : OD -> list Z -> L -> L * bool;
  odoutbyid : OD -> Z -> L -> L * bool;
  odget : OD -> list Z -> L -> L * option DOC;
  odgetbyid : OD -> Z -> L -> L * option DOC;
  odgetidbyuri : OD -> list Z -> L -> L * Z;
  odcheck : OD -> Z -> L -> L * bool;
  odsearch : OD -> list Z -> Z -> L -> L * option (list ODPAIR);
  odsearchdnum : OD -> list Z -> L -> L * Z;
  odquery : OD -> list Z -> CBLIST -> L -> L * (option (list ODPAIR) * CBLIST);
  oditerinit : OD -> L -> L * bool;
  oditernext : OD -> L -> L * option DOC;
  odsync : OD -> L -> L * bool;
  odoptimize : OD -> L -> L * bool;
  odname : OD -> L -> option (list Z);
  odfsiz : OD -> L -> Z;
  odbnum : OD -> L -> Z;
  odbusenum : OD -> L -> Z;
  oddnum : OD -> L -> Z;
  odwnum : OD -> L -> Z;
  odwritable : OD -> L -> bool;
  odfatalerror : OD -> L -> bool;
  odinode : OD -> L -> Z;
  odmtime : OD -> L -> Z;
  odmerge : list Z -> CBLIST -> L -> L * bool;
  odremove : list Z -> L -> L * bool;
  odbreaktext : list Z -> L -> CBLIST;
  odnormalizeword : list Z -> L -> list Z;
  odsettuning : Z -> Z -> Z -> Z -> L -> L;
  odsetcharclass : OD -> list Z -> list Z -> list Z -> L -> L;
  odanalyzetext : OD -> list Z -> CBLIST -> CBLIST -> L -> L * (CBLIST * CBLIST);
  oddocopen : list Z -> L -> L * DOC;
  oddocclose : DOC -> L -> L;
  oddocaddattr : DOC -> list Z -> list Z -> L -> L;
  oddocaddword : DOC -> list Z -> list Z -> L -> L;
  oddocid : DOC -> L -> Z;
  oddocuri : DOC -> L -> list Z;
  oddocgetattr : DOC -> list Z -> L -> option (list Z);
  oddocnwords : DOC -> L -> CBLIST;
  oddocawords : DOC -> L -> CBLIST;
  oddocscores : DOC -> Z -> OD -> L -> L * bmap
}.

(** A library to run the binding on concrete inputs: handles and
    documents are numbers, every call succeeds, and the state counts the
    handles [odclose] has closed. *)
#[export] Instance count_lib : OdeumLib nat nat nat := {|
  odopen := fun _ _ l => (l, Some 0%nat);
  odclose := fun _ l => (S l, true);
  odput := fun _ _ _ _ l => (l, true);
  odout := fun _ _ l => (l, true);
  odoutbyid := fun _ _ l => (l, true);
  odget := fun _ _ l => (l, Some 0%nat);
  odgetbyid := fun _ _ l => (l, Some 0%nat);
  odgetidbyuri := fun _ _ l => (l, 1);
  odcheck := fun _ _ l => (l, true);
  odsearch := fun _ _ _ l => (l, Some [mkpair 1 10]);
  odsearchdnum := fun _ _ l => (l, 1);
  odquery := fun _ q e l => (l, (Some [mkpair 1 10], cblistpush e q (zlen q)));
  oditerinit := fun _ l => (l, true);
  oditernext := fun _ l => (l, None);
  odsync := fun _ l => (l, true);
  odoptimize := fun _ l => (l, true);
  odname := fun _ _ => Some [100];
  odfsiz := fun _ _ => 0;
  odbnum := fun _ _ => 0;
  odbusenum := fun _ _ => 0;
  oddnum := fun _ _ => 0;
  odwnum := fun _ _ => 0;
  odwritable := fun _ _ => true;
  odfatalerror := fun _ _ => false;
  odinode := fun _ _ => 0;
  odmtime := fun _ _ => 0;
  odmerge := fun _ _ l => (l, true);
  odremove := fun _ l => (l, true);
  odbreaktext := fun _ _ => cblistopen;
  odnormalizeword := fun s _ => s;
  odsettuning := fun _ _ _ _ l => l;
  odsetcharclass := fun _ _ _ _ l => l;
  odanalyzetext := fun _ t a n l => (l, (cblistpush a t (zlen t), cblistpush n [] 0));
  oddocopen := fun _ l => (l, 0%nat);
  oddocclose := fun _ l => l;
  oddocaddattr := fun _ _ _ l => l;
  oddocaddword := fun _ _ _ l => l;
  oddocid := fun _ _ => 0;
  oddocuri := fun _ _ => [];
  oddocgetattr := fun _ _ _ => None;
  oddocnwords := fun _ _ => cblistopen;
  oddocawords := fun _ _ => cblistopen;
  oddocscores := fun _ _ _ l => (l, [])
|}.

(** ** The objects *)

(** [ResultSetData] (lines 39-43): [data] is [NULL] or the bytes it
    points to. *)
Record ResultSetData := mkrs { rs_data : option (list Z); rs_length : Z; rs_index : Z }.

Section Objects.
Context {OD DOC : Type}.

(** The struct of an object: an [Index] wraps [ODEUM *], a [Document]
    [ODDOC *] (both [NULL] once closed), a [ResultSet] its
    [ResultSetData] and the instance variable [@errors]. *)
Inductive robj :=
| IndexObj (p : option OD)
| DocObj (p : option DOC)
| RsObj (rs : ResultSetData) (errors : option value).

(** The pointer [DATA_GET] reads: the struct of the expected class, or
    the struct of an object of another class. *)
Inductive dptr (A : Type) := Own (a : A) | Foreign.
Arguments Own {A} a.
Arguments Foreign {A}.

Definition data_ptr_null (o : robj) : bool :=
  match o with IndexObj None | DocObj None => true | _ => false end.

Definition as_index (o : robj) : option (dptr OD) :=
  match o with
  | IndexObj p => option_map Own p
  | _ => if data_ptr_null o then None else Some Foreign
  end.

Definition as_doc (o : robj) : option (dptr DOC) :=
  match o with
  | DocObj p => option_map Own p
  | _ => if data_ptr_null o then None else Some Foreign
  end.

Definition as_rs (o : robj) : option (dptr ResultSetData) :=
  match o with
  | RsObj rs _ => Some (Own rs)
  | _ => if data_ptr_null o then None else Some Foreign
  end.

(** Using the pointer: a struct of another class read as this one has no
    defined result. *)
Definition deref {S A} (p : dptr A) : rb S A :=
  match p with Own a => rret a | Foreign => rub end.
End Objects.
Arguments robj : clear implicits.
Arguments Own {A} a.
Arguments Foreign {A}.

(** ** The conversions (lines 56-107) *)

(** The loop of [CBLIST_2_array] (lines 62-65) from element [i], [n]
    elements to go: [rb_str_new(val, sp)] of each element. *)
Fixpoint c2a_loop (l : CBLIST) (i n : nat) : cres (list value) :=
  match n with
  | O => CDone []
  | S n' =>
      match cblistval l i with
      | Some v => let? r := c2a_loop l (S i) n' in CDone (RString v :: r)
      | None => COob
      end
  end.

Definition CBLIST_2_array (l : CBLIST) : cres value :=
  let? xs := c2a_loop l 0 (cblistnum l) in CDone (RArray xs).

(** The loop of [array_2_CBLIST] (lines 78-80): it stops at the first
    [nil], which [rb_ary_entry] also gives past the end, and reads
    [RSTRING] of each element without checking its type. *)
Fixpoint a2c_loop (xs : list value) (acc : CBLIST) : cres CBLIST :=
  match xs with
  | [] | Qnil :: _ => CDone acc
  | RString s :: r => a2c_loop r (cblistpush acc s (zlen s))
  | _ :: _ => COob
  end.

Definition array_2_CBLIST (ary : list value) : cres CBLIST := a2c_loop ary cblistopen.

(** The loop of [CBMAP_2_hash] (lines 96-104) over the keys in the
    iteration order of the map. *)
Fixpoint m2h_loop (m : bmap) (ks : list (list Z)) (h : list (list Z * value))
  : cres (list (list Z * value)) :=
  match ks with
  | [] => CDone h
  | k :: ks' =>
      match cbmapget m k with
      | Some v => m2h_loop m ks' (rb_hash_aset h k (rb_str_new v (zlen v)))
      | None => COob
      end
  end.

Definition CBMAP_2_hash (m : bmap) : cres value :=
  let? h := m2h_loop m (cbmap_iter m) [] in CDone (RHash h).

(** ** Objects of the binding over the library *)

Section Glue.
Context {L OD DOC : Type} `{OdeumLib L OD DOC}.
Local Abbreviation W := (rworld (robj OD DOC) L).

(** [DATA_GET(from, type, name)] (line 48): the object's slot and the
    pointer, [StandardError] when it is [NULL]. *)
Definition DATA_GET {A} (proj : robj OD DOC -> option (dptr A)) (from : value) (name : string)
  : rb W (nat * dptr A) :=
  let* '(a, o) := Data_Get_Struct from in
  let* p := RAISE_NOT_NULL (proj o) name in
  rret (a, p).

(** [Document_alloc] (lines 1188-1192). *)
Definition Document_alloc : rb W value :=
  let* a := heap_new (DocObj None) in rret (RData a).

(** [Document_initialize] (lines 1203-1210): a [nil] URI leaves the
    pointer as it is. *)
Definition Document_initialize (self uri : value) : rb W value :=
  match uri with
  | Qnil => rret self
  | _ =>
      let* _ := REQUIRE_TYPE uri T_STRING "uri" in
      match uri, self with
      | RString s, RData a =>
          let* d := lib_call (oddocopen (cstr s)) in
          let* _ := heap_set a (DocObj (Some d)) in
          rret self
      | _, _ => rub
      end
  end.

(** [Document_create] (lines 1158-1168): [rb_class_new_instance] with a
    [nil] URI, then [DATA_PTR] set to the document. *)
Definition Document_create (doc : DOC) : rb W value :=
  let* self := Document_alloc in
  let* self := Document_initialize self Qnil in
  match self with
  | RData a => let* _ := heap_set a (DocObj (Some doc)) in rret self
  | _ => rub
  end.
End Glue.

(** ** The conversions preserve the elements *)

Lemma c2a_loop_view (l : CBLIST) (n : nat) : forall i, cl_ok l -> (i + n <= cl_num l)%nat ->
  c2a_loop l i n = CDone (map RString (firstn n (skipn i (cl_view l)))).
Proof.
  induction n as [|n IH]; intros i Hl Hn; [reflexivity|]. cbn [c2a_loop].
  pose proof (length_view l Hl) as Hv. rewrite cblistval_view.
  rewrite (skipn_nth_cons (cl_view l) i []) by lia.
  rewrite (nth_error_nth' (cl_view l) []) by lia. rewrite (IH (S i)) by (auto; lia). reflexivity.
Qed.

Lemma CBLIST_2_array_view (l : CBLIST) :
  cl_ok l -> CBLIST_2_array l = CDone (RArray (map RString (cl_view l))).
Proof.
  intros Hl. unfold CBLIST_2_array, cblistnum. rewrite c2a_loop_view by (auto; lia).
  cbn [skipn]. rewrite firstn_all2 by (rewrite (length_view l Hl); lia). reflexivity.
Qed.

(** [array_2_CBLIST] pushes the Strings before the first [nil]. *)
Lemma a2c_loop_strings (xs : list (list Z)) (rest : list value) : forall acc,
  cl_ok acc -> (rest = [] \/ exists r, rest = Qnil :: r) ->
  exists l, a2c_loop (map RString xs ++ rest) acc = CDone l /\ cl_ok l /\ cl_view l = cl_view acc ++ xs.
Proof.
  induction xs as [|x xs IH]; intros acc Hacc Hr.
  - exists acc. rewrite app_nil_r. destruct Hr as [-> | [r ->]]; auto.
  - cbn [map app a2c_loop]. unfold cblistpush. rewrite region_self.
    destruct (pushbuf_sim acc x Hacc) as [Hok Hv].
    destruct (IH _ Hok Hr) as (l & E & Hl & Hlv). exists l. rewrite Hlv, Hv, <- app_assoc. auto.
Qed.

(** The hash [CBMAP_2_hash] builds, entry by entry. *)
Definition hash_of (m : bmap) : list (list Z * value) := map (fun kv => (fst kv, RString (snd kv))) m.

Lemma rb_hash_aset_new (h : list (list Z * value)) (k : list Z) (v : value) :
  ~ In k (map fst h) -> rb_hash_aset h k v = h ++ [(k, v)].
Proof.
  induction h as [|[k' v'] h IH]; intros Hn; [reflexivity|]. cbn [rb_hash_aset].
  destruct (bytes_eqb_spec k' k) as [->|]; [exfalso; apply Hn; now left|].
  rewrite IH by (intros Hin; apply Hn; now right). reflexivity.
Qed.

Lemma m2h_loop_entries (m : bmap) (post : bmap) : forall pre,
  m = pre ++ post -> NoDup (cbmap_iter m) ->
  m2h_loop m (cbmap_iter post) (hash_of pre) = CDone (hash_of m).
Proof.
  induction post as [|[k v] post IH]; intros pre Em Hnd.
  - rewrite Em, app_nil_r. reflexivity.
  - cbn [cbmap_iter map fst m2h_loop]. fold (cbmap_iter post).
    assert (Hk : ~ In k (cbmap_iter pre)).
    { intros Hin. rewrite Em, cbmap_iter_app in Hnd. cbn in Hnd.
      apply NoDup_remove_2 in Hnd. apply Hnd, in_or_app. now left. }
    assert (Hg : cbmapget m k = Some v).
    { rewrite Em, cbmapget_app, (cbmapget_notin pre k Hk). cbn.
      now destruct (bytes_eqb_spec k k). }
    rewrite Hg. unfold rb_str_new, zlen. rewrite Nat2Z.id, firstn_all.
    rewrite rb_hash_aset_new.
    + replace (hash_of pre ++ [(k, RString v)]) with (hash_of (pre ++ [(k, v)]))
        by (unfold hash_of; now rewrite map_app).
      apply IH; [rewrite Em, <- app_assoc; reflexivity | exact Hnd].
    + unfold hash_of, cbmap_iter in *. now rewrite map_map.
Qed.

Lemma CBMAP_2_hash_entries (m : bmap) : cbmap_ok m -> CBMAP_2_hash m = CDone (RHash (hash_of m)).
Proof.
  intros Hm. unfold CBMAP_2_hash. change [] with (hash_of []).
  rewrite (m2h_loop_entries m m []) by (auto || reflexivity). reflexivity.
Qed.
