(* ===== verification/OdeumRs.v ===== *)
(** * OdeumRs: [Odeum::ResultSet] of the Ruby binding

    The methods of [ResultSet] (odeum_index.c 115-516) over the object
    heap of [RubyRt].  A result set holds the [ODPAIR] array of a search
    ([rs_data], its bytes), its [length] and a cursor [index]; [next]
    returns the id at the cursor and advances it, [score], [id] and
    [index] look at the element before the cursor, [move] shifts the
    cursor, [marshal_dump] and [marshal_load] save and restore the three
    fields.  [ResultSet_free] only releases memory and is not modelled.

    The theorems show: an invariant [rs_ok] (the cursor within
    [0 .. length], the array as long as [length] pairs) that every method
    but [marshal_load] keeps, with no read outside the array; the
    iteration [next] performs; the round trip of [marshal_dump] and
    [marshal_load]; and where the code differs from its comments: [move]
    by one does not move, [move] by [length] from the start does not reach
    the end, a loaded result set has no [@errors], and a [marshal_load]
    with an array shorter than its [length] makes [to_a] read past it. *)
From Stdlib Require Import String ZArith Lia List Bool.
From S2P Require Import Prelude Cache CbList CbStr CbSort CbMapSer SuffixArray RubyRt OdeumApi.
Import ListNotations.
Open Scope list_scope.
Open Scope Z_scope.
Open Scope cres_scope.
Open Scope rb_scope.

Definition INT_MAX : Z := 2 ^ 31 - 1.
Definition INT_MIN : Z := - 2 ^ 31.
Definition int_ok (n : Z) : bool := (INT_MIN <=? n) && (n <=? INT_MAX).

(** [rs->data[i].id] ([off = 0]) and [rs->data[i].score] ([off = 4]):
    the four bytes of the [int]; [NULL] or an array too short is a read
    of memory the struct does not own. *)
Definition pair_field (d : option (list Z)) (i off : Z) : cres Z :=
  match d with
  | None => COob
  | Some m =>
      let p := 8 * i + off in
      let? b0 := aread m p in
      let? b1 := aread m (p + 1) in
      let? b2 := aread m (p + 2) in
      let? b3 := aread m (p + 3) in
      CDone (int_of_bytes b0 b1 b2 b3)
  end.

(** The loop of [ResultSet_to_a] (lines 429-434) from pair [i], [n] to go. *)
Fixpoint to_a_loop (d : option (list Z)) (i : Z) (n : nat) : cres (list value) :=
  match n with
  | O => CDone []
  | S n' =>
      let? id := pair_field d i 0 in
      let? sc := pair_field d i 4 in
      let? r := to_a_loop d (i + 1) n' in
      CDone (RArray [RInt id; RInt sc] :: r)
  end.

Definition set_index (rs : ResultSetData) (i : Z) : ResultSetData :=
  mkrs (rs_data rs) (rs_length rs) i.

Section ResultSet.
Context {L OD DOC : Type} `{OdeumLib L OD DOC}.
Local Abbreviation W := (rworld (robj OD DOC) L).

(** [DATA_GET(self, ResultSetData, rs)] and the struct it points to. *)
Definition rs_get (self : value) : rb W (nat * ResultSetData) :=
  let* '(a, p) := DATA_GET as_rs self "rs" in
  let* rs := deref p in
  rret (a, rs).

(** A write to the fields of the struct of the object in slot [a]. *)
Definition rs_store (a : nat) (rs : ResultSetData) : rb W unit :=
  let* o := heap_get a in
  match o with RsObj _ e => heap_set a (RsObj rs e) | _ => rub end.

(** [rb_iv_set(rs, "@errors", v)]. *)
Definition rs_set_errors (a : nat) (v : value) : rb W unit :=
  let* o := heap_get a in
  match o with RsObj rs _ => heap_set a (RsObj rs (Some v)) | _ => rub end.

(** [ResultSet_alloc] (lines 156-160): [Data_Make_Struct] zeroes the
    struct. *)
Definition ResultSet_alloc : rb W value :=
  let* a := heap_new (RsObj (mkrs None 0 0) None) in rret (RData a).

(** [ResultSet_create] (lines 115-134). *)
Definition ResultSet_create (pair : list ODPAIR) (length : Z) (errors : option CBLIST) : rb W value :=
  let* rsv := ResultSet_alloc in
  match rsv with
  | RData a =>
      let* _ := rs_store a (mkrs (Some (pairs_mem pair)) length 0) in
      let* ev := match errors with
                 | Some l => rlift (CBLIST_2_array l)
                 | None => rret (RArray [])
                 end in
      let* _ := rs_set_errors a ev in
      rret rsv
  | _ => rub
  end.

(** [ResultSet_next] (lines 175-192). *)
Definition ResultSet_next (self : value) : rb W value :=
  let* '(a, rs) := rs_get self in
  if (rs_index rs <? 0) || (rs_length rs <=? rs_index rs) then rret Qnil
  else
    let* id := rlift (pair_field (rs_data rs) (rs_index rs) 0) in
    let* _ := rs_store a (set_index rs (rs_index rs + 1)) in
    rret (RInt id).

(** [ResultSet_next_doc] (lines 214-238): the index is read first. *)
Definition ResultSet_next_doc (self odeum_index : value) : rb W value :=
  let* '(_, op) := DATA_GET as_index odeum_index "odeum" in
  let* '(a, rs) := rs_get self in
  if (0 <=? rs_index rs) && (rs_index rs <? rs_length rs) then
    let* id := rlift (pair_field (rs_data rs) (rs_index rs) 0) in
    let* od := deref op in
    let* d := lib_call (odgetbyid od id) in
    let* doc := match d with None => rret Qnil | Some d => Document_create d end in
    let* _ := rs_store a (set_index rs (rs_index rs + 1)) in
    rret doc
  else rret Qnil.

(** [ResultSet_move] (lines 253-272): [rs->index += move - 1] is signed
    [int] arithmetic, undefined when it overflows. *)
Definition ResultSet_move (self count : value) : rb W value :=
  let* '(a, rs) := rs_get self in
  let* move := FIX2INT count in
  if move =? 0 then
    let* _ := rs_store a (set_index rs 0) in rret Qnil
  else
    let i := rs_index rs + (move - 1) in
    if negb (int_ok (move - 1) && int_ok i) then rub
    else
      let i := if i <? 0 then 0 else if rs_length rs <? i then rs_length rs else i in
      let* _ := rs_store a (set_index rs i) in
      rret Qnil.

(** [i = rs->index == 0 ? 0 : rs->index - 1] (lines 294, 327, 353). *)
Definition cur_slot (rs : ResultSetData) : rb W Z :=
  if rs_index rs =? 0 then rret 0
  else if int_ok (rs_index rs - 1) then rret (rs_index rs - 1) else rub.

(** [ResultSet_score] (lines 283-304) and [ResultSet_id] (lines 316-337):
    the field of the pair before the cursor. *)
Definition rs_current (off : Z) (self : value) : rb W value :=
  let* '(_, rs) := rs_get self in
  let* i := cur_slot rs in
  if (0 <=? i) && (i <? rs_length rs) then
    let* v := rlift (pair_field (rs_data rs) i off) in rret (RInt v)
  else rret Qnil.

Definition ResultSet_score (self : value) : rb W value := rs_current 4 self.
Definition ResultSet_id (self : value) : rb W value := rs_current 0 self.

(** [ResultSet_index] (lines 348-354). *)
Definition ResultSet_index (self : value) : rb W value :=
  let* '(_, rs) := rs_get self in
  let* i := cur_slot rs in
  rret (RInt i).

(** [ResultSet_length] (lines 364-370). *)
Definition ResultSet_length (self : value) : rb W value :=
  let* '(_, rs) := rs_get self in rret (RInt (rs_length rs)).

(** [ResultSet_at] (lines 387-406). *)
Definition ResultSet_at (self index : value) : rb W value :=
  let* '(_, rs) := rs_get self in
  let* i := FIX2INT index in
  if (i <? 0) || (rs_length rs <=? i) then rret Qnil
  else
    let* id := rlift (pair_field (rs_data rs) i 0) in
    let* sc := rlift (pair_field (rs_data rs) i 4) in
    rret (RArray [RInt id; RInt sc]).

(** [ResultSet_to_a] (lines 419-437). *)
Definition ResultSet_to_a (self : value) : rb W value :=
  let* '(_, rs) := rs_get self in
  let* xs := rlift (to_a_loop (rs_data rs) 0 (Z.to_nat (rs_length rs))) in
  rret (RArray xs).

(** [ResultSet_errors] (lines 445-448): [rb_iv_get] of an instance
    variable never set is [nil]. *)
Definition ResultSet_errors (self : value) : rb W value :=
  match self with
  | RData a =>
      let* o := heap_get a in
      rret (match o with RsObj _ (Some v) => v | _ => Qnil end)
  | _ => rret Qnil
  end.

(** [ResultSet_marshal_dump] (lines 465-486): [pairs_len] is
    [8 * length]; a negative one is a [memcpy] of a huge size. *)
Definition ResultSet_marshal_dump (self : value) : rb W value :=
  let* '(_, rs) := rs_get self in
  let n := rs_length rs * 8 in
  if n <? 0 then rub
  else
    let* bytes := if n =? 0 then rret []
                  else match rs_data rs with
                       | Some m => if zlen m <? n then rub else rret (firstn (Z.to_nat n) m)
                       | None => rub
                       end in
    rret (RArray [RInt (rs_length rs); RInt (rs_index rs); RString bytes]).

(** [ResultSet_marshal_load] (lines 494-516): the [assert] on [data], the
    three type checks, then the fields one by one, so that a [RangeError]
    of the second [FIX2INT] leaves [length] set.  [malloc] is taken to
    succeed, so [RAISE_NOT_NULL(rs->data)] does not raise. *)
Definition ResultSet_marshal_load (self data : value) : rb W value :=
  let* '(a, rs) := rs_get self in
  match rs_data rs with
  | Some _ => rabort
  | None =>
      match data with
      | RArray xs =>
          let len := rb_ary_entry xs 0 in
          let* _ := REQUIRE_TYPE len T_FIXNUM "len" in
          let ind := rb_ary_entry xs 1 in
          let* _ := REQUIRE_TYPE ind T_FIXNUM "ind" in
          let pairs := rb_ary_entry xs 2 in
          let* _ := REQUIRE_TYPE pairs T_STRING "pairs" in
          let* l := FIX2INT len in
          let* _ := rs_store a (mkrs None l (rs_index rs)) in
          let* i := FIX2INT ind in
          let* _ := rs_store a (mkrs None l i) in
          match pairs with
          | RString s => let* _ := rs_store a (mkrs (Some s) l i) in rret Qnil
          | _ => rub
          end
      | _ => rub
      end
  end.
End ResultSet.

(** ** The array of pairs in memory *)

Lemma aread_shift (p s : list Z) (k : Z) : 0 <= k -> aread (p ++ s) (zlen p + k) = aread s k.
Proof.
  intros Hk. unfold aread. rewrite zlen_app. zlen_facts.
  destruct (Z.leb_spec (zlen s) k), (Z.leb_spec (zlen p + zlen s) (zlen p + k)); try lia; [reflexivity|].
  unfold zread. destruct (Z.ltb_spec (zlen p + k) 0), (Z.ltb_spec k 0); try lia.
  rewrite nth_error_app2 by (unfold zlen; lia).
  replace (Z.to_nat (zlen p + k) - length p)%nat with (Z.to_nat k) by (unfold zlen; lia).
  reflexivity.
Qed.

Lemma aread_prefix (s t : list Z) (k : Z) : k < zlen s -> aread (s ++ t) k = aread s k.
Proof.
  intros Hk. unfold aread. rewrite zlen_app. zlen_facts.
  destruct (Z.leb_spec (zlen s) k); [lia|]. destruct (Z.leb_spec (zlen s + zlen t) k); [lia|].
  unfold zread. destruct (Z.ltb_spec k 0); [reflexivity|].
  rewrite nth_error_app1 by (unfold zlen in Hk; lia). reflexivity.
Qed.

Lemma int_bytes_of (v : Z) : -2 ^ 31 <= v < 2 ^ 31 ->
  exists b0 b1 b2 b3, int_bytes v = [b0; b1; b2; b3] /\ int_of_bytes b0 b1 b2 b3 = v.
Proof.
  intros Hv. pose proof (int_bytes_bytes v Hv) as E. unfold int_bytes in *.
  do 4 eexists. split; [reflexivity|]. cbn [raw_ints] in E. injection E as E. exact E.
Qed.

Lemma zlen_pair_bytes (p : ODPAIR) : zlen (pair_bytes p) = 8.
Proof. reflexivity. Qed.

Lemma zlen_pairs_mem (ps : list ODPAIR) : zlen (pairs_mem ps) = 8 * zlen ps.
Proof.
  induction ps as [|p ps IH]; [reflexivity|]. cbn [pairs_mem flat_map].
  fold (pairs_mem ps). rewrite zlen_app, IH, zlen_pair_bytes, zlen_cons. lia.
Qed.

(** A pair whose fields are C [int]s. *)
Definition pair_int (p : ODPAIR) : Prop :=
  -2 ^ 31 <= pair_id p < 2 ^ 31 /\ -2 ^ 31 <= pair_score p < 2 ^ 31.

(** Reading the pair [i] of an array whose first [i] pairs are [pre]. *)
Lemma pair_field_shift (pre s : list Z) (i off : Z) :
  zlen pre = 8 * i -> 0 <= off ->
  pair_field (Some (pre ++ s)) i off = pair_field (Some s) 0 off.
Proof.
  intros Hpre Hoff. unfold pair_field.
  replace (8 * i + off) with (zlen pre + off) by lia. replace (8 * 0 + off) with off by lia.
  rewrite <- !Z.add_assoc. rewrite !(aread_shift pre) by lia. reflexivity.
Qed.

Lemma pair_field_head (p : ODPAIR) (post : list Z) :
  pair_int p ->
  pair_field (Some (pair_bytes p ++ post)) 0 0 = CDone (pair_id p) /\
  pair_field (Some (pair_bytes p ++ post)) 0 4 = CDone (pair_score p).
Proof.
  intros [Hi Hs]. unfold pair_bytes.
  destruct (int_bytes_of _ Hi) as (a0 & a1 & a2 & a3 & Ea & Va).
  destruct (int_bytes_of _ Hs) as (c0 & c1 & c2 & c3 & Ec & Vc).
  rewrite Ea, Ec. unfold pair_field. cbn [app].
  rewrite !aread_in by (autorewrite with vl_rw; zlen_facts; lia). simpl.
  now rewrite Va, Vc.
Qed.

Lemma pairs_mem_app (ps qs : list ODPAIR) : pairs_mem (ps ++ qs) = pairs_mem ps ++ pairs_mem qs.
Proof. apply flat_map_app. Qed.

(** The pair [i] of the array [odsearch] returned, with what follows it. *)
Lemma pairs_mem_field (ps : list ODPAIR) (t : list Z) (i : Z) (d : ODPAIR) :
  Forall pair_int ps -> 0 <= i < zlen ps ->
  pair_field (Some (pairs_mem ps ++ t)) i 0 = CDone (pair_id (nth (Z.to_nat i) ps d)) /\
  pair_field (Some (pairs_mem ps ++ t)) i 4 = CDone (pair_score (nth (Z.to_nat i) ps d)).
Proof.
  intros Hps Hi. unfold zlen in Hi.
  assert (E : pairs_mem ps = pairs_mem (firstn (Z.to_nat i) ps) ++
                pair_bytes (nth (Z.to_nat i) ps d) ++ pairs_mem (skipn (S (Z.to_nat i)) ps)).
  { rewrite <- (firstn_skipn (Z.to_nat i) ps) at 1.
    rewrite (skipn_nth_cons ps (Z.to_nat i) d) by lia. now rewrite pairs_mem_app. }
  rewrite E, <- !app_assoc.
  rewrite !(pair_field_shift (pairs_mem (firstn (Z.to_nat i) ps))) by
    (rewrite ?zlen_pairs_mem; unfold zlen; rewrite ?length_firstn; lia).
  apply pair_field_head. apply (proj1 (Forall_nth _ ps) Hps); lia.
Qed.

(** A pair that lies inside the array reads without leaving it. *)
Lemma pair_field_in (m : list Z) (i off : Z) :
  0 <= i -> 0 <= off <= 4 -> 8 * i + 8 <= zlen m -> exists v, pair_field (Some m) i off = CDone v.
Proof.
  intros Hi Ho Hm. unfold pair_field. rewrite !aread_in by lia. eexists. reflexivity.
Qed.

Lemma to_a_loop_in (m : list Z) (n : nat) (i : Z) :
  0 <= i -> 8 * (i + Z.of_nat n) <= zlen m -> exists xs, to_a_loop (Some m) i n = CDone xs.
Proof.
  revert i. induction n as [|n IH]; intros i Hi Hm; [eexists; reflexivity|].
  cbn [to_a_loop].
  destruct (pair_field_in m i 0) as [v1 ->]; try lia.
  destruct (pair_field_in m i 4) as [v2 ->]; try lia.
  destruct (IH (i + 1)) as [xs ->]; try lia. eexists. reflexivity.
Qed.

(** ** The invariant of a result set *)

(** The cursor lies in [0 .. length], [length] is an [int], and the array
    holds [length] pairs. *)
Definition rs_ok (rs : ResultSetData) : Prop :=
  match rs_data rs with
  | Some m => 0 <= rs_index rs <= rs_length rs /\ rs_length rs <= INT_MAX /\ 8 * rs_length rs <= zlen m
  | None => False
  end.

(** The methods that take no other object. *)
Inductive rs_op :=
| OpNext | OpMove (count : value) | OpScore | OpId | OpIndex | OpLength
| OpAt (index : value) | OpToA | OpErrors | OpDump.

(** A [move] whose count keeps [index + count - 1] an [int] for every
    cursor of a result set of [len] pairs. *)
Definition move_bounded (len : Z) (op : rs_op) : Prop :=
  match op with
  | OpMove (RInt k) | OpMove (RFloat k) => INT_MIN < k <= INT_MAX - len + 1
  | _ => True
  end.

Section RsFacts.
Context {L OD DOC : Type} `{OdeumLib L OD DOC}.
Local Abbreviation W := (rworld (robj OD DOC) L).
Implicit Types (w : W) (a : nat) (rs : ResultSetData).

Definition rs_call (op : rs_op) (self : value) : rb W value :=
  match op with
  | OpNext => ResultSet_next self
  | OpMove c => ResultSet_move self c
  | OpScore => ResultSet_score self
  | OpId => ResultSet_id self
  | OpIndex => ResultSet_index self
  | OpLength => ResultSet_length self
  | OpAt i => ResultSet_at self i
  | OpToA => ResultSet_to_a self
  | OpErrors => ResultSet_errors self
  | OpDump => ResultSet_marshal_dump self
  end.

(** The methods one after the other on the same object, up to the first
    exception. *)
Fixpoint rs_run (ops : list rs_op) (self : value) : rb W (list value) :=
  match ops with
  | [] => rret []
  | op :: ops' =>
      let* r := rs_call op self in
      let* rest := rs_run ops' self in
      rret (r :: rest)
  end.

(** The world where slot [a] holds [o] in place of what it held. *)
Definition upd w a (o : robj OD DOC) : W := mkworld (list_set (r_heap w) a o) (r_lib w).

Lemma upd_same w a o : nth_error (r_heap w) a = Some o -> upd w a o = w.
Proof.
  intros E. destruct w as [h l]. unfold upd. cbn in *. f_equal.
  apply nth_error_ext. intros j. rewrite nth_error_list_set by (apply nth_error_Some; congruence).
  destruct (Nat.eqb_spec j a); congruence.
Qed.

Lemma upd_at w a o o' : nth_error (r_heap w) a = Some o -> nth_error (r_heap (upd w a o')) a = Some o'.
Proof.
  intros E. unfold upd. cbn. rewrite nth_error_list_set by (apply nth_error_Some; congruence).
  now rewrite Nat.eqb_refl.
Qed.

Lemma upd_twice w a o o1 o2 : nth_error (r_heap w) a = Some o -> upd (upd w a o1) a o2 = upd w a o2.
Proof.
  intros E. unfold upd. cbn. rewrite list_set_twice; [reflexivity|].
  apply nth_error_Some. congruence.
Qed.

Lemma rs_get_at w a rs e :
  nth_error (r_heap w) a = Some (RsObj rs e) -> rs_get (RData a) w = CDone (w, ROk (a, rs)).
Proof. intros E. unfold rs_get, DATA_GET, Data_Get_Struct, heap_get, rbind. rewrite E. reflexivity. Qed.

Lemma rs_store_at w a rs rs' e :
  nth_error (r_heap w) a = Some (RsObj rs e) -> rs_store a rs' w = CDone (upd w a (RsObj rs' e), ROk tt).
Proof. intros E. unfold rs_store, heap_get, rbind. rewrite E. reflexivity. Qed.
End RsFacts.

Section RsSafe.
Context {L OD DOC : Type} `{OdeumLib L OD DOC}.
Local Abbreviation W := (rworld (robj OD DOC) L).

Ltac rs_unfold :=
  unfold rs_call, ResultSet_next, ResultSet_move, ResultSet_score, ResultSet_id, rs_current,
    ResultSet_index, ResultSet_length, ResultSet_at, ResultSet_to_a, ResultSet_errors,
    ResultSet_marshal_dump, rs_get, rs_store, DATA_GET, Data_Get_Struct, RAISE_NOT_NULL,
    deref, heap_get, heap_set, rlift, rbind, rret, as_rs.

Lemma cur_slot_ok (w : W) (rs : ResultSetData) :
  0 <= rs_index rs <= INT_MAX ->
  cur_slot rs w = CDone (w, ROk (if rs_index rs =? 0 then 0 else rs_index rs - 1)).
Proof.
  intros Hi. unfold cur_slot. destruct (Z.eqb_spec (rs_index rs) 0); [reflexivity|].
  replace (int_ok (rs_index rs - 1)) with true; [reflexivity|].
  symmetry. unfold int_ok, INT_MIN, INT_MAX in *. apply andb_true_iff; split; apply Z.leb_le; lia.
Qed.

(** The result of a method that writes the struct back, with what is
    left to show of the invariant. *)
Ltac rs_done :=
  do 2 eexists; split; [reflexivity|];
  unfold rs_ok, set_index; cbn [rs_data rs_index rs_length];
  match goal with Ed : rs_data _ = Some _ |- _ => rewrite Ed end;
  (split; [|split; reflexivity]).

(** One method on a result set that satisfies [rs_ok]. *)
Section RsStep.
Variables (w : W) (a : nat) (rs : ResultSetData) (e : option value) (m : list Z).
Hypotheses (E : nth_error (r_heap w) a = Some (RsObj rs e)) (Ed : rs_data rs = Some m)
  (Hi : 0 <= rs_index rs <= rs_length rs) (Hl : rs_length rs <= INT_MAX) (Hm : 8 * rs_length rs <= zlen m).

(** The method ends in the world where the struct of [a] keeps the
    invariant, its array and its length. *)
Definition rs_post (res : cres (W * rout value)) : Prop :=
  exists rs' r, res = CDone (upd w a (RsObj rs' e), r) /\
    rs_ok rs' /\ rs_length rs' = rs_length rs /\ rs_data rs' = rs_data rs.

Lemma rs_keep (r : rout value) : rs_post (CDone (w, r)).
Proof. exists rs, r. rewrite upd_same by exact E. unfold rs_ok. rewrite Ed. auto. Qed.

Lemma rs_read (i off : Z) : 0 <= i < rs_length rs -> 0 <= off <= 4 ->
  exists v, pair_field (Some m) i off = CDone v.
Proof. intros. apply pair_field_in; lia. Qed.

Lemma rs_next_ok : rs_post (ResultSet_next (RData a) w).
Proof.
  rs_unfold. rewrite E. cbn beta iota.
  destruct (Z.ltb_spec (rs_index rs) 0); [lia|].
  destruct (Z.leb_spec (rs_length rs) (rs_index rs)); cbn [orb]; [apply rs_keep|].
  rewrite Ed. destruct (rs_read (rs_index rs) 0) as [v ->]; try lia. rewrite E.
  rs_done. lia.
Qed.

Lemma rs_move_ok (c : value) : move_bounded (rs_length rs) (OpMove c) ->
  rs_post (ResultSet_move (RData a) c w).
Proof.
  intros Hmv. rs_unfold. rewrite E. cbn beta iota.
  destruct (FIX2INT_cases c w) as [[ex ->]|(k & -> & Hk & Hc)]; cbn beta iota; [apply rs_keep|].
  assert (Hb : INT_MIN < k <= INT_MAX - rs_length rs + 1) by (destruct Hc as [-> | ->]; exact Hmv).
  destruct (Z.eqb_spec k 0).
  - rewrite E. rs_done. lia.
  - assert (G : int_ok (k - 1) && int_ok (rs_index rs + (k - 1)) = true).
    { unfold int_ok, INT_MIN, INT_MAX in *.
      apply andb_true_iff; split; apply andb_true_iff; split; apply Z.leb_le; lia. }
    rewrite G. cbn [negb]. rewrite E. rs_done. repeat vl_case_test; lia.
Qed.

Lemma rs_current_ok (off : Z) : 0 <= off <= 4 -> rs_post (rs_current off (RData a) w).
Proof.
  intros Ho. rs_unfold. rewrite E. cbn beta iota. rewrite cur_slot_ok by lia. cbn beta iota.
  destruct ((0 <=? _) && (_ <? _)) eqn:T; [|apply rs_keep].
  apply andb_true_iff in T as [T1 T2]. apply Z.leb_le in T1. apply Z.ltb_lt in T2.
  rewrite Ed. destruct (rs_read _ off (conj T1 T2)) as [v ->]; [lia|]. apply rs_keep.
Qed.

Lemma rs_at_ok (index : value) : rs_post (ResultSet_at (RData a) index w).
Proof.
  rs_unfold. rewrite E. cbn beta iota.
  destruct (FIX2INT_cases index w) as [[ex ->]|(k & -> & Hk & Hc)]; cbn beta iota; [apply rs_keep|].
  destruct (Z.ltb_spec k 0); cbn [orb]; [apply rs_keep|].
  destruct (Z.leb_spec (rs_length rs) k); [apply rs_keep|]. rewrite Ed.
  destruct (rs_read k 0) as [v1 ->]; try lia. destruct (rs_read k 4) as [v2 ->]; try lia. apply rs_keep.
Qed.

Lemma rs_to_a_ok : rs_post (ResultSet_to_a (RData a) w).
Proof.
  rs_unfold. rewrite E. cbn beta iota. rewrite Ed.
  destruct (to_a_loop_in m (Z.to_nat (rs_length rs)) 0) as [xs ->]; try lia. apply rs_keep.
Qed.

Lemma rs_dump_ok : rs_post (ResultSet_marshal_dump (RData a) w).
Proof.
  rs_unfold. rewrite E. cbn beta iota.
  destruct (Z.ltb_spec (rs_length rs * 8) 0); [lia|].
  destruct (Z.eqb_spec (rs_length rs * 8) 0); [apply rs_keep|]. rewrite Ed.
  destruct (Z.ltb_spec (zlen m) (rs_length rs * 8)); [lia|]. apply rs_keep.
Qed.
End RsStep.

Lemma rs_call_ok (op : rs_op) (w : W) (a : nat) (rs : ResultSetData) (e : option value) :
  nth_error (r_heap w) a = Some (RsObj rs e) -> rs_ok rs -> move_bounded (rs_length rs) op ->
  rs_post w a rs e (rs_call op (RData a) w).
Proof.
  intros E Hok Hmv. pose proof Hok as Hok'. unfold rs_ok in Hok'.
  destruct (rs_data rs) as [m|] eqn:Ed; [|contradiction]. destruct Hok' as (Hi & Hl & Hm).
  pose proof (rs_keep w a rs e m E Ed Hi Hl Hm) as K.
  destruct op; cbn [rs_call].
  - exact (rs_next_ok w a rs e m E Ed Hi Hl Hm).
  - exact (rs_move_ok w a rs e m E Ed Hi Hl Hm count Hmv).
  - exact (rs_current_ok w a rs e m E Ed Hi Hl Hm 4 ltac:(lia)).
  - exact (rs_current_ok w a rs e m E Ed Hi Hl Hm 0 ltac:(lia)).
  - unfold ResultSet_index. rewrite (rbind_ok _ _ _ _ _ (rs_get_at _ _ _ _ E)). cbn beta iota.
    rewrite (rbind_ok _ _ _ _ _ (cur_slot_ok w rs ltac:(lia))). apply K.
  - unfold ResultSet_length. rewrite (rbind_ok _ _ _ _ _ (rs_get_at _ _ _ _ E)). apply K.
  - exact (rs_at_ok w a rs e m E Ed Hi Hl Hm index).
  - exact (rs_to_a_ok w a rs e m E Ed Hi Hl Hm).
  - unfold ResultSet_errors, heap_get, rbind. rewrite E. apply K.
  - exact (rs_dump_ok w a rs e m E Ed Hi Hl Hm).
Qed.
End RsSafe.

Section RsRun.
Context {L OD DOC : Type} `{OdeumLib L OD DOC}.
Local Abbreviation W := (rworld (robj OD DOC) L).

Lemma nth_error_snoc {A} (l : list A) (x : A) : nth_error (l ++ [x]) (length l) = Some x.
Proof. rewrite nth_error_app2, Nat.sub_diag by lia. reflexivity. Qed.

(** [ResultSet_create] makes a new object at the end of the heap that
    holds the array, its length, the cursor at [0] and the errors. *)
Lemma ResultSet_create_at (ps : list ODPAIR) (n : Z) (errors : option CBLIST) (w : W) :
  (forall l, errors = Some l -> cl_ok l) ->
  exists ev, ResultSet_create ps n errors w =
    CDone (mkworld (r_heap w ++ [RsObj (mkrs (Some (pairs_mem ps)) n 0) (Some ev)]) (r_lib w),
           ROk (RData (length (r_heap w)))) /\
    ev = match errors with Some l => RArray (map RString (cl_view l)) | None => RArray [] end.
Proof.
  intros Herr. exists (match errors with Some l => RArray (map RString (cl_view l)) | None => RArray [] end).
  split; [|reflexivity].
  unfold ResultSet_create, ResultSet_alloc, heap_new, rbind, rret. cbn beta iota.
  rewrite (rs_store_at _ _ (mkrs None 0 0) _ None) by apply nth_error_snoc. cbn beta iota.
  unfold upd. cbn [r_heap r_lib]. rewrite list_set_app_len.
  destruct errors as [l|]; [rewrite CBLIST_2_array_view by (apply Herr; reflexivity)|];
    cbn [rlift]; unfold rs_set_errors, heap_get, heap_set, rbind; cbn [r_heap r_lib];
    rewrite nth_error_snoc; cbn [r_heap r_lib]; rewrite list_set_app_len; reflexivity.
Qed.

Lemma rs_ok_create (ps : list ODPAIR) : zlen ps <= INT_MAX -> rs_ok (mkrs (Some (pairs_mem ps)) (zlen ps) 0).
Proof. intros Hn. unfold rs_ok. cbn [rs_data rs_index rs_length]. rewrite zlen_pairs_mem. zlen_facts. lia. Qed.

(** Any sequence of the methods keeps the invariant and ends in a value
    or an exception. *)
Lemma rs_run_ok (ops : list rs_op) : forall (w : W) a rs e,
  nth_error (r_heap w) a = Some (RsObj rs e) -> rs_ok rs -> Forall (move_bounded (rs_length rs)) ops ->
  exists w' r rs', rs_run ops (RData a) w = CDone (w', r) /\
    nth_error (r_heap w') a = Some (RsObj rs' e) /\ rs_ok rs'.
Proof.
  induction ops as [|op ops IH]; intros w a rs e E Hok Hmv.
  - do 3 eexists. split; [reflexivity | eauto].
  - inversion Hmv as [|? ? Hop Hops]; subst.
    pose proof (rs_call_ok op w a rs e E Hok Hop) as P. unfold rs_post in P.
    destruct P as (rs' & r & Ecall & Hok' & Hlen & _).
    cbn [rs_run]. pose proof (upd_at w a _ (RsObj rs' e) E) as E'.
    destruct r as [v|ex].
    + rewrite (rbind_ok _ _ _ _ _ Ecall).
      rewrite <- Hlen in Hops. destruct (IH _ a rs' e E' Hok' Hops) as (w2 & r2 & rs2 & Er & E2 & Hok2).
      destruct r2 as [vs|ex2]; [rewrite (rbind_ok _ _ _ _ _ Er) | rewrite (rbind_exc _ _ _ _ _ Er)];
        do 3 eexists; split; [reflexivity | eauto | reflexivity | eauto].
    + rewrite (rbind_exc _ _ _ _ _ Ecall). do 3 eexists. split; [reflexivity | eauto].
Qed.

(** The struct of a result set over the array [ps] with the cursor at [i]. *)
Definition rs_over (ps : list ODPAIR) (i : Z) : ResultSetData := mkrs (Some (pairs_mem ps)) (zlen ps) i.

Lemma next_at (w : W) a ps i e (d : ODPAIR) :
  Forall pair_int ps -> nth_error (r_heap w) a = Some (RsObj (rs_over ps i) e) -> 0 <= i ->
  ResultSet_next (RData a) w =
    if i <? zlen ps
    then CDone (upd w a (RsObj (rs_over ps (i + 1)) e), ROk (RInt (pair_id (nth (Z.to_nat i) ps d))))
    else CDone (w, ROk Qnil).
Proof.
  intros Hps E Hi. unfold ResultSet_next. rewrite (rbind_ok _ _ _ _ _ (rs_get_at _ _ _ _ E)).
  cbn beta iota. cbn [rs_index rs_length rs_over rs_data].
  destruct (Z.ltb_spec i 0); [lia|]. cbn [orb].
  destruct (Z.leb_spec (zlen ps) i), (Z.ltb_spec i (zlen ps)); try lia; [reflexivity|].
  assert (R := proj1 (pairs_mem_field ps [] i d Hps ltac:(lia))). rewrite app_nil_r in R.
  rewrite R. cbn [rlift rbind]. rewrite (rbind_ok _ _ _ _ _ (rs_store_at _ _ _ _ _ E)). reflexivity.
Qed.

Lemma next_past (k : nat) : forall (w : W) a ps e,
  Forall pair_int ps -> nth_error (r_heap w) a = Some (RsObj (rs_over ps (zlen ps)) e) ->
  rs_run (repeat OpNext k) (RData a) w = CDone (w, ROk (repeat Qnil k)).
Proof.
  induction k as [|k IH]; intros w a ps e Hps E; [reflexivity|]. cbn [repeat rs_run rs_call].
  pose proof (next_at w a ps (zlen ps) e (mkpair 0 0) Hps E) as N.
  rewrite Z.ltb_irrefl in N. rewrite (rbind_ok _ _ _ _ _ (N ltac:(zlen_facts; lia))).
  rewrite (rbind_ok _ _ _ _ _ (IH w a ps e Hps E)). reflexivity.
Qed.

Lemma next_run (n : nat) : forall (w : W) a ps e i k,
  Forall pair_int ps -> nth_error (r_heap w) a = Some (RsObj (rs_over ps i) e) ->
  0 <= i -> Z.of_nat n = zlen ps - i ->
  exists w', rs_run (repeat OpNext (n + k)) (RData a) w =
    CDone (w', ROk (map (fun p => RInt (pair_id p)) (skipn (Z.to_nat i) ps) ++ repeat Qnil k)).
Proof.
  induction n as [|n IH]; intros w a ps e i k Hps E Hi Hn.
  - replace i with (zlen ps) in * by lia. rewrite skipn_all2 by (unfold zlen; lia).
    exists w. exact (next_past k w a ps e Hps E).
  - cbn [Nat.add repeat rs_run rs_call].
    pose proof (next_at w a ps i e (mkpair 0 0) Hps E Hi) as N.
    destruct (Z.ltb_spec i (zlen ps)); [|lia]. rewrite (rbind_ok _ _ _ _ _ N).
    destruct (IH _ a ps e (i + 1) k Hps (upd_at _ _ _ _ E)) as [w' Ew']; try lia.
    exists w'. rewrite (rbind_ok _ _ _ _ _ Ew').
    rewrite (skipn_nth_cons ps (Z.to_nat i) (mkpair 0 0)) by (unfold zlen in *; lia).
    replace (S (Z.to_nat i)) with (Z.to_nat (i + 1)) by lia. reflexivity.
Qed.
End RsRun.

Lemma aread_firstn (m : list Z) (n k : Z) :
  0 <= k < n -> n <= zlen m -> aread (firstn (Z.to_nat n) m) k = aread m k.
Proof.
  intros Hk Hn. rewrite !aread_in; [| unfold zlen in *; lia | unfold zlen in *; rewrite length_firstn; lia].
  rewrite nth_firstn. destruct (Nat.ltb_spec (Z.to_nat k) (Z.to_nat n)); [reflexivity | lia].
Qed.

Lemma pair_field_firstn (m : list Z) (n i off : Z) :
  0 <= i -> 0 <= off -> 8 * i + off + 4 <= n -> n <= zlen m ->
  pair_field (Some (firstn (Z.to_nat n) m)) i off = pair_field (Some m) i off.
Proof. intros. unfold pair_field. rewrite !aread_firstn by lia. reflexivity. Qed.

Section RsMarshal.
Context {L OD DOC : Type} `{OdeumLib L OD DOC}.
Local Abbreviation W := (rworld (robj OD DOC) L).

(** [Marshal.load(Marshal.dump(rs))]: [Marshal.dump] calls
    [marshal_dump]; [Marshal.load] allocates a new object of the class
    and calls its [marshal_load] with the data. *)
Definition marshal_copy (self : value) : rb W value :=
  let* d := ResultSet_marshal_dump self in
  let* v := ResultSet_alloc in
  let* _ := ResultSet_marshal_load v d in
  rret v.

Lemma dump_at (w : W) a rs e m :
  nth_error (r_heap w) a = Some (RsObj rs e) -> rs_ok rs -> rs_data rs = Some m ->
  ResultSet_marshal_dump (RData a) w =
    CDone (w, ROk (RArray [RInt (rs_length rs); RInt (rs_index rs);
                           RString (firstn (Z.to_nat (rs_length rs * 8)) m)])).
Proof.
  intros E Hok Ed. unfold rs_ok in Hok. rewrite Ed in Hok.
  unfold ResultSet_marshal_dump. rewrite (rbind_ok _ _ _ _ _ (rs_get_at _ _ _ _ E)). cbn beta iota.
  destruct (Z.ltb_spec (rs_length rs * 8) 0); [lia|].
  destruct (Z.eqb_spec (rs_length rs * 8) 0) as [Z0|].
  - rewrite Z0. reflexivity.
  - rewrite Ed. destruct (Z.ltb_spec (zlen m) (rs_length rs * 8)); [lia | reflexivity].
Qed.

Lemma load_at (w : W) b len idx s :
  nth_error (r_heap w) b = Some (RsObj (mkrs None 0 0) None) ->
  0 <= len <= INT_MAX -> INT_MIN <= idx <= INT_MAX ->
  ResultSet_marshal_load (RData b) (RArray [RInt len; RInt idx; RString s]) w =
    CDone (upd w b (RsObj (mkrs (Some s) len idx) None), ROk Qnil).
Proof.
  intros E Hl Hi. unfold INT_MAX, INT_MIN in *.
  unfold ResultSet_marshal_load. rewrite (rbind_ok _ _ _ _ _ (rs_get_at _ _ _ _ E)). cbn beta iota.
  change (rb_ary_entry [RInt len; RInt idx; RString s] 0) with (RInt len).
  change (rb_ary_entry [RInt len; RInt idx; RString s] 1) with (RInt idx).
  change (rb_ary_entry [RInt len; RInt idx; RString s] 2) with (RString s).
  assert (F : forall n, -2 ^ 31 <= n <= 2 ^ 31 - 1 -> fixable n = true).
  { intros n Hn. unfold fixable. apply andb_true_iff. split; [apply Z.leb_le | apply Z.ltb_lt]; lia. }
  unfold REQUIRE_TYPE, TYPE. rewrite !F by lia. cbn [rtype_eqb rret rbind].
  unfold FIX2INT, check_int.
  repeat match goal with
         | |- context [Z.ltb ?x (- 2 ^ 31)] => destruct (Z.ltb_spec x (- 2 ^ 31)); [lia|]
         | |- context [Z.ltb (2 ^ 31 - 1) ?x] => destruct (Z.ltb_spec (2 ^ 31 - 1) x); [lia|]
         end; cbn [orb].
  cbn [rs_data rs_index rret rbind].
  rewrite (rbind_ok _ _ _ _ _ (rs_store_at _ _ _ _ _ E)). cbn [rret rbind].
  rewrite (rbind_ok _ _ _ _ _ (rs_store_at _ _ _ _ _ (upd_at _ _ _ _ E))), (upd_twice _ _ _ _ _ E).
  rewrite (rbind_ok _ _ _ _ _ (rs_store_at _ _ _ _ _ (upd_at _ _ _ _ E))), (upd_twice _ _ _ _ _ E).
  reflexivity.
Qed.

(** C17: [Marshal.load(Marshal.dump(rs))] of a result set gives a new
    result set with the same length and cursor whose array holds the same
    pairs; the [@errors] of the original are not carried over, so
    [errors] of the copy is [nil], not the empty Array the comment of
    [ResultSet_errors] promises. *)
Theorem resultset_marshal_roundtrip (w : W) a rs e :
  nth_error (r_heap w) a = Some (RsObj rs e) -> rs_ok rs ->
  exists w' rs2, marshal_copy (RData a) w = CDone (w', ROk (RData (length (r_heap w)))) /\
    nth_error (r_heap w') (length (r_heap w)) = Some (RsObj rs2 None) /\
    rs_ok rs2 /\ rs_length rs2 = rs_length rs /\ rs_index rs2 = rs_index rs /\
    (forall i off, 0 <= i < rs_length rs -> (off = 0 \/ off = 4) ->
       pair_field (rs_data rs2) i off = pair_field (rs_data rs) i off) /\
    ResultSet_errors (RData (length (r_heap w))) w' = CDone (w', ROk Qnil).
Proof.
  intros E Hok. pose proof Hok as Hok'. unfold rs_ok in Hok'.
  destruct (rs_data rs) as [m|] eqn:Ed; [|contradiction]. destruct Hok' as (Hi & Hl & Hm).
  set (w1 := mkworld (r_heap w ++ [RsObj (mkrs None 0 0) None]) (r_lib w)).
  set (rs2 := mkrs (Some (firstn (Z.to_nat (rs_length rs * 8)) m)) (rs_length rs) (rs_index rs)).
  assert (Eb : nth_error (r_heap w1) (length (r_heap w)) = Some (RsObj (mkrs None 0 0) None))
    by apply nth_error_snoc.
  assert (Hf : zlen (firstn (Z.to_nat (rs_length rs * 8)) m) = rs_length rs * 8)
    by (unfold zlen in *; rewrite length_firstn; lia).
  exists (upd w1 (length (r_heap w)) (RsObj rs2 None)), rs2.
  unfold marshal_copy. rewrite (rbind_ok _ _ _ _ _ (dump_at w a rs e m E Hok Ed)).
  unfold ResultSet_alloc, heap_new. cbn [rbind rret]. fold w1.
  assert (Hb : INT_MIN <= rs_index rs <= INT_MAX) by (unfold INT_MIN in *; lia).
  rewrite (rbind_ok _ _ _ _ _ (load_at w1 _ (rs_length rs) (rs_index rs) _ Eb ltac:(lia) Hb)).
  split; [reflexivity|]. split; [apply upd_at with (1 := Eb)|].
  split; [unfold rs_ok; cbn [rs_data rs_index rs_length rs2]; lia|].
  split; [reflexivity|]. split; [reflexivity|]. split.
  - intros i off Hio Hoff. cbn [rs_data rs2]. apply pair_field_firstn; lia.
  - unfold ResultSet_errors, heap_get, rbind. rewrite (upd_at _ _ _ _ Eb). reflexivity.
Qed.
End RsMarshal.

Section RsMove.
Context {L OD DOC : Type} `{OdeumLib L OD DOC}.
Local Abbreviation W := (rworld (robj OD DOC) L).

(** [move(k)] for a count that keeps the sum an [int]: the cursor
    becomes [index + k - 1], kept within [0 .. length]. *)
Lemma move_at (w : W) a rs e k :
  nth_error (r_heap w) a = Some (RsObj rs e) -> k <> 0 -> 0 <= rs_length rs ->
  INT_MIN < k <= INT_MAX -> INT_MIN <= rs_index rs + (k - 1) <= INT_MAX ->
  ResultSet_move (RData a) (RInt k) w =
    CDone (upd w a (RsObj (set_index rs (Z.max 0 (Z.min (rs_length rs) (rs_index rs + (k - 1))))) e),
           ROk Qnil).
Proof.
  intros E Hk Hl Hr Hs. unfold ResultSet_move. rewrite (rbind_ok _ _ _ _ _ (rs_get_at _ _ _ _ E)).
  cbn beta iota. unfold FIX2INT, check_int, INT_MIN, INT_MAX in *.
  destruct (Z.ltb_spec k (- 2 ^ 31)); [lia|]. destruct (Z.ltb_spec (2 ^ 31 - 1) k); [lia|].
  cbn [orb rret rbind]. destruct (Z.eqb_spec k 0); [lia|].
  replace (int_ok (k - 1) && int_ok (rs_index rs + (k - 1))) with true
    by (symmetry; unfold int_ok, INT_MIN, INT_MAX; repeat (apply andb_true_iff; split); apply Z.leb_le; lia).
  cbn [negb]. rewrite (rbind_ok _ _ _ _ _ (rs_store_at _ _ _ _ _ E)). unfold rret. do 5 f_equal.
  repeat vl_case_test; lia.
Qed.
End RsMove.

Section RsTheorems.
Context {L OD DOC : Type} `{OdeumLib L OD DOC}.
Local Abbreviation W := (rworld (robj OD DOC) L).

(** C16: A result set made by [ResultSet_create] from an array of pairs
    and its length, as [Index_search] and [Index_query] make it, can be
    driven by any sequence of [next], [move], [score], [id], [index],
    [length], [[]], [to_a], [errors] and [marshal_dump]: each call ends in
    a value or a Ruby exception, never in a read outside the array, a
    [NULL] dereference or an abort, as long as every [move] count keeps
    [index + count - 1] an [int]. *)
Theorem resultset_methods_safe (ps : list ODPAIR) (errors : option CBLIST) (ops : list rs_op) (w : W) :
  zlen ps <= INT_MAX -> (forall l, errors = Some l -> cl_ok l) ->
  Forall (move_bounded (zlen ps)) ops ->
  exists w1 v w2 r, ResultSet_create ps (zlen ps) errors w = CDone (w1, ROk v) /\
    rs_run ops v w1 = CDone (w2, r).
Proof.
  intros Hn Herr Hops. destruct (ResultSet_create_at ps (zlen ps) errors w Herr) as (ev & Ec & _).
  destruct (rs_run_ok ops (mkworld (r_heap w ++ [RsObj (rs_over ps 0) (Some ev)]) (r_lib w))
              (length (r_heap w)) _ (Some ev) (nth_error_snoc _ _) (rs_ok_create ps Hn) Hops)
    as (w2 & r & _ & Er & _ & _).
  do 4 eexists. split; [exact Ec | exact Er].
Qed.

(** C23: Calling [next] on a new result set returns the ids of the pairs
    in order, then [nil] on every further call. *)
Theorem resultset_next_iterates (ps : list ODPAIR) (k : nat) (w : W) :
  Forall pair_int ps -> zlen ps <= INT_MAX ->
  exists w1 v w2, ResultSet_create ps (zlen ps) None w = CDone (w1, ROk v) /\
    rs_run (repeat OpNext (length ps + k)) v w1 =
      CDone (w2, ROk (map (fun p => RInt (pair_id p)) ps ++ repeat Qnil k)).
Proof.
  intros Hps Hn. destruct (ResultSet_create_at ps (zlen ps) None w) as (ev & Ec & _); [discriminate|].
  destruct (next_run (length ps) (mkworld (r_heap w ++ [RsObj (rs_over ps 0) (Some ev)]) (r_lib w))
              (length (r_heap w)) ps (Some ev) 0 k Hps (nth_error_snoc _ _))
    as [w2 E2]; [lia | unfold zlen; lia |].
  rewrite skipn_O in E2. do 3 eexists. split; [exact Ec | exact E2].
Qed.

(** C34: [move] shifts the cursor by one less than its count, against its
    comment ("forward by count", "[rs.move(rs.length)] moves to the
    end"): on a new result set, [move(1)] followed by [next] returns the
    first id, as if nothing had moved, and [move(length)] followed by
    [next] returns the last id instead of [nil]. *)
Theorem resultset_move_off_by_one (ps : list ODPAIR) (w : W) (d : ODPAIR) :
  Forall pair_int ps -> ps <> [] -> zlen ps <= INT_MAX ->
  exists w1 v, ResultSet_create ps (zlen ps) None w = CDone (w1, ROk v) /\
    (exists w2, rs_run [OpMove (RInt 1); OpNext] v w1 = CDone (w2, ROk [Qnil; RInt (pair_id (nth 0 ps d))])) /\
    (exists w2, rs_run [OpMove (RInt (zlen ps)); OpNext] v w1 =
                CDone (w2, ROk [Qnil; RInt (pair_id (nth (length ps - 1) ps d))])).
Proof.
  intros Hps Hne Hn. destruct (ResultSet_create_at ps (zlen ps) None w) as (ev & Ec & _); [discriminate|].
  assert (Hl : 1 <= zlen ps) by (destruct ps; [congruence | rewrite zlen_cons; zlen_facts; lia]).
  set (w1 := mkworld (r_heap w ++ [RsObj (rs_over ps 0) (Some ev)]) (r_lib w)).
  assert (E : nth_error (r_heap w1) (length (r_heap w)) = Some (RsObj (rs_over ps 0) (Some ev)))
    by apply nth_error_snoc.
  exists w1, (RData (length (r_heap w))). split; [exact Ec|].
  assert (Hm : forall k, k <> 0 -> INT_MIN < k <= INT_MAX -> INT_MIN <= k - 1 <= INT_MAX ->
    ResultSet_move (RData (length (r_heap w))) (RInt k) w1 =
      CDone (upd w1 (length (r_heap w)) (RsObj (rs_over ps (Z.max 0 (Z.min (zlen ps) (k - 1)))) (Some ev)), ROk Qnil)).
  { intros k Hk Hr Hs. apply (move_at w1 _ _ _ k E Hk); cbn [rs_index rs_length rs_over]; zlen_facts; lia. }
  assert (Hx : forall i, 0 <= i < zlen ps -> exists w2,
    rs_run [OpMove (RInt (i + 1)); OpNext] (RData (length (r_heap w))) w1 =
      CDone (w2, ROk [Qnil; RInt (pair_id (nth (Z.to_nat i) ps d))])).
  { intros i Hi. eexists. cbn [rs_run rs_call].
    rewrite (rbind_ok _ _ _ _ _ (Hm (i + 1) ltac:(lia) ltac:(unfold INT_MIN, INT_MAX in *; lia)
                                   ltac:(unfold INT_MIN, INT_MAX in *; lia))).
    replace (Z.max 0 (Z.min (zlen ps) (i + 1 - 1))) with i by lia.
    pose proof (next_at _ _ ps i _ d Hps (upd_at _ _ _ (RsObj (rs_over ps i) (Some ev)) E)) as N.
    destruct (Z.ltb_spec i (zlen ps)); [|lia]. rewrite rbind_assoc, (rbind_ok _ _ _ _ _ (N ltac:(lia))).
    reflexivity. }
  split.
  - destruct (Hx 0) as [w2 E2]; [lia|]. exists w2. exact E2.
  - destruct (Hx (zlen ps - 1)) as [w2 E2]; [lia|]. exists w2.
    replace (zlen ps - 1 + 1) with (zlen ps) in E2 by lia.
    replace (Z.to_nat (zlen ps - 1)) with (length ps - 1)%nat in E2 by (unfold zlen; lia). exact E2.
Qed.
End RsTheorems.

Section RsErrors.
Context {L OD DOC : Type} `{OdeumLib L OD DOC}.
Local Abbreviation W := (rworld (robj OD DOC) L).

(** The world after [ResultSet_alloc]. *)
Definition alloc_world (w : W) : W := mkworld (r_heap w ++ [RsObj (mkrs None 0 0) None]) (r_lib w).

Lemma alloc_at (w : W) :
  ResultSet_alloc w = CDone (alloc_world w, ROk (RData (length (r_heap w)))) /\
  nth_error (r_heap (alloc_world w)) (length (r_heap w)) = Some (RsObj (mkrs None 0 0) None).
Proof. split; [reflexivity | apply nth_error_snoc]. Qed.

(** [marshal_load] trusts the length it is given: a result set loaded
    from [[2, 0, s]] with [s] the eight bytes of one pair makes [to_a]
    read the second pair past the end of the copied array. *)
Theorem marshal_load_short_array_reads_past (w : W) :
  (let* v := ResultSet_alloc in
   let* _ := ResultSet_marshal_load v (RArray [RInt 2; RInt 0; RString [1; 0; 0; 0; 7; 0; 0; 0]]) in
   ResultSet_to_a v) w = COob.
Proof.
  destruct (alloc_at w) as [Ea Eb]. rewrite (rbind_ok _ _ _ _ _ Ea).
  rewrite (rbind_ok _ _ _ _ _ (load_at _ _ 2 0 _ Eb ltac:(unfold INT_MAX; lia) ltac:(unfold INT_MIN, INT_MAX; lia))).
  unfold ResultSet_to_a. rewrite (rbind_ok _ _ _ _ _ (rs_get_at _ _ _ _ (upd_at _ _ _ _ Eb))). reflexivity.
Qed.

(** [marshal_load] stores [length] before it converts the cursor:
    when the cursor does not fit an [int] it raises [RangeError] and
    leaves a result set of length 3 with a [NULL] array, whose [next]
    then dereferences [NULL]. *)
Theorem marshal_load_partial_then_next (w : W) :
  exists w1, (let* v := ResultSet_alloc in
              ResultSet_marshal_load v (RArray [RInt 3; RInt (2 ^ 40); RString []])) w =
             CDone (w1, RExc RangeError) /\
             ResultSet_next (RData (length (r_heap w))) w1 = COob.
Proof.
  destruct (alloc_at w) as [Ea Eb]. rewrite (rbind_ok _ _ _ _ _ Ea).
  eexists. split.
  - unfold ResultSet_marshal_load. rewrite (rbind_ok _ _ _ _ _ (rs_get_at _ _ _ _ Eb)).
    change (rb_ary_entry [RInt 3; RInt (2 ^ 40); RString []] 0) with (RInt 3).
    change (rb_ary_entry [RInt 3; RInt (2 ^ 40); RString []] 1) with (RInt (2 ^ 40)).
    change (rb_ary_entry [RInt 3; RInt (2 ^ 40); RString []] 2) with (RString []).
    cbn [rs_data rs_index FIX2INT]. rewrite !REQUIRE_TYPE_ok by reflexivity.
    rewrite !rbind_ret, check_int_ok, rbind_ret by lia.
    rewrite (rbind_ok _ _ _ _ _ (rs_store_at _ _ _ _ _ Eb)).
    rewrite check_int_range, rbind_raise by lia. reflexivity.
  - unfold ResultSet_next. rewrite (rbind_ok _ _ _ _ _ (rs_get_at _ _ _ _ (upd_at _ _ _ _ Eb))). reflexivity.
Qed.

(** [marshal_load] on a result set that already holds an array fails
    the [assert(rs->data == NULL)] and aborts the interpreter, whatever
    the data. *)
Theorem marshal_load_live_aborts (ps : list ODPAIR) (data : value) (w : W) :
  exists w1 v, ResultSet_create ps (zlen ps) None w = CDone (w1, ROk v) /\
    ResultSet_marshal_load v data w1 = CAbort.
Proof.
  destruct (ResultSet_create_at ps (zlen ps) None w) as (ev & Ec & _); [discriminate|].
  do 2 eexists. split; [exact Ec|].
  unfold ResultSet_marshal_load.
  rewrite (rbind_ok _ _ _ _ _ (rs_get_at (mkworld (r_heap w ++ [RsObj (rs_over ps 0) (Some ev)]) (r_lib w))
                                  _ _ _ (nth_error_snoc _ _))).
  reflexivity.
Qed.

(** [rs->index += move - 1] is [int] arithmetic: on a result set whose
    cursor is past its second pair, [move(INT_MAX)] overflows, which C
    leaves undefined, instead of stopping at the end as the comment of
    [ResultSet_move] says. *)
Theorem move_overflow_undefined (w : W) a rs e :
  nth_error (r_heap w) a = Some (RsObj rs e) -> 2 <= rs_index rs ->
  ResultSet_move (RData a) (RInt INT_MAX) w = COob.
Proof.
  intros E Hi. unfold ResultSet_move. rewrite (rbind_ok _ _ _ _ _ (rs_get_at _ _ _ _ E)). cbn beta iota.
  cbn [FIX2INT]. rewrite check_int_ok, rbind_ret by (unfold INT_MAX; lia).
  replace (INT_MAX =? 0) with false by reflexivity.
  replace (int_ok (rs_index rs + (INT_MAX - 1))) with false; [now rewrite andb_false_r|].
  symmetry. unfold int_ok, INT_MIN, INT_MAX. apply andb_false_iff. right. apply Z.leb_gt. lia.
Qed.
End RsErrors.

(** ** Witnesses, on the library [count_lib] *)

Abbreviation CW := (rworld (robj nat nat) nat).

Definition sample_pairs : list ODPAIR := [mkpair 7 30; mkpair 9 20; mkpair 4 10].

Lemma sample_pairs_int : Forall pair_int sample_pairs.
Proof. repeat constructor; unfold pair_int; cbn; lia. Qed.

Lemma resultset_methods_safe_witness :
  zlen sample_pairs <= INT_MAX /\
  exists w1 v w2 r,
    ResultSet_create sample_pairs (zlen sample_pairs) None (mkworld [] 0%nat : CW) = CDone (w1, ROk v) /\
    rs_run [OpNext; OpMove (RInt 2); OpScore; OpAt (RInt 5); OpToA; OpDump; OpIndex] v w1 = CDone (w2, r).
Proof.
  split; [vm_compute; discriminate|].
  apply (resultset_methods_safe sample_pairs None _ (mkworld [] 0%nat : CW)).
  - vm_compute. discriminate.
  - intros l E. discriminate.
  - repeat constructor; unfold INT_MIN, INT_MAX; cbn; lia.
Defined.

Lemma resultset_next_iterates_witness :
  Forall pair_int sample_pairs /\
  exists w1 v w2,
    ResultSet_create sample_pairs (zlen sample_pairs) None (mkworld [] 0%nat : CW) = CDone (w1, ROk v) /\
    rs_run (repeat OpNext (length sample_pairs + 2)) v w1 =
      CDone (w2, ROk [RInt 7; RInt 9; RInt 4; Qnil; Qnil]).
Proof.
  split; [exact sample_pairs_int|].
  apply (resultset_next_iterates sample_pairs 2 (mkworld [] 0%nat : CW) sample_pairs_int).
  vm_compute. discriminate.
Defined.

Lemma resultset_marshal_roundtrip_witness :
  rs_ok (rs_over sample_pairs 1) /\
  exists w' rs2, marshal_copy (RData 0) (mkworld [RsObj (rs_over sample_pairs 1) None] 0%nat : CW) =
      CDone (w', ROk (RData 1)) /\
    nth_error (r_heap w') 1 = Some (RsObj rs2 None) /\
    rs_ok rs2 /\ rs_length rs2 = 3 /\ rs_index rs2 = 1 /\
    (forall i off, 0 <= i < 3 -> (off = 0 \/ off = 4) ->
       pair_field (rs_data rs2) i off = pair_field (Some (pairs_mem sample_pairs)) i off) /\
    ResultSet_errors (RData 1) w' = CDone (w', ROk Qnil).
Proof.
  assert (Hok : rs_ok (rs_over sample_pairs 1)) by (unfold rs_ok, INT_MAX; cbn; lia).
  split; [exact Hok|].
  apply (resultset_marshal_roundtrip (mkworld [RsObj (rs_over sample_pairs 1) None] 0%nat : CW) 0
           (rs_over sample_pairs 1) None eq_refl Hok).
Defined.

Lemma resultset_move_off_by_one_witness :
  sample_pairs <> [] /\
  exists w1 v, ResultSet_create sample_pairs (zlen sample_pairs) None (mkworld [] 0%nat : CW) = CDone (w1, ROk v) /\
    (exists w2, rs_run [OpMove (RInt 1); OpNext] v w1 = CDone (w2, ROk [Qnil; RInt 7])) /\
    (exists w2, rs_run [OpMove (RInt (zlen sample_pairs)); OpNext] v w1 = CDone (w2, ROk [Qnil; RInt 4])).
Proof.
  split; [discriminate|].
  apply (resultset_move_off_by_one sample_pairs (mkworld [] 0%nat : CW) (mkpair 0 0) sample_pairs_int);
    [discriminate | vm_compute; discriminate].
Defined.

Lemma move_overflow_undefined_witness :
  2 <= rs_index (rs_over sample_pairs 2) /\
  ResultSet_move (RData 0) (RInt INT_MAX) (mkworld [RsObj (rs_over sample_pairs 2) None] 0%nat : CW) = COob.
Proof.
  split; [cbn; lia|].
  exact (move_overflow_undefined (mkworld [RsObj (rs_over sample_pairs 2) None] 0%nat : CW) 0 _ None eq_refl
           ltac:(cbn; lia)).
Defined.
