(* ===== verification/OdeumIndex.v ===== *)
(** * OdeumIndex: [Odeum::Index], [Odeum::Document], the module functions
    and the method table of the Ruby binding

    The methods of odeum_index.c 524-1530 over the object heap of
    [RubyRt] and the library interface [OdeumLib].  Every method of an
    [Index] reads its [ODEUM *] with [DATA_GET], which raises once the
    index is closed, checks the types of its arguments with
    [REQUIRE_TYPE], converts them ([FIX2INT], [RSTRING(s)->ptr] as a C
    string) and calls the library; the same holds for a [Document] and
    its [ODDOC *].  [Init_odeum_index] is modelled by the tables of
    methods with the number of arguments it registers, and [send] by the
    interpreter's dispatch through them.

    The theorems show: a closed index raises on every method that reads
    its handle, and [close] cannot close a handle twice; [setcharclass] is
    registered with no argument for a function of three, so every call of
    it fails; an object of another class given where an [Index] is
    expected is used as an [ODEUM *]; [ResultSet::BEGINNING] is [false],
    which [move] rejects; [query] hands the errors of [odquery] to the
    result set; [add_word_list] stops at the first [nil]. *)
From Stdlib Require Import String ZArith Lia List Bool.
From S2P Require Import Prelude Cache CbList CbStr CbCsv CbSort CbMapSer SuffixArray RubyRt OdeumApi OdeumRs.
Import ListNotations.
Open Scope list_scope.
Open Scope Z_scope.
Open Scope cres_scope.
Open Scope rb_scope.

Section Index.
Context {L OD DOC : Type} `{OdeumLib L OD DOC}.
Local Abbreviation W := (rworld (robj OD DOC) L).

(** [DATA_GET(v, ODEUM, odeum)] and [DATA_GET(v, ODDOC, oddoc)]. *)
Definition od_get (v : value) : rb W (nat * dptr OD) := DATA_GET as_index v "odeum".
Definition doc_get (v : value) : rb W (nat * dptr DOC) := DATA_GET as_doc v "oddoc".

(** The open [ODEUM *] of [self], used at once. *)
Definition od_self (self : value) : rb W OD :=
  let* '(_, p) := od_get self in deref p.

(** [RSTRING(v)->ptr] of a value [REQUIRE_TYPE] has checked. *)
Definition str_arg (v : value) : rb W (list Z) :=
  match v with RString s => rret (cstr s) | _ => rub end.

(** [Index_free] (lines 524-532): the finalizer closes a handle still
    open. *)
Definition Index_free (p : option OD) (l : L) : L :=
  match p with Some od => fst (odclose od l) | None => l end.

(** [Index_alloc] (lines 539-544). *)
Definition Index_alloc : rb W value :=
  let* a := heap_new (IndexObj None) in rret (RData a).

(** [Index_initialize] (lines 565-578). *)
Definition Index_initialize (self name mode : value) : rb W value :=
  let* _ := REQUIRE_TYPE self T_DATA "self" in
  let* _ := REQUIRE_TYPE name T_STRING "name" in
  let* _ := REQUIRE_TYPE mode T_FIXNUM "mode" in
  let* s := str_arg name in
  let* m := FIX2INT mode in
  let* p := lib_call (odopen s m) in
  match self with
  | RData a =>
      let* _ := heap_set a (IndexObj p) in
      match p with
      | None => rraise (StandardError "Failed to open requested database.")
      | Some _ => rret self
      end
  | _ => rub
  end.

(** [Index_close] (lines 588-599): the pointer becomes [NULL] so that
    [Index_free] does not close it again. *)
Definition Index_close (self : value) : rb W value :=
  let* '(a, p) := od_get self in
  let* od := deref p in
  let* r := lib_call (odclose od) in
  let* _ := heap_set a (IndexObj None) in
  rret (bool_value r).

(** [Index_put] (lines 612-625). *)
Definition Index_put (self doc wmax over : value) : rb W value :=
  let* '(_, p) := od_get self in
  let* '(_, dp) := doc_get doc in
  let* _ := REQUIRE_TYPE wmax T_FIXNUM "wmax" in
  let* wm := FIX2INT wmax in
  let* od := deref p in
  let* d := deref dp in
  let* r := lib_call (odput od d wm (RTEST over)) in
  rret (bool_value r).

(** [Index_delete] (lines 635-643). *)
Definition Index_delete (self uri : value) : rb W value :=
  let* od := od_self self in
  let* _ := REQUIRE_TYPE uri T_STRING "uri" in
  let* u := str_arg uri in
  let* r := lib_call (odout od u) in
  rret (bool_value r).

(** [Index_delete_by_id] (lines 652-660). *)
Definition Index_delete_by_id (self id : value) : rb W value :=
  let* od := od_self self in
  let* _ := REQUIRE_TYPE id T_FIXNUM "id" in
  let* i := FIX2INT id in
  let* r := lib_call (odoutbyid od i) in
  rret (bool_value r).

(** A document the library returned, wrapped, or [nil]. *)
Definition doc_or_nil (d : option DOC) : rb W value :=
  match d with None => rret Qnil | Some d => Document_create d end.

(** [Index_get] (lines 669-679). *)
Definition Index_get (self uri : value) : rb W value :=
  let* od := od_self self in
  let* _ := REQUIRE_TYPE uri T_STRING "uri" in
  let* u := str_arg uri in
  let* d := lib_call (odget od u) in
  doc_or_nil d.

(** [Index_get_by_id] (lines 688-699). *)
Definition Index_get_by_id (self id : value) : rb W value :=
  let* od := od_self self in
  let* _ := REQUIRE_TYPE id T_FIXNUM "id" in
  let* i := FIX2INT id in
  let* d := lib_call (odgetbyid od i) in
  doc_or_nil d.

(** [Index_get_id_by_uri] (lines 708-715). *)
Definition Index_get_id_by_uri (self uri : value) : rb W value :=
  let* od := od_self self in
  let* _ := REQUIRE_TYPE uri T_STRING "uri" in
  let* u := str_arg uri in
  let* r := lib_call (odgetidbyuri od u) in
  rret (RInt r).

(** [Index_check] (lines 724-731). *)
Definition Index_check (self id : value) : rb W value :=
  let* od := od_self self in
  let* _ := REQUIRE_TYPE id T_FIXNUM "id" in
  let* i := FIX2INT id in
  let* r := lib_call (odcheck od i) in
  rret (bool_value r).

(** [Index_search] (lines 750-767). *)
Definition Index_search (self word max : value) : rb W value :=
  let* od := od_self self in
  let* _ := REQUIRE_TYPE word T_STRING "word" in
  let* _ := REQUIRE_TYPE max T_FIXNUM "max" in
  let* q := str_arg word in
  let* m := FIX2INT max in
  let* r := lib_call (odsearch od q m) in
  match r with
  | None => rraise (StandardError "Search failure.")
  | Some ps => ResultSet_create ps (zlen ps) None
  end.

(** [Index_query] (lines 786-803): the list of errors is made before
    the query and handed to the result set. *)
Definition Index_query (self word : value) : rb W value :=
  let* od := od_self self in
  let* _ := REQUIRE_TYPE word T_STRING "word" in
  let* q := str_arg word in
  let* '(r, errors) := lib_call (odquery od q cblistopen) in
  match r with
  | None => rraise (StandardError "Query failure.")
  | Some ps => ResultSet_create ps (zlen ps) (Some errors)
  end.

(** [Index_search_doc_count] (lines 813-820). *)
Definition Index_search_doc_count (self word : value) : rb W value :=
  let* od := od_self self in
  let* _ := REQUIRE_TYPE word T_STRING "word" in
  let* q := str_arg word in
  let* r := lib_call (odsearchdnum od q) in
  rret (RInt r).

(** [Index_iterator] (lines 831-837), [Index_sync] (lines 869-874) and
    [Index_optimize] (lines 885-890): a call whose [int] is a truth
    value. *)
Definition od_bool_call (f : OD -> L -> L * bool) (self : value) : rb W value :=
  let* od := od_self self in
  let* r := lib_call (f od) in
  rret (bool_value r).

Definition Index_iterator (self : value) : rb W value := od_bool_call oditerinit self.
Definition Index_sync (self : value) : rb W value := od_bool_call odsync self.
Definition Index_optimize (self : value) : rb W value := od_bool_call odoptimize self.

(** [Index_next] (lines 846-857). *)
Definition Index_next (self : value) : rb W value :=
  let* od := od_self self in
  let* d := lib_call (oditernext od) in
  doc_or_nil d.

(** [Index_name] (lines 897-904). *)
Definition Index_name (self : value) : rb W value :=
  let* od := od_self self in
  let* n := lib_read (odname od) in
  rb_str_new2 n.

(** [Index_size] (lines 912-917): a Float. *)
Definition Index_size (self : value) : rb W value :=
  let* od := od_self self in
  let* r := lib_read (odfsiz od) in
  rret (RFloat r).

(** The counters (lines 926-970) and [Index_inode] (lines 1005-1010):
    an [int] read from the library. *)
Definition od_int_read (f : OD -> L -> Z) (self : value) : rb W value :=
  let* od := od_self self in
  let* r := lib_read (f od) in
  rret (RInt r).

Definition Index_bucket_count (self : value) : rb W value := od_int_read odbnum self.
Definition Index_buckets_used (self : value) : rb W value := od_int_read odbusenum self.
Definition Index_doc_count (self : value) : rb W value := od_int_read oddnum self.
Definition Index_word_count (self : value) : rb W value := od_int_read odwnum self.
Definition Index_inode (self : value) : rb W value := od_int_read odinode self.

(** [Index_writable] (lines 977-982) and [Index_fatal_error] (lines
    991-996). *)
Definition od_bool_read (f : OD -> L -> bool) (self : value) : rb W value :=
  let* od := od_self self in
  let* r := lib_read (f od) in
  rret (bool_value r).

Definition Index_writable (self : value) : rb W value := od_bool_read odwritable self.
Definition Index_fatal_error (self : value) : rb W value := od_bool_read odfatalerror self.

(** [Index_mtime] (lines 1019-1024): the [time_t] is stored in an [int]. *)
Definition Index_mtime (self : value) : rb W value :=
  let* od := od_self self in
  let* r := lib_read (odmtime od) in
  rret (RInt (to_int32 r)).

(** [Index_setcharclass] (lines 1135-1148). *)
Definition Index_setcharclass (self spacechars delimchars gluechars : value) : rb W value :=
  let* od := od_self self in
  let* _ := REQUIRE_TYPE spacechars T_STRING "spacechars" in
  let* _ := REQUIRE_TYPE delimchars T_STRING "delimchars" in
  let* _ := REQUIRE_TYPE gluechars T_STRING "gluechars" in
  let* sp := str_arg spacechars in
  let* de := str_arg delimchars in
  let* gl := str_arg gluechars in
  let* _ := lib_do (odsetcharclass od sp de gl) in
  rret Qnil.
End Index.

Section Document.
Context {L OD DOC : Type} `{OdeumLib L OD DOC}.
Local Abbreviation W := (rworld (robj OD DOC) L).

(** [Odeum_merge] (lines 1037-1045). *)
Definition Odeum_merge (self name elemnames : value) : rb W value :=
  let* _ := REQUIRE_TYPE name T_STRING "name" in
  let* _ := REQUIRE_TYPE elemnames T_ARRAY "elemnames" in
  let* n := str_arg name in
  match elemnames with
  | RArray xs =>
      let* elems := rlift (array_2_CBLIST xs) in
      let* r := lib_call (odmerge n elems) in
      rret (bool_value r)
  | _ => rub
  end.

(** [Odeum_remove] (lines 1054-1059). *)
Definition Odeum_remove (self name : value) : rb W value :=
  let* _ := REQUIRE_TYPE name T_STRING "name" in
  let* n := str_arg name in
  let* r := lib_call (odremove n) in
  rret (bool_value r).

(** [Odeum_breaktext] (lines 1073-1080). *)
Definition Odeum_breaktext (self text : value) : rb W value :=
  let* _ := REQUIRE_TYPE text T_STRING "text" in
  let* t := str_arg text in
  let* words := lib_read (odbreaktext t) in
  rlift (CBLIST_2_array words).

(** [Odeum_normalizeword] (lines 1094-1101). *)
Definition Odeum_normalizeword (self asis : value) : rb W value :=
  let* _ := REQUIRE_TYPE asis T_STRING "asis" in
  let* a := str_arg asis in
  let* r := lib_read (odnormalizeword a) in
  rret (RString (cstr r)).

(** [Odeum_settuning] (lines 1116-1124). *)
Definition Odeum_settuning (self ibnum idnum cbnum csiz : value) : rb W value :=
  let* _ := REQUIRE_TYPE ibnum T_FIXNUM "ibnum" in
  let* _ := REQUIRE_TYPE idnum T_FIXNUM "idnum" in
  let* _ := REQUIRE_TYPE cbnum T_FIXNUM "cbnum" in
  let* _ := REQUIRE_TYPE csiz T_FIXNUM "csiz" in
  let* a := FIX2INT ibnum in
  let* b := FIX2INT idnum in
  let* c := FIX2INT cbnum in
  let* d := FIX2INT csiz in
  let* _ := lib_do (odsettuning a b c d) in
  rret Qnil.

(** [Document_free] (lines 1175-1182). *)
Definition Document_free (p : option DOC) (l : L) : L :=
  match p with Some d => oddocclose d l | None => l end.

(** The open [ODDOC *] of [self]. *)
Definition doc_self (self : value) : rb W DOC :=
  let* '(_, p) := doc_get self in deref p.

(** [Document_close] (lines 1224-1231). *)
Definition Document_close (self : value) : rb W value :=
  let* '(a, p) := doc_get self in
  let* d := deref p in
  let* _ := lib_do (oddocclose d) in
  let* _ := heap_set a (DocObj None) in
  rret Qnil.

(** [Document_addattr] (lines 1240-1248). *)
Definition Document_addattr (self name val : value) : rb W value :=
  let* d := doc_self self in
  let* _ := REQUIRE_TYPE name T_STRING "name" in
  let* _ := REQUIRE_TYPE val T_STRING "value" in
  let* n := str_arg name in
  let* v := str_arg val in
  let* _ := lib_do (oddocaddattr d n v) in
  rret self.

(** The loop of [Document_add_content] (lines 1298-1304) over the words
    [i .. i + n - 1]: a normalized word missing from [norm] is a [NULL]
    given to [oddocaddword]. *)
Fixpoint add_words_loop (d : DOC) (asis norm : CBLIST) (i n : nat) : rb W unit :=
  match n with
  | O => rret tt
  | S n' =>
      match cblistval asis i, cblistval norm i with
      | Some a, Some nw =>
          let* _ := lib_do (oddocaddword d (cstr nw) (cstr a)) in
          add_words_loop d asis norm (S i) n'
      | _, _ => rub
      end
  end.

(** [Document_add_content] (lines 1272-1310). *)
Definition Document_add_content (self index content : value) : rb W value :=
  let* '(_, dp) := doc_get self in
  let* '(_, op) := od_get index in
  let* _ := REQUIRE_TYPE content T_STRING "content" in
  let* c := str_arg content in
  let* od := deref op in
  let* '(asis, norm) := lib_call (odanalyzetext od c cblistopen cblistopen) in
  let* d := deref dp in
  let* _ := add_words_loop d asis norm 0 (cblistnum asis) in
  rret self.

(** The loop of [Document_add_word_list] (lines 1327-1331): it stops at
    the first [nil] and reads [RSTRING] of each element unchecked. *)
Fixpoint add_word_list_loop (d : DOC) (xs : list value) : rb W unit :=
  match xs with
  | [] | Qnil :: _ => rret tt
  | RString s :: r =>
      let* nw := lib_read (odnormalizeword (cstr s)) in
      let* _ := lib_do (oddocaddword d (cstr nw) (cstr s)) in
      add_word_list_loop d r
  | _ :: _ => rub
  end.

(** [Document_add_word_list] (lines 1320-1334). *)
Definition Document_add_word_list (self asis : value) : rb W value :=
  let* d := doc_self self in
  let* _ := REQUIRE_TYPE asis T_ARRAY "asis" in
  match asis with
  | RArray xs => let* _ := add_word_list_loop d xs in rret self
  | _ => rub
  end.

(** [Document_addword] (lines 1344-1352). *)
Definition Document_addword (self normal asis : value) : rb W value :=
  let* d := doc_self self in
  let* _ := REQUIRE_TYPE normal T_STRING "normal" in
  let* _ := REQUIRE_TYPE asis T_STRING "asis" in
  let* n := str_arg normal in
  let* a := str_arg asis in
  let* _ := lib_do (oddocaddword d n a) in
  rret self.

(** [Document_id] (lines 1361-1366). *)
Definition Document_id (self : value) : rb W value :=
  let* d := doc_self self in
  let* r := lib_read (oddocid d) in
  rret (RInt r).

(** [Document_uri] (lines 1375-1380). *)
Definition Document_uri (self : value) : rb W value :=
  let* d := doc_self self in
  let* u := lib_read (oddocuri d) in
  rret (RString (cstr u)).

(** [Document_getattr] (lines 1390-1398). *)
Definition Document_getattr (self name : value) : rb W value :=
  let* d := doc_self self in
  let* _ := REQUIRE_TYPE name T_STRING "name" in
  let* n := str_arg name in
  let* r := lib_read (oddocgetattr d n) in
  rret (match r with None => Qnil | Some v => RString (cstr v) end).

(** [Document_normal_words] (lines 1407-1412) and [Document_asis_words]
    (lines 1421-1426). *)
Definition Document_normal_words (self : value) : rb W value :=
  let* d := doc_self self in
  let* l := lib_read (oddocnwords d) in
  rlift (CBLIST_2_array l).

Definition Document_asis_words (self : value) : rb W value :=
  let* d := doc_self self in
  let* l := lib_read (oddocawords d) in
  rlift (CBLIST_2_array l).

(** [Document_scores] (lines 1437-1449). *)
Definition Document_scores (self max odeum_obj : value) : rb W value :=
  let* '(_, dp) := doc_get self in
  let* '(_, op) := od_get odeum_obj in
  let* _ := REQUIRE_TYPE max T_FIXNUM "max" in
  let* m := FIX2INT max in
  let* d := deref dp in
  let* od := deref op in
  let* scores := lib_call (oddocscores d m od) in
  rlift (CBMAP_2_hash scores).
End Document.

Section Init.
Context {L OD DOC : Type} `{OdeumLib L OD DOC}.
Local Abbreviation W := (rworld (robj OD DOC) L).
Local Open Scope string_scope.

(** A method table: the name, the number of arguments registered, and the
    C function. *)
Definition mtable : Type := list (string * (Z * cfunc W)).

(** The module functions of [Odeum] ([rb_define_module_function],
    lines 1455-1459). *)
Definition Odeum_functions : mtable :=
  [("merge", (2, CF2 Odeum_merge)); ("remove", (1, CF1 Odeum_remove));
   ("breaktext", (1, CF1 Odeum_breaktext)); ("normalizeword", (1, CF1 Odeum_normalizeword));
   ("settuning", (4, CF4 Odeum_settuning))].

(** The methods of [Odeum::Index] (lines 1467-1496); [setcharclass] is
    registered with no argument. *)
Definition Index_methods : mtable :=
  [("initialize", (2, CF2 Index_initialize)); ("close", (0, CF0 Index_close));
   ("put", (3, CF3 Index_put)); ("delete", (1, CF1 Index_delete));
   ("delete_by_id", (1, CF1 Index_delete_by_id)); ("get", (1, CF1 Index_get));
   ("get_by_id", (1, CF1 Index_get_by_id)); ("get_id_by_uri", (1, CF1 Index_get_id_by_uri));
   ("check", (1, CF1 Index_check)); ("search", (2, CF2 Index_search));
   ("search_doc_count", (1, CF1 Index_search_doc_count)); ("query", (1, CF1 Index_query));
   ("iterator", (0, CF0 Index_iterator)); ("next", (0, CF0 Index_next));
   ("sync", (0, CF0 Index_sync)); ("optimize", (0, CF0 Index_optimize));
   ("name", (0, CF0 Index_name)); ("size", (0, CF0 Index_size));
   ("bucket_count", (0, CF0 Index_bucket_count)); ("buckets_used", (0, CF0 Index_buckets_used));
   ("doc_count", (0, CF0 Index_doc_count)); ("word_count", (0, CF0 Index_word_count));
   ("writable", (0, CF0 Index_writable)); ("fatal_error", (0, CF0 Index_fatal_error));
   ("inode", (0, CF0 Index_inode)); ("mtime", (0, CF0 Index_mtime));
   ("setcharclass", (0, CF3 Index_setcharclass))].

(** The methods of [Odeum::Document] (lines 1498-1511). *)
Definition Document_methods : mtable :=
  [("initialize", (1, CF1 Document_initialize)); ("[]=", (2, CF2 Document_addattr));
   ("[]", (1, CF1 Document_getattr)); ("addword", (2, CF2 Document_addword));
   ("add_word_list", (1, CF1 Document_add_word_list)); ("add_content", (2, CF2 Document_add_content));
   ("id", (0, CF0 Document_id)); ("uri", (0, CF0 Document_uri));
   ("normal_words", (0, CF0 Document_normal_words)); ("asis_words", (0, CF0 Document_asis_words));
   ("scores", (2, CF2 Document_scores)); ("close", (0, CF0 Document_close))].

(** The methods of [Odeum::ResultSet] (lines 1514-1529). *)
Definition ResultSet_methods : mtable :=
  [("[]", (1, CF1 ResultSet_at)); ("next", (0, CF0 ResultSet_next));
   ("next_doc", (1, CF1 ResultSet_next_doc)); ("move", (1, CF1 ResultSet_move));
   ("score", (0, CF0 ResultSet_score)); ("id", (0, CF0 ResultSet_id));
   ("index", (0, CF0 ResultSet_index)); ("length", (0, CF0 ResultSet_length));
   ("to_a", (0, CF0 ResultSet_to_a)); ("errors", (0, CF0 ResultSet_errors));
   ("marshal_dump", (0, CF0 ResultSet_marshal_dump)); ("marshal_load", (1, CF1 ResultSet_marshal_load))].

(** [rb_define_const(cResultSet, "BEGINNING", 0)] (line 1521): the
    [VALUE] [0] is [false], not the Fixnum [0] ([INT2FIX(0)]). *)
Definition ResultSet_BEGINNING : value := Qfalse.

Definition methods_of (o : robj OD DOC) : mtable :=
  match o with
  | IndexObj _ => Index_methods
  | DocObj _ => Document_methods
  | RsObj _ _ => ResultSet_methods
  end.

Fixpoint mlookup (name : string) (t : mtable) : option (Z * cfunc W) :=
  match t with
  | [] => None
  | (n, m) :: t' => if String.eqb n name then Some m else mlookup name t'
  end.

(** [recv.name(args)] on an object of the binding. *)
Definition send (recv : value) (name : string) (args : list value) : rb W value :=
  match recv with
  | RData a =>
      let* o := heap_get a in
      match mlookup name (methods_of o) with
      | Some (argc, f) => rb_call argc f recv args
      | None => rraise (NoMethodError name)
      end
  | _ => rraise (NoMethodError name)
  end.

(** [Odeum.name(args)]; the functions ignore [self]. *)
Definition odeum_call (name : string) (args : list value) : rb W value :=
  match mlookup name Odeum_functions with
  | Some (argc, f) => rb_call argc f Qnil args
  | None => rraise (NoMethodError name)
  end.

(** [Odeum::Index.new(args)] and [Odeum::Document.new(args)]:
    [rb_class_new_instance] allocates and sends [initialize]. *)
Definition Index_new (args : list value) : rb W value :=
  let* v := Index_alloc in let* _ := send v "initialize" args in rret v.

Definition Document_new (args : list value) : rb W value :=
  let* v := Document_alloc in let* _ := send v "initialize" args in rret v.
End Init.

Section IndexFacts.
Context {L OD DOC : Type} `{OdeumLib L OD DOC}.
Local Abbreviation W := (rworld (robj OD DOC) L).

(** The exception of [DATA_GET] on a closed index. *)
Definition null_odeum : rexc := StandardError "NULL found for odeum when shouldn't be.".

Lemma od_get_closed (w : W) a : nth_error (r_heap w) a = Some (IndexObj None) ->
  od_get (RData a) w = CDone (w, RExc null_odeum).
Proof. intros E. unfold od_get, DATA_GET, Data_Get_Struct, heap_get, rbind. rewrite E. reflexivity. Qed.

Lemma od_self_closed (w : W) a : nth_error (r_heap w) a = Some (IndexObj None) ->
  od_self (RData a) w = CDone (w, RExc null_odeum).
Proof. intros E. unfold od_self. now rewrite (rbind_exc _ _ _ _ _ (od_get_closed w a E)). Qed.

Lemma od_get_open (w : W) a od : nth_error (r_heap w) a = Some (IndexObj (Some od)) ->
  od_get (RData a) w = CDone (w, ROk (a, Own od)).
Proof. intros E. unfold od_get, DATA_GET, Data_Get_Struct, heap_get, rbind. rewrite E. reflexivity. Qed.

Lemma od_self_open (w : W) a od : nth_error (r_heap w) a = Some (IndexObj (Some od)) ->
  od_self (RData a) w = CDone (w, ROk od).
Proof. intros E. unfold od_self. now rewrite (rbind_ok _ _ _ _ _ (od_get_open w a od E)). Qed.

(** The dispatch of a method of an object in slot [a]. *)
Lemma send_at (w : W) a o name args argc f :
  nth_error (r_heap w) a = Some o -> mlookup name (methods_of o) = Some (argc, f) ->
  send (RData a) name args w = rb_call argc f (RData a) args w.
Proof. intros E M. unfold send, heap_get, rbind. rewrite E. cbn beta iota. now rewrite M. Qed.

End IndexFacts.

Section IndexTheorems.
Context {L OD DOC : Type} `{OdeumLib L OD DOC}.
Local Abbreviation W := (rworld (robj OD DOC) L).

(** C18: Once an index is closed, every one of its methods but
    [initialize] and [setcharclass], called with the number of arguments
    it is registered with, raises [StandardError] ("NULL found for odeum
    when shouldn't be.") before any other effect. *)
Theorem closed_index_raises (w : W) a name args argc f :
  nth_error (r_heap w) a = Some (IndexObj None) ->
  mlookup name Index_methods = Some (argc, f) -> name <> "initialize"%string ->
  name <> "setcharclass"%string -> Z.of_nat (length args) = argc ->
  send (RData a) name args w = CDone (w, RExc null_odeum).
Proof.
  intros E M N1 N2 Hl. rewrite (send_at w a _ name args argc f E M).
  rewrite rb_call_argc by exact Hl.
  pose proof (od_self_closed w a E) as S. pose proof (od_get_closed w a E) as G.
  unfold Index_methods in M. cbn [mlookup] in M.
  repeat match type of M with
  | (if String.eqb ?n name then _ else _) = _ =>
      destruct (String.eqb_spec n name) as [<-|]; [injection M as <- <-|]
  end; try discriminate; try congruence;
  destruct args as [|x1 [|x2 [|x3 [|x4 args]]]]; cbn in Hl; try lia; cbn [cfunc_apply];
  unfold Index_close, Index_put, Index_delete, Index_delete_by_id, Index_get, Index_get_by_id,
    Index_get_id_by_uri, Index_check, Index_search, Index_search_doc_count, Index_query,
    Index_iterator, Index_next, Index_sync, Index_optimize, Index_name, Index_size,
    Index_bucket_count, Index_buckets_used, Index_doc_count, Index_word_count, Index_writable,
    Index_fatal_error, Index_inode, Index_mtime, od_bool_call, od_int_read, od_bool_read;
  first [rewrite (rbind_exc _ _ _ _ _ S) | rewrite (rbind_exc _ _ _ _ _ G)]; reflexivity.
Qed.

(** C24: [close] closes the handle of an open index once: it calls
    [odclose], sets the pointer to [NULL], so that a second [close]
    raises instead of closing again and the finalizer [Index_free] of the
    object does nothing. *)
Theorem index_close_once (w : W) a od :
  nth_error (r_heap w) a = Some (IndexObj (Some od)) ->
  exists w1, send (RData a) "close" [] w = CDone (w1, ROk (bool_value (snd (odclose od (r_lib w))))) /\
    r_lib w1 = fst (odclose od (r_lib w)) /\ nth_error (r_heap w1) a = Some (IndexObj None) /\
    send (RData a) "close" [] w1 = CDone (w1, RExc null_odeum) /\
    Index_free None (r_lib w1) = r_lib w1.
Proof.
  intros E. rewrite (send_at w a _ "close" [] 0 (CF0 Index_close) E eq_refl).
  rewrite rb_call_argc by reflexivity. cbn [cfunc_apply]. unfold Index_close.
  rewrite (rbind_ok _ _ _ _ _ (od_get_open w a od E)).
  destruct (odclose od (r_lib w)) as [l' b] eqn:Ec.
  unfold deref, lib_call, heap_set, rbind, rret. cbn beta iota. rewrite Ec. cbn.
  assert (E1 : nth_error (list_set (r_heap w) a (IndexObj None)) a = Some (IndexObj None)).
  { rewrite nth_error_list_set, Nat.eqb_refl by (apply nth_error_Some; congruence). reflexivity. }
  eexists. split; [reflexivity|]. split; [reflexivity|]. split; [exact E1|].
  split; [|reflexivity].
  set (w1 := mkworld (list_set (r_heap w) a (IndexObj None)) l').
  change (nth_error (r_heap w1) a = Some (IndexObj None)) in E1.
  change (send (RData a) "close" [] w1 = CDone (w1, RExc null_odeum)).
  rewrite (send_at w1 a _ "close" [] 0 (CF0 Index_close) E1 eq_refl).
  rewrite rb_call_argc by reflexivity. cbn [cfunc_apply]. unfold Index_close.
  now rewrite (rbind_exc _ _ _ _ _ (od_get_closed w1 a E1)).
Qed.

(** C35: [setcharclass] is registered with no argument
    ([rb_define_method(cIndex, "setcharclass", Index_setcharclass, 0)])
    for a C function of three: called with its three strings it raises
    [ArgumentError], and called with none the function reads three
    parameters that were never passed. *)
Theorem setcharclass_unusable (w : W) a p args :
  nth_error (r_heap w) a = Some (IndexObj p) ->
  send (RData a) "setcharclass" args w =
    match args with
    | [] => COob
    | _ => CDone (w, RExc (ArgumentError (Z.of_nat (length args)) 0))
    end.
Proof.
  intros E. rewrite (send_at w a _ "setcharclass" args 0 (CF3 Index_setcharclass) E eq_refl).
  unfold rb_call, cfunc_apply. destruct args; reflexivity.
Qed.
End IndexTheorems.

Section GlueTheorems.
Context {L OD DOC : Type} `{OdeumLib L OD DOC}.
Local Abbreviation W := (rworld (robj OD DOC) L).

(** C36: [DATA_GET] checks that an argument is a [T_DATA] object, not that
    it is an [Index]: [rs.next_doc(x)] with [x] an open [Document] or a
    [ResultSet], on a result set with a pair left, hands that object's
    struct to [odgetbyid] as an [ODEUM *]. *)
Theorem next_doc_foreign_index (w : W) a b ps e o :
  nth_error (r_heap w) a = Some (RsObj (rs_over ps 0) e) ->
  nth_error (r_heap w) b = Some o ->
  (exists d, o = DocObj (Some d)) \/ (exists rs e', o = RsObj rs e') ->
  0 < zlen ps ->
  send (RData a) "next_doc" [RData b] w = COob.
Proof.
  intros Ea Eb Ho Hn. rewrite (send_at w a _ "next_doc" _ 1 (CF1 ResultSet_next_doc) Ea eq_refl).
  rewrite rb_call_argc by reflexivity. cbn [cfunc_apply]. unfold ResultSet_next_doc.
  assert (G : DATA_GET as_index (RData b) "odeum" w = CDone (w, ROk (b, @Foreign OD))).
  { unfold DATA_GET, Data_Get_Struct, heap_get, rbind. rewrite Eb.
    destruct Ho as [[d ->]|(rs & e' & ->)]; reflexivity. }
  rewrite (rbind_ok _ _ _ _ _ G), (rbind_ok _ _ _ _ _ (rs_get_at _ _ _ _ Ea)).
  cbn [rs_index rs_length rs_over rs_data]. destruct (Z.leb_spec 0 0); [|lia].
  destruct (Z.ltb_spec 0 (zlen ps)); [|lia]. cbn [andb].
  destruct (pair_field_in (pairs_mem ps) 0 0) as [v Hv]; [lia | lia | rewrite zlen_pairs_mem; lia |].
  rewrite Hv. reflexivity.
Qed.

(** C37: [ResultSet::BEGINNING] is [false] ([rb_define_const] of the
    [VALUE] 0), so [rs.move(ResultSet::BEGINNING)], which the comment of
    [ResultSet_move] gives as the way to rewind, raises [TypeError] and
    leaves the cursor, while [rs.move(0)] rewinds. *)
Theorem move_BEGINNING_raises (w : W) a rs e :
  nth_error (r_heap w) a = Some (RsObj rs e) ->
  send (RData a) "move" [ResultSet_BEGINNING] w =
    CDone (w, RExc (TypeError "no implicit conversion from boolean to integer")) /\
  send (RData a) "move" [RInt 0] w = CDone (upd w a (RsObj (set_index rs 0) e), ROk Qnil).
Proof.
  intros E. split; rewrite (send_at w a _ "move" _ 1 (CF1 ResultSet_move) E eq_refl);
    rewrite rb_call_argc by reflexivity; cbn [cfunc_apply]; unfold ResultSet_move;
    rewrite (rbind_ok _ _ _ _ _ (rs_get_at _ _ _ _ E)); [reflexivity|].
  cbn [FIX2INT]. rewrite check_int_ok, rbind_ret by lia. cbn [Z.eqb].
  rewrite (rbind_ok _ _ _ _ _ (rs_store_at _ _ _ _ _ E)). reflexivity.
Qed.

(** [index.query(q)] hands the errors [odquery] pushed on the list it
    was given to the result set, whose [errors] returns them as Strings,
    in order. *)
Theorem query_errors_reported (w : W) a od q l' ps errs :
  nth_error (r_heap w) a = Some (IndexObj (Some od)) ->
  odquery od (cstr q) cblistopen (r_lib w) = (l', (Some ps, errs)) -> cl_ok errs ->
  exists w' b, send (RData a) "query" [RString q] w = CDone (w', ROk (RData b)) /\
    send (RData b) "errors" [] w' = CDone (w', ROk (RArray (map RString (cl_view errs)))).
Proof.
  intros E Q Hok. rewrite (send_at w a _ "query" _ 1 (CF1 Index_query) E eq_refl).
  rewrite rb_call_argc by reflexivity. cbn [cfunc_apply]. unfold Index_query.
  rewrite (rbind_ok _ _ _ _ _ (od_self_open _ _ _ E)), REQUIRE_TYPE_ok, rbind_ret by reflexivity.
  cbn [str_arg]. rewrite rbind_ret. unfold lib_call at 1, rbind at 1. rewrite Q. cbn beta iota.
  set (w1 := mkworld (r_heap w) l').
  destruct (ResultSet_create_at ps (zlen ps) (Some errs) w1) as (ev & Ec & Eev);
    [intros l [= <-]; exact Hok|].
  rewrite Ec. do 2 eexists. split; [reflexivity|].
  set (w2 := mkworld _ _).
  assert (E2 : nth_error (r_heap w2) (length (r_heap w1)) = Some (RsObj (rs_over ps 0) (Some ev)))
    by apply nth_error_snoc.
  rewrite (send_at w2 _ _ "errors" [] 0 (CF0 ResultSet_errors) E2 eq_refl).
  rewrite rb_call_argc by reflexivity. cbn [cfunc_apply]. unfold ResultSet_errors, heap_get, rbind.
  rewrite E2. cbn beta iota. now rewrite Eev.
Qed.
End GlueTheorems.

Section WordList.
Context {L OD DOC : Type} `{OdeumLib L OD DOC}.
Local Abbreviation W := (rworld (robj OD DOC) L).

(** What adding one word of [add_word_list] does to the library: the
    word and its normal form go to the document. *)
Definition add_one_word (d : DOC) (l : L) (s : list Z) : L :=
  oddocaddword d (cstr (odnormalizeword (cstr s) l)) (cstr s) l.

Lemma add_word_list_loop_strings (d : DOC) (xs : list (list Z)) (ys : list value) : forall (w : W),
  add_word_list_loop d (map RString xs ++ Qnil :: ys) w =
    CDone (mkworld (r_heap w) (fold_left (add_one_word d) xs (r_lib w)), ROk tt).
Proof.
  induction xs as [|x xs IH]; intros w; [destruct w; reflexivity|].
  cbn [map app add_word_list_loop fold_left]. unfold lib_read, lib_do, rbind. cbn beta iota.
  rewrite IH. reflexivity.
Qed.

(** [doc.add_word_list(words)] adds the Strings before the first
    [nil] of the Array, each with its normal form, and ignores the rest of
    the Array, whatever it holds. *)
Theorem add_word_list_stops_at_nil (w : W) a d (xs : list (list Z)) (ys : list value) :
  nth_error (r_heap w) a = Some (DocObj (Some d)) ->
  send (RData a) "add_word_list" [RArray (map RString xs ++ Qnil :: ys)] w =
    CDone (mkworld (r_heap w) (fold_left (add_one_word d) xs (r_lib w)), ROk (RData a)).
Proof.
  intros E. rewrite (send_at w a _ "add_word_list" _ 1 (CF1 Document_add_word_list) E eq_refl).
  rewrite rb_call_argc by reflexivity. cbn [cfunc_apply]. unfold Document_add_word_list, doc_self, doc_get.
  assert (G : DATA_GET as_doc (RData a) "oddoc" w = CDone (w, ROk (a, Own d))).
  { unfold DATA_GET, Data_Get_Struct, heap_get, rbind. rewrite E. reflexivity. }
  rewrite rbind_assoc, (rbind_ok _ _ _ _ _ G). cbn [deref rbind rret].
  rewrite REQUIRE_TYPE_ok, rbind_ret by reflexivity.
  rewrite (rbind_ok _ _ _ _ _ (add_word_list_loop_strings d xs ys w)). reflexivity.
Qed.
End WordList.

Section AddContent.
Context {L OD DOC : Type} `{OdeumLib L OD DOC}.
Local Abbreviation W := (rworld (robj OD DOC) L).

(** What the loop of [add_content] does with one pair of words. *)
Definition add_pair (d : DOC) (l : L) (p : list Z * list Z) : L :=
  oddocaddword d (cstr (snd p)) (cstr (fst p)) l.

Lemma add_words_loop_all (d : DOC) (asis norm : CBLIST) (n : nat) : forall (i : nat) (w : W),
  cl_ok asis -> cl_ok norm -> (i + n <= cblistnum asis)%nat -> (i + n <= cblistnum norm)%nat ->
  add_words_loop d asis norm i n w =
    CDone (mkworld (r_heap w) (fold_left (add_pair d)
             (combine (firstn n (skipn i (cl_view asis))) (firstn n (skipn i (cl_view norm)))) (r_lib w)),
           ROk tt).
Proof.
  induction n as [|n IH]; intros i w Ha Hn Hia Hin; [destruct w; reflexivity|].
  pose proof (length_view asis Ha) as La. pose proof (length_view norm Hn) as Ln.
  unfold cblistnum in *. cbn [add_words_loop]. rewrite !cblistval_view.
  rewrite (nth_error_nth' (cl_view asis) []), (nth_error_nth' (cl_view norm) []) by lia.
  unfold lib_do, rbind. cbn beta iota. rewrite IH by (auto; lia).
  rewrite (skipn_nth_cons (cl_view asis) i []), (skipn_nth_cons (cl_view norm) i []) by lia.
  reflexivity.
Qed.

(** [doc.add_content(index, text)] adds to the document every pair of
    words [odanalyzetext] returns, in order, including the words whose
    normal form is empty, although the comment of the loop says it only
    adds "words that normalize to some content". *)
Theorem add_content_adds_every_word (w : W) a b d od c l' asis norm :
  nth_error (r_heap w) a = Some (DocObj (Some d)) -> nth_error (r_heap w) b = Some (IndexObj (Some od)) ->
  odanalyzetext od (cstr c) cblistopen cblistopen (r_lib w) = (l', (asis, norm)) ->
  cl_ok asis -> cl_ok norm -> (cblistnum asis <= cblistnum norm)%nat ->
  send (RData a) "add_content" [RData b; RString c] w =
    CDone (mkworld (r_heap w) (fold_left (add_pair d)
             (combine (cl_view asis) (firstn (cblistnum asis) (cl_view norm))) l'), ROk (RData a)).
Proof.
  intros Ea Eb Ean Ha Hn Hle.
  rewrite (send_at w a _ "add_content" _ 2 (CF2 Document_add_content) Ea eq_refl).
  rewrite rb_call_argc by reflexivity. cbn [cfunc_apply]. unfold Document_add_content.
  assert (G : doc_get (RData a) w = CDone (w, ROk (a, Own d))).
  { unfold doc_get, DATA_GET, Data_Get_Struct, heap_get, rbind. rewrite Ea. reflexivity. }
  rewrite (rbind_ok _ _ _ _ _ G), (rbind_ok _ _ _ _ _ (od_get_open _ _ _ Eb)).
  rewrite REQUIRE_TYPE_ok, rbind_ret by reflexivity. cbn [str_arg deref]. rewrite !rbind_ret.
  unfold lib_call at 1, rbind at 1. rewrite Ean. cbn beta iota. rewrite rbind_ret.
  rewrite (rbind_ok _ _ _ _ _ (add_words_loop_all d asis norm (cblistnum asis) 0 _ Ha Hn ltac:(lia) Hle)).
  cbn [skipn r_heap r_lib]. rewrite firstn_all2 by (rewrite (length_view asis Ha); unfold cblistnum; lia). reflexivity.
Qed.
End AddContent.

(** ** Witnesses, on the library [count_lib] *)

Local Open Scope string_scope.
Local Open Scope list_scope.

Lemma closed_index_raises_witness :
  @mlookup nat nat nat "close" Index_methods = Some (0, CF0 Index_close) /\
  send (RData 0) "close" [] (mkworld [IndexObj None] 5%nat : CW) =
    CDone (mkworld [IndexObj None] 5%nat, RExc null_odeum).
Proof.
  split; [reflexivity|].
  apply (closed_index_raises (mkworld [IndexObj None] 5%nat : CW) 0 "close" [] 0 (CF0 Index_close));
    [reflexivity | reflexivity | discriminate | discriminate | reflexivity].
Defined.

Lemma index_close_once_witness :
  exists w1, send (RData 0) "close" [] (mkworld [IndexObj (Some 0%nat)] 5%nat : CW) = CDone (w1, ROk Qtrue) /\
    r_lib w1 = 6%nat /\ nth_error (r_heap w1) 0 = Some (IndexObj None) /\
    send (RData 0) "close" [] w1 = CDone (w1, RExc null_odeum) /\ Index_free None (r_lib w1) = r_lib w1.
Proof. exact (index_close_once (mkworld [IndexObj (Some 0%nat)] 5%nat : CW) 0 0%nat eq_refl). Defined.

Lemma setcharclass_unusable_witness :
  send (RData 0) "setcharclass" [RString [32]; RString [44]; RString [45]] (mkworld [IndexObj (Some 0%nat)] 0%nat : CW) =
    CDone (mkworld [IndexObj (Some 0%nat)] 0%nat, RExc (ArgumentError 3 0)) /\
  send (RData 0) "setcharclass" [] (mkworld [IndexObj (Some 0%nat)] 0%nat : CW) = COob.
Proof.
  split; [exact (setcharclass_unusable (mkworld [IndexObj (Some 0%nat)] 0%nat : CW) 0 _ _ eq_refl)
        | exact (setcharclass_unusable (mkworld [IndexObj (Some 0%nat)] 0%nat : CW) 0 _ [] eq_refl)].
Defined.

Lemma next_doc_foreign_index_witness :
  0 < zlen sample_pairs /\
  send (RData 0) "next_doc" [RData 1]
    (mkworld [RsObj (rs_over sample_pairs 0) None; DocObj (Some 0%nat)] 0%nat : CW) = COob.
Proof.
  split; [vm_compute; reflexivity|].
  apply (next_doc_foreign_index (mkworld [RsObj (rs_over sample_pairs 0) None; DocObj (Some 0%nat)] 0%nat : CW)
           0 1 sample_pairs None (DocObj (Some 0%nat)) eq_refl eq_refl).
  - left. exists 0%nat. reflexivity.
  - vm_compute. reflexivity.
Defined.

Lemma move_BEGINNING_raises_witness :
  send (RData 0) "move" [ResultSet_BEGINNING] (mkworld [RsObj (rs_over sample_pairs 2) None] 0%nat : CW) =
    CDone (mkworld [RsObj (rs_over sample_pairs 2) None] 0%nat,
           RExc (TypeError "no implicit conversion from boolean to integer")) /\
  send (RData 0) "move" [RInt 0] (mkworld [RsObj (rs_over sample_pairs 2) None] 0%nat : CW) =
    CDone (upd (mkworld [RsObj (rs_over sample_pairs 2) None] 0%nat) 0
             (RsObj (set_index (rs_over sample_pairs 2) 0) None), ROk Qnil).
Proof. exact (move_BEGINNING_raises (mkworld [RsObj (rs_over sample_pairs 2) None] 0%nat : CW) 0 _ None eq_refl). Defined.

Lemma query_errors_reported_witness :
  cl_ok (cblistpush cblistopen [104; 105] 2) /\
  exists w' b, send (RData 0) "query" [RString [104; 105]] (mkworld [IndexObj (Some 0%nat)] 0%nat : CW) =
      CDone (w', ROk (RData b)) /\
    send (RData b) "errors" [] w' = CDone (w', ROk (RArray [RString [104; 105]])).
Proof.
  assert (Hok : cl_ok (cblistpush cblistopen [104; 105] 2))
    by (unfold cblistpush; apply pushbuf_sim, cblistopen_ok).
  split; [exact Hok|].
  exact (query_errors_reported (mkworld [IndexObj (Some 0%nat)] 0%nat : CW) 0 0%nat [104; 105] 0%nat
           [mkpair 1 10] (cblistpush cblistopen [104; 105] 2) eq_refl eq_refl Hok).
Defined.

Lemma add_word_list_stops_at_nil_witness :
  send (RData 0) "add_word_list" [RArray (map RString [[97]; [98]] ++ Qnil :: [RInt 5; Qtrue])]
    (mkworld [DocObj (Some 0%nat)] 0%nat : CW) =
    CDone (mkworld [DocObj (Some 0%nat)] 0%nat, ROk (RData 0)).
Proof.
  exact (add_word_list_stops_at_nil (mkworld [DocObj (Some 0%nat)] 0%nat : CW) 0 0%nat [[97]; [98]] _ eq_refl).
Defined.

Lemma add_content_adds_every_word_witness :
  cl_ok (cblistpush cblistopen [104] 1) /\ cl_ok (cblistpush cblistopen [] 0) /\
  send (RData 0) "add_content" [RData 1; RString [104]]
    (mkworld [DocObj (Some 0%nat); IndexObj (Some 0%nat)] 0%nat : CW) =
    CDone (mkworld [DocObj (Some 0%nat); IndexObj (Some 0%nat)]
             (fold_left (add_pair 0%nat) [([104], [])] 0%nat), ROk (RData 0)).
Proof.
  assert (Ha : cl_ok (cblistpush cblistopen [104] 1)) by (apply pushbuf_sim, cblistopen_ok).
  assert (Hn : cl_ok (cblistpush cblistopen [] 0)) by (apply pushbuf_sim, cblistopen_ok).
  split; [exact Ha|]. split; [exact Hn|].
  exact (add_content_adds_every_word (mkworld [DocObj (Some 0%nat); IndexObj (Some 0%nat)] 0%nat : CW)
           0 1 0%nat 0%nat [104] 0%nat _ _ eq_refl eq_refl eq_refl Ha Hn ltac:(vm_compute; lia)).
Defined.
