(* ===== verification/Villa.v ===== *)
(** * Villa: the database handle, the Depot store and the page manager

    The handle [VILLA] (villa.h 76-102) and the functions of villa.c that
    move pages between the caches and the Depot: [vlleafnew], [vlnodenew],
    [vlleafload], [vlnodeload], [vlleafsave], [vlnodesave],
    [vlleafcacheout], [vlnodecacheout], [vlcacheadjust], and the descent
    [vlsearchleaf].

    The Depot (depot.c, not part of the sources) is modelled from the
    specification as a finite map from record keys to byte strings; Villa
    stores a page under its id and its metadata under the negative keys
    [VL_ROOTKEY] .. [VL_RNUMKEY], always with [DP_DOVER].  The Depot's
    error code [dpecode] is a global in C and a field of the state here.

    The functions run in a state monad with failure: [vlm A] is
    [VILLA -> VILLA * option A], where [None] is the [FALSE], [NULL] or -1
    a C function returns on failure, and the state is the one reached at
    that point, as in C.  A page pointer returned by a load is the cache
    entry itself: the model passes the page id and reads and writes the
    entry ([leaf_get], [leaf_write]), so that two names for one page see
    each other's writes.  The code [VL_EUNDEF], which no Depot function
    sets, marks behaviour the C code leaves undefined: a read outside a
    page buffer, a loop that does not end, or a dangling page pointer.

    Not modelled: [zmode] (zlib), the average page sizes [avglsiz] and
    [avgnsiz], which only feed the alignment hint [dpsetalign], and I/O
    failures of the Depot, so that [dpput] always succeeds. *)

From Stdlib Require Import ZArith Lia List Bool.
From stdpp Require Import base gmap.
From S2P Require Import Prelude Varint Compare Search Leaf Node Cache Codec.
Import ListNotations.
Open Scope Z_scope.
Open Scope vl_scope.

(** ** The Depot *)

(** The error codes of depot.h the engine sets, and [VL_EUNDEF]. *)
Inductive dpecode := DP_ENOERR | DP_EMODE | DP_EBROKEN | DP_EKEEP | DP_ENOITEM | DP_EMISC | VL_EUNDEF.

(** A Depot database: its records and the flags word of its header. *)
Record depot := mkdepot { dp_recs : gmap Z (list Z); dp_flags : Z }.

(** [dpget] of a whole record, [dpput] with [DP_DOVER], [dprnum],
    [dpgetflags] and [dpsetflags]. *)
Definition dpget (d : depot) (k : Z) : option (list Z) := dp_recs d !! k.
Definition dpput (d : depot) (k : Z) (v : list Z) : depot := mkdepot (<[k := v]> (dp_recs d)) (dp_flags d).
Definition dprnum (d : depot) : Z := Z.of_nat (size (dp_recs d)).
Definition dpgetflags (d : depot) : Z := dp_flags d.
Definition dpsetflags (d : depot) (f : Z) : depot := mkdepot (dp_recs d) f.

Definition VL_ROOTKEY : Z := -1.
Definition VL_LASTKEY : Z := -2.
Definition VL_LNUMKEY : Z := -3.
Definition VL_NNUMKEY : Z := -4.
Definition VL_RNUMKEY : Z := -5.

(** [vldpputnum] and [vldpgetnum] (villa.c 1268-1290): an [int] stored as
    its [sizeof(int)] bytes. *)
Definition vldpputnum (d : depot) (knum vnum : Z) : depot := dpput d knum (int_key vnum).
Definition vldpgetnum (d : depot) (knum : Z) : option Z :=
  match dpget d knum with
  | Some b => if zlen b =? 4 then Some (native_int b) else None
  | None => None
  end.

(** ** The handle *)

(** [root], [last], [lnum], [nnum], [rnum], and their rollback copies
    [rbroot] .. [rbrnum]. *)
Record meta := mkmeta { m_root : Z; m_last : Z; m_lnum : Z; m_nnum : Z; m_rnum : Z }.

(** [curleaf], [curknum], [curvnum]. *)
Record cursor := mkcur { c_leaf : Z; c_knum : Z; c_vnum : Z }.

(** [leafrecmax], [nodeidxmax], [leafcnum], [nodecnum]. *)
Record tuning := mktune { t_leafrecmax : Z; t_nodeidxmax : Z; t_leafcnum : Z; t_nodecnum : Z }.

Record VILLA := mkvilla {
  vl_depot : depot; vl_ecode : dpecode; vl_wmode : bool;
  vl_meta : meta; vl_leafc : cbmap VLLEAF; vl_nodec : cbmap VLNODE;
  vl_cur : cursor; vl_tune : tuning; vl_tran : bool; vl_rb : meta }.

Definition set_depot d v := mkvilla d (vl_ecode v) (vl_wmode v) (vl_meta v) (vl_leafc v) (vl_nodec v) (vl_cur v) (vl_tune v) (vl_tran v) (vl_rb v).
Definition set_ecode e v := mkvilla (vl_depot v) e (vl_wmode v) (vl_meta v) (vl_leafc v) (vl_nodec v) (vl_cur v) (vl_tune v) (vl_tran v) (vl_rb v).
Definition set_meta m v := mkvilla (vl_depot v) (vl_ecode v) (vl_wmode v) m (vl_leafc v) (vl_nodec v) (vl_cur v) (vl_tune v) (vl_tran v) (vl_rb v).
Definition set_leafc c v := mkvilla (vl_depot v) (vl_ecode v) (vl_wmode v) (vl_meta v) c (vl_nodec v) (vl_cur v) (vl_tune v) (vl_tran v) (vl_rb v).
Definition set_nodec c v := mkvilla (vl_depot v) (vl_ecode v) (vl_wmode v) (vl_meta v) (vl_leafc v) c (vl_cur v) (vl_tune v) (vl_tran v) (vl_rb v).
Definition set_cur c v := mkvilla (vl_depot v) (vl_ecode v) (vl_wmode v) (vl_meta v) (vl_leafc v) (vl_nodec v) c (vl_tune v) (vl_tran v) (vl_rb v).
Definition set_tune t v := mkvilla (vl_depot v) (vl_ecode v) (vl_wmode v) (vl_meta v) (vl_leafc v) (vl_nodec v) (vl_cur v) t (vl_tran v) (vl_rb v).
Definition set_tran b v := mkvilla (vl_depot v) (vl_ecode v) (vl_wmode v) (vl_meta v) (vl_leafc v) (vl_nodec v) (vl_cur v) (vl_tune v) b (vl_rb v).
Definition set_rb m v := mkvilla (vl_depot v) (vl_ecode v) (vl_wmode v) (vl_meta v) (vl_leafc v) (vl_nodec v) (vl_cur v) (vl_tune v) (vl_tran v) m.

Definition with_root r m := mkmeta r (m_last m) (m_lnum m) (m_nnum m) (m_rnum m).
Definition with_last l m := mkmeta (m_root m) l (m_lnum m) (m_nnum m) (m_rnum m).
Definition with_lnum n m := mkmeta (m_root m) (m_last m) n (m_nnum m) (m_rnum m).
Definition with_nnum n m := mkmeta (m_root m) (m_last m) (m_lnum m) n (m_rnum m).
Definition with_rnum n m := mkmeta (m_root m) (m_last m) (m_lnum m) (m_nnum m) n.

(** ** The monad *)

Definition vlm (A : Type) : Type := VILLA -> VILLA * option A.

Definition ret {A} (a : A) : vlm A := fun v => (v, Some a).
Definition fail {A} : vlm A := fun v => (v, None).
Definition bind {A B} (m : vlm A) (k : A -> vlm B) : vlm B :=
  fun v => match m v with
           | (v', Some a) => k a v'
           | (v', None) => (v', None)
           end.

Declare Scope vlm_scope.
Delimit Scope vlm_scope with vlm.
Notation "'let*' x ':=' m 'in' k" := (bind m (fun x => k))
  (at level 10, x name, m at level 100, k at level 200) : vlm_scope.
Open Scope vlm_scope.

Definition gets {A} (f : VILLA -> A) : vlm A := fun v => (v, Some (f v)).
Definition modify (f : VILLA -> VILLA) : vlm unit := fun v => (f v, Some tt).

(** [dpecodeset(code, ...)]. *)
Definition dpecodeset (e : dpecode) : vlm unit := modify (set_ecode e).

(** A failure with the code set first, the common [dpecodeset]; [return]. *)
Definition fail_with {A} (e : dpecode) : vlm A := let* _ := dpecodeset e in fail.

(** Behaviour the C code leaves undefined. *)
Definition undefined {A} : vlm A := fail_with VL_EUNDEF.

Definition meta_update (f : meta -> meta) : vlm unit := modify (fun v => set_meta (f (vl_meta v)) v).

(** ** Pages reached through the caches *)

Section Pages.
Context (cmp : key -> key -> Z).

(** Dereferencing a [VLLEAF *] into the leaf cache; a pointer to an entry
    that is gone would dangle. *)
Definition leaf_get (id : Z) : vlm VLLEAF :=
  fun v => match cbmapget (vl_leafc v) id with
           | Some l => (v, Some l)
           | None => undefined v
           end.

(** A write through that pointer. *)
Definition leaf_write (id : Z) (f : VLLEAF -> VLLEAF) : vlm unit :=
  let* l := leaf_get id in
  modify (fun v => set_leafc (cbmap_replace (vl_leafc v) id (f l)) v).

Definition node_get (id : Z) : vlm VLNODE :=
  fun v => match cbmapget (vl_nodec v) id with
           | Some n => (v, Some n)
           | None => undefined v
           end.

Definition node_write (id : Z) (f : VLNODE -> VLNODE) : vlm unit :=
  let* n := node_get id in
  modify (fun v => set_nodec (cbmap_replace (vl_nodec v) id (f n)) v).

Definition set_leaf_dirty (b : bool) (l : VLLEAF) : VLLEAF :=
  mkleaf (leaf_id l) b (leaf_recs l) (leaf_prev l) (leaf_next l).
Definition set_node_dirty (b : bool) (n : VLNODE) : VLNODE :=
  mknode (node_id n) b (node_heir n) (node_idxs n).

(** [vlleafnew] (villa.c 1352-1363). *)
Definition vlleafnew (prev next : Z) : vlm Z :=
  let* m := gets vl_meta in
  let id := m_lnum m + VL_LEAFIDMIN in
  let* _ := meta_update (with_lnum (m_lnum m + 1)) in
  let* _ := modify (fun v => set_leafc (fst (cbmapput (vl_leafc v) id (mkleaf id true [] prev next) true)) v) in
  ret id.

(** [vlnodenew] (villa.c 1663-1673). *)
Definition vlnodenew (heir : Z) : vlm Z :=
  let* m := gets vl_meta in
  let id := m_nnum m + VL_NODEIDMIN in
  let* _ := meta_update (with_nnum (m_nnum m + 1)) in
  let* _ := modify (fun v => set_nodec (fst (cbmapput (vl_nodec v) id (mknode id true heir []) true)) v) in
  ret id.

(** [vlleafsave] (villa.c 1402-1468): the page goes to the Depot under the
    leaf's id and the leaf is clean. *)
Definition vlleafsave (id : Z) : vlm unit :=
  let* l := leaf_get id in
  let* _ := modify (fun v => set_depot (dpput (vl_depot v) (leaf_id l) (vlleafsave_buf l)) v) in
  leaf_write id (set_leaf_dirty false).

(** [vlnodesave] (villa.c 1705-1737). *)
Definition vlnodesave (id : Z) : vlm unit :=
  let* n := node_get id in
  let* _ := modify (fun v => set_depot (dpput (vl_depot v) (node_id n) (vlnodesave_buf n)) v) in
  node_write id (set_node_dirty false).

(** [vlleafcacheout] (villa.c 1370-1395): [Some ok] is the return value,
    false when the leaf is not cached. *)
Definition vlleafcacheout (id : Z) : vlm bool :=
  fun v => match cbmapget (vl_leafc v) id with
           | None => (v, Some false)
           | Some l =>
               let (v, ok) := if leaf_dirty l then vlleafsave id v else (v, Some tt) in
               (set_leafc (fst (cbmapout (vl_leafc v) id)) v, Some (match ok with Some _ => true | None => false end))
           end.

(** [vlnodecacheout] (villa.c 1680-1698). *)
Definition vlnodecacheout (id : Z) : vlm bool :=
  fun v => match cbmapget (vl_nodec v) id with
           | None => (v, Some false)
           | Some n =>
               let (v, ok) := if node_dirty n then vlnodesave id v else (v, Some tt) in
               (set_nodec (fst (cbmapout (vl_nodec v) id)) v, Some (match ok with Some _ => true | None => false end))
           end.

(** [vlleafload] (villa.c 1475-1554): a cached leaf moves to the end of
    the cache; otherwise the page is read and parsed and the leaf is
    cached.  The result is the page id, the pointer. *)
Definition vlleafload (id : Z) : vlm Z :=
  fun v => match cbmapget (vl_leafc v) id with
           | Some _ => (set_leafc (fst (cbmapmove (vl_leafc v) id false)) v, Some id)
           | None =>
               match dpget (vl_depot v) id with
               | None => fail_with DP_EBROKEN v
               | Some buf =>
                   match vlleafload_buf id buf with
                   | PDone l => (set_leafc (fst (cbmapput (vl_leafc v) id l true)) v, Some id)
                   | _ => undefined v
                   end
               end
           end.

(** [vlnodeload] (villa.c 1744-1789); a missing page is the [DP_ENOITEM]
    [dpget] sets, a negative heir a [NULL] with the code untouched. *)
Definition vlnodeload (id : Z) : vlm Z :=
  fun v => match cbmapget (vl_nodec v) id with
           | Some _ => (set_nodec (fst (cbmapmove (vl_nodec v) id false)) v, Some id)
           | None =>
               match dpget (vl_depot v) id with
               | None => fail_with DP_ENOITEM v
               | Some buf =>
                   match vlnodeload_buf id buf with
                   | PDone (Some n) => (set_nodec (fst (cbmapput (vl_nodec v) id n true)) v, Some id)
                   | PDone None => fail v
                   | _ => undefined v
                   end
               end
           end.

Definition VL_CACHEOUT : nat := 8.
Definition VL_LEVELMAX : Z := 64.

(** The [for(i = 0; i < VL_CACHEOUT; i++)] loops of [vlcacheadjust] over
    the first pages in iteration order; [cbmapiternext] moved on before
    the page was removed.  Running out of pages would dereference [NULL]. *)
Fixpoint leaf_cacheout_n (n : nat) (ids : list Z) (err : bool) : vlm bool :=
  match n with
  | O => ret err
  | S n' =>
      match ids with
      | [] => undefined
      | pid :: ids' => let* ok := vlleafcacheout pid in leaf_cacheout_n n' ids' (err || negb ok)
      end
  end.

Fixpoint node_cacheout_n (n : nat) (ids : list Z) (err : bool) : vlm bool :=
  match n with
  | O => ret err
  | S n' =>
      match ids with
      | [] => undefined
      | pid :: ids' => let* ok := vlnodecacheout pid in node_cacheout_n n' ids' (err || negb ok)
      end
  end.

(** [vlcacheadjust] (villa.c 1902-1923): a cache over its limit gives up
    its [VL_CACHEOUT] oldest pages. *)
Definition vlcacheadjust : vlm unit :=
  let* v := gets (fun v => v) in
  let* e1 := if t_leafcnum (vl_tune v) <? cbmaprnum (vl_leafc v)
             then leaf_cacheout_n VL_CACHEOUT (cbmap_iter (vl_leafc v)) false else ret false in
  let* v := gets (fun v => v) in
  let* e2 := if t_nodecnum (vl_tune v) <? cbmaprnum (vl_nodec v)
             then node_cacheout_n VL_CACHEOUT (cbmap_iter (vl_nodec v)) false else ret false in
  if e1 || e2 then fail else ret tt.

(** [if(!villa->tran && !vlcacheadjust(villa)) return FALSE], which ends
    most public functions. *)
Definition adjust_unless_tran : vlm unit :=
  let* tr := gets vl_tran in
  if tr then ret tt else vlcacheadjust.

(** A failed call turned into [DP_EBROKEN]. *)
Definition or_broken {A} (m : vlm A) : vlm A :=
  fun v => match m v with
           | (v', None) => fail_with DP_EBROKEN v'
           | r => r
           end.

(** The descent loop of [vlsearchleaf] (villa.c 1848-1896).  [hist] is
    [None] for a [NULL] history; with one, a descent past [VL_LEVELMAX]
    levels would write past the array.  The result is the leaf id and the
    nodes visited, root first. *)
Fixpoint searchleaf_loop (fuel : nat) (k : key) (pid : Z) (hist : option (list Z))
  : vlm (Z * option (list Z)) :=
  match fuel with
  | O => undefined
  | S f =>
      if VL_NODEIDMIN <=? pid then
        let* _ := or_broken (vlnodeload pid) in
        let* n := node_get pid in
        if zlen (node_idxs n) <? 1 then fail_with DP_EBROKEN
        else
          let* hist' := match hist with
                        | None => ret None
                        | Some h => if VL_LEVELMAX <=? zlen h then undefined
                                    else ret (Some (h ++ [node_id n]))
                        end in
          match vlsearchleaf_child cmp k n with
          | Some pid' => searchleaf_loop f k pid' hist'
          | None => undefined
          end
      else ret (pid, hist)
  end.

(** [vlsearchleaf] from the root.  Each round descends one level; the
    nodes of a path are distinct and their ids lie in
    [VL_NODEIDMIN, VL_NODEIDMIN + nnum), so [nnum + 1] rounds reach the
    leaf of any tree without a cycle, where the C loop would not end. *)
Definition vlsearchleaf (k : key) (with_hist : bool) : vlm (Z * option (list Z)) :=
  let* m := gets vl_meta in
  searchleaf_loop (S (Z.to_nat (m_nnum m))) k (m_root m) (if with_hist then Some [] else None).
End Pages.

(** ** Frame rules: what a call leaves alone *)

(** [keeps f m]: running [m] never changes the observation [f]. *)
Definition keeps {X A} (f : VILLA -> X) (m : vlm A) : Prop := forall v, f (fst (m v)) = f v.

Section Keeps.
Context {X : Type} (f : VILLA -> X).

Lemma keeps_ret {A} (a : A) : keeps f (ret a).
Proof. intros v. reflexivity. Qed.

Lemma keeps_fail {A} : keeps f (@fail A).
Proof. intros v. reflexivity. Qed.

Lemma keeps_gets {A} (g : VILLA -> A) : keeps f (gets g).
Proof. intros v. reflexivity. Qed.

Lemma keeps_modify (h : VILLA -> VILLA) : (forall v, f (h v) = f v) -> keeps f (modify h).
Proof. intros H v. apply H. Qed.

Lemma keeps_bind {A B} (m : vlm A) (k : A -> vlm B) :
  keeps f m -> (forall a, keeps f (k a)) -> keeps f (bind m k).
Proof.
  intros Hm Hk v. unfold bind. specialize (Hm v).
  destruct (m v) as [v' [a|]]; cbn in *; [rewrite Hk|]; exact Hm.
Qed.

Lemma keeps_if {A} (b : bool) (m1 m2 : vlm A) : keeps f m1 -> keeps f m2 -> keeps f (if b then m1 else m2).
Proof. destruct b; auto. Qed.
End Keeps.

#[export] Hint Resolve keeps_ret keeps_fail keeps_gets keeps_bind keeps_if : vl.

(** Apply the frame rules through a chain of binds, leaving the calls
    that are not binds, returns or reads. *)
Ltac keeps_chain :=
  repeat match goal with
  | |- keeps _ (bind _ _) => apply keeps_bind; [|intros ?]
  | |- keeps _ (ret _) => apply keeps_ret
  | |- keeps _ fail => apply keeps_fail
  | |- keeps _ (gets _) => apply keeps_gets
  | |- keeps _ (if _ then _ else _) => apply keeps_if
  | |- keeps _ (match ?x with _ => _ end) => destruct x
  end.

(** ** The frame of the page primitives

    A view [f] of the handle that writing the Depot, the error code or
    the caches leaves alone (the metadata, the rollback copy, the record
    count) is kept by every primitive that only does those writes. *)

Section Frame.
Context {X : Type} (f : VILLA -> X).
Hypothesis Hdepot : forall d v, f (set_depot d v) = f v.
Hypothesis Hecode : forall e v, f (set_ecode e v) = f v.
Hypothesis Hleafc : forall c v, f (set_leafc c v) = f v.
Hypothesis Hnodec : forall c v, f (set_nodec c v) = f v.

Lemma frame_dpecodeset e : keeps f (dpecodeset e).
Proof. intros v. apply Hecode. Qed.

Lemma frame_fail_with {A} e : keeps f (@fail_with A e).
Proof. unfold fail_with. keeps_chain. apply frame_dpecodeset. Qed.

Lemma frame_undefined {A} : keeps f (@undefined A).
Proof. apply frame_fail_with. Qed.

Lemma frame_leaf_get id : keeps f (leaf_get id).
Proof. intros v. unfold leaf_get. destruct (cbmapget _ id); [reflexivity | apply frame_undefined]. Qed.

Lemma frame_node_get id : keeps f (node_get id).
Proof. intros v. unfold node_get. destruct (cbmapget _ id); [reflexivity | apply frame_undefined]. Qed.

Lemma frame_leaf_write id g : keeps f (leaf_write id g).
Proof. unfold leaf_write. keeps_chain; [apply frame_leaf_get | apply keeps_modify; intros; apply Hleafc]. Qed.

Lemma frame_node_write id g : keeps f (node_write id g).
Proof. unfold node_write. keeps_chain; [apply frame_node_get | apply keeps_modify; intros; apply Hnodec]. Qed.

Lemma frame_vlleafsave id : keeps f (vlleafsave id).
Proof.
  unfold vlleafsave.
  keeps_chain; [apply frame_leaf_get | apply keeps_modify; intros; apply Hdepot | apply frame_leaf_write].
Qed.

Lemma frame_vlnodesave id : keeps f (vlnodesave id).
Proof.
  unfold vlnodesave.
  keeps_chain; [apply frame_node_get | apply keeps_modify; intros; apply Hdepot | apply frame_node_write].
Qed.

Lemma frame_vlleafcacheout id : keeps f (vlleafcacheout id).
Proof.
  intros v. unfold vlleafcacheout. destruct (cbmapget _ id) as [l|]; [|reflexivity].
  destruct (leaf_dirty l); [|apply Hleafc].
  pose proof (frame_vlleafsave id v) as H. destruct (vlleafsave id v). cbn. rewrite Hleafc. exact H.
Qed.

Lemma frame_vlnodecacheout id : keeps f (vlnodecacheout id).
Proof.
  intros v. unfold vlnodecacheout. destruct (cbmapget _ id) as [n|]; [|reflexivity].
  destruct (node_dirty n); [|apply Hnodec].
  pose proof (frame_vlnodesave id v) as H. destruct (vlnodesave id v). cbn. rewrite Hnodec. exact H.
Qed.

Lemma frame_leaf_cacheout_n n ids e : keeps f (leaf_cacheout_n n ids e).
Proof.
  revert ids e. induction n as [|n IH]; intros [|id ids] e; cbn [leaf_cacheout_n]; keeps_chain;
    auto using frame_undefined, frame_vlleafcacheout.
Qed.

Lemma frame_node_cacheout_n n ids e : keeps f (node_cacheout_n n ids e).
Proof.
  revert ids e. induction n as [|n IH]; intros [|id ids] e; cbn [node_cacheout_n]; keeps_chain;
    auto using frame_undefined, frame_vlnodecacheout.
Qed.

Lemma frame_vlcacheadjust : keeps f vlcacheadjust.
Proof. unfold vlcacheadjust. keeps_chain; auto using frame_leaf_cacheout_n, frame_node_cacheout_n. Qed.
End Frame.

(** A frame lemma at a view whose four side conditions hold by computation. *)
Tactic Notation "frame_by" open_constr(L) := eapply L; intros; reflexivity.

(** ** The record count is only moved by the record operations *)

Definition rnum_of (v : VILLA) : Z := m_rnum (vl_meta v).

(** Unfold a primitive and follow its cases. *)
Ltac prim_cases :=
  intros ?v; cbv beta delta [bind ret fail gets modify dpecodeset fail_with undefined] in *;
  repeat (cbn [fst snd] in *; match goal with
          | |- context [match ?x with _ => _ end] => destruct x eqn:?
          | |- context [if ?x then _ else _] => destruct x eqn:?
          end); cbn; try reflexivity.

Section RnumFrame.
Context (cmp : key -> key -> Z).

Lemma rnum_dpecodeset e : keeps rnum_of (dpecodeset e).
Proof. frame_by frame_dpecodeset. Qed.

Lemma rnum_fail_with {A} e : keeps rnum_of (@fail_with A e).
Proof. frame_by frame_fail_with. Qed.

Lemma rnum_undefined {A} : keeps rnum_of (@undefined A).
Proof. frame_by frame_undefined. Qed.

Lemma rnum_leaf_get id : keeps rnum_of (leaf_get id).
Proof. frame_by frame_leaf_get. Qed.

Lemma rnum_node_get id : keeps rnum_of (node_get id).
Proof. frame_by frame_node_get. Qed.

Lemma rnum_leaf_write id f : keeps rnum_of (leaf_write id f).
Proof. frame_by frame_leaf_write. Qed.

Lemma rnum_node_write id f : keeps rnum_of (node_write id f).
Proof. frame_by frame_node_write. Qed.

Lemma rnum_vlleafnew p n : keeps rnum_of (vlleafnew p n).
Proof. unfold vlleafnew, meta_update. keeps_chain; apply keeps_modify; reflexivity. Qed.

Lemma rnum_vlnodenew h : keeps rnum_of (vlnodenew h).
Proof. unfold vlnodenew, meta_update. keeps_chain; apply keeps_modify; reflexivity. Qed.

Lemma rnum_vlleafload id : keeps rnum_of (vlleafload id).
Proof. unfold vlleafload. prim_cases. Qed.

Lemma rnum_vlnodeload id : keeps rnum_of (vlnodeload id).
Proof. unfold vlnodeload. prim_cases. Qed.

Lemma rnum_vlcacheadjust : keeps rnum_of vlcacheadjust.
Proof. frame_by frame_vlcacheadjust. Qed.

Lemma rnum_adjust_unless_tran : keeps rnum_of adjust_unless_tran.
Proof. unfold adjust_unless_tran. keeps_chain; apply rnum_vlcacheadjust. Qed.

Lemma rnum_or_broken {A} (m : vlm A) : keeps rnum_of m -> keeps rnum_of (or_broken m).
Proof. intros H v. unfold or_broken. specialize (H v). destruct (m v) as [v' [a|]]; exact H. Qed.

Lemma rnum_searchleaf_loop fuel k pid h : keeps rnum_of (searchleaf_loop cmp fuel k pid h).
Proof.
  revert pid h. induction fuel as [|fuel IH]; intros pid h; cbn [searchleaf_loop]; keeps_chain;
    auto using rnum_undefined, rnum_fail_with, rnum_node_get, rnum_or_broken, rnum_vlnodeload.
Qed.

Lemma rnum_vlsearchleaf k b : keeps rnum_of (vlsearchleaf cmp k b).
Proof. unfold vlsearchleaf. keeps_chain. apply rnum_searchleaf_loop. Qed.
End RnumFrame.

#[export] Hint Resolve rnum_dpecodeset rnum_fail_with rnum_undefined rnum_leaf_get rnum_node_get
  rnum_leaf_write rnum_node_write rnum_vlleafnew rnum_vlnodenew rnum_vlleafload rnum_vlnodeload
  rnum_adjust_unless_tran rnum_vlcacheadjust rnum_vlsearchleaf : vl.

(** ** Running a chain of binds *)

Lemma bind_some {A B} (m : vlm A) (k : A -> vlm B) v v' b :
  bind m k v = (v', Some b) -> exists v1 a, m v = (v1, Some a) /\ k a v1 = (v', Some b).
Proof. unfold bind. destruct (m v) as [v1 [a|]]; [eauto | discriminate]. Qed.

Lemma keeps_run {X A} (f : VILLA -> X) (m : vlm A) v v' r : keeps f m -> m v = (v', r) -> f v' = f v.
Proof. intros H E. specialize (H v). rewrite E in H. exact H. Qed.

(** A call that sets an error code and fails does not succeed. *)
Lemma fail_with_some {A} e v v' (a : A) : fail_with e v <> (v', Some a).
Proof. intros H. apply (f_equal snd) in H. discriminate H. Qed.

(** Split a successful run of [m1; ...; mn] into its steps. *)
Ltac run_steps H :=
  repeat (let v := fresh "v" in let a := fresh "a" in let E := fresh "E" in
          apply bind_some in H; destruct H as (v & a & E & H)).
