(* ===== verification/Engine.v ===== *)
(** * Engine: storing, deleting and retrieving records (villa.c 209-463)

    [vlput] with the leaf split [vlleafdivide] and the propagation of
    splits up the recorded path, [vlout], [vlget], [vlvnum], [vlputlist],
    [vloutlist], [vlgetlist] and [vlgetcat], each the sequence of calls the
    C function makes, in the monad of [Villa]; the record count of [vlput]
    and [vlout], and the content and links of the two leaves
    [vlleafdivide] leaves (section [LeafSplit]). *)

From Stdlib Require Import ZArith Lia List Bool.
From stdpp Require Import base gmap.
From S2P Require Import Prelude Varint Compare Search Leaf Node Cache Codec Villa.
Import ListNotations.
Open Scope Z_scope.
Open Scope vl_scope.
Open Scope vlm_scope.

Section Engine.
Context (cmp : key -> key -> Z).

(** [villa->curleaf = -1; villa->curknum = -1; villa->curvnum = -1;] *)
Definition reset_cursor : vlm unit := modify (set_cur (mkcur (-1) (-1) (-1))).

(** [if(!villa->wmode){ dpecodeset(code); return FALSE; }] *)
Definition need_writer (e : dpecode) : vlm unit :=
  let* w := gets vl_wmode in
  if w then ret tt else fail_with e.

(** [vlleafdivide] (villa.c 1631-1656): the records from [mid] on move to a
    new leaf linked after the old one; the result is the new leaf's id. *)
Definition vlleafdivide (id : Z) : vlm Z :=
  let* l := leaf_get id in
  let mid := zlen (leaf_recs l) / 2 in
  let* nid := vlleafnew (leaf_id l) (leaf_next l) in
  let* nl := leaf_get nid in
  let* _ := if leaf_next nl =? -1 then ret tt
            else
              let* nx := vlleafload (leaf_next nl) in
              leaf_write nx (fun x => mkleaf (leaf_id x) true (leaf_recs x) nid (leaf_next x)) in
  let* _ := leaf_write id (fun x => mkleaf (leaf_id x) true (leaf_recs x) (leaf_prev x) nid) in
  let* l := leaf_get id in
  let* _ := leaf_write nid (fun x => mkleaf (leaf_id x) (leaf_dirty x)
                                        (leaf_recs x ++ skipn (Z.to_nat mid) (leaf_recs l))
                                        (leaf_prev x) (leaf_next x)) in
  let* nl := leaf_get nid in
  let* _ := leaf_write id (fun x => mkleaf (leaf_id x) (leaf_dirty x)
                                       (firstn (length (leaf_recs x) - length (leaf_recs nl)) (leaf_recs x))
                                       (leaf_prev x) (leaf_next x)) in
  ret nid.

(** The [while(TRUE)] loop of [vlput] (villa.c 235-271) that inserts the
    separator [k] of the new page [pid] into the parents, popped from the
    end of the history ([stack] is the history reversed), splitting every
    parent that then holds an odd number of entries above [nodeidxmax]; a
    new root is made when the history is used up. *)
Fixpoint split_up (stack : list Z) (heir pid : Z) (k : key) : vlm unit :=
  match stack with
  | [] =>
      let* nid := vlnodenew heir in
      let* _ := node_write nid (vlnodeaddidx cmp true pid k) in
      meta_update (with_root nid)
  | parent :: rest =>
      let* nid := vlnodeload parent in
      let* _ := node_write nid (vlnodeaddidx cmp false pid k) in
      let* n := node_get nid in
      let* t := gets vl_tune in
      let ln := zlen (node_idxs n) in
      if (ln <=? t_nodeidxmax t) || (ln mod 2 =? 0) then ret tt
      else
        let mid := ln / 2 in
        match nth_error (node_idxs n) (Z.to_nat mid) with
        | None => undefined
        | Some idxp =>
            let* newid := vlnodenew (idx_pid idxp) in
            let* _ := node_write newid (fun x =>
                        fold_left (fun acc e => vlnodeaddidx cmp true (idx_pid e) (idx_key e) acc)
                                  (skipn (S (Z.to_nat mid)) (node_idxs n)) x) in
            let* _ := node_write nid (fun x =>
                        mknode (node_id x) true (node_heir x)
                               (firstn (length (node_idxs x) - S (Z.to_nat mid)) (node_idxs x))) in
            split_up rest (node_id n) newid (idx_key idxp)
        end
  end.

(** [vlput] (villa.c 209-275). *)
Definition vlput (k v : list Z) (dm : dmode) : vlm unit :=
  let* _ := reset_cursor in
  let* _ := need_writer DP_EMODE in
  let* r := vlsearchleaf cmp k true in
  let '(pid, hist) := r in
  let* id := vlleafload pid in
  let* l := leaf_get id in
  let* rn := gets (fun v => m_rnum (vl_meta v)) in
  match vlleafaddrec cmp dm k v l rn with
  | None => fail_with DP_EKEEP
  | Some (l', rn') =>
      let* _ := leaf_write id (fun _ => l') in
      let* _ := meta_update (with_rnum rn') in
      let* l := leaf_get id in
      let* t := gets vl_tune in
      let ln := zlen (leaf_recs l) in
      let* _ :=
        if (t_leafrecmax t <? ln) && (ln mod 2 =? 0) then
          let* nid := vlleafdivide id in
          let* m := gets vl_meta in
          let* _ := if leaf_id l =? m_last m then meta_update (with_last nid) else ret tt in
          let* nl := leaf_get nid in
          match leaf_recs nl with
          | r :: _ => split_up (rev (match hist with Some h => h | None => [] end)) (leaf_id l) nid (rec_key r)
          | [] => undefined
          end
        else ret tt in
      adjust_unless_tran
  end.

(** The leaf [vlput] adds the record to: its steps before
    [vlleafaddrec], the search from the root and the load of the leaf. *)
Definition put_leaf (k : list Z) : vlm VLLEAF :=
  let* _ := reset_cursor in
  let* _ := need_writer DP_EMODE in
  let* r := vlsearchleaf cmp k true in
  let '(pid, hist) := r in
  let* id := vlleafload pid in
  leaf_get id.

(** [vlout] (villa.c 280-318). *)
Definition vlout (k : key) : vlm unit :=
  let* _ := reset_cursor in
  let* _ := need_writer DP_EMODE in
  let* r := vlsearchleaf cmp k false in
  let* id := vlleafload (fst r) in
  let* l := leaf_get id in
  match vlrecsearch cmp (leaf_recs l) k with
  | (None, _) => fail_with DP_ENOITEM
  | (Some _, ri) =>
      let* _ := leaf_write id (fun x => mkleaf (leaf_id x) true (vlout_recs (leaf_recs x) ri)
                                              (leaf_prev x) (leaf_next x)) in
      let* _ := meta_update (fun m => with_rnum (m_rnum m - 1) m) in
      adjust_unless_tran
  end.

(** The record [vlrecsearch] finds in the leaf [vlsearchleaf] selects, as
    the pointer [recp]: the leaf's id and the record's index. *)
Definition find_rec (k : key) : vlm (Z * Z) :=
  let* r := vlsearchleaf cmp k false in
  let* id := vlleafload (fst r) in
  let* l := leaf_get id in
  match vlrecsearch cmp (leaf_recs l) k with
  | (None, _) => fail_with DP_ENOITEM
  | (Some _, ri) => ret (id, ri)
  end.

(** Dereferencing [recp]. *)
Definition rec_get (id ri : Z) : vlm VLREC :=
  let* l := leaf_get id in
  match nth_error (leaf_recs l) (Z.to_nat ri) with
  | Some r => ret r
  | None => undefined
  end.

(** [vlget] (villa.c 322-337): the first value, read through [recp] after
    the cache adjustment. *)
Definition vlget (k : key) : vlm (list Z) :=
  let* p := find_rec k in
  let* _ := adjust_unless_tran in
  let* r := rec_get (fst p) (snd p) in
  ret (rec_first r).

(** [vlvnum] (villa.c 341-355): 0 on failure. *)
Definition vlvnum (k : key) : vlm Z :=
  fun v => match find_rec k v with
           | (v, None) => (v, Some 0)
           | (v, Some (id, ri)) =>
               match adjust_unless_tran v with
               | (v, None) => (v, Some 0)
               | (v, Some _) =>
                   (let* r := rec_get id ri in ret (1 + zlen (rec_rest r))) v
               end
           end.

(** [vlgetlist] (villa.c 398-425): the values are copied before the cache
    adjustment. *)
Definition vlgetlist (k : key) : vlm (list (list Z)) :=
  let* p := find_rec k in
  let* r := rec_get (fst p) (snd p) in
  let vals := rec_first r :: rec_rest r in
  let* _ := adjust_unless_tran in
  ret vals.

(** [vlgetcat] (villa.c 429-459). *)
Definition vlgetcat (k : key) : vlm (list Z) :=
  let* p := find_rec k in
  let* r := rec_get (fst p) (snd p) in
  let cat := rec_first r ++ concat (rec_rest r) in
  let* _ := adjust_unless_tran in
  ret cat.

(** The loop of [vlputlist] (villa.c 372-375). *)
Fixpoint put_each (k : key) (vals : list (list Z)) : vlm unit :=
  match vals with
  | [] => ret tt
  | v :: vs => let* _ := vlput k v VL_DDUP in put_each k vs
  end.

(** [vlputlist] (villa.c 359-377). *)
Definition vlputlist (k : key) (vals : list (list Z)) : vlm unit :=
  let* _ := need_writer DP_EMODE in
  match vals with
  | [] => fail_with DP_EMISC
  | _ => put_each k vals
  end.

(** The loop of [vloutlist] (villa.c 388-390). *)
Fixpoint out_n (k : key) (n : nat) : vlm unit :=
  match n with
  | O => ret tt
  | S n' => let* _ := vlout k in out_n k n'
  end.

(** [vloutlist] (villa.c 381-392): a reader gets [DP_EMISC]. *)
Definition vloutlist (k : key) : vlm unit :=
  let* _ := need_writer DP_EMISC in
  let* n := vlvnum k in
  if n <? 1 then fail else out_n k (Z.to_nat n).

(** [vllnum], [vlnnum], [vlrnum], [vlwritable] (villa.c 819-843). *)
Definition vllnum : vlm Z := gets (fun v => m_lnum (vl_meta v)).
Definition vlnnum : vlm Z := gets (fun v => m_nnum (vl_meta v)).
Definition vlrnum : vlm Z := gets (fun v => m_rnum (vl_meta v)).
Definition vlwritable : vlm bool := gets vl_wmode.
End Engine.

(** ** The record count *)

Section EngineRnum.
Context (cmp : key -> key -> Z).

Lemma rnum_reset_cursor : keeps rnum_of reset_cursor.
Proof. intros v. reflexivity. Qed.

Lemma rnum_need_writer e : keeps rnum_of (need_writer e).
Proof. unfold need_writer. keeps_chain; auto with vl. Qed.

Lemma rnum_meta_update f : (forall m, m_rnum (f m) = m_rnum m) -> keeps rnum_of (meta_update f).
Proof. intros H v. apply H. Qed.

Lemma rnum_vlleafdivide id : keeps rnum_of (vlleafdivide id).
Proof. unfold vlleafdivide. keeps_chain; auto with vl. Qed.

Lemma rnum_split_up stack heir pid k : keeps rnum_of (split_up cmp stack heir pid k).
Proof.
  revert heir pid k. induction stack as [|p st IH]; intros heir pid k; cbn [split_up];
    keeps_chain; auto with vl; apply rnum_meta_update; reflexivity.
Qed.


Lemma addrec_apply_delta dm k x recs res recs' d :
  addrec_apply dm k x recs res = Some (recs', d) -> d = 1 \/ (dm = VL_DOVER /\ d = 0).
Proof.
  unfold addrec_apply. destruct res as [[j []]|]; [destruct dm| |]; intros H; inversion H; auto.
Qed.

Lemma vlleafaddrec_delta dm k x l rn l' rn' :
  vlleafaddrec cmp dm k x l rn = Some (l', rn') -> rn' = rn + 1 \/ (dm = VL_DOVER /\ rn' = rn).
Proof.
  unfold vlleafaddrec, leafaddrec_recs. destruct (addrec_apply _ _ _ _ _) as [[recs d]|] eqn:E;
    [|discriminate]. intros H. inversion H. subst.
  destruct (addrec_apply_delta _ _ _ _ _ _ _ E) as [->|[-> ->]]; [left; lia | right; split; [reflexivity | lia]].
Qed.
(** On a sorted leaf the count moves by [put_delta]: 0 exactly when
    [VL_DOVER] finds the key there. *)
Lemma vlleafaddrec_put_delta `{!Comparator cmp} dm k x l rn l' rn' :
  key_sorted rec_key cmp (leaf_recs l) -> vlleafaddrec cmp dm k x l rn = Some (l', rn') ->
  rn' = rn + put_delta cmp dm k (leaf_recs l).
Proof.
  intros Hs. unfold vlleafaddrec. rewrite (leafaddrec_recs_ref cmp dm k x _ Hs).
  destruct (ref_put cmp dm k x (leaf_recs l)); cbn; intros H; inversion H; reflexivity.
Qed.
End EngineRnum.

#[export] Hint Resolve rnum_reset_cursor rnum_need_writer rnum_vlleafdivide rnum_split_up : vl.

(** Record, for each step [E : m v = (v', _)] of a run, that the step
    kept [rnum], and forget the step. *)
Ltac rnum_steps :=
  repeat match goal with
  | E : ?m ?v = (?v', ?r) |- _ =>
      let H := fresh "K" in
      assert (H : rnum_of v' = rnum_of v)
        by (apply (keeps_run rnum_of m v v' r); [|exact E];
            keeps_chain; auto with vl; apply rnum_meta_update; reflexivity);
      clear E
  end.

Section EngineTheorems.
Context (cmp : key -> key -> Z).

(** C2: A successful [vlput] on a database whose target leaf is sorted
    moves [villa->rnum] by [put_delta]: by 1, except by 0 when [VL_DOVER]
    replaces the value of a key already in the leaf [put_leaf] reaches;
    the split of a leaf and its propagation to the parents do not touch
    the count. *)
Theorem vlput_rnum `{!Comparator cmp} (k x : list Z) (dm : dmode) (v v' : VILLA) (l : VLLEAF) :
  snd (put_leaf cmp k v) = Some l -> key_sorted rec_key cmp (leaf_recs l) ->
  vlput cmp k x dm v = (v', Some tt) ->
  rnum_of v' = rnum_of v + put_delta cmp dm k (leaf_recs l).
Proof.
  unfold vlput. intros Hl Hs H. run_steps H. destruct a1 as [pid hist]. run_steps H.
  unfold put_leaf, bind in Hl. rewrite E, E0, E1, E2, E3 in Hl. cbn in Hl. injection Hl as ->.
  destruct (vlleafaddrec cmp dm k x l a3) as [[l' rn']|] eqn:A; [|discriminate H].
  run_steps H. apply (vlleafaddrec_put_delta _ _ _ _ _ _ _ _ Hs) in A.
  unfold gets in E4. inversion E4; subst. clear E4.
  unfold meta_update, modify in E6. inversion E6; subst. clear E6.
  rnum_steps. unfold rnum_of in *. cbn in *. lia.
Qed.

(** C33: A successful [vlout] takes one off [villa->rnum]: one value of the key
    goes, the first duplicate moving up or the record going. *)
Theorem vlout_rnum (k : key) (v v' : VILLA) :
  vlout cmp k v = (v', Some tt) -> rnum_of v' = rnum_of v - 1.
Proof.
  unfold vlout. intros H. run_steps H.
  destruct (vlrecsearch cmp (leaf_recs a3) k) as [[r|] ri]; [|discriminate H].
  run_steps H. unfold meta_update, modify in E5. inversion E5; subst. clear E5.
  rnum_steps. unfold rnum_of in *. cbn in *. lia.
Qed.

(** On a reader [vlput] fails with [DP_EMODE] after resetting the cursor,
    and changes nothing else. *)
Theorem vlput_reader (k x : list Z) (dm : dmode) (v : VILLA) :
  vl_wmode v = false ->
  vlput cmp k x dm v = (set_ecode DP_EMODE (set_cur (mkcur (-1) (-1) (-1)) v), None).
Proof. intros W. destruct v; cbn in W; subst. reflexivity. Qed.

(** [vloutlist] on a reader fails with [DP_EMISC], where [vlput],
    [vlout] and [vlputlist] report [DP_EMODE]. *)
Theorem vloutlist_reader_code (k : key) (v : VILLA) :
  vl_wmode v = false ->
  vloutlist cmp k v = (set_ecode DP_EMISC v, None) /\
  snd (vlout cmp k v) = None /\ vl_ecode (fst (vlout cmp k v)) = DP_EMODE.
Proof. intros W. destruct v; cbn in W; subst. repeat split; reflexivity. Qed.
End EngineTheorems.

(** ** The leaf split *)

Section LeafSplit.

(** The steps of [vlleafdivide] as changes of the leaf cache. *)
Lemma leaf_get_run k v v' x : leaf_get k v = (v', Some x) -> v' = v /\ cbmapget (vl_leafc v) k = Some x.
Proof.
  unfold leaf_get. destruct (cbmapget _ k) eqn:G; intros H; [injection H as <- <-; auto|].
  destruct (fail_with_some _ _ _ _ H).
Qed.

Lemma leaf_write_run k f v v' u : cbmap_ok (vl_leafc v) -> leaf_write k f v = (v', Some u) ->
  cbmap_ok (vl_leafc v') /\ exists x, cbmapget (vl_leafc v) k = Some x /\
  forall k', cbmapget (vl_leafc v') k' = if k =? k' then Some (f x) else cbmapget (vl_leafc v) k'.
Proof.
  unfold leaf_write, bind, modify. intros Hok H.
  destruct (leaf_get k v) as [v1 [x|]] eqn:E; [|discriminate H].
  apply leaf_get_run in E as [-> G]. injection H as <- _. cbn.
  split; [unfold cbmap_ok; rewrite cbmap_replace_keys; exact Hok|].
  exists x. split; [exact G|]. intros k'. exact (cbmap_replace_get _ _ _ _ (cbmapget_In _ _ _ G)).
Qed.

Lemma vlleafnew_run p n v v' nid : cbmap_ok (vl_leafc v) -> vlleafnew p n v = (v', Some nid) ->
  nid = m_lnum (vl_meta v) + VL_LEAFIDMIN /\ cbmap_ok (vl_leafc v') /\
  forall k, cbmapget (vl_leafc v') k = if nid =? k then Some (mkleaf nid true [] p n) else cbmapget (vl_leafc v) k.
Proof.
  unfold vlleafnew, meta_update, bind, gets, modify, ret. intros Hok H. injection H as <- <-. cbn.
  destruct (cbmapput_spec (vl_leafc v) (m_lnum (vl_meta v) + VL_LEAFIDMIN)
              (mkleaf (m_lnum (vl_meta v) + VL_LEAFIDMIN) true [] p n) Hok) as (A & B & _).
  split; [reflexivity | split; [exact A | exact B]].
Qed.

Lemma vlleafload_run x v v' r : cbmap_ok (vl_leafc v) -> vlleafload x v = (v', Some r) ->
  r = x /\ cbmap_ok (vl_leafc v') /\ forall k, k <> x -> cbmapget (vl_leafc v') k = cbmapget (vl_leafc v) k.
Proof.
  unfold vlleafload. intros Hok H. destruct (cbmapget (vl_leafc v) x) as [y|] eqn:G.
  - injection H as <- <-. cbn. destruct (cbmapmove_spec _ x y Hok G) as (A & B & _). auto.
  - destruct (dpget (vl_depot v) x) as [buf|]; [|destruct (fail_with_some _ _ _ _ H)].
    destruct (vlleafload_buf x buf) as [l| | ]; try destruct (fail_with_some _ _ _ _ H).
    injection H as <- <-. cbn. destruct (cbmapput_spec _ x l Hok) as (A & B & _).
    split; [reflexivity | split; [exact A|]]. intros k Hk. rewrite B. cbn. destruct (Z.eqb_spec x k); congruence.
Qed.

(** The link of the leaf after the split one back to the new leaf only
    changes the cache at that leaf. *)
Lemma link_next_run nx nid v v' u : cbmap_ok (vl_leafc v) ->
  (if nx =? -1 then ret tt
   else let* x := vlleafload nx in
        leaf_write x (fun x => mkleaf (leaf_id x) true (leaf_recs x) nid (leaf_next x))) v = (v', Some u) ->
  cbmap_ok (vl_leafc v') /\ forall k, k <> nx -> cbmapget (vl_leafc v') k = cbmapget (vl_leafc v) k.
Proof.
  intros Hok H. destruct (nx =? -1); [injection H as <- _; auto|].
  unfold bind in H. destruct (vlleafload nx v) as [v1 [x|]] eqn:L; [|discriminate H].
  apply vlleafload_run in L as (-> & Ok1 & G1); [|exact Hok].
  apply leaf_write_run in H as (Ok2 & y & _ & G2); [|exact Ok1].
  split; [exact Ok2|]. intros k Hk. rewrite G2. destruct (Z.eqb_spec nx k); [congruence|]. auto.
Qed.

Lemma zlen_half {A} (xs : list A) : Z.to_nat (zlen xs / 2) = (length xs / 2)%nat.
Proof. unfold zlen. change 2 with (Z.of_nat 2). rewrite <- Nat2Z.inj_div. apply Nat2Z.id. Qed.

(** C4: [vlleafdivide] (villa.c 1631-1656) on a cached leaf [l], in a
    leaf cache with one entry per page, when the id [lnum + 1] the new leaf
    gets is not cached and is not the link [l] has to its next leaf (nor is
    [l] its own next leaf): the new leaf has that id, the leaf keeps the
    first [n / 2] of its [n] records and the new leaf holds the others, the
    new leaf is linked between the leaf and its old next leaf, and both are
    dirty. *)
Theorem vlleafdivide_split (id : Z) (l : VLLEAF) (v v' : VILLA) (nid : Z) :
  cbmap_ok (vl_leafc v) -> cbmapget (vl_leafc v) id = Some l ->
  cbmapget (vl_leafc v) (m_lnum (vl_meta v) + VL_LEAFIDMIN) = None ->
  leaf_next l <> id -> leaf_next l <> m_lnum (vl_meta v) + VL_LEAFIDMIN ->
  vlleafdivide id v = (v', Some nid) ->
  nid = m_lnum (vl_meta v) + VL_LEAFIDMIN /\
  exists l1 l2, cbmapget (vl_leafc v') id = Some l1 /\ cbmapget (vl_leafc v') nid = Some l2 /\
    leaf_recs l1 = firstn (length (leaf_recs l) / 2) (leaf_recs l) /\
    leaf_recs l2 = skipn (length (leaf_recs l) / 2) (leaf_recs l) /\
    leaf_prev l1 = leaf_prev l /\ leaf_next l1 = nid /\
    leaf_prev l2 = leaf_id l /\ leaf_next l2 = leaf_next l /\ leaf_dirty l1 = true /\ leaf_dirty l2 = true.
Proof.
  intros Ok G F N1 N2 H. unfold vlleafdivide in H. run_steps H.
  apply leaf_get_run in E as [-> G0]. rewrite G in G0. injection G0 as <-.
  apply vlleafnew_run in E0 as (-> & Ok1 & G1); [|exact Ok].
  set (n := m_lnum (vl_meta v) + VL_LEAFIDMIN) in *.
  assert (Hn : id <> n) by (intros E; rewrite E in G; congruence).
  apply leaf_get_run in E1 as [-> G2]. rewrite G1, Z.eqb_refl in G2. injection G2 as <-.
  cbn [leaf_next] in E2. apply link_next_run in E2 as [Ok3 G3]; [|exact Ok1].
  apply leaf_write_run in E3 as (Ok4 & x4 & X4 & G4); [|exact Ok3].
  rewrite G3, G1, (proj2 (Z.eqb_neq n id) (not_eq_sym Hn)), G in X4 by congruence. injection X4 as <-.
  apply leaf_get_run in E4 as [-> G5]. rewrite G4, Z.eqb_refl in G5. injection G5 as <-.
  apply leaf_write_run in E5 as (Ok6 & x6 & X6 & G6); [|exact Ok4].
  rewrite G4, G3, G1, (proj2 (Z.eqb_neq id n) Hn), Z.eqb_refl in X6 by congruence. injection X6 as <-.
  apply leaf_get_run in E6 as [-> G7]. rewrite G6, Z.eqb_refl in G7. injection G7 as <-.
  apply leaf_write_run in E7 as (Ok8 & x8 & X8 & G8); [|exact Ok6].
  rewrite G6, G4, (proj2 (Z.eqb_neq n id) (not_eq_sym Hn)), Z.eqb_refl in X8. injection X8 as <-.
  injection H as <- <-. split; [reflexivity|]. do 2 eexists.
  rewrite ?G8, ?G6, ?Z.eqb_refl, ?(proj2 (Z.eqb_neq id n) Hn), ?Z.eqb_refl.
  cbn. rewrite length_skipn, zlen_half.
  pose proof (Nat.Div0.div_le_upper_bound (length (leaf_recs l)) 2 (length (leaf_recs l)) ltac:(lia)).
  replace (length (leaf_recs l) - (length (leaf_recs l) - length (leaf_recs l) / 2))%nat
    with (length (leaf_recs l) / 2)%nat by lia.
  repeat split; reflexivity.
Qed.

End LeafSplit.

(** ** Witnesses: a writer holding one cached leaf *)

Definition villa_sample (w : bool) (recs : list VLREC) (rn : Z) : VILLA :=
  mkvilla (mkdepot ∅ 1) DP_ENOERR w (mkmeta 1 1 1 0 rn) [(1, mkleaf 1 false recs (-1) (-1))] []
          (mkcur (-1) (-1) (-1)) (mktune 49 192 1024 512) false (mkmeta (-1) (-1) (-1) (-1) (-1)).

Lemma vlput_rnum_witness :
  rnum_of (fst (vlput vllexcompare [97] [2] VL_DOVER (villa_sample true [mkrec [97] [1] []] 1))) =
    rnum_of (villa_sample true [mkrec [97] [1] []] 1) + put_delta vllexcompare VL_DOVER [97] [mkrec [97] [1] []] /\
  put_delta vllexcompare VL_DOVER [97] [mkrec [97] [1] []] = 0.
Proof.
  split; [|reflexivity].
  exact (vlput_rnum vllexcompare [97] [2] VL_DOVER (villa_sample true [mkrec [97] [1] []] 1)
           (fst (vlput vllexcompare [97] [2] VL_DOVER (villa_sample true [mkrec [97] [1] []] 1)))
           (mkleaf 1 false [mkrec [97] [1] []] (-1) (-1))
           ltac:(vm_compute; reflexivity) ltac:(unfold key_sorted; cbn; repeat constructor)
           ltac:(vm_compute; reflexivity)).
Defined.

Lemma vlout_rnum_witness :
  rnum_of (fst (vlout vllexcompare [97] (villa_sample true [mkrec [97] [1] []] 1))) = 0.
Proof.
  exact (vlout_rnum vllexcompare [97] (villa_sample true [mkrec [97] [1] []] 1)
           (fst (vlout vllexcompare [97] (villa_sample true [mkrec [97] [1] []] 1)))
           ltac:(vm_compute; reflexivity)).
Defined.

Lemma vlput_reader_witness :
  snd (vlput vllexcompare [97] [1] VL_DOVER (villa_sample false [] 0)) = None /\
  vl_ecode (fst (vlput vllexcompare [97] [1] VL_DOVER (villa_sample false [] 0))) = DP_EMODE.
Proof.
  rewrite (vlput_reader vllexcompare [97] [1] VL_DOVER (villa_sample false [] 0) eq_refl).
  split; reflexivity.
Defined.

Lemma vloutlist_reader_code_witness :
  vl_ecode (fst (vloutlist vllexcompare [97] (villa_sample false [] 0))) = DP_EMISC.
Proof.
  destruct (vloutlist_reader_code vllexcompare [97] (villa_sample false [] 0) eq_refl) as [H _].
  rewrite H. reflexivity.
Defined.

(** The split of a leaf of four records, the only cached page. *)
Lemma vlleafdivide_split_witness :
  snd (vlleafdivide 1 (villa_sample true [mkrec [97] [1] []; mkrec [98] [2] []; mkrec [99] [3] []; mkrec [100] [4] []] 4)) = Some 2 /\
  exists l1 l2, cbmapget (vl_leafc (fst (vlleafdivide 1 (villa_sample true [mkrec [97] [1] []; mkrec [98] [2] []; mkrec [99] [3] []; mkrec [100] [4] []] 4)))) 1 = Some l1 /\
    cbmapget (vl_leafc (fst (vlleafdivide 1 (villa_sample true [mkrec [97] [1] []; mkrec [98] [2] []; mkrec [99] [3] []; mkrec [100] [4] []] 4)))) 2 = Some l2 /\
    leaf_recs l1 = [mkrec [97] [1] []; mkrec [98] [2] []] /\
    leaf_recs l2 = [mkrec [99] [3] []; mkrec [100] [4] []] /\ leaf_next l1 = 2 /\ leaf_prev l2 = 1.
Proof.
  destruct (vlleafdivide_split 1 (mkleaf 1 false [mkrec [97] [1] []; mkrec [98] [2] []; mkrec [99] [3] []; mkrec [100] [4] []] (-1) (-1)) (villa_sample true [mkrec [97] [1] []; mkrec [98] [2] []; mkrec [99] [3] []; mkrec [100] [4] []] 4) (fst (vlleafdivide 1 (villa_sample true [mkrec [97] [1] []; mkrec [98] [2] []; mkrec [99] [3] []; mkrec [100] [4] []] 4))) 2
              ltac:(unfold cbmap_ok; cbn; repeat constructor; intros []) ltac:(reflexivity)
              ltac:(reflexivity) ltac:(vm_compute; discriminate) ltac:(vm_compute; discriminate) ltac:(vm_compute; reflexivity))
    as (_ & l1 & l2 & A & B & C & D & _ & E & F & _).
  split; [vm_compute; reflexivity|]. exists l1, l2. repeat split; assumption.
Defined.
