(* ===== verification/Cursor.v ===== *)
(** * Cursor: the cursor functions of villa.c (465-729)

    The cursor is the triple ([curleaf], [curknum], [curvnum]) of the
    handle: a leaf id, the index of a record in it and the index of a
    value of that record (0 the first value, [i] the [i]-th of [rest]).
    [vlcurfirst], [vlcurlast], [vlcurprev], [vlcurnext] and [vlcurjump]
    move it, skipping empty leaves along the leaf chain; [vlcurkey] and
    [vlcurval] read where it is.  The loops that skip empty leaves get
    [lnum + 1] rounds: a chain of distinct leaves among the [lnum] leaf
    ids ends within that many; a chain with a cycle, which the C loop
    would follow forever, exhausts them.  The section [Walk] shows that
    the rounds are enough: a walk along a chain of cached leaves that
    meets a leaf with a record or the chain's end within the rounds gets
    there ([walk_empty_live]), and so does [vlcurfirst]. *)

From Stdlib Require Import ZArith Lia List Bool.
From stdpp Require Import base gmap.
From S2P Require Import Prelude Varint Compare Search Leaf Node Cache Codec Villa Engine.
Import ListNotations.
Open Scope Z_scope.
Open Scope vl_scope.
Open Scope vlm_scope.

Inductive jmode := VL_JFORWARD | VL_JBACKWARD.

Section Cursor.
Context (cmp : key -> key -> Z).

Definition cur_update (f : cursor -> cursor) : vlm unit := modify (fun v => set_cur (f (vl_cur v)) v).
Definition set_curleaf (l : Z) : vlm unit := cur_update (fun c => mkcur l (c_knum c) (c_vnum c)).
Definition set_curknum (k : Z) : vlm unit := cur_update (fun c => mkcur (c_leaf c) k (c_vnum c)).
Definition set_curvnum (n : Z) : vlm unit := cur_update (fun c => mkcur (c_leaf c) (c_knum c) n).

(** [if(!(leaf = vlleafload(villa, id))){ villa->curleaf = -1; return FALSE; }] *)
Definition load_or_drop (id : Z) : vlm Z :=
  fun v => match vlleafload id v with
           | (v', None) => (set_cur (mkcur (-1) (c_knum (vl_cur v')) (c_vnum (vl_cur v'))) v', None)
           | r => r
           end.

(** The [while(CB_LISTNUM(leaf->recs) < 1)] loops: follow [next]
    ([forward]) or [prev] until a leaf with a record; [reset] also sets
    [curknum] and [curvnum] to 0 at each step, as [vlcurfirst] and
    [vlcurnext] do. *)
Fixpoint walk_empty (fuel : nat) (forward reset : bool) (id : Z) : vlm Z :=
  match fuel with
  | O => undefined
  | S f =>
      let* l := leaf_get id in
      if 1 <=? zlen (leaf_recs l) then ret id
      else
        let nxt := if forward then leaf_next l else leaf_prev l in
        let* _ := set_curleaf nxt in
        let* _ := if reset then cur_update (fun c => mkcur (c_leaf c) 0 0) else ret tt in
        if nxt =? -1 then fail_with DP_ENOITEM
        else let* id' := load_or_drop nxt in walk_empty f forward reset id'
  end.

Definition walk_fuel : vlm nat := gets (fun v => S (Z.to_nat (m_lnum (vl_meta v)))).

(** The number of values of the record at index [i] past the first. *)
Definition rest_count (l : VLLEAF) (i : Z) : vlm Z :=
  match nth_error (leaf_recs l) (Z.to_nat i) with
  | Some r => ret (zlen (rec_rest r))
  | None => undefined
  end.

(** [vlcurfirst] (villa.c 465-489). *)
Definition vlcurfirst : vlm unit :=
  let* _ := modify (set_cur (mkcur VL_LEAFIDMIN 0 0)) in
  let* id := load_or_drop VL_LEAFIDMIN in
  let* fuel := walk_fuel in
  let* _ := walk_empty fuel true true id in
  ret tt.

(** Put the cursor on the last value of the last record of the leaf. *)
Definition at_last_rec (id : Z) : vlm unit :=
  let* l := leaf_get id in
  let kn := zlen (leaf_recs l) - 1 in
  let* _ := set_curknum kn in
  let* n := rest_count l kn in
  set_curvnum n.

(** [vlcurlast] (villa.c 493-517). *)
Definition vlcurlast : vlm unit :=
  let* m := gets vl_meta in
  let* _ := set_curleaf (m_last m) in
  let* id := load_or_drop (m_last m) in
  let* fuel := walk_fuel in
  let* id := walk_empty fuel false false id in
  at_last_rec id.

(** [if(!(leaf = vlleafload(...)) || CB_LISTNUM(leaf->recs) < 1)]: the
    cursor's leaf, which must hold a record. *)
Definition cur_leaf_nonempty : vlm VLLEAF :=
  let* c := gets vl_cur in
  if c_leaf c =? -1 then fail_with DP_ENOITEM
  else
    fun v => match vlleafload (c_leaf c) v with
             | (v', Some id) =>
                 match cbmapget (vl_leafc v') id with
                 | Some l => if zlen (leaf_recs l) <? 1 then (set_cur (mkcur (-1) (c_knum c) (c_vnum c)) v', None)
                             else (v', Some l)
                 | None => undefined v'
                 end
             | (v', None) => (set_cur (mkcur (-1) (c_knum c) (c_vnum c)) v', None)
             end.

(** [vlcurprev] (villa.c 521-566). *)
Definition vlcurprev : vlm unit :=
  let* l := cur_leaf_nonempty in
  let* c := gets vl_cur in
  let* _ := set_curvnum (c_vnum c - 1) in
  let* _ :=
    if c_vnum c - 1 <? 0 then
      let* _ := set_curknum (c_knum c - 1) in
      let* l :=
        if c_knum c - 1 <? 0 then
          let* _ := set_curleaf (leaf_prev l) in
          if leaf_prev l =? -1 then fail_with DP_ENOITEM
          else
            let* id := load_or_drop (leaf_prev l) in
            let* fuel := walk_fuel in
            let* id := walk_empty fuel false false id in
            let* _ := at_last_rec id in
            leaf_get id
        else ret l in
      let* c := gets vl_cur in
      let* n := rest_count l (c_knum c) in
      set_curvnum n
    else ret tt in
  adjust_unless_tran.

(** [vlcurnext] (villa.c 570-616). *)
Definition vlcurnext : vlm unit :=
  let* l := cur_leaf_nonempty in
  let* c := gets vl_cur in
  let* n := rest_count l (c_knum c) in
  let* _ := set_curvnum (c_vnum c + 1) in
  let* _ := if n <? c_vnum c + 1 then cur_update (fun c => mkcur (c_leaf c) (c_knum c + 1) 0) else ret tt in
  let* c := gets vl_cur in
  let* _ :=
    if zlen (leaf_recs l) <=? c_knum c then
      let* _ := cur_update (fun _ => mkcur (leaf_next l) 0 0) in
      if leaf_next l =? -1 then fail_with DP_ENOITEM
      else
        let* id := load_or_drop (leaf_next l) in
        let* fuel := walk_fuel in
        let* _ := walk_empty fuel true true id in
        ret tt
    else ret tt in
  adjust_unless_tran.

(** [vlcurjump] (villa.c 620-675). *)
Definition vlcurjump (k : key) (jm : jmode) : vlm unit :=
  let fwd := match jm with VL_JFORWARD => true | VL_JBACKWARD => false end in
  let* r := (fun v => match vlsearchleaf cmp k false v with
                      | (v', None) => (set_cur (mkcur (-1) (c_knum (vl_cur v')) (c_vnum (vl_cur v'))) v', None)
                      | res => res
                      end) in
  let pid := fst r in
  let* id := load_or_drop pid in
  let* fuel := walk_fuel in
  let* id := walk_empty fuel fwd false id in
  let* l := leaf_get id in
  match vlrecsearch cmp (leaf_recs l) k with
  | (None, index) =>
      let index := if zlen (leaf_recs l) <=? index then index - 1 else index in
      let* _ := set_curleaf (leaf_id l) in
      let* _ := set_curknum index in
      match nth_error (leaf_recs l) (Z.to_nat index) with
      | None => undefined
      | Some recp =>
          if fwd then
            let* _ := set_curvnum 0 in
            if cmp k (rec_key recp) <? 0 then ret tt
            else let* _ := set_curvnum (zlen (rec_rest recp)) in vlcurnext
          else
            let* _ := set_curvnum (zlen (rec_rest recp)) in
            if 0 <? cmp k (rec_key recp) then ret tt
            else let* _ := set_curvnum 0 in vlcurprev
      end
  | (Some recp, index) =>
      if fwd then modify (set_cur (mkcur pid index 0))
      else modify (set_cur (mkcur pid index (zlen (rec_rest recp))))
  end.

(** The record under the cursor, as [vlcurkey] and [vlcurval] read it. *)
Definition cur_rec : vlm VLREC :=
  let* c := gets vl_cur in
  if c_leaf c =? -1 then fail_with DP_ENOITEM
  else
    let* id := load_or_drop (c_leaf c) in
    let* l := leaf_get id in
    match nth_error (leaf_recs l) (Z.to_nat (c_knum c)) with
    | Some r => ret r
    | None => undefined
    end.

(** [vlcurkey] (villa.c 679-702). *)
Definition vlcurkey : vlm key := let* r := cur_rec in ret (rec_key r).

(** [vlcurval] (villa.c 706-729). *)
Definition vlcurval : vlm (list Z) :=
  let* r := cur_rec in
  let* c := gets vl_cur in
  if c_vnum c <? 1 then ret (rec_first r)
  else match nth_error (rec_rest r) (Z.to_nat (c_vnum c - 1)) with
       | Some x => ret x
       | None => undefined
       end.
End Cursor.

(** ** The walks over empty leaves reach their end *)

Section Walk.

(** The link a walk follows. *)
Definition leaf_link (forward : bool) (l : VLLEAF) : Z := if forward then leaf_next l else leaf_prev l.

(** [chain_ends get forward id n]: following the links from the leaf
    [id] through the leaves [get] holds reaches, after [n] empty leaves,
    a leaf with a record or an empty leaf whose link is [-1]. *)
Inductive chain_ends (get : Z -> option VLLEAF) (forward : bool) : Z -> nat -> Prop :=
  | chain_here id l :
      get id = Some l -> 1 <= zlen (leaf_recs l) -> chain_ends get forward id 0
  | chain_last id l :
      get id = Some l -> zlen (leaf_recs l) < 1 -> leaf_link forward l = -1 ->
      chain_ends get forward id 0
  | chain_next id l n :
      get id = Some l -> zlen (leaf_recs l) < 1 -> leaf_link forward l <> -1 ->
      chain_ends get forward (leaf_link forward l) n -> chain_ends get forward id (S n).

Lemma chain_ends_ext (get get' : Z -> option VLLEAF) (fw : bool) (id : Z) (n : nat) :
  (forall k, get' k = get k) -> chain_ends get fw id n -> chain_ends get' fw id n.
Proof.
  intros E. induction 1; [eapply chain_here | eapply chain_last | eapply chain_next]; rewrite ?E; eauto.
Qed.

(** A cached leaf is loaded by moving it to the end of the cache. *)
Lemma load_cached (v : VILLA) (id : Z) (l : VLLEAF) :
  cbmap_ok (vl_leafc v) -> cbmapget (vl_leafc v) id = Some l ->
  exists lc, load_or_drop id v = (set_leafc lc v, Some id) /\ cbmap_ok lc /\
             (forall k, cbmapget lc k = cbmapget (vl_leafc v) k).
Proof.
  intros Hok E. destruct (cbmapmove_spec _ id l Hok E) as (A & B & _).
  exists (fst (cbmapmove (vl_leafc v) id false)). unfold load_or_drop, vlleafload. rewrite E.
  split; [reflexivity | split; assumption].
Qed.

Lemma walk_empty_live (fuel : nat) : forall fw reset id n v,
  cbmap_ok (vl_leafc v) -> chain_ends (cbmapget (vl_leafc v)) fw id n -> (n < fuel)%nat ->
  vl_cur v = mkcur id 0 0 ->
  match walk_empty fuel fw reset id v with
  | (v', Some id') => vl_cur v' = mkcur id' 0 0 /\
                      exists l, cbmapget (vl_leafc v') id' = Some l /\ 1 <= zlen (leaf_recs l)
  | (v', None) => vl_ecode v' = DP_ENOITEM /\ c_leaf (vl_cur v') = -1
  end.
Proof.
  induction fuel as [|f IH]; intros fw reset id n v Hok Hc Hn Hcur; [lia|].
  cbn [walk_empty]. unfold bind at 1, leaf_get.
  destruct Hc as [id l Hg Hr | id l Hg Hr Hl | id l n Hg Hr Hl Hc]; rewrite Hg.
  - vl_test. cbn. split; [exact Hcur | exists l; split; assumption].
  - vl_test. fold (leaf_link fw l). rewrite Hl. destruct reset; cbn; split; reflexivity.
  - vl_test. fold (leaf_link fw l). vl_test.
    assert (Hg' : exists l', cbmapget (vl_leafc v) (leaf_link fw l) = Some l') by (inversion Hc; eauto).
    destruct Hg' as (l' & Hg').
    destruct reset; cbn;
      match goal with |- context [bind (load_or_drop ?x) ?k ?v1] =>
        destruct (load_cached v1 x l' Hok Hg') as (lc & E & Hok' & Hlc) end;
      unfold bind at 1; rewrite E; apply (IH fw _ _ n); cbn [vl_leafc vl_cur set_leafc set_cur c_knum c_vnum];
      solve [exact Hok' | eapply chain_ends_ext; [exact Hlc | exact Hc] | lia | rewrite ?Hcur; reflexivity].
Qed.

(** C14: [vlcurfirst] reaches its end: when the leaf chain from the first
    leaf, through cached leaves, meets a leaf with a record or the end of
    the chain within [lnum] links, the walk over empty leaves never runs
    out of its [lnum + 1] rounds; it puts the cursor on the first value of
    the first record of a leaf with records, or, when every leaf of the
    chain is empty, fails with [DP_ENOITEM] and the cursor leaf [-1]. *)
Theorem vlcurfirst_reaches (v : VILLA) (n : nat) :
  cbmap_ok (vl_leafc v) -> chain_ends (cbmapget (vl_leafc v)) true VL_LEAFIDMIN n ->
  (n <= Z.to_nat (m_lnum (vl_meta v)))%nat ->
  match vlcurfirst v with
  | (v', Some _) => c_knum (vl_cur v') = 0 /\ c_vnum (vl_cur v') = 0 /\
      exists l, cbmapget (vl_leafc v') (c_leaf (vl_cur v')) = Some l /\ 1 <= zlen (leaf_recs l)
  | (v', None) => vl_ecode v' = DP_ENOITEM /\ c_leaf (vl_cur v') = -1
  end.
Proof.
  intros Hok Hc Hn. assert (Hg : exists l, cbmapget (vl_leafc v) VL_LEAFIDMIN = Some l) by (inversion Hc; eauto).
  destruct Hg as (l & Hg). unfold vlcurfirst, bind at 1, modify.
  destruct (load_cached (set_cur (mkcur VL_LEAFIDMIN 0 0) v) VL_LEAFIDMIN l Hok Hg) as (lc & E & Hok' & Hlc).
  unfold bind at 1. rewrite E. unfold bind at 1, walk_fuel, gets.
  pose proof (walk_empty_live (S (Z.to_nat (m_lnum (vl_meta v)))) true true VL_LEAFIDMIN n
                (set_leafc lc (set_cur (mkcur VL_LEAFIDMIN 0 0) v)) Hok'
                (chain_ends_ext _ _ _ _ _ Hlc Hc) ltac:(lia) eq_refl) as W.
  cbn [vl_meta set_leafc set_cur] in *. unfold bind.
  destruct (walk_empty _ _ _ _ _) as [v' [id'|]]; [|exact W].
  destruct W as (Hcur & W). cbn. rewrite Hcur. split; [reflexivity | split; [reflexivity | exact W]].
Qed.

End Walk.

(** A handle whose cache holds the chain 1 -> 2 -> 3 of the leaves of a
    database with one record, in leaf 3; the first two leaves are empty. *)
Definition walk_sample : VILLA :=
  mkvilla (mkdepot ∅ 0) DP_ENOERR true (mkmeta 1 3 3 0 1)
    [(1, mkleaf 1 false [] (-1) 2); (2, mkleaf 2 false [] 1 3);
     (3, mkleaf 3 false [mkrec [97] [1] []] 2 (-1))]
    [] (mkcur (-1) 0 0) (mktune 3 0 0 0) false (mkmeta 1 3 3 0 1).

Lemma vlcurfirst_reaches_witness :
  match vlcurfirst walk_sample with
  | (v', Some _) => c_knum (vl_cur v') = 0 /\ c_vnum (vl_cur v') = 0 /\
      exists l, cbmapget (vl_leafc v') (c_leaf (vl_cur v')) = Some l /\ 1 <= zlen (leaf_recs l)
  | (v', None) => vl_ecode v' = DP_ENOITEM /\ c_leaf (vl_cur v') = -1
  end.
Proof.
  apply (vlcurfirst_reaches walk_sample 2).
  - unfold cbmap_ok. cbn. repeat constructor; cbn; intuition lia.
  - eapply chain_next; [reflexivity | unfold zlen; cbn; lia | cbn; lia |].
    eapply chain_next; [reflexivity | unfold zlen; cbn; lia | cbn; lia |].
    eapply chain_here; [reflexivity | unfold zlen; cbn; lia].
  - cbn. lia.
Defined.
