(* ===== verification/Tran.v ===== *)
(** * Tran: transactions, synchronisation, tuning, open and close

    [vltranbegin], [vltrancommit], [vltranabort] (villa.c 868-1024),
    [vlsync] (villa.c 750-779), [vlsettuning] (villa.c 733-746), [vlopen]
    (villa.c 90-177) and [vlclose] (villa.c 181-205).

    A transaction in Villa is an undo log of one level: [vltranbegin]
    writes every dirty page and the metadata to the Depot and copies the
    counters to [rbroot] .. [rbrnum]; while [tran] is set no function calls
    [vlcacheadjust], so no page reaches the Depot; [vltranabort] drops the
    dirty pages from the caches without writing them and restores the
    counters; [vltrancommit] writes them.  The iterations over a cache go
    through the keys in the order [cbmapiternext] returns them; a page the
    body removes is the current one, whose successor the iterator already
    holds, so the loops run over the keys as they were at the start.
    The theorems: the loops keep [tran_state] (the metadata, its rollback
    copy and [villa->tran]), so [vltranbegin] saves the metadata it
    finds and [vltranabort] puts the saved copy back. *)

From Stdlib Require Import ZArith Lia List Bool.
From stdpp Require Import base gmap.
From S2P Require Import Prelude Varint Compare Search Leaf Node Cache Codec Villa Engine.
Import ListNotations.
Open Scope Z_scope.
Open Scope vl_scope.
Open Scope vlm_scope.

Definition VL_DEFLRECMAX : Z := 49.
Definition VL_DEFNIDXMAX : Z := 192.
Definition VL_DEFLCNUM : Z := 1024.
Definition VL_DEFNCNUM : Z := 512.
Definition VL_FLISVILLA : Z := 1.

(** The five [vldpputnum] calls that persist the metadata. *)
Definition write_meta : vlm unit :=
  modify (fun v =>
    let m := vl_meta v in
    let d := vldpputnum (vl_depot v) VL_ROOTKEY (m_root m) in
    let d := vldpputnum d VL_LASTKEY (m_last m) in
    let d := vldpputnum d VL_LNUMKEY (m_lnum m) in
    let d := vldpputnum d VL_NNUMKEY (m_nnum m) in
    let d := vldpputnum d VL_RNUMKEY (m_rnum m) in
    set_depot d v).

(** The loops of [vltranbegin] and [vltrancommit] that save the dirty
    pages; the result is [err]. *)
Fixpoint save_dirty_leaves (ids : list Z) (err : bool) : vlm bool :=
  match ids with
  | [] => ret err
  | pid :: ids' =>
      let* l := leaf_get pid in
      if leaf_dirty l then
        fun v => match vlleafsave pid v with
                 | (v', Some _) => save_dirty_leaves ids' err v'
                 | (v', None) => save_dirty_leaves ids' true v'
                 end
      else save_dirty_leaves ids' err
  end.

Fixpoint save_dirty_nodes (ids : list Z) (err : bool) : vlm bool :=
  match ids with
  | [] => ret err
  | pid :: ids' =>
      let* n := node_get pid in
      if node_dirty n then
        fun v => match vlnodesave pid v with
                 | (v', Some _) => save_dirty_nodes ids' err v'
                 | (v', None) => save_dirty_nodes ids' true v'
                 end
      else save_dirty_nodes ids' err
  end.

(** The loops of [vlclose] and [vlsync] that write out every page. *)
Fixpoint cacheout_leaves (ids : list Z) (err : bool) : vlm bool :=
  match ids with
  | [] => ret err
  | pid :: ids' => let* ok := vlleafcacheout pid in cacheout_leaves ids' (err || negb ok)
  end.

Fixpoint cacheout_nodes (ids : list Z) (err : bool) : vlm bool :=
  match ids with
  | [] => ret err
  | pid :: ids' => let* ok := vlnodecacheout pid in cacheout_nodes ids' (err || negb ok)
  end.

(** The loops of [vltranabort]: a dirty page is marked clean and then
    dropped, so that [vlleafcacheout] does not write it. *)
Fixpoint drop_dirty_leaves (ids : list Z) (err : bool) : vlm bool :=
  match ids with
  | [] => ret err
  | pid :: ids' =>
      fun v => match cbmapget (vl_leafc v) pid with
               | None => drop_dirty_leaves ids' true v
               | Some l =>
                   if leaf_dirty l then
                     (let* _ := leaf_write pid (set_leaf_dirty false) in
                      let* ok := vlleafcacheout pid in
                      drop_dirty_leaves ids' (err || negb ok)) v
                   else drop_dirty_leaves ids' err v
               end
  end.

Fixpoint drop_dirty_nodes (ids : list Z) (err : bool) : vlm bool :=
  match ids with
  | [] => ret err
  | pid :: ids' =>
      fun v => match cbmapget (vl_nodec v) pid with
               | None => drop_dirty_nodes ids' true v
               | Some n =>
                   if node_dirty n then
                     (let* _ := node_write pid (set_node_dirty false) in
                      let* ok := vlnodecacheout pid in
                      drop_dirty_nodes ids' (err || negb ok)) v
                   else drop_dirty_nodes ids' err v
               end
  end.

(** The [while(cbmaprnum(leafc) > leafcnum || cbmaprnum(nodec) > nodecnum)]
    loop that ends [vltrancommit] and [vltranabort], stopping at the first
    failure.  Each round removes [VL_CACHEOUT] pages from a cache over its
    limit, so one round per cached page and one more suffice. *)
Fixpoint adjust_loop (fuel : nat) : vlm bool :=
  match fuel with
  | O => undefined
  | S f =>
      let* v := gets (fun v => v) in
      if (t_leafcnum (vl_tune v) <? cbmaprnum (vl_leafc v)) ||
         (t_nodecnum (vl_tune v) <? cbmaprnum (vl_nodec v)) then
        fun w => match vlcacheadjust w with
                 | (w', Some _) => adjust_loop f w'
                 | (w', None) => (w', Some true)
                 end
      else ret false
  end.

Definition adjust_all : vlm bool :=
  let* v := gets (fun v => v) in
  adjust_loop (S (length (vl_leafc v) + length (vl_nodec v))).

Definition meta_none : meta := mkmeta (-1) (-1) (-1) (-1) (-1).

(** [vltranbegin] (villa.c 868-910). *)
Definition vltranbegin : vlm unit :=
  let* _ := need_writer DP_EMODE in
  let* tr := gets vl_tran in
  if tr then fail_with DP_EMISC
  else
    let* lk := gets (fun v => cbmap_iter (vl_leafc v)) in
    let* e1 := save_dirty_leaves lk false in
    let* nk := gets (fun v => cbmap_iter (vl_nodec v)) in
    let* e2 := save_dirty_nodes nk e1 in
    let* _ := write_meta in
    let* _ := modify (set_tran true) in
    let* _ := modify (fun v => set_rb (vl_meta v) v) in
    if e2 then fail else ret tt.

(** [vltrancommit] (villa.c 914-962). *)
Definition vltrancommit : vlm unit :=
  let* _ := need_writer DP_EMODE in
  let* tr := gets vl_tran in
  if negb tr then fail_with DP_EMISC
  else
    let* lk := gets (fun v => cbmap_iter (vl_leafc v)) in
    let* e1 := save_dirty_leaves lk false in
    let* nk := gets (fun v => cbmap_iter (vl_nodec v)) in
    let* e2 := save_dirty_nodes nk e1 in
    let* _ := write_meta in
    let* _ := modify (set_tran false) in
    let* _ := modify (set_rb meta_none) in
    let* e3 := adjust_all in
    if e2 || e3 then fail else ret tt.

(** [vltranabort] (villa.c 966-1018). *)
Definition vltranabort : vlm unit :=
  let* _ := need_writer DP_EMODE in
  let* tr := gets vl_tran in
  if negb tr then fail_with DP_EMISC
  else
    let* lk := gets (fun v => cbmap_iter (vl_leafc v)) in
    let* e1 := drop_dirty_leaves lk false in
    let* nk := gets (fun v => cbmap_iter (vl_nodec v)) in
    let* e2 := drop_dirty_nodes nk e1 in
    let* _ := modify (set_tran false) in
    let* _ := modify (fun v => set_meta (vl_rb v) v) in
    let* e3 := adjust_all in
    if e2 || e3 then fail else ret tt.

(** [vlsync] (villa.c 750-779); [dpsetalign] and [dpsync] only concern the
    file. *)
Definition vlsync : vlm unit :=
  let* _ := need_writer DP_EMODE in
  let* tr := gets vl_tran in
  if tr then fail_with DP_EMISC
  else
    let* lk := gets (fun v => cbmap_iter (vl_leafc v)) in
    let* e1 := cacheout_leaves lk false in
    let* nk := gets (fun v => cbmap_iter (vl_nodec v)) in
    let* e2 := cacheout_nodes nk e1 in
    let* _ := write_meta in
    if e2 then fail else ret tt.

(** [vloptimize] (villa.c 786-802): a [vlsync], then [dpsetalign] and
    [dpoptimize], which rewrite the file without changing its records. *)
Definition vloptimize : vlm unit :=
  let* _ := need_writer DP_EMODE in
  let* tr := gets vl_tran in
  if tr then fail_with DP_EMISC
  else vlsync.

(** [vlsettuning] (villa.c 733-746). *)
Definition vlsettuning (lrecmax nidxmax lcnum ncnum : Z) : vlm unit :=
  let lrecmax := if lrecmax <? 1 then VL_DEFLRECMAX else lrecmax in
  let lrecmax := if lrecmax <? 3 then 3 else lrecmax in
  let nidxmax := if nidxmax <? 1 then VL_DEFNIDXMAX else nidxmax in
  let nidxmax := if nidxmax <? 4 then 4 else nidxmax in
  let lcnum := if lcnum <? 1 then VL_DEFLCNUM else lcnum in
  let lcnum := if lcnum <? Z.of_nat VL_CACHEOUT * 2 then Z.of_nat VL_CACHEOUT * 2 else lcnum in
  let ncnum := if ncnum <? 1 then VL_DEFNCNUM else ncnum in
  let ncnum := if ncnum <? Z.of_nat VL_CACHEOUT * 2 then Z.of_nat VL_CACHEOUT * 2 else ncnum in
  modify (set_tune (mktune lrecmax nidxmax lcnum ncnum)).

(** [vlclose] (villa.c 181-205): the handle is gone afterwards; the Depot
    of the final state is what the file keeps. *)
Definition vlclose : vlm unit :=
  let* tr := gets vl_tran in
  let* e0 := if tr then (fun v => match vltranabort v with
                                   | (v', Some _) => (v', Some false)
                                   | (v', None) => (v', Some true)
                                   end)
             else ret false in
  let* lk := gets (fun v => cbmap_iter (vl_leafc v)) in
  let* e1 := cacheout_leaves lk e0 in
  let* nk := gets (fun v => cbmap_iter (vl_nodec v)) in
  let* e2 := cacheout_nodes nk e1 in
  let* w := gets vl_wmode in
  let* _ := if w then write_meta else ret tt in
  if e2 then fail else ret tt.

(** The handle [vlopen] builds (villa.c 125-151). *)
Definition villa_init (d : depot) (wmode : bool) (m : meta) : VILLA :=
  mkvilla d DP_ENOERR wmode m [] [] (mkcur (-1) (-1) (-1))
          (mktune VL_DEFLRECMAX VL_DEFNIDXMAX VL_DEFLCNUM VL_DEFNCNUM) false meta_none.

(** The metadata [vlopen] reads from a non-empty Depot (villa.c 108-118);
    [None] is the [DP_EBROKEN] failure. *)
Definition read_meta (d : depot) : option meta :=
  if Z.land (dpgetflags d) VL_FLISVILLA =? 0 then None
  else
    match vldpgetnum d VL_ROOTKEY, vldpgetnum d VL_LASTKEY, vldpgetnum d VL_LNUMKEY,
          vldpgetnum d VL_NNUMKEY, vldpgetnum d VL_RNUMKEY with
    | Some root, Some last, Some lnum, Some nnum, Some rnum =>
        if (root <? VL_LEAFIDMIN) || (last <? VL_LEAFIDMIN) || (lnum <? 0) || (nnum <? 0) || (rnum <? 0)
        then None else Some (mkmeta root last lnum nnum rnum)
    | _, _, _, _, _ => None
    end.

(** [vlopen] (villa.c 90-177) on the Depot [d] the file holds, as a writer
    or a reader: the handle, or [None] for [NULL].  An empty database gets
    a root leaf, which a transaction begun and aborted writes out; when
    that fails the handle is closed. *)
Definition vlopen (d : depot) (writer : bool) : option VILLA :=
  let m0 := if 0 <? dprnum d then read_meta d else Some (mkmeta (-1) (-1) 0 0 0) in
  match m0 with
  | None => None
  | Some m =>
      let d := if writer then dpsetflags d (Z.lor (dpgetflags d) VL_FLISVILLA) else d in
      let v := villa_init d writer m in
      if m_root m =? -1 then
        match (let* id := vlleafnew (-1) (-1) in
               let* _ := meta_update (fun m => with_last id (with_root id m)) in
               let* _ := vltranbegin in
               vltranabort) v with
        | (v', Some _) => Some v'
        | (v', None) => None
        end
      else Some v
  end.

(** The part of the handle a transaction saves and restores: the
    metadata, its rollback copy [villa->rbroot ...] and [villa->tran]. *)
Definition tran_state (v : VILLA) : meta * meta * bool := (vl_meta v, vl_rb v, vl_tran v).

(** ** Theorems *)

(** Opening an empty database as a reader fails: [vlopen] makes the root
    leaf and runs [vltranbegin], which refuses a reader with [DP_EMODE],
    so the handle is closed and [NULL] returned.  The specification only
    describes the empty writer case. *)
Theorem vlopen_empty_reader (flags : Z) : vlopen (mkdepot ∅ flags) false = None.
Proof. reflexivity. Qed.

(** An empty database opened as a writer gets one clean root leaf, saved
    to the Depot with the metadata: root and last leaf 1, one leaf, no
    node, no record, and no transaction left open. *)
Theorem vlopen_empty_writer (flags : Z) :
  option_map (fun v => (vl_meta v, vl_tran v, dpget (vl_depot v) 1, vldpgetnum (vl_depot v) VL_ROOTKEY,
                         cbmapget (vl_leafc v) 1))
    (vlopen (mkdepot ∅ flags) true) =
  Some (mkmeta 1 1 1 0 0, false, Some (vlleafsave_buf (mkleaf 1 true [] (-1) (-1))), Some 1,
        Some (mkleaf 1 false [] (-1) (-1))).
Proof. vm_compute. reflexivity. Qed.

(** ** The transaction frame *)

Lemma keeps_at {X A} (f : VILLA -> X) (m : vlm A) v : keeps f m -> f (fst (m v)) = f v.
Proof. intros H. apply H. Qed.

(** A loop body that goes on from the state a call reached, succeeded or
    not. *)
Lemma keeps_recover {X B} (f : VILLA -> X) (m : vlm unit) (k1 k2 : vlm B) :
  keeps f m -> keeps f k1 -> keeps f k2 ->
  keeps f (fun v => match m v with (v', Some _) => k1 v' | (v', None) => k2 v' end).
Proof. intros Hm H1 H2 v. specialize (Hm v). destruct (m v) as [v' [u|]]; cbn in *; [rewrite H1 | rewrite H2]; exact Hm. Qed.

Lemma tran_need_writer e : keeps tran_state (need_writer e).
Proof. unfold need_writer. keeps_chain. frame_by frame_fail_with. Qed.

Lemma tran_write_meta : keeps tran_state write_meta.
Proof. apply keeps_modify. reflexivity. Qed.

Lemma tran_save_dirty_leaves ids err : keeps tran_state (save_dirty_leaves ids err).
Proof.
  revert err. induction ids as [|pid ids IH]; intros err; cbn [save_dirty_leaves]; keeps_chain;
    first [frame_by frame_leaf_get | apply IH | apply keeps_recover; [frame_by frame_vlleafsave | apply IH..]].
Qed.

Lemma tran_save_dirty_nodes ids err : keeps tran_state (save_dirty_nodes ids err).
Proof.
  revert err. induction ids as [|pid ids IH]; intros err; cbn [save_dirty_nodes]; keeps_chain;
    first [frame_by frame_node_get | apply IH | apply keeps_recover; [frame_by frame_vlnodesave | apply IH..]].
Qed.

Lemma tran_drop_dirty_leaves ids err : keeps tran_state (drop_dirty_leaves ids err).
Proof.
  revert err. induction ids as [|pid ids IH]; intros err v; cbn [drop_dirty_leaves]; [reflexivity|].
  destruct (cbmapget (vl_leafc v) pid) as [l|]; [destruct (leaf_dirty l)|]; try apply IH.
  apply keeps_at. keeps_chain; first [frame_by frame_leaf_write | frame_by frame_vlleafcacheout | apply IH].
Qed.

Lemma tran_drop_dirty_nodes ids err : keeps tran_state (drop_dirty_nodes ids err).
Proof.
  revert err. induction ids as [|pid ids IH]; intros err v; cbn [drop_dirty_nodes]; [reflexivity|].
  destruct (cbmapget (vl_nodec v) pid) as [n|]; [destruct (node_dirty n)|]; try apply IH.
  apply keeps_at. keeps_chain; first [frame_by frame_node_write | frame_by frame_vlnodecacheout | apply IH].
Qed.

Lemma tran_adjust_all : keeps tran_state adjust_all.
Proof.
  unfold adjust_all. keeps_chain. generalize (S (length (vl_leafc a) + length (vl_nodec a))) as n.
  induction n as [|n IH]; cbn [adjust_loop]; [frame_by frame_undefined|]. keeps_chain.
  apply keeps_recover; [frame_by frame_vlcacheadjust | apply IH | intros v; reflexivity].
Qed.


(** The [if(err) return FALSE; return TRUE;] that ends a call that ran
    to its end. *)
Ltac ends_true H :=
  match type of H with
  | (if ?b then _ else _) _ = _ => destruct b; [cbn in H; discriminate H | injection H as <-]
  end.

Create HintDb tran.
#[local] Hint Resolve tran_need_writer tran_write_meta tran_save_dirty_leaves tran_save_dirty_nodes
  tran_drop_dirty_leaves tran_drop_dirty_nodes tran_adjust_all : tran.

(** Turn every step [E : m v = (v', r)] that keeps [tran_state] into
    [tran_state v' = tran_state v]; the steps that change it stay. *)
Ltac tran_steps :=
  repeat match goal with
  | E : ?m ?v = (?v', ?r) |- _ =>
      let H := fresh "K" in
      assert (H : tran_state v' = tran_state v)
        by (apply (keeps_run tran_state m v v' r); [|exact E];
            keeps_chain; auto with tran; apply keeps_modify; reflexivity);
      clear E; unfold tran_state in H; injection H as ? ? ?
  end.

(** [vltranbegin] succeeds only outside a transaction, opens one, and
    saves in the rollback copy the metadata it found. *)
Lemma vltranbegin_saves v v1 :
  vltranbegin v = (v1, Some tt) -> vl_rb v1 = vl_meta v /\ vl_tran v1 = true.
Proof.
  unfold vltranbegin. intros H. run_steps H.
  destruct a0; [destruct (fail_with_some _ _ _ _ H)|]. run_steps H.
  ends_true H.
  unfold modify in E6, E7. injection E6 as <-. injection E7 as <-.
  tran_steps. cbn. split; congruence.
Qed.

(** [vltranabort] succeeds only inside a transaction, closes it, and
    puts back the metadata of the rollback copy. *)
Lemma vltranabort_restores_rb v2 v3 :
  vltranabort v2 = (v3, Some tt) -> vl_meta v3 = vl_rb v2 /\ vl_tran v3 = false.
Proof.
  unfold vltranabort. intros H. run_steps H.
  destruct a0; cbn [negb] in H; [|destruct (fail_with_some _ _ _ _ H)]. run_steps H.
  ends_true H.
  unfold modify in E5, E6. injection E5 as <-. injection E6 as <-.
  tran_steps. cbn in *. split; congruence.
Qed.

(** C7: [vltranabort] undoes the transaction [vltranbegin] opened: when
    [vltranbegin] succeeds on [v], whatever runs in between leaves the
    rollback copy alone (only [vltranbegin] and [vltrancommit] write it),
    and [vltranabort] then succeeds, the handle is back to the root, last
    leaf and counters of [v] and no transaction is open. *)
Theorem vltranabort_restores (v v1 v2 v3 : VILLA) :
  vltranbegin v = (v1, Some tt) -> vl_rb v2 = vl_rb v1 -> vltranabort v2 = (v3, Some tt) ->
  vl_meta v3 = vl_meta v /\ vl_tran v3 = false.
Proof.
  intros B R A. apply vltranbegin_saves in B as [B _]. apply vltranabort_restores_rb in A as [A T].
  split; [congruence | exact T].
Qed.

Lemma vltranabort_restores_witness :
  vl_meta (fst (vltranabort (fst (vlput vllexcompare [97] [1] VL_DOVER (fst (vltranbegin (default (villa_init (mkdepot ∅ 0) true meta_none) (vlopen (mkdepot ∅ 0) true)))))))) = vl_meta (default (villa_init (mkdepot ∅ 0) true meta_none) (vlopen (mkdepot ∅ 0) true)) /\
  vl_tran (fst (vltranabort (fst (vlput vllexcompare [97] [1] VL_DOVER (fst (vltranbegin (default (villa_init (mkdepot ∅ 0) true meta_none) (vlopen (mkdepot ∅ 0) true)))))))) = false.
Proof.
  apply (vltranabort_restores (default (villa_init (mkdepot ∅ 0) true meta_none) (vlopen (mkdepot ∅ 0) true)) (fst (vltranbegin (default (villa_init (mkdepot ∅ 0) true meta_none) (vlopen (mkdepot ∅ 0) true)))) (fst (vlput vllexcompare [97] [1] VL_DOVER (fst (vltranbegin (default (villa_init (mkdepot ∅ 0) true meta_none) (vlopen (mkdepot ∅ 0) true)))))) (fst (vltranabort (fst (vlput vllexcompare [97] [1] VL_DOVER (fst (vltranbegin (default (villa_init (mkdepot ∅ 0) true meta_none) (vlopen (mkdepot ∅ 0) true))))))))); vm_compute; reflexivity.
Defined.
