(* ===== verification/Scenarios.v ===== *)
(** * Scenarios: the concrete scenarios of the specification, run

    The operations of [Villa], [Engine], [Cursor] and [Tran] are
    executable, so the scenarios the specification gives are checked here
    by running them on a fresh database: an empty Depot opened as a writer
    with [VL_CMPLEX]. *)

From Stdlib Require Import ZArith Lia List Bool.
From stdpp Require Import base gmap.
From S2P Require Import Prelude Varint Compare Search Leaf Node Cache Codec Villa Engine Cursor Tran.
Import ListNotations.
Open Scope Z_scope.
Open Scope vl_scope.
Open Scope vlm_scope.

(** A run of [m] from an opened handle: the result and the final state. *)
Definition run_on {A} (ov : option VILLA) (m : vlm A) : option (VILLA * option A) :=
  match ov with
  | Some v => Some (m v)
  | None => None
  end.

(** An empty Depot file. *)
Definition empty_depot : depot := mkdepot ∅ 0.

(** [vlopen] of the empty file as a writer, then [vlsettuning(villa, 3, 0,
    0, 0)]: at most 3 records per leaf, the defaults otherwise. *)
Definition opened_lrecmax3 : option VILLA :=
  match vlopen empty_depot true with
  | Some v => Some (fst (vlsettuning 3 0 0 0 v))
  | None => None
  end.

Fixpoint put_all (kvs : list (key * list Z)) : vlm unit :=
  match kvs with
  | [] => ret tt
  | (k, x) :: kvs' => let* _ := vlput vllexcompare k x VL_DOVER in put_all kvs'
  end.

(** [vlcurfirst], then [n] times [vlcurkey] and [vlcurnext]. *)
Fixpoint keys_from_cursor (n : nat) : vlm (list key) :=
  match n with
  | O => ret []
  | S n' =>
      let* k := vlcurkey in
      fun v => match vlcurnext v with
               | (v', _) => (let* ks := keys_from_cursor n' in ret (k :: ks)) v'
               end
  end.

Definition abcd : list (key * list Z) := [([97], [1]); ([98], [2]); ([99], [3]); ([100], [4])].

(** What the scenario observes: after the fourth put, the number of
    leaves, the root and the number of its entries; after the fifth, the
    keys a cursor walks through. *)
Definition split_scenario : option (Z * Z * option nat * option (list key)) :=
  match run_on opened_lrecmax3 (put_all abcd) with
  | Some (v4, Some _) =>
      let m := vl_meta v4 in
      let idxs := option_map (fun n => length (node_idxs n)) (cbmapget (vl_nodec v4) (m_root m)) in
      let walk := snd ((let* _ := vlput vllexcompare [101] [5] VL_DOVER in
                        let* _ := vlcurfirst in
                        keys_from_cursor 5) v4) in
      Some (m_lnum m, m_root m, idxs, walk)
  | _ => None
  end.

(** The scenario of the specification: an empty writer database with
    [leaf_record_max = 3] and the keys "a" .. "e" under the lexical
    comparator has two leaves after the fourth put (the split runs when the
    count becomes 4, even and above 3), the root is a node with one entry,
    and after the fifth put a cursor walks a, b, c, d, e. *)
Theorem spec_split_scenario :
  split_scenario = Some (2, VL_NODEIDMIN, Some 1%nat, Some [[97]; [98]; [99]; [100]; [101]]).
Proof. vm_compute. reflexivity. Qed.

(** The duplicate scenario: two [VL_DDUP] puts of one key, then [vlout]. *)
Definition dup_scenario : option (Z * list Z * list (list Z) * list Z) :=
  match run_on opened_lrecmax3
          (let* _ := vlput vllexcompare [107] [1] VL_DDUP in
           let* _ := vlput vllexcompare [107] [2] VL_DDUP in
           let* n := vlvnum vllexcompare [107] in
           let* g := vlget vllexcompare [107] in
           let* gl := vlgetlist vllexcompare [107] in
           let* _ := vlout vllexcompare [107] in
           let* g' := vlget vllexcompare [107] in
           ret (n, g, gl, g')) with
  | Some (_, r) => r
  | None => None
  end.

(** [put(k, v1, VL_DDUP)] then [put(k, v2, VL_DDUP)] gives
    [vnum(k) = 2], [get(k) = v1], [getlist(k) = [v1; v2]], and one
    [out(k)] leaves [get(k) = v2]. *)
Theorem spec_duplicate_scenario : dup_scenario = Some (2, [1], [[1]; [2]], [2]).
Proof. vm_compute. reflexivity. Qed.

(** An aborted transaction on the database holding a .. d: what [vlget]
    and [vlrnum] report before it, and after four puts and the abort. *)
Definition abort_scenario : option ((Z * list (list Z)) * (Z * list (list Z))) :=
  let observe : vlm (Z * list (list Z)) :=
    let* m := gets vl_meta in
    let* a := vlget vllexcompare [97] in
    let* c := vlget vllexcompare [99] in
    let* d := vlget vllexcompare [100] in
    ret (m_rnum m, [a; c; d]) in
  match run_on opened_lrecmax3 (put_all abcd) with
  | Some (v4, Some _) =>
      match observe v4 with
      | (v5, Some before) =>
          match (let* _ := vltranbegin in
                 let* _ := vlput vllexcompare [97] [9] VL_DOVER in
                 let* _ := vlput vllexcompare [98; 97] [8] VL_DOVER in
                 let* _ := vlput vllexcompare [98; 98] [7] VL_DOVER in
                 let* _ := vlput vllexcompare [99; 99] [6] VL_DOVER in
                 let* _ := vltranabort in
                 observe) v5 with
          | (_, Some after) => Some (before, after)
          | _ => None
          end
      | _ => None
      end
  | _ => None
  end.

(** Puts inside [vltranbegin] .. [vltranabort] (one overwriting a value,
    three adding keys, which splits the first leaf) leave the record count and the values
    [vlget] returns as they were before the transaction. *)
Theorem spec_abort_scenario :
  abort_scenario = Some ((4, [[1]; [3]; [4]]), (4, [[1]; [3]; [4]])).
Proof. vm_compute. reflexivity. Qed.
